(** * Frame-resource ring, fence synchronisation and dirty-count propagation

    A shallow embedding of the two Direct3D 12 demo applications of this
    repository:

    - [TexWavesApp]  (Assignment1/Castle_Woonhak_Kong.cpp), and
    - [ShapesApp]    (the "Week4-5-ShapePractice" source file).

    Both keep a ring of [gNumFrameResources] frame resources, stamp every
    submitted frame with a fence value and refresh per-object (and, for
    [TexWavesApp], per-material) constants lazily, one ring slot per frame,
    driven by the [NumFramesDirty] counters.

    The CPU side is embedded as state-passing functions in an error monad;
    the GPU side is a FIFO command queue that the environment drains. *)

From Stdlib Require Import ZArith Lia.
From stdpp Require Import base decidable option list gmap strings fin_maps.

#[local] Open Scope Z_scope.

(** ** Machine integers *)

(** [UINT] arithmetic wraps modulo 2^32, [UINT64] modulo 2^64.  Signed [int]
    values are kept as plain [Z]: every [int] computed by the modelled code
    stays within [0, gNumFrameResources]. *)
Definition UINT (x : Z) : Z := x `mod` 2 ^ 32.
Definition UINT64 (x : Z) : Z := x `mod` 2 ^ 64.

(** ** Fallible computations *)

(** What can go wrong at run time: an index outside a sized region, a wait
    on a fence value that is never signalled, a null pointer. *)
Inductive fault : Set := OutOfRange | DeviceLost | NullPointer.

Inductive result (A : Type) : Type :=
| Ok (a : A)
| Fail (f : fault).
Arguments Ok {A} a.
Arguments Fail {A} f.

#[global] Instance result_ret : MRet result := λ A a, Ok a.
#[global] Instance result_bind : MBind result := λ A B k m,
  match m with Ok a => k a | Fail f => Fail f end.

Definition from_option {A} (f : fault) (o : option A) : result A :=
  match o with Some a => Ok a | None => Fail f end.

(** ** Single-precision numbers

    The applications compute with [float]; the model never inspects such a
    number, so the type and its operations are an interface.  [flit m e] is the
    literal [m * 10^-e] (for example [flit 125 3] for [0.125f]). *)
Class Float32 : Type := {
  float : Type;
  flit : Z → Z → float;
  fadd : float → float → float;
  fsub : float → float → float;
  fmul : float → float → float;
  fge : float → float → bool;
}.

(** A fixed-point stand-in (thousandths) used to run the model on examples:
    [flit m e] is [m * 1000 / 10^e] and a product is rescaled by 1000. *)
Definition MilliFloat : Float32 := {|
  float := Z;
  flit := λ m e, (m * 1000) `div` 10 ^ e;
  fadd := Z.add;
  fsub := Z.sub;
  fmul := λ a b, (a * b) `div` 1000;
  fge := λ a b, bool_decide (b ≤ a);
|}.

Section Matrices.
Context `{Float32}.

Record XMFLOAT3 := { x3 : float; y3 : float; z3 : float }.
Record XMFLOAT4 := { x4 : float; y4 : float; z4 : float; w4 : float }.

(** Row-major 4x4 matrix; [_rc] is row [r], column [c] (1-based), so the
    C++ accessor [M(3, 0)] is [_41]. *)
Record XMFLOAT4X4 := {
  _11 : float; _12 : float; _13 : float; _14 : float;
  _21 : float; _22 : float; _23 : float; _24 : float;
  _31 : float; _32 : float; _33 : float; _34 : float;
  _41 : float; _42 : float; _43 : float; _44 : float;
}.

Definition Identity4x4 : XMFLOAT4X4 :=
  let o := flit 1 0 in let z := flit 0 0 in
  {| _11 := o; _12 := z; _13 := z; _14 := z;
     _21 := z; _22 := o; _23 := z; _24 := z;
     _31 := z; _32 := z; _33 := o; _34 := z;
     _41 := z; _42 := z; _43 := z; _44 := o |}.

Definition XMMatrixTranspose (m : XMFLOAT4X4) : XMFLOAT4X4 :=
  {| _11 := _11 m; _12 := _21 m; _13 := _31 m; _14 := _41 m;
     _21 := _12 m; _22 := _22 m; _23 := _32 m; _24 := _42 m;
     _31 := _13 m; _32 := _23 m; _33 := _33 m; _34 := _43 m;
     _41 := _14 m; _42 := _24 m; _43 := _34 m; _44 := _44 m |}.

(** Assignment through the references [M(3, 0)] and [M(3, 1)]. *)
Definition set_41_42 (tu tv : float) (m : XMFLOAT4X4) : XMFLOAT4X4 :=
  {| _11 := _11 m; _12 := _12 m; _13 := _13 m; _14 := _14 m;
     _21 := _21 m; _22 := _22 m; _23 := _23 m; _24 := _24 m;
     _31 := _31 m; _32 := _32 m; _33 := _33 m; _34 := _34 m;
     _41 := tu; _42 := tv; _43 := _43 m; _44 := _44 m |}.
End Matrices.

(** ** Upload region *)

(** Modelled from the spec: [d3dUtil::CalcConstantBufferByteSize] (d3dUtil.h is
    not among the sources).  Constant-buffer records are rounded up to the
    next multiple of 256 bytes. *)
Definition CalcConstantBufferByteSize (byteSize : Z) : Z :=
  Z.land (UINT (byteSize + 255)) (UINT (Z.lnot 255)).

Module UploadBuffer.
(** Modelled from the spec: the [UploadBuffer<T>] class template
    (UploadBuffer.h is not among the sources).  A persistently mapped linear
    buffer of [capacity] records of [mElementByteSize] bytes each, with the
    GPU-visible base address of its resource.  [mMappedData] holds one cell
    per record ([None]: never written).  [CopyLog] is a ghost history of the
    element indices passed to [CopyData], most recent first. *)
Record t (T : Type) : Type := mk {
  mElementByteSize : Z;
  GPUVirtualAddress : Z;
  mMappedData : list (option T);
  CopyLog : list Z;
}.
Arguments mk {T}.
Arguments mElementByteSize {T}.
Arguments GPUVirtualAddress {T}.
Arguments mMappedData {T}.
Arguments CopyLog {T}.

Definition capacity {T} (b : t T) : Z := Z.of_nat (length (mMappedData b)).

(** Constructor: [elementCount] unwritten records; the record size is
    rounded up when the buffer holds constants. *)
Definition create {T} (va : Z) (sizeofT : Z) (elementCount : Z)
    (isConstantBuffer : bool) : t T :=
  {| mElementByteSize :=
       if isConstantBuffer then CalcConstantBufferByteSize sizeofT else sizeofT;
     GPUVirtualAddress := va;
     mMappedData := replicate (Z.to_nat elementCount) None;
     CopyLog := [] |}.

(** Byte offset of record [elementIndex] inside the mapped region. *)
Definition offset {T} (b : t T) (elementIndex : Z) : Z :=
  elementIndex * mElementByteSize b.

(** Address the write path stores record [elementIndex] at.  The mapped
    pointer and the GPU virtual address denote the same resource memory. *)
Definition write_address {T} (b : t T) (elementIndex : Z) : Z :=
  GPUVirtualAddress b + offset b elementIndex.

(** [write(index, record)]: copies the record to [index * alignedRecordSize];
    fails if [index >= capacity] (a negative index is outside the region as
    well). *)
Definition CopyData {T} (elementIndex : Z) (data : T) (b : t T) : result (t T) :=
  if decide (0 ≤ elementIndex < capacity b) then
    Ok {| mElementByteSize := mElementByteSize b;
          GPUVirtualAddress := GPUVirtualAddress b;
          mMappedData := <[Z.to_nat elementIndex := Some data]> (mMappedData b);
          CopyLog := elementIndex :: CopyLog b |}
  else Fail OutOfRange.

(** Record stored at [elementIndex], if any. *)
Definition read {T} (b : t T) (elementIndex : Z) : option T :=
  if decide (0 ≤ elementIndex) then mjoin (mMappedData b !! Z.to_nat elementIndex)
  else None.

(** Number of [CopyData] calls made so far for [elementIndex]. *)
Definition uploads {T} (b : t T) (elementIndex : Z) : nat :=
  length (filter (λ i, i = elementIndex) (CopyLog b)).
End UploadBuffer.


(** ** Command queue and timeline fence *)

(** Modelled from the spec: the GPU device/queue collaborator (the [D3DApp]
    base class and the D3D12 queue are not among the sources).  The queue is a
    FIFO of submitted commands; [ExecuteCommandLists slot cmds] is the command
    list recorded with ring slot [slot]'s allocator and reading that slot's
    upload regions, [Signal v] sets the fence's completed value to [v] once
    everything before it has executed. *)
Inductive GpuCmd (C : Type) : Type :=
| ExecuteCommandLists (slot : Z) (cmds : list C)
| Signal (value : Z).
Arguments ExecuteCommandLists {C} slot cmds.
Arguments Signal {C} value.

Module Timeline.
(** [mCurrentFence] is the CPU's [UINT64] counter, [CompletedValue] what
    [mFence->GetCompletedValue()] returns, [mCommandQueue] the commands the
    GPU has not executed yet. *)
Record t (C : Type) : Type := mk {
  mCurrentFence : Z;
  CompletedValue : Z;
  mCommandQueue : list (GpuCmd C);
}.
Arguments mk {C}.
Arguments mCurrentFence {C}.
Arguments CompletedValue {C}.
Arguments mCommandQueue {C}.
End Timeline.
Import Timeline(mCurrentFence, CompletedValue, mCommandQueue).

Section Sync.
Context {C : Type}.
Implicit Types (t : Timeline.t C) (q : list (GpuCmd C)).

(** Fence values still to be signalled, and slots whose commands are still
    queued, in queue order. *)
Definition signals q : list Z :=
  omap (λ c, match c with Signal v => Some v | _ => None end) q.
Definition in_flight q : list Z :=
  omap (λ c, match c with ExecuteCommandLists s _ => Some s | _ => None end) q.

(** The GPU executes the command at the head of the queue. *)
Definition gpu_step t : Timeline.t C :=
  match mCommandQueue t with
  | [] => t
  | ExecuteCommandLists _ _ :: q => Timeline.mk (mCurrentFence t) (CompletedValue t) q
  | Signal v :: q => Timeline.mk (mCurrentFence t) v q
  end.

(** Asynchronous GPU progress: [n] commands (fewer if the queue runs dry). *)
Fixpoint gpu_run (n : nat) t : Timeline.t C :=
  match n with O => t | S n' => gpu_run n' (gpu_step t) end.

(** [SetEventOnCompletion(value, h); WaitForSingleObject(h, INFINITE)]: the
    calling thread sleeps while the GPU works through the queue, and wakes up
    as soon as the completed value has reached [value].  If the queue runs dry
    first the event never fires. *)
Fixpoint wait_completion (value : Z) (completed : Z) q : result (Z * list (GpuCmd C)) :=
  if decide (value ≤ completed) then Ok (completed, q)
  else match q with
       | [] => Fail DeviceLost
       | ExecuteCommandLists _ _ :: q' => wait_completion value completed q'
       | Signal v :: q' => wait_completion value v q'
       end.

(** The guard of [Update]:
    [if (Fence != 0 && mFence->GetCompletedValue() < Fence) { wait }]. *)
Definition WaitForFrameResource (Fence : Z) t : result (Timeline.t C) :=
  if decide (Fence ≠ 0 ∧ CompletedValue t < Fence) then
    '(completed, q) ← wait_completion Fence (CompletedValue t) (mCommandQueue t);
    Ok (Timeline.mk (mCurrentFence t) completed q)
  else Ok t.

(** The tail of [Draw]: [ExecuteCommandLists], then [++mCurrentFence] and
    [Signal(mFence, mCurrentFence)].  Returns the new fence value with the
    timeline. *)
Definition Submit (slot : Z) (cmds : list C) t : Z * Timeline.t C :=
  let fence := UINT64 (mCurrentFence t + 1) in
  (fence, Timeline.mk fence (CompletedValue t)
            (mCommandQueue t ++ [ExecuteCommandLists slot cmds; Signal fence])).
End Sync.

(** [(mCurrFrameResourceIndex + 1) % gNumFrameResources]; [%] truncates. *)
Definition NextFrameResourceIndex (N : Z) (mCurrFrameResourceIndex : Z) : Z :=
  (mCurrFrameResourceIndex + 1) `rem` N.

(** [v[i]] for a signed index. *)
Definition at_index {A} (l : list A) (i : Z) : option A :=
  if decide (0 ≤ i) then l !! Z.to_nat i else None.

(** ** Dirty-count propagation *)

Section DirtyPass.
Context {Item Rec : Type}.
Context (NumFramesDirty : Item → Z) (decrement : Item → Item).
Context (CBIndex : Item → Z) (constants : Item → Rec).

(** The loop shared by [UpdateObjectCBs] and [UpdateMaterialCBs]:
<<
    for (auto& e : table)
      if (e->NumFramesDirty > 0) {
        currCB->CopyData(e->CBIndex, constants(e));
        e->NumFramesDirty--;
      }
>>
    The table is visited in container order; a failing [CopyData] aborts. *)
Fixpoint update_dirty (currCB : UploadBuffer.t Rec) (table : list Item)
    : result (UploadBuffer.t Rec * list Item) :=
  match table with
  | [] => Ok (currCB, [])
  | e :: rest =>
    if decide (0 < NumFramesDirty e) then
      cb ← UploadBuffer.CopyData (CBIndex e) (constants e) currCB;
      '(cb', rest') ← update_dirty cb rest;
      Ok (cb', decrement e :: rest')
    else
      '(cb', rest') ← update_dirty currCB rest;
      Ok (cb', e :: rest')
  end.

(** What one visit does to a single entry's counter. *)
Definition visit (e : Item) : Item :=
  if decide (0 < NumFramesDirty e) then decrement e else e.
End DirtyPass.

(** Modelled from the spec: [GameTimer] (GameTimer.h is not among the
    sources); only [DeltaTime()] is read by the modelled passes. *)
Record GameTimer `{Float32} := { DeltaTime : float; TotalTime : float }.

(** One turn of the message loop: how far the GPU gets on its own before
    [Update] and before [Draw], and the timer passed to both. *)
Record FrameInput `{Float32} := {
  gt : GameTimer;
  gpu_before_update : nat;
  gpu_before_draw : nat;
}.

(** Sizes of the constant records ([sizeof(ObjectConstants)] and so on;
    FrameResource.h is not among the sources). *)
Class RecordSizes : Type := {
  sizeof_ObjectConstants : Z;
  sizeof_MaterialConstants : Z;
  sizeof_PassConstants : Z;
}.

(** What the device hands out at start-up: the GPU virtual address of each
    ring slot's upload resources, the start of the shader-visible descriptor
    heap and the descriptor increment. *)
Record Device : Type := {
  ObjectCB_address : Z → Z;
  MaterialCB_address : Z → Z;
  PassCB_address : Z → Z;
  DescriptorHeapStart : Z;
  DescriptorHandleIncrementSize : Z;
}.

(** * TexWavesApp (Assignment1/Castle_Woonhak_Kong.cpp) *)

Module TexWaves.

Module Material.
Section Def.
Context `{Float32}.
(** Modelled from the spec: [struct Material] (d3dUtil.h is not among the
    sources), with the member names the application uses.  Its dirty count
    starts at the ring size. *)
Record t : Type := mk {
  Name : string;
  MatCBIndex : Z;
  DiffuseSrvHeapIndex : Z;
  NumFramesDirty : Z;
  DiffuseAlbedo : XMFLOAT4;
  FresnelR0 : XMFLOAT3;
  Roughness : float;
  MatTransform : XMFLOAT4X4;
}.

Definition set_NumFramesDirty (n : Z) (m : t) : t :=
  mk (Name m) (MatCBIndex m) (DiffuseSrvHeapIndex m) n
     (DiffuseAlbedo m) (FresnelR0 m) (Roughness m) (MatTransform m).

Definition set_MatTransform (x : XMFLOAT4X4) (m : t) : t :=
  mk (Name m) (MatCBIndex m) (DiffuseSrvHeapIndex m) (NumFramesDirty m)
     (DiffuseAlbedo m) (FresnelR0 m) (Roughness m) x.

(** [mat->NumFramesDirty--] *)
Definition decrement (m : t) : t := set_NumFramesDirty (NumFramesDirty m - 1) m.
End Def.
End Material.

Module MaterialConstants.
Section Def.
Context `{Float32}.
Record t : Type := mk {
  DiffuseAlbedo : XMFLOAT4;
  FresnelR0 : XMFLOAT3;
  Roughness : float;
  MatTransform : XMFLOAT4X4;
}.
End Def.
End MaterialConstants.

Module ObjectConstants.
Section Def.
Context `{Float32}.
Record t : Type := mk {
  World : XMFLOAT4X4;
  TexTransform : XMFLOAT4X4;
}.
End Def.
End ObjectConstants.

Module RenderItem.
Section Def.
Context `{Float32}.
(** [Mat] is the key of the pointed-to material in [mMaterials]; the mesh is
    kept as the name of its geometry and of the submesh whose
    [IndexCount], [StartIndexLocation] and [BaseVertexLocation] the item
    copies. *)
Record t : Type := mk {
  World : XMFLOAT4X4;
  TexTransform : XMFLOAT4X4;
  NumFramesDirty : Z;
  ObjCBIndex : Z;
  Mat : string;
  Geo : string;
  DrawArgs : string;
}.

Definition set_NumFramesDirty (n : Z) (e : t) : t :=
  mk (World e) (TexTransform e) n (ObjCBIndex e) (Mat e) (Geo e) (DrawArgs e).

Definition set_World (w : XMFLOAT4X4) (e : t) : t :=
  mk w (TexTransform e) (NumFramesDirty e) (ObjCBIndex e) (Mat e) (Geo e) (DrawArgs e).

(** [e->NumFramesDirty--] *)
Definition decrement (e : t) : t := set_NumFramesDirty (NumFramesDirty e - 1) e.
End Def.
End RenderItem.

Module FrameResource.
Section Def.
Context `{Float32}.
(** Modelled from the spec: [struct FrameResource] (FrameResource.h is not
    among the sources): one upload region per kind of constants and the fence
    checkpoint, 0 until first use. *)
Record t : Type := mk {
  ObjectCB : UploadBuffer.t ObjectConstants.t;
  MaterialCB : UploadBuffer.t MaterialConstants.t;
  Fence : Z;
}.

Definition set_ObjectCB cb (fr : t) : t := mk cb (MaterialCB fr) (Fence fr).
Definition set_MaterialCB cb (fr : t) : t := mk (ObjectCB fr) cb (Fence fr).
Definition set_Fence f (fr : t) : t := mk (ObjectCB fr) (MaterialCB fr) f.

(** Modelled from the spec: the constructor
    [FrameResource(device, passCount, objectCount, materialCount, waveVertCount)]:
    the per-object region holds [objectCount] records and the per-material
    region [materialCount]. *)
Definition create `{RecordSizes} (device : Device) (i : Z)
    (objectCount materialCount : Z) : t :=
  {| ObjectCB := UploadBuffer.create (ObjectCB_address device i)
                   sizeof_ObjectConstants objectCount true;
     MaterialCB := UploadBuffer.create (MaterialCB_address device i)
                     sizeof_MaterialConstants materialCount true;
     Fence := 0 |}.
End Def.
End FrameResource.

(** One recorded draw: the texture descriptor handle and the two constant
    buffer addresses bound for it. *)
Record DrawCall : Type := {
  tex : Z;
  objCBAddress : Z;
  matCBAddress : Z;
  mesh : string * string;
}.

Section App.
Context `{Float32} `{RecordSizes}.
(** The ring size, [gNumFrameResources] ([3] in the source). *)
Context (N : Z).

(** The application state that the frame loop touches.  [mRitemLayer] holds
    the opaque layer's [RenderItem*] as positions in [mAllRitems];
    [mCurrFrameResource] always points at
    [mFrameResources[mCurrFrameResourceIndex]] once [Update] has run, so it is
    derived from the index. *)
Record App : Type := mkApp {
  mFrameResources : list FrameResource.t;
  mCurrFrameResourceIndex : Z;
  mMaterials : gmap string Material.t;
  mAllRitems : list RenderItem.t;
  mRitemLayer : list nat;
  mSrvHeapStart : Z;
  mCbvSrvDescriptorSize : Z;
  timeline : Timeline.t DrawCall;
}.

Definition set_mFrameResources x (a : App) : App :=
  mkApp x (mCurrFrameResourceIndex a) (mMaterials a) (mAllRitems a) (mRitemLayer a)
        (mSrvHeapStart a) (mCbvSrvDescriptorSize a) (timeline a).
Definition set_mCurrFrameResourceIndex x (a : App) : App :=
  mkApp (mFrameResources a) x (mMaterials a) (mAllRitems a) (mRitemLayer a)
        (mSrvHeapStart a) (mCbvSrvDescriptorSize a) (timeline a).
Definition set_mMaterials x (a : App) : App :=
  mkApp (mFrameResources a) (mCurrFrameResourceIndex a) x (mAllRitems a) (mRitemLayer a)
        (mSrvHeapStart a) (mCbvSrvDescriptorSize a) (timeline a).
Definition set_mAllRitems x (a : App) : App :=
  mkApp (mFrameResources a) (mCurrFrameResourceIndex a) (mMaterials a) x (mRitemLayer a)
        (mSrvHeapStart a) (mCbvSrvDescriptorSize a) (timeline a).
Definition set_timeline x (a : App) : App :=
  mkApp (mFrameResources a) (mCurrFrameResourceIndex a) (mMaterials a) (mAllRitems a)
        (mRitemLayer a) (mSrvHeapStart a) (mCbvSrvDescriptorSize a) x.

Definition mCurrFrameResource (a : App) : result FrameResource.t :=
  from_option OutOfRange (at_index (mFrameResources a) (mCurrFrameResourceIndex a)).

(** Store through [mCurrFrameResource]. *)
Definition set_mCurrFrameResource (fr : FrameResource.t) (a : App) : App :=
  set_mFrameResources
    (<[Z.to_nat (mCurrFrameResourceIndex a) := fr]> (mFrameResources a)) a.

(** [AnimateMaterials]: scroll the water texture and mark the material dirty. *)
Definition AnimateMaterials (gt : GameTimer) (a : App) : result App :=
  waterMat ← from_option NullPointer (mMaterials a !! "water"%string);
  let tu := fadd (_41 (Material.MatTransform waterMat)) (fmul (flit 1 1) (DeltaTime gt)) in
  let tv := fadd (_42 (Material.MatTransform waterMat)) (fmul (flit 2 2) (DeltaTime gt)) in
  let tu := if fge tu (flit 1 0) then fsub tu (flit 1 0) else tu in
  let tv := if fge tv (flit 1 0) then fsub tv (flit 1 0) else tv in
  let waterMat := Material.set_MatTransform
                    (set_41_42 tu tv (Material.MatTransform waterMat)) waterMat in
  let waterMat := Material.set_NumFramesDirty N waterMat in
  Ok (set_mMaterials (<["water"%string := waterMat]> (mMaterials a)) a).

Definition objConstants (e : RenderItem.t) : ObjectConstants.t :=
  {| ObjectConstants.World := XMMatrixTranspose (RenderItem.World e);
     ObjectConstants.TexTransform := XMMatrixTranspose (RenderItem.TexTransform e) |}.

Definition UpdateObjectCBs (gt : GameTimer) (a : App) : result App :=
  fr ← mCurrFrameResource a;
  '(currObjectCB, ritems) ←
    update_dirty RenderItem.NumFramesDirty RenderItem.decrement
      RenderItem.ObjCBIndex objConstants (FrameResource.ObjectCB fr) (mAllRitems a);
  Ok (set_mAllRitems ritems
        (set_mCurrFrameResource (FrameResource.set_ObjectCB currObjectCB fr) a)).

Definition matConstants (mat : Material.t) : MaterialConstants.t :=
  {| MaterialConstants.DiffuseAlbedo := Material.DiffuseAlbedo mat;
     MaterialConstants.FresnelR0 := Material.FresnelR0 mat;
     MaterialConstants.Roughness := Material.Roughness mat;
     MaterialConstants.MatTransform := XMMatrixTranspose (Material.MatTransform mat) |}.

(** The loop runs over the entries [e] of the [mMaterials] table, with
    [mat = e.second]. *)
Definition UpdateMaterialCBs (gt : GameTimer) (a : App) : result App :=
  fr ← mCurrFrameResource a;
  '(currMaterialCB, entries) ←
    update_dirty (Material.NumFramesDirty ∘ snd) (prod_map id Material.decrement)
      (Material.MatCBIndex ∘ snd) (matConstants ∘ snd)
      (FrameResource.MaterialCB fr) (map_to_list (mMaterials a));
  Ok (set_mMaterials (list_to_map entries)
        (set_mCurrFrameResource (FrameResource.set_MaterialCB currMaterialCB fr) a)).

(** [Update], without the camera, per-pass and wave-vertex passes: those
    write [mView], the slot's pass constants and its wave vertices, none of
    which is part of [App]. *)
Definition Update (gt : GameTimer) (a : App) : result App :=
  let a := set_mCurrFrameResourceIndex
             (NextFrameResourceIndex N (mCurrFrameResourceIndex a)) a in
  fr ← mCurrFrameResource a;
  tl ← WaitForFrameResource (FrameResource.Fence fr) (timeline a);
  let a := set_timeline tl a in
  a ← AnimateMaterials gt a;
  a ← UpdateObjectCBs gt a;
  UpdateMaterialCBs gt a.

(** The bind path: what [DrawRenderItems] binds for one render item. *)
Definition DrawRenderItem (fr : FrameResource.t) (a : App) (ri : RenderItem.t)
    : result DrawCall :=
  let objCBByteSize := CalcConstantBufferByteSize sizeof_ObjectConstants in
  let matCBByteSize := CalcConstantBufferByteSize sizeof_MaterialConstants in
  let objectCB := FrameResource.ObjectCB fr in
  let matCB := FrameResource.MaterialCB fr in
  mat ← from_option NullPointer (mMaterials a !! RenderItem.Mat ri);
  Ok {| tex := UINT64 (mSrvHeapStart a
                       + Material.DiffuseSrvHeapIndex mat * mCbvSrvDescriptorSize a);
        objCBAddress := UINT64 (UploadBuffer.GPUVirtualAddress objectCB
                                + UINT (RenderItem.ObjCBIndex ri * objCBByteSize));
        matCBAddress := UINT64 (UploadBuffer.GPUVirtualAddress matCB
                                + UINT (Material.MatCBIndex mat * matCBByteSize));
        mesh := (RenderItem.Geo ri, RenderItem.DrawArgs ri) |}.

Definition DrawRenderItems (a : App) (ritems : list nat) : result (list DrawCall) :=
  fr ← mCurrFrameResource a;
  mapM (λ p, ri ← from_option NullPointer (mAllRitems a !! p);
             DrawRenderItem fr a ri) ritems.

(** [Draw]: record the draws against the current frame resource, submit,
    then [mCurrFrameResource->Fence = ++mCurrentFence] and signal. *)
Definition Draw (gt : GameTimer) (a : App) : result App :=
  fr ← mCurrFrameResource a;
  cmds ← DrawRenderItems a (mRitemLayer a);
  let '(fence, tl) := Submit (mCurrFrameResourceIndex a) cmds (timeline a) in
  Ok (set_timeline tl (set_mCurrFrameResource (FrameResource.set_Fence fence fr) a)).

(** Asynchronous GPU progress, seen from the application state. *)
Definition gpu (n : nat) (a : App) : App := set_timeline (gpu_run n (timeline a)) a.

(** One turn of the message loop of [D3DApp::Run]: [Update], then [Draw]. *)
Definition Frame (i : FrameInput) (a : App) : result App :=
  a ← Update (gt i) (gpu (gpu_before_update i) a);
  Draw (gt i) (gpu (gpu_before_draw i) a).

Fixpoint Run (inputs : list FrameInput) (a : App) : result App :=
  match inputs with
  | [] => Ok a
  | i :: rest => a' ← Frame i a; Run rest a'
  end.

(** *** Start-up *)

Definition XMMatrixScaling (sx sy sz : float) : XMFLOAT4X4 :=
  let o := flit 1 0 in let z := flit 0 0 in
  {| _11 := sx; _12 := z; _13 := z; _14 := z;
     _21 := z; _22 := sy; _23 := z; _24 := z;
     _31 := z; _32 := z; _33 := sz; _34 := z;
     _41 := z; _42 := z; _43 := z; _44 := o |}.

Definition material (name : string) (index : Z) (r0 roughness : float) : Material.t :=
  {| Material.Name := name;
     Material.MatCBIndex := index;
     Material.DiffuseSrvHeapIndex := index;
     Material.NumFramesDirty := N;
     Material.DiffuseAlbedo := {| x4 := flit 1 0; y4 := flit 1 0; z4 := flit 1 0; w4 := flit 1 0 |};
     Material.FresnelR0 := {| x3 := r0; y3 := r0; z3 := r0 |};
     Material.Roughness := roughness;
     Material.MatTransform := Identity4x4 |}.

Definition BuildMaterials : gmap string Material.t :=
  let grass := material "grass" 0 (flit 1 2) (flit 125 3) in
  let water := material "water" 1 (flit 2 1) (flit 0 0) in
  let wirefence := material "wirefence" 2 (flit 1 1) (flit 25 2) in
  let stone := material "stone" 3 (flit 1 1) (flit 25 2) in
  <["stone"%string := stone]> (<["wirefence"%string := wirefence]>
    (<["water"%string := water]> (<["grass"%string := grass]> ∅))).

(** What [BuildRenderItems] writes down for one item, apart from its
    constant-buffer index: the world and texture transforms, the material
    name, the geometry and the submesh. *)
Record Authored : Type := {
  aWorld : XMFLOAT4X4;
  aTexTransform : XMFLOAT4X4;
  aMat : string;
  aGeo : string;
  aDrawArgs : string;
}.

(** [BuildRenderItems]: each item takes [ObjCBIndex = cbindex++] and is pushed
    onto [mAllRitems]; it starts with [NumFramesDirty = gNumFrameResources]. *)
Fixpoint BuildRenderItemsFrom (cbindex : Z) (scene : list Authored) : list RenderItem.t :=
  match scene with
  | [] => []
  | s :: rest =>
    {| RenderItem.World := aWorld s;
       RenderItem.TexTransform := aTexTransform s;
       RenderItem.NumFramesDirty := N;
       RenderItem.ObjCBIndex := UINT cbindex;
       RenderItem.Mat := aMat s;
       RenderItem.Geo := aGeo s;
       RenderItem.DrawArgs := aDrawArgs s |} :: BuildRenderItemsFrom (cbindex + 1) rest
  end.

Definition BuildRenderItems (scene : list Authored) : list RenderItem.t :=
  BuildRenderItemsFrom 0 scene.

(** The twenty items of the castle scene, in [cbindex] order.  The world
    matrices are products of scalings, rotations and translations; they are
    taken as given, [world i] for the item with index [i]. *)
Definition castle (world : Z → XMFLOAT4X4) : list Authored :=
  let item i texT mat geo args :=
    {| aWorld := world i; aTexTransform := texT; aMat := mat; aGeo := geo;
       aDrawArgs := args |} in
  let wall := XMMatrixScaling (flit 4 0) (flit 16 1) (flit 1 0) in
  let front := XMMatrixScaling (flit 133 2) (flit 111 2) (flit 1 0) in
  [ item 0 (XMMatrixScaling (flit 5 0) (flit 5 0) (flit 1 0)) "water" "waterGeo" "grid";
    item 1 Identity4x4 "wirefence" "shapeGeo" "ground";
    item 2 wall "stone" "shapeGeo" "wholeWall";
    item 3 wall "stone" "shapeGeo" "wholeWall";
    item 4 wall "stone" "shapeGeo" "wholeWall";
    item 5 front "stone" "shapeGeo" "wholeWall";
    item 6 front "stone" "shapeGeo" "wholeWall";
    item 7 (XMMatrixScaling (flit 4 0) (flit 66 2) (flit 1 0)) "stone" "shapeGeo" "wholeWall";
    item 8 Identity4x4 "wirefence" "shapeGeo" "column";
    item 9 Identity4x4 "wirefence" "shapeGeo" "column";
    item 10 Identity4x4 "wirefence" "shapeGeo" "column";
    item 11 Identity4x4 "wirefence" "shapeGeo" "column";
    item 12 Identity4x4 "wirefence" "shapeGeo" "columnTop";
    item 13 Identity4x4 "wirefence" "shapeGeo" "columnTop";
    item 14 Identity4x4 "wirefence" "shapeGeo" "columnTop";
    item 15 Identity4x4 "wirefence" "shapeGeo" "columnTop";
    item 16 Identity4x4 "wirefence" "shapeGeo" "Base1";
    item 17 Identity4x4 "wirefence" "shapeGeo" "Base2";
    item 18 Identity4x4 "wirefence" "shapeGeo" "Base3";
    item 19 Identity4x4 "wirefence" "shapeGeo" "top" ]%string.

(** [BuildFrameResources]: [gNumFrameResources] frame resources, each sized by
    [(UINT)mAllRitems.size()] and [(UINT)mMaterials.size()]. *)
Definition BuildFrameResources (device : Device)
    (ritems : list RenderItem.t) (materials : gmap string Material.t)
    : list FrameResource.t :=
  (λ i, FrameResource.create device i
          (UINT (Z.of_nat (length ritems))) (UINT (Z.of_nat (size materials))))
    <$> seqZ 0 N.

(** [Initialize].  [fence0] is the value of [mCurrentFence] once the closing
    [FlushCommandQueue] has returned: the queue is empty and the fence has
    reached that value. *)
Definition Initialize (device : Device) (scene : list Authored) (fence0 : Z) : App :=
  let materials := BuildMaterials in
  let ritems := BuildRenderItems scene in
  {| mFrameResources := BuildFrameResources device ritems materials;
     mCurrFrameResourceIndex := 0;
     mMaterials := materials;
     mAllRitems := ritems;
     mRitemLayer := seq 0 (length ritems);
     mSrvHeapStart := DescriptorHeapStart device;
     mCbvSrvDescriptorSize := DescriptorHandleIncrementSize device;
     timeline := Timeline.mk fence0 fence0 [] |}.
End App.
End TexWaves.

(** [const int gNumFrameResources = 3;] *)
Definition gNumFrameResources : Z := 3.

(** * ShapesApp (Week4-5-ShapePractice) *)

Module Shapes.

Module ObjectConstants.
Section Def.
Context `{Float32}.
Record t : Type := mk { World : XMFLOAT4X4 }.
End Def.
End ObjectConstants.

Module PassConstants.
Section Def.
Context `{Float32}.
(** The members [UpdateMainPassCB] assigns. *)
Record t : Type := mk {
  View : XMFLOAT4X4;
  InvView : XMFLOAT4X4;
  Proj : XMFLOAT4X4;
  InvProj : XMFLOAT4X4;
  ViewProj : XMFLOAT4X4;
  InvViewProj : XMFLOAT4X4;
  EyePosW : XMFLOAT3;
  RenderTargetSize : float * float;
  InvRenderTargetSize : float * float;
  NearZ : float;
  FarZ : float;
  TotalTime : float;
  DeltaTime : float;
}.
End Def.
End PassConstants.

Module RenderItem.
Section Def.
Context `{Float32}.
Record t : Type := mk {
  World : XMFLOAT4X4;
  NumFramesDirty : Z;
  ObjCBIndex : Z;
  Geo : string;
  DrawArgs : string;
}.

Definition set_NumFramesDirty (n : Z) (e : t) : t :=
  mk (World e) n (ObjCBIndex e) (Geo e) (DrawArgs e).

(** [e->NumFramesDirty--] *)
Definition decrement (e : t) : t := set_NumFramesDirty (NumFramesDirty e - 1) e.
End Def.
End RenderItem.

Module FrameResource.
Section Def.
Context `{Float32}.
(** Modelled from the spec: [struct FrameResource] (FrameResource.h is not
    among the sources): the per-pass and per-object upload regions and the
    fence checkpoint, 0 until first use. *)
Record t : Type := mk {
  PassCB : UploadBuffer.t PassConstants.t;
  ObjectCB : UploadBuffer.t ObjectConstants.t;
  Fence : Z;
}.

Definition set_ObjectCB cb (fr : t) : t := mk (PassCB fr) cb (Fence fr).
Definition set_Fence f (fr : t) : t := mk (PassCB fr) (ObjectCB fr) f.

(** Modelled from the spec: the constructor
    [FrameResource(device, passCount, objectCount)]. *)
Definition create `{RecordSizes} (device : Device) (i : Z)
    (passCount objectCount : Z) : t :=
  {| PassCB := UploadBuffer.create (PassCB_address device i)
                 sizeof_PassConstants passCount true;
     ObjectCB := UploadBuffer.create (ObjectCB_address device i)
                   sizeof_ObjectConstants objectCount true;
     Fence := 0 |}.
End Def.
End FrameResource.

(** A constant buffer view, [D3D12_CONSTANT_BUFFER_VIEW_DESC]. *)
Record CBV : Type := {
  BufferLocation : Z;
  SizeInBytes : Z;
}.

(** One recorded draw: the index of the descriptor bound as root table 0. *)
Record DrawCall : Type := {
  cbvIndex : Z;
  mesh : string * string;
}.

Section App.
Context `{Float32} `{RecordSizes}.
Context (N : Z).

(** [mCbvHeap] is the descriptor heap, one cell per descriptor ([None]: no
    view created there); a handle offset by [k] descriptors from the heap
    start designates cell [k].  [mOpaqueRitems] holds [RenderItem*] as positions
    in [mAllRitems]. *)
Record App : Type := mkApp {
  mFrameResources : list FrameResource.t;
  mCurrFrameResourceIndex : Z;
  mCbvHeap : list (option CBV);
  mAllRitems : list RenderItem.t;
  mOpaqueRitems : list nat;
  mPassCbvOffset : Z;
  timeline : Timeline.t DrawCall;
}.

Definition set_mFrameResources x (a : App) : App :=
  mkApp x (mCurrFrameResourceIndex a) (mCbvHeap a) (mAllRitems a) (mOpaqueRitems a)
        (mPassCbvOffset a) (timeline a).
Definition set_mCurrFrameResourceIndex x (a : App) : App :=
  mkApp (mFrameResources a) x (mCbvHeap a) (mAllRitems a) (mOpaqueRitems a)
        (mPassCbvOffset a) (timeline a).
Definition set_mAllRitems x (a : App) : App :=
  mkApp (mFrameResources a) (mCurrFrameResourceIndex a) (mCbvHeap a) x (mOpaqueRitems a)
        (mPassCbvOffset a) (timeline a).
Definition set_timeline x (a : App) : App :=
  mkApp (mFrameResources a) (mCurrFrameResourceIndex a) (mCbvHeap a) (mAllRitems a)
        (mOpaqueRitems a) (mPassCbvOffset a) x.

Definition mCurrFrameResource (a : App) : result FrameResource.t :=
  from_option OutOfRange (at_index (mFrameResources a) (mCurrFrameResourceIndex a)).

Definition set_mCurrFrameResource (fr : FrameResource.t) (a : App) : App :=
  set_mFrameResources
    (<[Z.to_nat (mCurrFrameResourceIndex a) := fr]> (mFrameResources a)) a.

Definition objConstants (e : RenderItem.t) : ObjectConstants.t :=
  {| ObjectConstants.World := XMMatrixTranspose (RenderItem.World e) |}.

Definition UpdateObjectCBs (gt : GameTimer) (a : App) : result App :=
  fr ← mCurrFrameResource a;
  '(currObjectCB, ritems) ←
    update_dirty RenderItem.NumFramesDirty RenderItem.decrement
      RenderItem.ObjCBIndex objConstants (FrameResource.ObjectCB fr) (mAllRitems a);
  Ok (set_mAllRitems ritems
        (set_mCurrFrameResource (FrameResource.set_ObjectCB currObjectCB fr) a)).

(** [Update], without the camera and per-pass passes. *)
Definition Update (gt : GameTimer) (a : App) : result App :=
  let a := set_mCurrFrameResourceIndex
             (NextFrameResourceIndex N (mCurrFrameResourceIndex a)) a in
  fr ← mCurrFrameResource a;
  tl ← WaitForFrameResource (FrameResource.Fence fr) (timeline a);
  let a := set_timeline tl a in
  UpdateObjectCBs gt a.

(** The bind path: the descriptor [DrawRenderItems] binds for one item. *)
Definition DrawRenderItem (a : App) (ri : RenderItem.t) : DrawCall :=
  {| cbvIndex := UINT (UINT (mCurrFrameResourceIndex a
                             * UINT (Z.of_nat (length (mOpaqueRitems a))))
                       + RenderItem.ObjCBIndex ri);
     mesh := (RenderItem.Geo ri, RenderItem.DrawArgs ri) |}.

Definition DrawRenderItems (a : App) (ritems : list nat) : result (list DrawCall) :=
  fr ← mCurrFrameResource a;
  mapM (λ p, ri ← from_option NullPointer (mAllRitems a !! p);
             Ok (DrawRenderItem a ri)) ritems.

(** The constant buffer address the GPU reads through a bound descriptor. *)
Definition bound_address (a : App) (call : DrawCall) : option Z :=
  BufferLocation <$> mjoin (at_index (mCbvHeap a) (cbvIndex call)).

Definition Draw (gt : GameTimer) (a : App) : result App :=
  fr ← mCurrFrameResource a;
  cmds ← DrawRenderItems a (mOpaqueRitems a);
  let '(fence, tl) := Submit (mCurrFrameResourceIndex a) cmds (timeline a) in
  Ok (set_timeline tl (set_mCurrFrameResource (FrameResource.set_Fence fence fr) a)).

Definition gpu (n : nat) (a : App) : App := set_timeline (gpu_run n (timeline a)) a.

Definition Frame (i : FrameInput) (a : App) : result App :=
  a ← Update (gt i) (gpu (gpu_before_update i) a);
  Draw (gt i) (gpu (gpu_before_draw i) a).

Fixpoint Run (inputs : list FrameInput) (a : App) : result App :=
  match inputs with
  | [] => Ok a
  | i :: rest => a' ← Frame i a; Run rest a'
  end.

(** *** Start-up *)

(** [BuildRenderItems]: [ObjCBIndex = cbindex++] for each authored world
    matrix and submesh, all in geometry ["shapeGeo"]. *)
Fixpoint BuildRenderItemsFrom (cbindex : Z) (scene : list (XMFLOAT4X4 * string))
    : list RenderItem.t :=
  match scene with
  | [] => []
  | (world, args) :: rest =>
    {| RenderItem.World := world;
       RenderItem.NumFramesDirty := N;
       RenderItem.ObjCBIndex := UINT cbindex;
       RenderItem.Geo := "shapeGeo";
       RenderItem.DrawArgs := args |} :: BuildRenderItemsFrom (cbindex + 1) rest
  end.

Definition BuildRenderItems (scene : list (XMFLOAT4X4 * string)) : list RenderItem.t :=
  BuildRenderItemsFrom 0 scene.

(** The nineteen items of the scene, in [cbindex] order, [world i] being the
    world matrix of the item with index [i]. *)
Definition castle (world : Z → XMFLOAT4X4) : list (XMFLOAT4X4 * string) :=
  imap (λ i args, (world (Z.of_nat i), args))
    [ "ground"; "wholeWall"; "wholeWall"; "wholeWall"; "wholeWall"; "wholeWall";
      "wholeWall"; "column"; "column"; "column"; "column"; "columnTop";
      "columnTop"; "columnTop"; "columnTop"; "Base1"; "Base2"; "Base3"; "top" ]%string.

Definition BuildFrameResources (device : Device) (ritems : list RenderItem.t)
    : list FrameResource.t :=
  (λ i, FrameResource.create device i 1 (UINT (Z.of_nat (length ritems))))
    <$> seqZ 0 N.

(** [BuildDescriptorHeaps]: the heap of [(objCount + 1) * gNumFrameResources]
    descriptors and the offset of the pass views. *)
Definition BuildDescriptorHeaps (opaque : list nat) : list (option CBV) * Z :=
  let objCount := UINT (Z.of_nat (length opaque)) in
  let numDescriptors := UINT (UINT (objCount + 1) * N) in
  (replicate (Z.to_nat numDescriptors) None, UINT (objCount * N)).

(** [CreateConstantBufferView(&cbvDesc, handle)] with the handle [heapIndex]
    descriptors into the heap. *)
Definition CreateConstantBufferView (heapIndex : Z) (cbvDesc : CBV)
    (heap : list (option CBV)) : list (option CBV) :=
  if decide (0 ≤ heapIndex) then <[Z.to_nat heapIndex := Some cbvDesc]> heap else heap.

(** The inner loop of [BuildConstantBufferViews] for one frame resource. *)
Definition BuildObjectViews (objCount : Z) (frameIndex : Z) (fr : FrameResource.t)
    (heap : list (option CBV)) : list (option CBV) :=
  let objCBByteSize := CalcConstantBufferByteSize sizeof_ObjectConstants in
  foldl (λ heap i,
           let cbAddress :=
             UINT64 (UploadBuffer.GPUVirtualAddress (FrameResource.ObjectCB fr)
                     + UINT (i * objCBByteSize)) in
           let heapIndex := UINT (UINT (frameIndex * objCount) + i) in
           CreateConstantBufferView heapIndex
             {| BufferLocation := cbAddress; SizeInBytes := objCBByteSize |} heap)
        heap (seqZ 0 objCount).

(** [BuildConstantBufferViews]: both loops run [frameIndex] from [0] to
    [gNumFrameResources - 1] over [mFrameResources[frameIndex]]. *)
Definition BuildConstantBufferViews (frameResources : list FrameResource.t)
    (opaque : list nat) (passCbvOffset : Z) (heap : list (option CBV))
    : list (option CBV) :=
  let objCount := UINT (Z.of_nat (length opaque)) in
  let heap :=
    foldl (λ heap frameIndex,
             match at_index frameResources frameIndex with
             | Some fr => BuildObjectViews objCount frameIndex fr heap
             | None => heap
             end)
          heap (seqZ 0 N) in
  let passCBByteSize := CalcConstantBufferByteSize sizeof_PassConstants in
  foldl (λ heap frameIndex,
           match at_index frameResources frameIndex with
           | Some fr =>
             let heapIndex := UINT (passCbvOffset + frameIndex) in
             CreateConstantBufferView heapIndex
               {| BufferLocation := UploadBuffer.GPUVirtualAddress (FrameResource.PassCB fr);
                  SizeInBytes := passCBByteSize |} heap
           | None => heap
           end)
        heap (seqZ 0 N).

Definition Initialize (device : Device) (scene : list (XMFLOAT4X4 * string))
    (fence0 : Z) : App :=
  let ritems := BuildRenderItems scene in
  let opaque := seq 0 (length ritems) in
  let frameResources := BuildFrameResources device ritems in
  let '(heap, passCbvOffset) := BuildDescriptorHeaps opaque in
  {| mFrameResources := frameResources;
     mCurrFrameResourceIndex := 0;
     mCbvHeap := BuildConstantBufferViews frameResources opaque passCbvOffset heap;
     mAllRitems := ritems;
     mOpaqueRitems := opaque;
     mPassCbvOffset := passCbvOffset;
     timeline := Timeline.mk fence0 fence0 [] |}.
End App.
End Shapes.

(** * Start-up geometry, descriptors and per-frame vertex uploads *)

(** ** Integers and loops *)

(** Conversion of a [UINT] to [int]: values from [2^31] on come out negative. *)
Definition INT (x : Z) : Z := (x + 2 ^ 31) `mod` 2 ^ 32 - 2 ^ 31.

(** [std::uint16_t]: assignment truncates modulo 2^16. *)
Definition UINT16 (x : Z) : Z := x `mod` 2 ^ 16.

(** A loop with early exit on a fault: [for (x : l) st = f(st, x)]. *)
Fixpoint for_each {A S : Type} (f : S → A → result S) (st : S) (l : list A) : result S :=
  match l with
  | [] => Ok st
  | x :: rest => st' ← f st x; for_each f st' rest
  end.

(** ** The pass descriptor of ShapesApp *)

Section PassDescriptor.
Context `{Float32} `{RecordSizes}.

(** [int passCbvIndex = mPassCbvOffset + mCurrFrameResourceIndex;] in [Draw]:
    the sum is computed in [UINT] and converted to [int]. *)
Definition passCbvIndex (a : Shapes.App) : Z :=
  INT (UINT (Shapes.mPassCbvOffset a + Shapes.mCurrFrameResourceIndex a)).

(** The descriptor [Draw] binds as root table 1: the handle [passCbvIndex]
    descriptors into the heap. *)
Definition passCbv (a : Shapes.App) : option Shapes.CBV :=
  mjoin (at_index (Shapes.mCbvHeap a) (passCbvIndex a)).
End PassDescriptor.

(** ** Textures and their descriptors in TexWavesApp *)

Module Textures.
(** The members of [Texture] that [LoadTextures] sets. *)
Record Texture : Type := {
  Name : string;
  Filename : string;
}.

(** [LoadTextures]: four textures, stored in [mTextures] under their names. *)
Definition LoadTextures : gmap string Texture :=
  let grassTex := {| Name := "grassTex"; Filename := "../Textures/grass.dds" |} in
  let waterTex := {| Name := "waterTex"; Filename := "../Textures/water1.dds" |} in
  let fenceTex := {| Name := "fenceTex"; Filename := "../Textures/WoodCrate01.dds" |} in
  let stoneTex := {| Name := "stoneTex"; Filename := "../Textures/stone2.dds" |} in
  <[Name stoneTex := stoneTex]> (<[Name fenceTex := fenceTex]>
    (<[Name waterTex := waterTex]> (<[Name grassTex := grassTex]> ∅))).

(** [CreateShaderResourceView(resource, &srvDesc, hDescriptor)] on a heap
    with one cell per descriptor ([None]: no view created there); a handle
    [k] descriptors from the heap start designates cell [k].  A handle
    outside the heap is a fault. *)
Definition CreateShaderResourceView (resource : Texture) (hDescriptor : Z)
    (heap : list (option Texture)) : result (list (option Texture)) :=
  if decide (0 ≤ hDescriptor < Z.of_nat (length heap))
  then Ok (<[Z.to_nat hDescriptor := Some resource]> heap)
  else Fail OutOfRange.

(** [BuildDescriptorHeaps]: a heap of [NumDescriptors = 4] cells, filled from
    the heap start, [hDescriptor.Offset(1, mCbvSrvDescriptorSize)] between two
    views.  [mTextures[name]->Resource] dereferences a null pointer if the
    name is missing. *)
Definition BuildDescriptorHeaps (mTextures : gmap string Texture)
    : result (list (option Texture)) :=
  let NumDescriptors := 4%nat in
  let mSrvDescriptorHeap := replicate NumDescriptors None in
  let hDescriptor := 0 in
  grassTex ← from_option NullPointer (mTextures !! "grassTex"%string);
  waterTex ← from_option NullPointer (mTextures !! "waterTex"%string);
  fenceTex ← from_option NullPointer (mTextures !! "fenceTex"%string);
  stoneTex ← from_option NullPointer (mTextures !! "stoneTex"%string);
  heap ← CreateShaderResourceView grassTex hDescriptor mSrvDescriptorHeap;
  let hDescriptor := hDescriptor + 1 in
  heap ← CreateShaderResourceView waterTex hDescriptor heap;
  let hDescriptor := hDescriptor + 1 in
  heap ← CreateShaderResourceView fenceTex hDescriptor heap;
  let hDescriptor := hDescriptor + 1 in
  CreateShaderResourceView stoneTex hDescriptor heap.

(** The texture each material is meant to show. *)
Definition diffuse_map : list (string * string) :=
  [ ("grass", "grassTex"); ("water", "waterTex");
    ("wirefence", "fenceTex"); ("stone", "stoneTex") ]%string.
End Textures.

(** ** The index buffer of the water grid *)

Module WavesGeometry.

(** [indices[k] = v] on a [std::vector<std::uint16_t>]: [operator[]] does not
    check its index; a write outside the vector is a fault. *)
Definition store (k : Z) (v : Z) (indices : list Z) : result (list Z) :=
  if decide (0 ≤ k < Z.of_nat (length indices))
  then Ok (<[Z.to_nat k := UINT16 v]> indices)
  else Fail OutOfRange.

(** The body of the inner loop of [BuildWavesGeometry]: the two triangles of
    the quad in row [i], column [j] of a grid with [n] columns, written at
    [k .. k + 5]; then [k += 6].  The [int] arithmetic is exact: the
    theorems keep every value below [2^31]. *)
Definition quad (n i j : Z) (st : Z * list Z) : result (Z * list Z) :=
  let '(k, indices) := st in
  indices ← store k (i * n + j) indices;
  indices ← store (k + 1) (i * n + j + 1) indices;
  indices ← store (k + 2) ((i + 1) * n + j) indices;
  indices ← store (k + 3) ((i + 1) * n + j) indices;
  indices ← store (k + 4) (i * n + j + 1) indices;
  indices ← store (k + 5) ((i + 1) * n + j + 1) indices;
  Ok (k + 6, indices).

(** [BuildWavesGeometry], the index generation: [m = mWaves->RowCount()],
    [n = mWaves->ColumnCount()], and the vector is created with
    [3 * mWaves->TriangleCount()] zeros. *)
Definition BuildWavesGeometry (m n TriangleCount : Z) : result (list Z) :=
  let indices := replicate (Z.to_nat (3 * TriangleCount)) 0 in
  '(k, indices) ←
    for_each (λ st i, for_each (λ st j, quad n i j st) st (seqZ 0 (n - 1)))
             (0, indices) (seqZ 0 (m - 1));
  Ok indices.

(** The six indices of one quad. *)
Definition quad_indices (n i j : Z) : list Z :=
  [ i * n + j; i * n + j + 1; (i + 1) * n + j;
    (i + 1) * n + j; i * n + j + 1; (i + 1) * n + j + 1 ].
End WavesGeometry.

(** ** The shared vertex and index buffers of the castle *)

Module CastleGeometry.
Section Def.
Context `{Float32}.

(** Modelled from the spec: what the geometry producer supplies for one
    shape (GeometryGenerator.h is not among the sources): a vertex list with
    position, normal and texture coordinate, a 32-bit index list and the
    16-bit index list [GetIndices16()] returns. *)
Record GeneratedVertex : Type := {
  Position : XMFLOAT3;
  GNormal : XMFLOAT3;
  GTexC : float * float;
}.

Record MeshData : Type := {
  Vertices : list GeneratedVertex;
  Indices32 : list Z;
  GetIndices16 : list Z;
}.

(** Modelled from the spec: the application's [Vertex] (FrameResource.h is
    not among the sources). *)
Record Vertex : Type := {
  Pos : XMFLOAT3;
  Normal : XMFLOAT3;
  TexC : float * float;
}.

(** Modelled from the spec: [SubmeshGeometry] and the members of
    [MeshGeometry] the function fills (d3dUtil.h is not among the sources).
    [BaseVertexLocation] is kept as the [UINT] assigned to it. *)
Record SubmeshGeometry : Type := {
  IndexCount : Z;
  StartIndexLocation : Z;
  BaseVertexLocation : Z;
}.

Record MeshGeometry : Type := {
  Name : string;
  VertexBufferCPU : list Vertex;
  IndexBufferCPU : list Z;
  DrawArgs : gmap string SubmeshGeometry;
}.

(** [(UINT)v.size()] *)
Definition size_UINT {A} (v : list A) : Z := UINT (Z.of_nat (length v)).

(** A value-initialised [Vertex]. *)
Definition zero_vertex : Vertex :=
  let z := flit 0 0 in
  {| Pos := {| x3 := z; y3 := z; z3 := z |};
     Normal := {| x3 := z; y3 := z; z3 := z |};
     TexC := (z, z) |}.

(** The body of the packing loop: [vertices[k].Pos = ...; .Normal = ...;
    .TexC = ...] for vertex [j] of shape [i], then [k++] on a [UINT].  The
    vector's [operator[]] does not check its index. *)
Definition pack (st : Z * list Vertex) (v : GeneratedVertex) : result (Z * list Vertex) :=
  let '(k, vertices) := st in
  if decide (0 ≤ k < Z.of_nat (length vertices)) then
    Ok (UINT (k + 1),
        <[Z.to_nat k := {| Pos := Position v; Normal := GNormal v; TexC := GTexC v |}]>
          vertices)
  else Fail OutOfRange.

(** [BuildCastleGeometry], from the eight generated shapes to the geometry
    stored under ["shapeGeo"]. *)
Definition BuildCastleGeometry
    (wholeWall grid column columnTop Base1 Base2 Base3 top : MeshData)
    : result MeshGeometry :=
  let shapesVector := [wholeWall; grid; column; columnTop; Base1; Base2; Base3; top] in
  let wholeWallVertexOffset := 0 in
  let gridVertexOffset := size_UINT (Vertices wholeWall) in
  let columnVertexOffset := UINT (gridVertexOffset + size_UINT (Vertices grid)) in
  let columnTopVertexOffset := UINT (columnVertexOffset + size_UINT (Vertices column)) in
  let Base1VertexOffset := UINT (columnTopVertexOffset + size_UINT (Vertices columnTop)) in
  let Base2VertexOffset := UINT (Base1VertexOffset + size_UINT (Vertices Base1)) in
  let Base3VertexOffset := UINT (Base2VertexOffset + size_UINT (Vertices Base2)) in
  let topVertexOffset := UINT (Base3VertexOffset + size_UINT (Vertices Base3)) in
  let wholeWallIndexOffset := 0 in
  let gridIndexOffset := size_UINT (Indices32 wholeWall) in
  let columnIndexOffset := UINT (gridIndexOffset + size_UINT (Indices32 grid)) in
  let columnTopIndexOffset := UINT (columnIndexOffset + size_UINT (Indices32 column)) in
  let Base1IndexOffset := UINT (columnTopIndexOffset + size_UINT (Indices32 columnTop)) in
  let Base2IndexOffset := UINT (Base1IndexOffset + size_UINT (Indices32 Base1)) in
  let Base3IndexOffset := UINT (Base2IndexOffset + size_UINT (Indices32 Base2)) in
  let topIndexOffset := UINT (Base3IndexOffset + size_UINT (Indices32 Base3)) in
  let submesh (shape : MeshData) (indexOffset vertexOffset : Z) :=
    {| IndexCount := size_UINT (Indices32 shape);
       StartIndexLocation := indexOffset;
       BaseVertexLocation := vertexOffset |} in
  let wholeWallSubmesh := submesh wholeWall wholeWallIndexOffset wholeWallVertexOffset in
  let gridSubmesh := submesh grid gridIndexOffset gridVertexOffset in
  let columnSubmesh := submesh column columnIndexOffset columnVertexOffset in
  let columnTopSubmesh := submesh columnTop columnTopIndexOffset columnTopVertexOffset in
  let Base1Submesh := submesh Base1 Base1IndexOffset Base1VertexOffset in
  let Base2Submesh := submesh Base2 Base2IndexOffset Base2VertexOffset in
  let Base3Submesh := submesh Base3 Base3IndexOffset Base3VertexOffset in
  let topSubmesh := submesh top topIndexOffset topVertexOffset in
  let totalVertexCount :=
    (length (Vertices wholeWall) + length (Vertices grid) + length (Vertices column)
     + length (Vertices columnTop) + length (Vertices Base1) + length (Vertices Base2)
     + length (Vertices Base3) + length (Vertices top))%nat in
  let vertices := replicate totalVertexCount zero_vertex in
  '(k, vertices) ←
    for_each (λ st shape, for_each pack st (Vertices shape)) (0, vertices) shapesVector;
  let indices :=
    GetIndices16 wholeWall ++ GetIndices16 grid ++ GetIndices16 column
    ++ GetIndices16 columnTop ++ GetIndices16 Base1 ++ GetIndices16 Base2
    ++ GetIndices16 Base3 ++ GetIndices16 top in
  Ok {| Name := "shapeGeo";
        VertexBufferCPU := vertices;
        IndexBufferCPU := indices;
        DrawArgs :=
          <["top"%string := topSubmesh]> (<["Base3"%string := Base3Submesh]>
          (<["Base2"%string := Base2Submesh]> (<["Base1"%string := Base1Submesh]>
          (<["columnTop"%string := columnTopSubmesh]> (<["column"%string := columnSubmesh]>
          (<["ground"%string := gridSubmesh]> (<["wholeWall"%string := wholeWallSubmesh]>
          ∅))))))) |}.

(** What the packing loop makes of a generated vertex. *)
Definition packed (v : GeneratedVertex) : Vertex :=
  {| Pos := Position v; Normal := GNormal v; TexC := GTexC v |}.

(** What [DrawIndexedInstanced(IndexCount, 1, StartIndexLocation,
    BaseVertexLocation, 0)] reads: the index range of the submesh, and for an
    index [i] in it the vertex at [BaseVertexLocation + i]. *)
Definition drawn_indices (geo : MeshGeometry) (sub : SubmeshGeometry) : list Z :=
  take (Z.to_nat (IndexCount sub)) (drop (Z.to_nat (StartIndexLocation sub))
                                         (IndexBufferCPU geo)).
Definition drawn_vertex (geo : MeshGeometry) (sub : SubmeshGeometry) (i : Z)
    : option Vertex :=
  at_index (VertexBufferCPU geo) (BaseVertexLocation sub + i).
End Def.
End CastleGeometry.

(** ** The shared vertex and index buffers of ShapesApp *)

Module ShapeGeometry.
Section Def.
Context `{Float32}.
Import CastleGeometry.

(** Modelled from the spec: the application's [Vertex] of ShapesApp
    (FrameResource.h is not among the sources): a position and a colour. *)
Record Vertex : Type := {
  Pos : XMFLOAT3;
  Color : XMFLOAT4;
}.

Record MeshGeometry : Type := {
  Name : string;
  VertexBufferCPU : list Vertex;
  IndexBufferCPU : list Z;
  DrawArgs : gmap string SubmeshGeometry;
}.

(** The constants of [DirectX::Colors] the function uses, taken as given
    (DirectXColors.h is not among the sources). *)
Record Colors : Type := {
  Red : XMFLOAT4;
  Green : XMFLOAT4;
  Yellow : XMFLOAT4;
  Blue : XMFLOAT4;
  DeepPink : XMFLOAT4;
  Cyan : XMFLOAT4;
}.

(** [XMFLOAT4({0, 0.1f, 0, 1})], the colour of the ground. *)
Definition ground_colour : XMFLOAT4 :=
  {| x4 := flit 0 0; y4 := flit 1 1; z4 := flit 0 0; w4 := flit 1 0 |}.

(** A value-initialised [Vertex]. *)
Definition zero_vertex : Vertex :=
  let z := flit 0 0 in
  {| Pos := {| x3 := z; y3 := z; z3 := z |};
     Color := {| x4 := z; y4 := z; z4 := z; w4 := z |} |}.

(** The body of each of the eight packing loops:
    [vertices[k].Pos = shape.Vertices[i].Position; vertices[k].Color = color],
    then [++k] on a [UINT].  The vector's [operator[]] does not check its
    index. *)
Definition paint (color : XMFLOAT4) (st : Z * list Vertex)
    (v : GeneratedVertex) : result (Z * list Vertex) :=
  let '(k, vertices) := st in
  if decide (0 ≤ k < Z.of_nat (length vertices)) then
    Ok (UINT (k + 1),
        <[Z.to_nat k := {| Pos := Position v; Color := color |}]> vertices)
  else Fail OutOfRange.

(** [BuildShapeGeometry], from the eight generated shapes to the geometry
    stored under ["shapeGeo"]. *)
Definition BuildShapeGeometry (Colors : Colors)
    (wholeWall grid column columnTop Base1 Base2 Base3 top : MeshData)
    : result MeshGeometry :=
  let wholeWallVertexOffset := 0 in
  let gridVertexOffset := size_UINT (Vertices wholeWall) in
  let columnVertexOffset := UINT (gridVertexOffset + size_UINT (Vertices grid)) in
  let columnTopVertexOffset := UINT (columnVertexOffset + size_UINT (Vertices column)) in
  let Base1VertexOffset := UINT (columnTopVertexOffset + size_UINT (Vertices columnTop)) in
  let Base2VertexOffset := UINT (Base1VertexOffset + size_UINT (Vertices Base1)) in
  let Base3VertexOffset := UINT (Base2VertexOffset + size_UINT (Vertices Base2)) in
  let topVertexOffset := UINT (Base3VertexOffset + size_UINT (Vertices Base3)) in
  let wholeWallIndexOffset := 0 in
  let gridIndexOffset := size_UINT (Indices32 wholeWall) in
  let columnIndexOffset := UINT (gridIndexOffset + size_UINT (Indices32 grid)) in
  let columnTopIndexOffset := UINT (columnIndexOffset + size_UINT (Indices32 column)) in
  let Base1IndexOffset := UINT (columnTopIndexOffset + size_UINT (Indices32 columnTop)) in
  let Base2IndexOffset := UINT (Base1IndexOffset + size_UINT (Indices32 Base1)) in
  let Base3IndexOffset := UINT (Base2IndexOffset + size_UINT (Indices32 Base2)) in
  let topIndexOffset := UINT (Base3IndexOffset + size_UINT (Indices32 Base3)) in
  let submesh (shape : MeshData) (indexOffset vertexOffset : Z) :=
    {| IndexCount := size_UINT (Indices32 shape);
       StartIndexLocation := indexOffset;
       BaseVertexLocation := vertexOffset |} in
  let wholeWallSubmesh := submesh wholeWall wholeWallIndexOffset wholeWallVertexOffset in
  let gridSubmesh := submesh grid gridIndexOffset gridVertexOffset in
  let columnSubmesh := submesh column columnIndexOffset columnVertexOffset in
  let columnTopSubmesh := submesh columnTop columnTopIndexOffset columnTopVertexOffset in
  let Base1Submesh := submesh Base1 Base1IndexOffset Base1VertexOffset in
  let Base2Submesh := submesh Base2 Base2IndexOffset Base2VertexOffset in
  let Base3Submesh := submesh Base3 Base3IndexOffset Base3VertexOffset in
  let topSubmesh := submesh top topIndexOffset topVertexOffset in
  let totalVertexCount :=
    (length (Vertices wholeWall) + length (Vertices grid) + length (Vertices column)
     + length (Vertices columnTop) + length (Vertices Base1) + length (Vertices Base2)
     + length (Vertices Base3) + length (Vertices top))%nat in
  let vertices := replicate totalVertexCount zero_vertex in
  st ← for_each (paint (Red Colors)) (0, vertices) (Vertices wholeWall);
  st ← for_each (paint ground_colour) st (Vertices grid);
  st ← for_each (paint (Green Colors)) st (Vertices column);
  st ← for_each (paint (Yellow Colors)) st (Vertices columnTop);
  st ← for_each (paint (Blue Colors)) st (Vertices Base1);
  st ← for_each (paint (DeepPink Colors)) st (Vertices Base2);
  st ← for_each (paint (Cyan Colors)) st (Vertices Base3);
  '(k, vertices) ← for_each (paint (Red Colors)) st (Vertices top);
  let indices :=
    GetIndices16 wholeWall ++ GetIndices16 grid ++ GetIndices16 column
    ++ GetIndices16 columnTop ++ GetIndices16 Base1 ++ GetIndices16 Base2
    ++ GetIndices16 Base3 ++ GetIndices16 top in
  Ok {| Name := "shapeGeo";
        VertexBufferCPU := vertices;
        IndexBufferCPU := indices;
        DrawArgs :=
          <["top"%string := topSubmesh]> (<["Base3"%string := Base3Submesh]>
          (<["Base2"%string := Base2Submesh]> (<["Base1"%string := Base1Submesh]>
          (<["columnTop"%string := columnTopSubmesh]> (<["column"%string := columnSubmesh]>
          (<["ground"%string := gridSubmesh]> (<["wholeWall"%string := wholeWallSubmesh]>
          ∅))))))) |}.

(** What a packing loop makes of a generated vertex. *)
Definition painted (color : XMFLOAT4) (v : GeneratedVertex) : Vertex :=
  {| Pos := Position v; Color := color |}.

(** The index range and the vertices a draw of a submesh reads, as for the
    castle of TexWavesApp. *)
Definition drawn_indices (geo : MeshGeometry) (sub : SubmeshGeometry)
    : list Z :=
  take (Z.to_nat (IndexCount sub))
       (drop (Z.to_nat (StartIndexLocation sub)) (IndexBufferCPU geo)).
Definition drawn_vertex (geo : MeshGeometry) (sub : SubmeshGeometry) (i : Z)
    : option Vertex :=
  at_index (VertexBufferCPU geo) (BaseVertexLocation sub + i).
End Def.
End ShapeGeometry.

(** ** The dynamic vertex buffer of the water *)

Module WavesVB.
Section Def.
Context `{Float32}.
(** Single-precision division. *)
Variable fdiv : float → float → float.

(** What [UpdateWaves] reads from the wave simulation once
    [mWaves->Update] has run (Waves.h is not among the sources): the vertex
    count, the position and the normal of each vertex, and the extent of the
    grid. *)
Record Waves : Type := {
  VertexCount : Z;
  Position : Z → XMFLOAT3;
  Normal : Z → XMFLOAT3;
  Width : float;
  Depth : float;
}.

(** The vertex the loop of [UpdateWaves] builds for index [i]:
    [TexC = (0.5f + Pos.x / Width, 0.5f - Pos.z / Depth)]. *)
Definition wave_vertex (mWaves : Waves) (i : Z) : CastleGeometry.Vertex :=
  let Pos := Position mWaves i in
  {| CastleGeometry.Pos := Pos;
     CastleGeometry.Normal := Normal mWaves i;
     CastleGeometry.TexC := (fadd (flit 5 1) (fdiv (x3 Pos) (Width mWaves)),
                             fsub (flit 5 1) (fdiv (z3 Pos) (Depth mWaves))) |}.

(** [UpdateWaves], from "Update the wave vertex buffer with the new
    solution" on: [for (int i = 0; i < mWaves->VertexCount(); ++i)
    currWavesVB->CopyData(i, v)]. *)
Definition UpdateWaves (mWaves : Waves)
    (currWavesVB : UploadBuffer.t CastleGeometry.Vertex)
    : result (UploadBuffer.t CastleGeometry.Vertex) :=
  for_each (λ vb i, UploadBuffer.CopyData i (wave_vertex mWaves i) vb)
           currWavesVB (seqZ 0 (VertexCount mWaves)).
End Def.
End WavesVB.

(** * Event sequences *)

Module TexWavesSteps.
Section Steps.
Context `{Float32} `{RecordSizes}.
Context (N : Z).
Import TexWaves.

(** The protocol stated with [RenderItem::NumFramesDirty]: whoever modifies
    object data sets [NumFramesDirty = gNumFrameResources]. *)
Definition markDirty (e : RenderItem.t) : RenderItem.t :=
  RenderItem.set_NumFramesDirty N e.

(** The same for a material, as [AnimateMaterials] does for the water. *)
Definition markMaterialDirty (m : Material.t) : Material.t :=
  Material.set_NumFramesDirty N m.

(** A modification of the item at position [p] of [mAllRitems]. *)
Definition ModifyItem (p : nat) (world : XMFLOAT4X4) (a : App) : App :=
  set_mAllRitems (alter (λ e, markDirty (RenderItem.set_World world e)) p (mAllRitems a)) a.

(** A modification of the material named [name]. *)
Definition ModifyMaterial (name : string) (transform : XMFLOAT4X4) (a : App) : App :=
  set_mMaterials
    (alter (λ m, markMaterialDirty (Material.set_MatTransform transform m)) name
       (mMaterials a)) a.

(** What can happen between start-up and shutdown: a turn of the message
    loop, or a modification of an item or of a material between two turns. *)
Inductive Step : Type :=
| Advance (i : FrameInput)
| SetWorld (p : nat) (world : XMFLOAT4X4)
| SetMatTransform (name : string) (transform : XMFLOAT4X4).

Definition step (s : Step) (a : App) : result App :=
  match s with
  | Advance i => Frame N i a
  | SetWorld p world => Ok (ModifyItem p world a)
  | SetMatTransform name transform => Ok (ModifyMaterial name transform a)
  end.

Fixpoint Steps (l : list Step) (a : App) : result App :=
  match l with
  | [] => Ok a
  | s :: rest => a' ← step s a; Steps rest a'
  end.

(** Number of message-loop turns in a sequence. *)
Fixpoint turns (l : list Step) : Z :=
  match l with
  | [] => 0
  | Advance _ :: rest => 1 + turns rest
  | _ :: rest => turns rest
  end.
End Steps.
End TexWavesSteps.

(** * Properties *)

(** ** Arithmetic and the error monad *)

Lemma UINT_small x : 0 ≤ x < 2 ^ 32 → UINT x = x.
Proof. intros H. unfold UINT. by apply Z.mod_small. Qed.

Lemma UINT64_small x : 0 ≤ x < 2 ^ 64 → UINT64 x = x.
Proof. intros H. unfold UINT64. by apply Z.mod_small. Qed.

Lemma bind_Ok {A B} (m : result A) (k : A → result B) b :
  m ≫= k = Ok b ↔ ∃ a, m = Ok a ∧ k a = Ok b.
Proof.
  destruct m as [a|f]; simpl; split.
  - intros Hk. by exists a.
  - by intros (a' & [= <-] & Hk).
  - done.
  - by intros (a' & ? & _).
Qed.

Lemma from_option_Ok {A} f (o : option A) a : from_option f o = Ok a ↔ o = Some a.
Proof. destruct o; simpl; split; congruence. Qed.

Lemma at_index_Some {A} (l : list A) i x :
  at_index l i = Some x ↔ 0 ≤ i ∧ l !! Z.to_nat i = Some x.
Proof. unfold at_index. case_decide; split; [tauto | by intros [_ ?] | done | lia]. Qed.

Lemma at_index_lt {A} (l : list A) i x :
  at_index l i = Some x → 0 ≤ i < Z.of_nat (length l).
Proof.
  intros [Hi Hl]%at_index_Some. apply lookup_lt_Some in Hl. lia.
Qed.

Lemma at_index_is_Some {A} (l : list A) i :
  0 ≤ i < Z.of_nat (length l) → is_Some (at_index l i).
Proof.
  intros Hi. unfold at_index. rewrite decide_True by lia.
  apply lookup_lt_is_Some. lia.
Qed.

Lemma at_index_insert {A} (l : list A) i j x :
  0 ≤ i < Z.of_nat (length l) → 0 ≤ j →
  at_index (<[Z.to_nat i := x]> l) j = if decide (i = j) then Some x else at_index l j.
Proof.
  intros Hi Hj. unfold at_index. repeat case_decide; try lia.
  - subst j. apply list_lookup_insert_eq. lia.
  - apply list_lookup_insert_ne. lia.
Qed.

Lemma at_index_fmap {A B} (f : A → B) (l : list A) i :
  at_index (f <$> l) i = f <$> at_index l i.
Proof. unfold at_index. case_decide; [apply list_lookup_fmap | done]. Qed.

(** The ring index stays in range, so the truncating [%] is the modulus. *)
Lemma NextFrameResourceIndex_mod N i :
  1 ≤ N → 0 ≤ i → NextFrameResourceIndex N i = (i + 1) `mod` N.
Proof. intros HN Hi. unfold NextFrameResourceIndex. apply Z.rem_mod_nonneg; lia. Qed.

Lemma NextFrameResourceIndex_range N i :
  1 ≤ N → 0 ≤ i → 0 ≤ NextFrameResourceIndex N i < N.
Proof.
  intros HN Hi. rewrite NextFrameResourceIndex_mod by done.
  apply Z.mod_pos_bound. lia.
Qed.

(** ** The upload region *)

Section UploadBufferFacts.
Context {T : Type}.
Implicit Types (b : UploadBuffer.t T).
Import UploadBuffer.

Lemma CopyData_Ok b i (x : T) :
  0 ≤ i < capacity b → ∃ b', CopyData i x b = Ok b'.
Proof. intros Hi. unfold CopyData. rewrite decide_True by done. eauto. Qed.

Lemma CopyData_Fail b i (x : T) :
  capacity b ≤ i → CopyData i x b = Fail OutOfRange.
Proof. intros Hi. unfold CopyData. rewrite decide_False by lia. done. Qed.

Lemma CopyData_inv b i (x : T) b' :
  CopyData i x b = Ok b' →
  0 ≤ i < capacity b ∧
  mElementByteSize b' = mElementByteSize b ∧
  GPUVirtualAddress b' = GPUVirtualAddress b ∧
  mMappedData b' = <[Z.to_nat i := Some x]> (mMappedData b) ∧
  CopyLog b' = i :: CopyLog b.
Proof. unfold CopyData. case_decide; [|done]. intros [= <-]. done. Qed.

Lemma CopyData_capacity b i (x : T) b' :
  CopyData i x b = Ok b' → capacity b' = capacity b.
Proof.
  intros (_ & _ & _ & Hd & _)%CopyData_inv. unfold capacity.
  by rewrite Hd, length_insert.
Qed.

Lemma CopyData_read b i (x : T) b' j :
  CopyData i x b = Ok b' →
  read b' j = if decide (j = i) then Some x else read b j.
Proof.
  intros (Hi & _ & _ & Hd & _)%CopyData_inv. unfold read. rewrite Hd.
  unfold capacity in Hi. destruct (decide (j = i)) as [->|Hj].
  - rewrite decide_True by lia.
    rewrite list_lookup_insert_eq by lia. done.
  - case_decide; [|done]. rewrite list_lookup_insert_ne by lia. done.
Qed.

Lemma CopyData_uploads b i (x : T) b' j :
  CopyData i x b = Ok b' →
  uploads b' j = if decide (j = i) then S (uploads b j) else uploads b j.
Proof.
  intros (_ & _ & _ & _ & Hl)%CopyData_inv. unfold uploads. rewrite Hl.
  rewrite filter_cons. case_decide; case_decide; simpl; congruence.
Qed.

Lemma create_capacity va sz n c :
  0 ≤ n → capacity (create (T:=T) va sz n c) = n.
Proof. intros Hn. unfold capacity, create. simpl. rewrite length_replicate. lia. Qed.
End UploadBufferFacts.

(** ** The command queue and the fence *)

Section SyncFacts.
Context {C : Type}.
Implicit Types (t : Timeline.t C) (q : list (GpuCmd C)) (fences : list Z).

(** [lo < v1 < v2 < ... < vn ≤ hi] *)
Fixpoint ascending (lo hi : Z) (l : list Z) : Prop :=
  match l with
  | [] => lo ≤ hi
  | v :: l' => lo < v ∧ ascending v hi l'
  end.

(** Every queued command list is followed by the signal of the fence value
    its ring slot is stamped with. *)
Fixpoint covered (fence_of : Z → option Z) q : Prop :=
  match q with
  | [] => True
  | ExecuteCommandLists s _ :: q' =>
    (∃ f, fence_of s = Some f ∧ f ∈ signals q') ∧ covered fence_of q'
  | Signal _ :: q' => covered fence_of q'
  end.

(** The invariant tying the ring's fence stamps to the timeline. *)
Record sync_inv fences t : Prop := {
  sync_completed : 0 ≤ CompletedValue t;
  sync_current : mCurrentFence t < 2 ^ 64;
  sync_ascending :
    ascending (CompletedValue t) (mCurrentFence t) (signals (mCommandQueue t));
  sync_stamps : ∀ s f, at_index fences s = Some f →
    0 ≤ f ≤ mCurrentFence t ∧
    (f = 0 ∨ f ≤ CompletedValue t ∨ f ∈ signals (mCommandQueue t));
  sync_covered : covered (at_index fences) (mCommandQueue t);
}.

(** Ring slot [s] has no submitted work left in the queue. *)
Definition idle (s : Z) t : Prop := s ∉ in_flight (mCommandQueue t).

Lemma ascending_le lo hi l : ascending lo hi l → lo ≤ hi.
Proof.
  revert lo. induction l as [|v l IH]; simpl; intros lo; [done|].
  intros [Hlo Hl]. apply IH in Hl. lia.
Qed.

Lemma ascending_elem lo hi l v : ascending lo hi l → v ∈ l → lo < v ≤ hi.
Proof.
  revert lo. induction l as [|w l IH]; simpl; intros lo Hl Hv.
  - by apply elem_of_nil in Hv.
  - destruct Hl as [Hlo Hl]. apply elem_of_cons in Hv as [->|Hv].
    + apply ascending_le in Hl. lia.
    + specialize (IH _ Hl Hv). lia.
Qed.

Lemma ascending_snoc lo hi l v :
  ascending lo hi l → hi < v → ascending lo v (l ++ [v]).
Proof.
  revert lo. induction l as [|w l IH]; simpl; intros lo Hl Hv.
  - lia.
  - destruct Hl as [Hlo Hl]. split; [done|]. by apply IH.
Qed.

Lemma signals_app q1 q2 : signals (q1 ++ q2) = signals q1 ++ signals q2.
Proof. unfold signals. apply omap_app. Qed.

Lemma in_flight_app q1 q2 : in_flight (q1 ++ q2) = in_flight q1 ++ in_flight q2.
Proof. unfold in_flight. apply omap_app. Qed.

Lemma covered_in_flight fence_of q s :
  covered fence_of q → s ∈ in_flight q →
  ∃ f, fence_of s = Some f ∧ f ∈ signals q.
Proof.
  induction q as [|[s' cmds|v] q IH]; simpl; intros Hc Hs.
  - by apply elem_of_nil in Hs.
  - destruct Hc as [(f & Hf & Hin) Hc].
    change (in_flight (ExecuteCommandLists s' cmds :: q)) with (s' :: in_flight q) in Hs.
    change (signals (ExecuteCommandLists s' cmds :: q)) with (signals q).
    apply elem_of_cons in Hs as [->|Hs]; [by exists f | by apply IH].
  - change (in_flight (Signal v :: q)) with (in_flight q) in Hs.
    change (signals (Signal v :: q)) with (v :: signals q).
    destruct (IH Hc Hs) as (f & Hf & Hin). exists f. split; [done|].
    by apply elem_of_cons; right.
Qed.

Lemma covered_app fence_of q1 q2 :
  covered fence_of q1 → covered fence_of q2 → covered fence_of (q1 ++ q2).
Proof.
  induction q1 as [|[s cmds|v] q1 IH]; simpl; intros H1 H2; [done| |by apply IH].
  destruct H1 as [(f & Hf & Hin) H1]. split; [|by apply IH].
  exists f. split; [done|]. rewrite signals_app. apply elem_of_app. by left.
Qed.

Lemma covered_ext fence_of fence_of' q :
  (∀ s, s ∈ in_flight q → fence_of' s = fence_of s) →
  covered fence_of q → covered fence_of' q.
Proof.
  induction q as [|[s cmds|v] q IH]; simpl; intros Hext Hc; [done| |by apply IH].
  destruct Hc as [(f & Hf & Hin) Hc]. split.
  - exists f. split; [|done]. rewrite Hext; [done|].
    change (in_flight (ExecuteCommandLists s cmds :: q)) with (s :: in_flight q).
    apply elem_of_cons; by left.
  - apply IH; [|done]. intros s' Hs'. apply Hext.
    change (in_flight (ExecuteCommandLists s cmds :: q)) with (s :: in_flight q).
    apply elem_of_cons; by right.
Qed.

(** The GPU making progress keeps the invariant. *)
Lemma gpu_step_inv fences t : sync_inv fences t → sync_inv fences (gpu_step t).
Proof.
  intros [Hc Hcur Hasc Hst Hcov]. unfold gpu_step.
  destruct t as [cur done q]. simpl in *.
  destruct q as [|[s cmds|v] q]; simpl in *.
  - by constructor.
  - constructor; simpl; try done. by destruct Hcov.
  - change (signals (Signal v :: q)) with (v :: signals q) in *.
    simpl in Hasc. destruct Hasc as [Hlt Hasc].
    constructor; simpl; [lia|done|done| |done].
    intros s f Hs. destruct (Hst s f Hs) as [Hr [H0|[Hle|Hin]]].
    + split; [done|]. by left.
    + split; [done|]. right; left. lia.
    + split; [done|]. apply elem_of_cons in Hin as [->|Hin].
      * right; left. lia.
      * by right; right.
Qed.

Lemma gpu_run_inv fences n t : sync_inv fences t → sync_inv fences (gpu_run n t).
Proof.
  revert t. induction n as [|n IH]; simpl; intros t Ht; [done|].
  by apply IH, gpu_step_inv.
Qed.

Lemma gpu_step_mCurrentFence t : mCurrentFence (gpu_step t) = mCurrentFence t.
Proof. unfold gpu_step. by destruct (mCommandQueue t) as [|[]]. Qed.

Lemma gpu_run_mCurrentFence n t : mCurrentFence (gpu_run n t) = mCurrentFence t.
Proof.
  revert t. induction n as [|n IH]; simpl; intros t; [done|].
  by rewrite IH, gpu_step_mCurrentFence.
Qed.

Lemma gpu_step_idle s t : idle s t → idle s (gpu_step t).
Proof.
  unfold idle, gpu_step. destruct t as [cur completed [|[s' cmds|v] q]]; simpl.
  - done.
  - change (in_flight (ExecuteCommandLists s' cmds :: q)) with (s' :: in_flight q).
    intros Hn Hin. apply Hn. apply elem_of_cons. by right.
  - done.
Qed.

Lemma gpu_run_idle s n t : idle s t → idle s (gpu_run n t).
Proof.
  revert t. induction n as [|n IH]; simpl; intros t Ht; [done|].
  by apply IH, gpu_step_idle.
Qed.

(** A wait that returns is some amount of GPU progress. *)
Lemma wait_completion_gpu_run value cur completed q completed' q' :
  wait_completion value completed q = Ok (completed', q') →
  value ≤ completed' ∧
  ∃ n, gpu_run n (Timeline.mk cur completed q) = Timeline.mk cur completed' q'.
Proof.
  revert completed. induction q as [|[s cmds|v] q IH]; intros completed; simpl.
  - case_decide; [|done]. intros [= <- <-]. split; [done|]. by exists O.
  - case_decide.
    + intros [= <- <-]. split; [done|]. by exists O.
    + intros Hw. destruct (IH _ Hw) as [Hle [n Hn]]. split; [done|]. by exists (S n).
  - case_decide.
    + intros [= <- <-]. split; [done|]. by exists O.
    + intros Hw. destruct (IH _ Hw) as [Hle [n Hn]]. split; [done|]. by exists (S n).
Qed.

(** The wait returns when the awaited value is still to be signalled. *)
Lemma wait_completion_Ok value hi completed q :
  ascending completed hi (signals q) → value ∈ signals q →
  ∃ q', wait_completion value completed q = Ok (value, q').
Proof.
  revert completed. induction q as [|[s cmds|v] q IH]; intros completed Hasc Hin.
  - by apply elem_of_nil in Hin.
  - simpl. change (signals (ExecuteCommandLists s cmds :: q)) with (signals q) in *.
    pose proof (ascending_elem _ _ _ _ Hasc Hin).
    rewrite decide_False by lia. by apply IH.
  - change (signals (Signal v :: q)) with (v :: signals q) in *.
    pose proof (ascending_elem _ _ _ _ Hasc Hin).
    simpl in Hasc. destruct Hasc as [Hlt Hasc].
    simpl. rewrite decide_False by lia.
    apply elem_of_cons in Hin as [->|Hin].
    + exists q. destruct q as [|[]]; simpl; by rewrite decide_True by lia.
    + by apply IH.
Qed.

(** Under the invariant a slot whose stamp is 0 or has been reached by the
    fence has nothing left in the queue. *)
Lemma stamp_reached_idle fences t s f :
  sync_inv fences t → at_index fences s = Some f →
  f = 0 ∨ f ≤ CompletedValue t → idle s t.
Proof.
  intros [Hc Hcur Hasc Hst Hcov] Hs Hf Hin.
  destruct (covered_in_flight _ _ _ Hcov Hin) as (f' & Hf' & Hsig).
  assert (f' = f) as -> by congruence.
  pose proof (ascending_elem _ _ _ _ Hasc Hsig). lia.
Qed.

(** The guard of [Update] under the invariant: it returns, the GPU has only
    made progress, the fence has reached the slot's stamp (or the slot was
    never submitted), and nothing of the slot is left in the queue. *)
Lemma WaitForFrameResource_spec fences t s f :
  sync_inv fences t → at_index fences s = Some f →
  ∃ t', WaitForFrameResource f t = Ok t' ∧
        (∃ n, t' = gpu_run n t) ∧
        sync_inv fences t' ∧
        (f = 0 ∨ f ≤ CompletedValue t') ∧
        idle s t' ∧
        (f ≠ 0 → CompletedValue t < f → CompletedValue t' = f).
Proof.
  intros Hinv Hs. unfold WaitForFrameResource. case_decide as Hg.
  - destruct Hg as [Hf0 Hlt].
    destruct (sync_stamps _ _ Hinv s f Hs) as [_ [?|[?|Hin]]]; [done|lia|].
    destruct (wait_completion_Ok f _ _ _ (sync_ascending _ _ Hinv) Hin) as [q' Hw].
    rewrite Hw. simpl. eexists; split; [done|].
    destruct (wait_completion_gpu_run _ (mCurrentFence t) _ _ _ _ Hw) as [Hle [n Hn]].
    assert (Timeline.mk (mCurrentFence t) f q' = gpu_run n t) as Hrun.
    { rewrite <- Hn. by destruct t. }
    assert (sync_inv fences (Timeline.mk (mCurrentFence t) f q')) as Hinv'.
    { rewrite Hrun. by apply gpu_run_inv. }
    split; [by exists n|]. split; [done|]. split; [right; simpl; lia|].
    split; [|done]. eapply stamp_reached_idle; [done..|]. right. simpl. lia.
  - exists t. split; [done|]. split; [by exists O|]. split; [done|].
    assert (f = 0 ∨ f ≤ CompletedValue t) as Hf.
    { destruct (decide (f = 0)); [by left|right].
      destruct (decide (CompletedValue t < f)); [|lia]. by destruct Hg. }
    split; [done|]. split; [by eapply stamp_reached_idle|].
    intros ??. by destruct Hg.
Qed.

(** Submitting a frame recorded with an idle slot and stamping the slot with
    the new fence value keeps the invariant, as long as the counter does not
    wrap. *)
Lemma Submit_inv fences t s cmds fence t' :
  sync_inv fences t → idle s t →
  0 ≤ s < Z.of_nat (length fences) →
  mCurrentFence t + 1 < 2 ^ 64 →
  Submit s cmds t = (fence, t') →
  fence = mCurrentFence t + 1 ∧ mCurrentFence t' = fence ∧
  sync_inv (<[Z.to_nat s := fence]> fences) t'.
Proof.
  intros [Hc Hcur Hasc Hst Hcov] Hidle Hs Hno. unfold Submit.
  pose proof (ascending_le _ _ _ Hasc) as Hle.
  rewrite UINT64_small by lia. intros [= <- <-].
  split; [done|]. split; [done|].
  constructor; simpl.
  - done.
  - done.
  - rewrite signals_app. apply (ascending_snoc _ (mCurrentFence t)); [done|lia].
  - intros s' f Hs'. rewrite signals_app.
    assert (0 ≤ s') as Hs0 by (by apply at_index_Some in Hs' as [? _]).
    rewrite at_index_insert in Hs' by done.
    case_decide.
    + injection Hs' as <-. split; [lia|]. right; right.
      apply elem_of_app. right. by apply list_elem_of_singleton.
    + destruct (Hst _ _ Hs') as [Hr [?|[?|Hin]]].
      * split; [lia|]. by left.
      * split; [lia|]. by right; left.
      * split; [lia|]. right; right. apply elem_of_app. by left.
  - apply covered_app.
    + eapply covered_ext; [|done]. intros s' Hs'.
      destruct (covered_in_flight _ _ _ Hcov Hs') as (f & Hf & _).
      pose proof (at_index_lt _ _ _ Hf).
      rewrite at_index_insert by lia. case_decide; [|done].
      subst s'. by destruct Hidle.
    + simpl. split; [|done]. exists (mCurrentFence t + 1).
      rewrite at_index_insert by lia. rewrite decide_True by done.
      split; [done|]. by apply list_elem_of_singleton.
Qed.

Lemma Submit_queue s cmds t :
  mCommandQueue (Submit s cmds t).2 =
  mCommandQueue t ++ [ExecuteCommandLists s cmds; Signal (Submit s cmds t).1].
Proof. done. Qed.
End SyncFacts.

(** ** The dirty-count pass *)

Section DirtyPassFacts.
Context {Item Rec : Type}.
Context (NumFramesDirty : Item → Z) (decrement : Item → Item).
Context (CBIndex : Item → Z) (constants : Item → Rec).
Implicit Types (cb : UploadBuffer.t Rec) (table : list Item) (e : Item).

#[local] Abbreviation pass := (update_dirty NumFramesDirty decrement CBIndex constants).
#[local] Abbreviation vis := (visit NumFramesDirty decrement).

(** The record the pass leaves at index [j], if it writes there at all: that
    of the last dirty entry with that index. *)
Fixpoint written table (j : Z) : option Rec :=
  match table with
  | [] => None
  | e :: rest =>
    match written rest j with
    | Some r => Some r
    | None => if decide (0 < NumFramesDirty e ∧ CBIndex e = j)
              then Some (constants e) else None
    end
  end.

(** Number of dirty entries with index [j]. *)
Definition writes table (j : Z) : nat :=
  length (filter (λ e, 0 < NumFramesDirty e ∧ CBIndex e = j) table).

Lemma update_dirty_inv cb table cb' table' :
  pass cb table = Ok (cb', table') →
  table' = vis <$> table ∧
  UploadBuffer.capacity cb' = UploadBuffer.capacity cb ∧
  UploadBuffer.mElementByteSize cb' = UploadBuffer.mElementByteSize cb ∧
  UploadBuffer.GPUVirtualAddress cb' = UploadBuffer.GPUVirtualAddress cb ∧
  (∀ j, UploadBuffer.read cb' j = default (UploadBuffer.read cb j) (Some <$> written table j)) ∧
  (∀ j, UploadBuffer.uploads cb' j = (UploadBuffer.uploads cb j + writes table j)%nat).
Proof.
  revert cb cb' table'. induction table as [|e rest IH]; intros cb cb' table'; simpl.
  - intros [= <- <-]. unfold writes. simpl. repeat split; try done; intros; lia.
  - unfold visit at 1. case_decide as Hd.
    + intros (cb1 & Hcopy & Hrest)%bind_Ok.
      apply bind_Ok in Hrest as ([cb2 rest'] & Hpass & [= <- <-]).
      destruct (IH _ _ _ Hpass) as (-> & Hcap & Hsz & Hva & Hread & Hup).
      pose proof (CopyData_capacity _ _ _ _ Hcopy) as Hcap1.
      destruct (CopyData_inv _ _ _ _ Hcopy) as (_ & Hsz1 & Hva1 & _).
      repeat split; try congruence.
      * intros j. rewrite Hread. destruct (written rest j); [done|]. simpl.
        rewrite (CopyData_read _ _ _ _ j Hcopy).
        destruct (decide (j = CBIndex e)) as [->|Hj].
        -- by rewrite decide_True.
        -- rewrite decide_False; [done|]. intros [_ ?]. congruence.
      * intros j. rewrite Hup. rewrite (CopyData_uploads _ _ _ _ j Hcopy).
        unfold writes. rewrite filter_cons.
        destruct (decide (j = CBIndex e)) as [->|Hj].
        -- rewrite decide_True by done. simpl. lia.
        -- rewrite decide_False; [done|]. intros [_ ?]. congruence.
    + intros ([cb2 rest'] & Hpass & [= <- <-])%bind_Ok.
      destruct (IH _ _ _ Hpass) as (-> & Hcap & Hsz & Hva & Hread & Hup).
      repeat split; try congruence.
      * intros j. rewrite Hread. destruct (written rest j); [done|]. simpl.
        rewrite decide_False; [done|]. intros [? _]. done.
      * intros j. rewrite Hup. unfold writes. rewrite filter_cons.
        rewrite decide_False; [done|]. intros [? _]. done.
Qed.

(** The pass goes through when every dirty entry's index is inside the
    region ... *)
Lemma update_dirty_Ok cb table :
  (∀ e, e ∈ table → 0 < NumFramesDirty e → 0 ≤ CBIndex e < UploadBuffer.capacity cb) →
  ∃ cb', pass cb table = Ok (cb', vis <$> table).
Proof.
  revert cb. induction table as [|e rest IH]; intros cb Hin; simpl.
  - by eexists.
  - unfold visit at 1. case_decide as Hd.
    + destruct (CopyData_Ok cb (CBIndex e) (constants e)) as [cb1 Hcopy].
      { apply Hin; [apply elem_of_cons; by left | done]. }
      rewrite Hcopy. simpl. destruct (IH cb1) as [cb2 Hpass].
      { intros e' He' Hd'. rewrite (CopyData_capacity _ _ _ _ Hcopy).
        apply Hin; [apply elem_of_cons; by right | done]. }
      rewrite Hpass. simpl. by eexists.
    + destruct (IH cb) as [cb2 Hpass].
      { intros e' He' Hd'. apply Hin; [apply elem_of_cons; by right | done]. }
      rewrite Hpass. simpl. by eexists.
Qed.

(** ... and stops with the out-of-range signal when a dirty entry's index
    is at or beyond the capacity while every earlier dirty entry's index is
    not negative. *)
Lemma update_dirty_Fail cb table e :
  e ∈ table → 0 < NumFramesDirty e → UploadBuffer.capacity cb ≤ CBIndex e →
  (∀ e', e' ∈ table → 0 < NumFramesDirty e' → 0 ≤ CBIndex e') →
  pass cb table = Fail OutOfRange.
Proof.
  revert cb. induction table as [|x rest IH]; intros cb He Hd Hcap Hnn.
  - by apply elem_of_nil in He.
  - simpl. destruct (decide (0 < NumFramesDirty x)) as [Hx|Hx].
    + destruct (decide (CBIndex x < UploadBuffer.capacity cb)) as [Hlt|Hge].
      * destruct (CopyData_Ok cb (CBIndex x) (constants x)) as [cb1 Hcopy].
        { split; [|done]. apply Hnn; [apply elem_of_cons; by left | done]. }
        rewrite Hcopy. simpl.
        apply elem_of_cons in He as [->|He]; [lia|].
        rewrite (IH cb1); [done..| |].
        -- by rewrite (CopyData_capacity _ _ _ _ Hcopy).
        -- intros e' He' Hd'. apply Hnn; [apply elem_of_cons; by right | done].
      * rewrite CopyData_Fail by lia. done.
    + apply elem_of_cons in He as [->|He]; [done|].
      rewrite (IH cb); [done..|].
      intros e' He' Hd'. apply Hnn; [apply elem_of_cons; by right | done].
Qed.

Lemma written_None table j :
  (∀ e, e ∈ table → 0 < NumFramesDirty e → CBIndex e ≠ j) → written table j = None.
Proof.
  induction table as [|x rest IH]; intros Hn; simpl; [done|].
  rewrite IH.
  - rewrite decide_False; [done|]. intros [Hd Hj].
    by apply (Hn x); [apply elem_of_cons; left|..].
  - intros e He. apply Hn. apply elem_of_cons. by right.
Qed.

Lemma written_elem table j r :
  written table j = Some r →
  ∃ e, e ∈ table ∧ 0 < NumFramesDirty e ∧ CBIndex e = j ∧ r = constants e.
Proof.
  induction table as [|x rest IH]; simpl; [done|].
  destruct (written rest j) as [r'|].
  - intros [= <-]. destruct IH as (e & He & Hd & Hj & Hr); [done|].
    exists e. split; [apply elem_of_cons; by right | done].
  - case_decide as Hx; [|done]. intros [= <-]. destruct Hx as [Hd Hj].
    exists x. split; [apply elem_of_cons; by left | done].
Qed.

Lemma written_is_Some table e :
  e ∈ table → 0 < NumFramesDirty e → is_Some (written table (CBIndex e)).
Proof.
  induction table as [|x rest IH]; intros He Hd.
  - by apply elem_of_nil in He.
  - simpl. destruct (written rest (CBIndex e)) as [r|] eqn:Hw; [by eexists|].
    apply elem_of_cons in He as [->|He].
    + rewrite decide_True by done. by eexists.
    + destruct (IH He Hd) as [r Hr]. congruence.
Qed.

Lemma written_Some table e :
  e ∈ table → 0 < NumFramesDirty e →
  (∀ e', e' ∈ table → 0 < NumFramesDirty e' → CBIndex e' = CBIndex e →
         constants e' = constants e) →
  written table (CBIndex e) = Some (constants e).
Proof.
  intros He Hd Huniq. destruct (written_is_Some _ _ He Hd) as [r Hr].
  rewrite Hr. f_equal.
  destruct (written_elem _ _ _ Hr) as (e' & He' & Hd' & Hj & ->).
  by apply Huniq.
Qed.

Lemma writes_zero table j :
  (∀ e, e ∈ table → 0 < NumFramesDirty e → CBIndex e ≠ j) → writes table j = O.
Proof.
  unfold writes. induction table as [|x rest IH]; intros Hn; [done|].
  rewrite filter_cons. rewrite decide_False.
  - apply IH. intros e He. apply Hn. apply elem_of_cons. by right.
  - intros [Hd Hj]. by apply (Hn x); [apply elem_of_cons; left|..].
Qed.

(** With pairwise distinct indices a dirty entry is written exactly once. *)
Lemma writes_one table e :
  NoDup (CBIndex <$> table) → e ∈ table → 0 < NumFramesDirty e →
  writes table (CBIndex e) = 1%nat.
Proof.
  unfold writes. induction table as [|x rest IH]; intros Hnd He Hd.
  - by apply elem_of_nil in He.
  - rewrite fmap_cons in Hnd. apply NoDup_cons in Hnd as [Hx Hnd].
    rewrite filter_cons. apply elem_of_cons in He as [->|He].
    + rewrite decide_True by done. simpl. f_equal.
      apply writes_zero. intros e' He' _ Heq. apply Hx. rewrite <- Heq.
      by apply list_elem_of_fmap_2.
    + rewrite decide_False; [by apply IH|]. intros [_ Heq]. apply Hx. rewrite Heq.
      by apply list_elem_of_fmap_2.
Qed.
End DirtyPassFacts.

(** ** TexWavesApp: what never changes, and the invariant *)

Section TexWavesFacts.
Context `{Float32} `{RecordSizes}.
Context (N : Z).
Import TexWaves TexWavesSteps.
Implicit Types (a : App) (fr : FrameResource.t).

(** Capacity, record size and base address of an upload region. *)
Definition region {T} (b : UploadBuffer.t T) : Z * Z * Z :=
  (UploadBuffer.capacity b, UploadBuffer.mElementByteSize b,
   UploadBuffer.GPUVirtualAddress b).

Definition slot_regions fr : (Z * Z * Z) * (Z * Z * Z) :=
  (region (FrameResource.ObjectCB fr), region (FrameResource.MaterialCB fr)).

Definition material_indices (m : Material.t) : Z * Z :=
  (Material.MatCBIndex m, Material.DiffuseSrvHeapIndex m).

(** The parts of the state that are fixed at start-up: the items' indices
    and material names, the materials' indices, the regions of each ring
    slot, the opaque layer and the descriptor heap geometry. *)
Definition layout a
    : list Z * list string * gmap string (Z * Z) * list ((Z * Z * Z) * (Z * Z * Z))
      * list nat * (Z * Z) :=
  (RenderItem.ObjCBIndex <$> mAllRitems a,
   RenderItem.Mat <$> mAllRitems a,
   material_indices <$> mMaterials a,
   slot_regions <$> mFrameResources a,
   mRitemLayer a,
   (mSrvHeapStart a, mCbvSrvDescriptorSize a)).

(** What start-up establishes about the fixed parts. *)
Record wf_layout a : Prop := {
  wf_ring : Z.of_nat (length (mFrameResources a)) = N;
  wf_objects : ∀ fr e, fr ∈ mFrameResources a → e ∈ mAllRitems a →
    0 ≤ RenderItem.ObjCBIndex e < UploadBuffer.capacity (FrameResource.ObjectCB fr);
  wf_materials : ∀ fr k m, fr ∈ mFrameResources a → mMaterials a !! k = Some m →
    0 ≤ Material.MatCBIndex m < UploadBuffer.capacity (FrameResource.MaterialCB fr);
  wf_object_indices : NoDup (RenderItem.ObjCBIndex <$> mAllRitems a);
  wf_material_indices : ∀ k1 k2 m1 m2,
    mMaterials a !! k1 = Some m1 → mMaterials a !! k2 = Some m2 →
    Material.MatCBIndex m1 = Material.MatCBIndex m2 → k1 = k2;
  wf_water : is_Some (mMaterials a !! "water"%string);
  wf_mat : ∀ e, e ∈ mAllRitems a → is_Some (mMaterials a !! RenderItem.Mat e);
  wf_layer : ∀ p, p ∈ mRitemLayer a → (p < length (mAllRitems a))%nat;
}.

(** The invariant of the message loop. *)
Record wf a : Prop := {
  wf_static : wf_layout a;
  wf_index : 0 ≤ mCurrFrameResourceIndex a < N;
  wf_sync : sync_inv (FrameResource.Fence <$> mFrameResources a) (timeline a);
  wf_item_dirty : ∀ e, e ∈ mAllRitems a → 0 ≤ RenderItem.NumFramesDirty e ≤ N;
  wf_material_dirty : ∀ k m, mMaterials a !! k = Some m →
    0 ≤ Material.NumFramesDirty m ≤ N;
}.

Lemma wf_layout_ext a a' : layout a' = layout a → wf_layout a → wf_layout a'.
Proof.
  unfold layout. intros [= Hobj Hmat Hmi Hring Hlayer Hs Hd] [Hr Ho Hm Hoi Hmi' Hw Hma Hl].
  assert (length (mFrameResources a') = length (mFrameResources a)) as Hlen.
  { apply (f_equal length) in Hring. by rewrite !length_fmap in Hring. }
  assert (length (mAllRitems a') = length (mAllRitems a)) as Hlen'.
  { apply (f_equal length) in Hobj. by rewrite !length_fmap in Hobj. }
  assert (∀ fr, fr ∈ mFrameResources a' → ∃ fr0, fr0 ∈ mFrameResources a ∧
            slot_regions fr = slot_regions fr0) as Hfr.
  { intros fr [i Hi]%list_elem_of_lookup.
    apply (f_equal (λ l, l !! i)) in Hring. rewrite !list_lookup_fmap, Hi in Hring.
    destruct (mFrameResources a !! i) as [fr0|] eqn:Hfr0; [|done].
    exists fr0. split; [|simpl in Hring; congruence].
    apply list_elem_of_lookup. by exists i. }
  assert (∀ e, e ∈ mAllRitems a' → ∃ e0, e0 ∈ mAllRitems a ∧
            RenderItem.ObjCBIndex e = RenderItem.ObjCBIndex e0 ∧
            RenderItem.Mat e = RenderItem.Mat e0) as Hit.
  { intros e [i Hi]%list_elem_of_lookup.
    apply (f_equal (λ l, l !! i)) in Hobj. apply (f_equal (λ l, l !! i)) in Hmat.
    rewrite !list_lookup_fmap, Hi in Hobj. rewrite !list_lookup_fmap, Hi in Hmat.
    destruct (mAllRitems a !! i) as [e0|] eqn:He0; [|done].
    exists e0. split; [|simpl in Hobj, Hmat; split; congruence].
    apply list_elem_of_lookup. by exists i. }
  assert (∀ k m, mMaterials a' !! k = Some m → ∃ m0, mMaterials a !! k = Some m0 ∧
            Material.MatCBIndex m = Material.MatCBIndex m0) as Hmt.
  { intros k m Hk. apply (f_equal (λ l, l !! k)) in Hmi.
    rewrite !lookup_fmap, Hk in Hmi.
    destruct (mMaterials a !! k) as [m0|]; [|done].
    exists m0. split; [done|]. unfold material_indices in Hmi. simpl in Hmi. congruence. }
  assert (∀ k, is_Some (mMaterials a !! k) → is_Some (mMaterials a' !! k)) as Hdom.
  { intros k. rewrite <- !(fmap_is_Some material_indices).
    by rewrite <- !lookup_fmap, Hmi. }
  constructor.
  - by rewrite Hlen.
  - intros fr e (fr0 & Hfr0 & Hro)%Hfr (e0 & He0 & -> & _)%Hit.
    injection Hro as -> _ _. by apply Ho.
  - intros fr k m (fr0 & Hfr0 & Hrm)%Hfr (m0 & Hm0 & ->)%Hmt.
    injection Hrm as _ _ _ -> _ _. by eapply Hm.
  - by rewrite Hobj.
  - intros k1 k2 m1 m2 (m1' & H1 & ->)%Hmt (m2' & H2 & ->)%Hmt. by eapply Hmi'.
  - by apply Hdom.
  - intros e (e0 & He0 & _ & ->)%Hit. by apply Hdom, Hma.
  - intros p. rewrite Hlayer, Hlen'. apply Hl.
Qed.

Lemma mapM_Ok {A B} (f : A → result B) (l : list A) :
  (∀ x, x ∈ l → ∃ y, f x = Ok y) → ∃ ys, mapM f l = Ok ys.
Proof using Type.
  induction l as [|x l IH]; intros Hf; simpl.
  - by eexists.
  - destruct (Hf x) as [y Hy]; [apply elem_of_cons; by left|].
    destruct IH as [ys Hys]; [intros x' Hx'; apply Hf, elem_of_cons; by right|].
    rewrite Hy. simpl. rewrite Hys. simpl. by eexists.
Qed.

(** The water material after [AnimateMaterials]. *)
Definition scrolled (gt : GameTimer) (waterMat : Material.t) : Material.t :=
  let tu := fadd (_41 (Material.MatTransform waterMat)) (fmul (flit 1 1) (DeltaTime gt)) in
  let tv := fadd (_42 (Material.MatTransform waterMat)) (fmul (flit 2 2) (DeltaTime gt)) in
  let tu := if fge tu (flit 1 0) then fsub tu (flit 1 0) else tu in
  let tv := if fge tv (flit 1 0) then fsub tv (flit 1 0) else tv in
  Material.set_NumFramesDirty N
    (Material.set_MatTransform (set_41_42 tu tv (Material.MatTransform waterMat)) waterMat).

Abbreviation visit_item := (visit RenderItem.NumFramesDirty RenderItem.decrement).
Abbreviation visit_material := (visit Material.NumFramesDirty Material.decrement).

Lemma AnimateMaterials_spec gt a w :
  mMaterials a !! "water"%string = Some w →
  AnimateMaterials N gt a
  = Ok (set_mMaterials (<["water"%string := scrolled gt w]> (mMaterials a)) a).
Proof. intros Hw. unfold AnimateMaterials. rewrite Hw. done. Qed.

Lemma visit_entry (e : string * Material.t) :
  visit (Material.NumFramesDirty ∘ snd) (prod_map id Material.decrement) e
  = prod_map id visit_material e.
Proof. destruct e as [k m]. unfold visit. simpl. by case_decide. Qed.

Lemma visit_entries (mats : gmap string Material.t) :
  list_to_map (visit (Material.NumFramesDirty ∘ snd) (prod_map id Material.decrement)
                 <$> map_to_list mats)
  = visit_material <$> mats.
Proof.
  erewrite list_fmap_ext; [|intros ???; apply visit_entry].
  by rewrite list_to_map_fmap, list_to_map_to_list.
Qed.

Ltac unfold_app :=
  unfold mCurrFrameResource, set_mCurrFrameResource, set_mFrameResources,
    set_mCurrFrameResourceIndex, set_mMaterials, set_mAllRitems, set_timeline,
    FrameResource.set_ObjectCB, FrameResource.set_MaterialCB, FrameResource.set_Fence;
  simpl.

Abbreviation object_pass :=
  (update_dirty RenderItem.NumFramesDirty RenderItem.decrement
     RenderItem.ObjCBIndex objConstants).
Abbreviation material_pass :=
  (update_dirty (Material.NumFramesDirty ∘ snd) (prod_map id Material.decrement)
     (Material.MatCBIndex ∘ snd) (matConstants ∘ snd)).

Lemma current_slot a :
  Z.of_nat (length (mFrameResources a)) = N →
  0 ≤ mCurrFrameResourceIndex a < N →
  ∃ fr, at_index (mFrameResources a) (mCurrFrameResourceIndex a) = Some fr ∧
        mCurrFrameResource a = Ok fr.
Proof.
  intros Hlen Hi. unfold mCurrFrameResource.
  destruct (at_index_is_Some (mFrameResources a) (mCurrFrameResourceIndex a)) as [fr Hfr];
    [lia|].
  exists fr. by rewrite Hfr.
Qed.

(** [Update] under the invariant: the slot is selected, the wait returns,
    and the three passes go through. *)
Lemma Update_spec gt a :
  1 ≤ N → wf a →
  let s := NextFrameResourceIndex N (mCurrFrameResourceIndex a) in
  ∃ fr t' w cbO cbM,
    at_index (mFrameResources a) s = Some fr ∧
    WaitForFrameResource (FrameResource.Fence fr) (timeline a) = Ok t' ∧
    mMaterials a !! "water"%string = Some w ∧
    object_pass (FrameResource.ObjectCB fr) (mAllRitems a)
      = Ok (cbO, visit_item <$> mAllRitems a) ∧
    (∃ l, material_pass (FrameResource.MaterialCB fr)
            (map_to_list (<["water"%string := scrolled gt w]> (mMaterials a)))
          = Ok (cbM, l)) ∧
    Update N gt a
    = Ok (mkApp (<[Z.to_nat s := FrameResource.mk cbO cbM (FrameResource.Fence fr)]>
                   (mFrameResources a))
                s
                (visit_material <$> <["water"%string := scrolled gt w]> (mMaterials a))
                (visit_item <$> mAllRitems a)
                (mRitemLayer a) (mSrvHeapStart a) (mCbvSrvDescriptorSize a) t').
Proof.
  intros HN [Hlay Hidx Hsync Hid Hmd] s.
  pose proof (NextFrameResourceIndex_range N (mCurrFrameResourceIndex a) HN ltac:(lia)) as Hs.
  fold s in Hs.
  destruct a as [ring idx mats items layer heap dsz tl]. simpl in *.
  pose proof (wf_ring _ Hlay) as Hlen. simpl in Hlen.
  destruct (at_index_is_Some ring s) as [fr Hfr]; [lia|].
  assert (fr ∈ ring) as Hin.
  { apply at_index_Some in Hfr as [_ Hfr]. apply list_elem_of_lookup. eauto. }
  destruct (WaitForFrameResource_spec (FrameResource.Fence <$> ring) tl s
              (FrameResource.Fence fr) Hsync) as (t' & Hwait & _).
  { by rewrite at_index_fmap, Hfr. }
  destruct (wf_water _ Hlay) as [w Hw]. simpl in Hw.
  destruct (update_dirty_Ok RenderItem.NumFramesDirty RenderItem.decrement
              RenderItem.ObjCBIndex objConstants (FrameResource.ObjectCB fr) items)
    as [cbO HcbO].
  { intros e He _. by apply (wf_objects _ Hlay). }
  set (mats1 := <["water"%string := scrolled gt w]> mats).
  destruct (update_dirty_Ok (Material.NumFramesDirty ∘ snd) (prod_map id Material.decrement)
              (Material.MatCBIndex ∘ snd) (matConstants ∘ snd)
              (FrameResource.MaterialCB fr) (map_to_list mats1))
    as [cbM HcbM].
  { intros [k m] Hk%elem_of_map_to_list _. simpl. unfold mats1 in Hk.
    destruct (decide (k = "water"%string)) as [->|Hne].
    - rewrite lookup_insert_eq in Hk. injection Hk as <-.
      by apply (wf_materials _ Hlay fr "water"%string w).
    - rewrite lookup_insert_ne in Hk by done. by apply (wf_materials _ Hlay fr k m). }
  exists fr, t', w, cbO, cbM. split; [done|]. split; [done|]. split; [done|].
  split; [done|]. split; [by eexists|].
  unfold Update. unfold_app. fold s. rewrite Hfr. simpl.
  rewrite Hwait. simpl.
  unfold AnimateMaterials. unfold_app. rewrite Hw. simpl.
  unfold UpdateObjectCBs. unfold_app. rewrite Hfr. simpl.
  rewrite HcbO. simpl.
  unfold UpdateMaterialCBs. unfold_app.
  rewrite at_index_insert by lia. rewrite decide_True by done.
  simpl. fold (scrolled gt w). fold mats1. rewrite HcbM. simpl. unfold_app.
  rewrite visit_entries, list_insert_insert_eq. done.
Qed.

Lemma DrawRenderItems_Ok a :
  wf_layout a → 0 ≤ mCurrFrameResourceIndex a < N →
  ∃ cmds, DrawRenderItems a (mRitemLayer a) = Ok cmds.
Proof.
  intros Hlay Hidx. unfold DrawRenderItems.
  destruct (current_slot a (wf_ring _ Hlay) Hidx) as (fr & _ & ->). simpl.
  apply mapM_Ok. intros p Hp.
  destruct (lookup_lt_is_Some_2 (mAllRitems a) p (wf_layer _ Hlay p Hp)) as [ri Hri].
  rewrite Hri. simpl. unfold DrawRenderItem.
  destruct (wf_mat _ Hlay ri) as [mat Hmat]; [apply list_elem_of_lookup; eauto|].
  rewrite Hmat. simpl. by eexists.
Qed.

(** [Draw] under the invariant: the draws are recorded and submitted, and the
    current slot takes the incremented fence value. *)
Lemma Draw_spec gt a :
  wf_layout a → 0 ≤ mCurrFrameResourceIndex a < N →
  ∃ fr cmds,
    at_index (mFrameResources a) (mCurrFrameResourceIndex a) = Some fr ∧
    DrawRenderItems a (mRitemLayer a) = Ok cmds ∧
    Draw gt a
    = Ok (mkApp (<[Z.to_nat (mCurrFrameResourceIndex a) :=
                     FrameResource.mk (FrameResource.ObjectCB fr) (FrameResource.MaterialCB fr)
                       (Submit (mCurrFrameResourceIndex a) cmds (timeline a)).1]>
                   (mFrameResources a))
                (mCurrFrameResourceIndex a) (mMaterials a) (mAllRitems a)
                (mRitemLayer a) (mSrvHeapStart a) (mCbvSrvDescriptorSize a)
                (Submit (mCurrFrameResourceIndex a) cmds (timeline a)).2).
Proof.
  intros Hlay Hidx.
  destruct (current_slot a (wf_ring _ Hlay) Hidx) as (fr & Hfr & Hcur).
  destruct (DrawRenderItems_Ok a Hlay Hidx) as [cmds Hcmds].
  exists fr, cmds. split; [done|]. split; [done|].
  unfold Draw. rewrite Hcur. simpl. rewrite Hcmds. simpl. done.
Qed.

Lemma visit_item_index e : RenderItem.ObjCBIndex (visit_item e) = RenderItem.ObjCBIndex e.
Proof. unfold visit. by case_decide. Qed.

Lemma visit_item_Mat e : RenderItem.Mat (visit_item e) = RenderItem.Mat e.
Proof. unfold visit. by case_decide. Qed.

Lemma visit_item_dirty e :
  RenderItem.NumFramesDirty (visit_item e)
  = if decide (0 < RenderItem.NumFramesDirty e) then RenderItem.NumFramesDirty e - 1
    else RenderItem.NumFramesDirty e.
Proof. unfold visit. by case_decide. Qed.

Lemma visit_material_indices m : material_indices (visit_material m) = material_indices m.
Proof. unfold visit. by case_decide. Qed.

Lemma visit_material_dirty m :
  Material.NumFramesDirty (visit_material m)
  = if decide (0 < Material.NumFramesDirty m) then Material.NumFramesDirty m - 1
    else Material.NumFramesDirty m.
Proof. unfold visit. by case_decide. Qed.

Lemma visit_material_constants m : matConstants (visit_material m) = matConstants m.
Proof. unfold visit. by case_decide. Qed.

Lemma visit_item_constants e : objConstants (visit_item e) = objConstants e.
Proof. unfold visit. by case_decide. Qed.

Lemma scrolled_indices gt w : material_indices (scrolled gt w) = material_indices w.
Proof. done. Qed.

Lemma scrolled_dirty gt w : Material.NumFramesDirty (scrolled gt w) = N.
Proof. done. Qed.

Lemma update_dirty_region {Item Rec} (d : Item → Z) dec (ix : Item → Z) (c : Item → Rec)
    cb table cb' table' :
  update_dirty d dec ix c cb table = Ok (cb', table') → region cb' = region cb.
Proof using Type.
  intros (_ & Hc & Hs & Hv & _)%update_dirty_inv. unfold region. congruence.
Qed.

(** Rewriting one ring slot's regions in place, visiting every entry and
    scrolling the water leaves the fixed parts of the state alone. *)
Lemma layout_frame a s fr w gt cbO cbM fence idx' tl' :
  at_index (mFrameResources a) s = Some fr →
  mMaterials a !! "water"%string = Some w →
  region cbO = region (FrameResource.ObjectCB fr) →
  region cbM = region (FrameResource.MaterialCB fr) →
  layout (mkApp (<[Z.to_nat s := FrameResource.mk cbO cbM fence]> (mFrameResources a))
                idx'
                (visit_material <$> <["water"%string := scrolled gt w]> (mMaterials a))
                (visit_item <$> mAllRitems a)
                (mRitemLayer a) (mSrvHeapStart a) (mCbvSrvDescriptorSize a) tl')
  = layout a.
Proof.
  intros Hfr Hw HcbO HcbM. unfold layout. simpl.
  apply at_index_Some in Hfr as [Hs Hfr].
  rewrite <- !list_fmap_compose.
  rewrite (list_fmap_ext (RenderItem.ObjCBIndex ∘ visit_item) RenderItem.ObjCBIndex
             (mAllRitems a)) by (intros; apply visit_item_index).
  rewrite (list_fmap_ext (RenderItem.Mat ∘ visit_item) RenderItem.Mat
             (mAllRitems a)) by (intros; apply visit_item_Mat).
  rewrite <- map_fmap_compose.
  rewrite (map_fmap_ext (material_indices ∘ visit_material) material_indices)
    by (intros; apply visit_material_indices).
  rewrite fmap_insert, scrolled_indices.
  rewrite (insert_id (material_indices <$> mMaterials a))
    by (by rewrite lookup_fmap, Hw).
  rewrite list_fmap_insert.
  rewrite (list_insert_id (slot_regions <$> mFrameResources a)); [done|].
  rewrite list_lookup_fmap, Hfr. simpl. unfold slot_regions. simpl. congruence.
Qed.

Lemma gpu_wf n a : wf a → wf (gpu n a).
Proof.
  intros [Hlay Hidx Hsync Hid Hmd]. constructor; try done.
  - by destruct Hlay.
  - simpl. by apply gpu_run_inv.
Qed.

(** The state one turn of the message loop leads to, given the water
    material [w] before the turn, the regions [cbO] and [cbM] the two passes
    leave in the selected slot, and the timeline [tl] after submission. *)
Definition turned (i : FrameInput) a w cbO cbM tl : App :=
  let s := NextFrameResourceIndex N (mCurrFrameResourceIndex a) in
  mkApp (<[Z.to_nat s := FrameResource.mk cbO cbM (mCurrentFence (timeline a) + 1)]>
           (mFrameResources a))
        s
        (visit_material <$> <["water"%string := scrolled (gt i) w]> (mMaterials a))
        (visit_item <$> mAllRitems a)
        (mRitemLayer a) (mSrvHeapStart a) (mCbvSrvDescriptorSize a) tl.

(** One turn of the message loop under the invariant. *)
Lemma Frame_spec i a :
  1 ≤ N → wf a → mCurrentFence (timeline a) + 1 < 2 ^ 64 →
  let s := NextFrameResourceIndex N (mCurrFrameResourceIndex a) in
  ∃ fr w cbO cbM l tl,
    at_index (mFrameResources a) s = Some fr ∧
    mMaterials a !! "water"%string = Some w ∧
    object_pass (FrameResource.ObjectCB fr) (mAllRitems a)
      = Ok (cbO, visit_item <$> mAllRitems a) ∧
    material_pass (FrameResource.MaterialCB fr)
      (map_to_list (<["water"%string := scrolled (gt i) w]> (mMaterials a))) = Ok (cbM, l) ∧
    mCurrentFence tl = mCurrentFence (timeline a) + 1 ∧
    Frame N i a = Ok (turned i a w cbO cbM tl) ∧
    wf (turned i a w cbO cbM tl).
Proof.
  intros HN Hwf Hno s.
  pose proof (gpu_wf (gpu_before_update i) a Hwf) as Hwf0.
  destruct (Update_spec (gt i) _ HN Hwf0) as (fr & t1 & w & cbO & cbM & Hfr & Hwait & Hw & HcbO & [l HcbM] & HU).
  simpl in Hfr, Hw, HcbO, HcbM. fold s in Hfr, HU.
  destruct Hwf as [Hlay Hidx Hsync Hid Hmd].
  pose proof (NextFrameResourceIndex_range N (mCurrFrameResourceIndex a) HN ltac:(lia)) as Hs.
  fold s in Hs.
  pose proof (wf_ring _ Hlay) as Hlen.
  destruct (WaitForFrameResource_spec (FrameResource.Fence <$> mFrameResources a)
              (gpu_run (gpu_before_update i) (timeline a)) s (FrameResource.Fence fr))
    as (t1' & Hwait' & _ & Hsync1 & Hreached & Hidle & _).
  { by apply gpu_run_inv. }
  { by rewrite at_index_fmap, Hfr. }
  simpl in Hwait. rewrite Hwait in Hwait'. injection Hwait' as <-.
  set (a1 := mkApp _ _ _ _ _ _ _ _) in HU.
  assert (layout a1 = layout a) as Hlay1.
  { apply (layout_frame a s fr w); try done.
    - by eapply update_dirty_region.
    - by eapply update_dirty_region. }
  assert (wf_layout (gpu (gpu_before_draw i) a1)) as Hlay2.
  { apply (wf_layout_ext a); [|done]. by rewrite <- Hlay1. }
  destruct (Draw_spec (gt i) (gpu (gpu_before_draw i) a1) Hlay2)
    as (fr1 & cmds & Hfr1 & Hcmds & HD); [done|].
  simpl in Hfr1. rewrite at_index_insert in Hfr1 by lia.
  rewrite decide_True in Hfr1 by done. injection Hfr1 as <-.
  cbn -[Submit gpu_run] in HD. fold s in HD. rewrite list_insert_insert_eq in HD.
  destruct (Submit s cmds (gpu_run (gpu_before_draw i) t1)) as [fence tl] eqn:Hsub.
  destruct (Submit_inv (FrameResource.Fence <$> mFrameResources a)
              (gpu_run (gpu_before_draw i) t1) s cmds fence tl)
    as (Hfence & Hcur & Hsync2).
  { by apply gpu_run_inv. }
  { by apply gpu_run_idle. }
  { rewrite length_fmap. lia. }
  { rewrite gpu_run_mCurrentFence.
    destruct (WaitForFrameResource_spec (FrameResource.Fence <$> mFrameResources a)
                (gpu_run (gpu_before_update i) (timeline a)) s (FrameResource.Fence fr))
      as (t1' & Hwait' & [n ->] & _).
    - by apply gpu_run_inv.
    - by rewrite at_index_fmap, Hfr.
    - rewrite Hwait in Hwait'. injection Hwait' as ->.
      by rewrite !gpu_run_mCurrentFence. }
  { done. }
  assert (mCurrentFence (gpu_run (gpu_before_draw i) t1) = mCurrentFence (timeline a)) as Hcur1.
  { rewrite gpu_run_mCurrentFence.
    destruct (WaitForFrameResource_spec (FrameResource.Fence <$> mFrameResources a)
                (gpu_run (gpu_before_update i) (timeline a)) s (FrameResource.Fence fr))
      as (t1' & Hwait' & [n ->] & _).
    - by apply gpu_run_inv.
    - by rewrite at_index_fmap, Hfr.
    - rewrite Hwait in Hwait'. injection Hwait' as ->.
      by rewrite !gpu_run_mCurrentFence. }
  rewrite Hcur1 in Hfence. simpl in HD. subst fence.
  exists fr, w, cbO, cbM, l, tl.
  split; [done|]. split; [done|]. split; [done|]. split; [done|]. split; [done|].
  split.
  - unfold Frame. rewrite HU. simpl. rewrite HD. done.
  - constructor.
    + apply (wf_layout_ext a); [|done]. unfold turned. fold s.
      apply (layout_frame a s fr w); try done.
      * by eapply update_dirty_region.
      * by eapply update_dirty_region.
    + done.
    + simpl. fold s. rewrite list_fmap_insert. simpl. done.
    + simpl. intros e (e0 & -> & He0)%list_elem_of_fmap.
      rewrite visit_item_dirty. specialize (Hid e0 He0). case_decide; lia.
    + simpl. intros k m. rewrite lookup_fmap.
      destruct (decide (k = "water"%string)) as [->|Hne].
      * rewrite lookup_insert_eq. simpl. intros [= <-].
        rewrite visit_material_dirty, scrolled_dirty. case_decide; lia.
      * rewrite lookup_insert_ne by done.
        destruct (mMaterials a !! k) as [m0|] eqn:Hm0; [|done]. simpl. intros [= <-].
        rewrite visit_material_dirty. specialize (Hmd k m0 Hm0). case_decide; lia.
Qed.

Lemma ModifyItem_wf p world a : 0 ≤ N → wf a → wf (ModifyItem N p world a).
Proof.
  intros HN [Hlay Hidx Hsync Hid Hmd].
  assert (∀ e, e ∈ alter (λ e, markDirty N (RenderItem.set_World world e)) p (mAllRitems a) →
            ∃ e0, e0 ∈ mAllRitems a ∧ RenderItem.ObjCBIndex e = RenderItem.ObjCBIndex e0 ∧
                  RenderItem.Mat e = RenderItem.Mat e0 ∧
                  (RenderItem.NumFramesDirty e = N ∨
                   RenderItem.NumFramesDirty e = RenderItem.NumFramesDirty e0)) as Hit.
  { intros e [j Hj]%list_elem_of_lookup. rewrite list_lookup_alter in Hj.
    case_decide as Hpj.
    - subst j. destruct (mAllRitems a !! p) as [e0|] eqn:He0; [|done]. injection Hj as <-.
      exists e0. split; [apply list_elem_of_lookup; eauto|]. simpl. auto.
    - exists e. split; [apply list_elem_of_lookup; eauto|]. auto. }
  constructor; try done.
  - apply (wf_layout_ext a); [|done]. unfold layout, ModifyItem. simpl.
    rewrite !(list_fmap_alter _ _ id) by (by apply Forall_forall).
    rewrite !list_alter_id by done. done.
  - intros e (e0 & He0 & _ & _ & [->| ->])%Hit; [lia|by apply Hid].
Qed.

Lemma ModifyMaterial_wf name transform a :
  0 ≤ N → wf a → wf (ModifyMaterial N name transform a).
Proof.
  intros HN [Hlay Hidx Hsync Hid Hmd]. constructor; try done.
  - apply (wf_layout_ext a); [|done]. unfold layout, ModifyMaterial. simpl.
    f_equal. f_equal. f_equal. f_equal.
    apply map_eq. intros k. rewrite !lookup_fmap, lookup_alter.
    case_decide; [|done]. subst k. by destruct (mMaterials a !! name).
  - simpl. intros k m. rewrite lookup_alter. case_decide.
    + subst k. destruct (mMaterials a !! name) as [m0|]; [|done].
      simpl. intros [= <-]. simpl. lia.
    + apply Hmd.
Qed.

(** Any sequence of turns and modifications goes through while the fence
    counter has room, keeps the invariant, advances the counter by one per
    turn and the ring index by one per turn modulo [N]. *)
Lemma Steps_spec l a :
  1 ≤ N → wf a → mCurrentFence (timeline a) + turns l < 2 ^ 64 →
  ∃ a', Steps N l a = Ok a' ∧ wf a' ∧
        mCurrentFence (timeline a') = mCurrentFence (timeline a) + turns l ∧
        mCurrFrameResourceIndex a' = (mCurrFrameResourceIndex a + turns l) `mod` N.
Proof.
  intros HN. revert a. induction l as [|st l IH]; intros a Hwf Hno.
  - exists a. simpl. split; [done|]. split; [done|]. split; [lia|].
    rewrite Z.add_0_r, Z.mod_small; [done|]. apply (wf_index _ Hwf).
  - assert (0 ≤ turns l) as Hnn.
    { clear. induction l as [|[] l IH]; simpl; lia. }
    destruct st as [i|p world|name transform]; simpl in *.
    + destruct (Frame_spec i a HN Hwf) as (fr & w & cbO & cbM & l' & tl & _ & _ & _ & _ & Hcur & HF & Hwf');
        [lia|].
      rewrite HF. simpl. destruct (IH _ Hwf') as (a' & HS & Hwf'' & Hcur' & Hidx').
      { simpl. lia. }
      exists a'. split; [done|]. split; [done|]. simpl in Hcur', Hidx'.
      split; [lia|]. rewrite Hidx'.
      rewrite NextFrameResourceIndex_mod by (try done; apply (wf_index _ Hwf)).
      rewrite Zplus_mod_idemp_l. f_equal. lia.
    + destruct (IH (ModifyItem N p world a)) as (a' & HS & Hwf'' & Hcur' & Hidx');
        [apply ModifyItem_wf; [lia|done] | done |].
      by exists a'.
    + destruct (IH (ModifyMaterial N name transform a)) as (a' & HS & Hwf'' & Hcur' & Hidx');
        [apply ModifyMaterial_wf; [lia|done] | done |].
      by exists a'.
Qed.

(** *** Start-up establishes the invariant *)

(** The scene names only materials that [BuildMaterials] creates, and its
    size fits the [UINT] cast of [mAllRitems.size()]. *)
Definition well_authored (scene : list Authored) : bool :=
  bool_decide (Z.of_nat (length scene) < 2 ^ 32)
  && forallb (λ s, bool_decide (aMat s ∈ ["grass"; "water"; "wirefence"; "stone"]%string)) scene.

Lemma BuildRenderItemsFrom_lookup c scene k e :
  BuildRenderItemsFrom N c scene !! k = Some e →
  ∃ s, scene !! k = Some s ∧
       RenderItem.ObjCBIndex e = UINT (c + Z.of_nat k) ∧
       RenderItem.Mat e = aMat s ∧ RenderItem.NumFramesDirty e = N ∧
       RenderItem.World e = aWorld s ∧ RenderItem.TexTransform e = aTexTransform s.
Proof.
  revert c k. induction scene as [|s scene IH]; intros c k; simpl; [done|].
  destruct k as [|k]; simpl.
  - intros [= <-]. exists s. simpl. rewrite Z.add_0_r. done.
  - intros (s' & Hs' & Hi & Hrest)%IH. exists s'. split; [done|].
    split; [|done]. rewrite Hi. f_equal. lia.
Qed.

Lemma BuildRenderItemsFrom_length c scene :
  length (BuildRenderItemsFrom N c scene) = length scene.
Proof. revert c. induction scene as [|s scene IH]; intros c; simpl; [done|]. by rewrite IH. Qed.


Lemma BuildMaterials_lookup k m :
  BuildMaterials N !! k = Some m →
  k ∈ ["grass"; "water"; "wirefence"; "stone"]%string ∧
  Material.NumFramesDirty m = N ∧
  0 ≤ Material.MatCBIndex m < 4 ∧
  (k = "grass"%string ↔ Material.MatCBIndex m = 0) ∧
  (k = "water"%string ↔ Material.MatCBIndex m = 1) ∧
  (k = "wirefence"%string ↔ Material.MatCBIndex m = 2) ∧
  (k = "stone"%string ↔ Material.MatCBIndex m = 3).
Proof.
  unfold BuildMaterials.
  rewrite !lookup_insert_Some, lookup_empty.
  intros [[<- <-]|[? [[<- <-]|[? [[<- <-]|[? [[<- <-]|[? ?]]]]]]]]; try done;
    simpl; (split; [rewrite !elem_of_cons; tauto|]); (split; [done|]); (split; [lia|]);
    repeat split; intros ?; first [done | lia].
Qed.

Lemma BuildMaterials_is_Some k :
  k ∈ ["grass"; "water"; "wirefence"; "stone"]%string → is_Some (BuildMaterials N !! k).
Proof.
  unfold BuildMaterials. rewrite !elem_of_cons, elem_of_nil.
  intros [->|[->|[->|[->|[]]]]]; by eexists.
Qed.

Lemma BuildMaterials_size : size (BuildMaterials N) = 4%nat.
Proof.
  unfold BuildMaterials.
  rewrite !map_size_insert_None, map_size_empty; [done|..]; by simplify_map_eq.
Qed.

Lemma Initialize_wf device scene fence0 :
  1 ≤ N → well_authored scene = true → 0 ≤ fence0 < 2 ^ 64 →
  wf (Initialize N device scene fence0).
Proof.
  intros HN [Hlen Hmats]%andb_prop Hf.
  apply bool_decide_eq_true in Hlen. rewrite forallb_forall in Hmats.
  assert (∀ fr, fr ∈ mFrameResources (Initialize N device scene fence0) →
            UploadBuffer.capacity (FrameResource.ObjectCB fr) = Z.of_nat (length scene) ∧
            UploadBuffer.capacity (FrameResource.MaterialCB fr) = 4 ∧
            FrameResource.Fence fr = 0) as Hfr.
  { simpl. unfold BuildFrameResources. intros fr (i & -> & Hi)%list_elem_of_fmap.
    unfold FrameResource.create. simpl. unfold BuildRenderItems.
    rewrite BuildRenderItemsFrom_length, BuildMaterials_size.
    rewrite !create_capacity; rewrite ?UINT_small; try done; lia. }
  assert (∀ e, e ∈ mAllRitems (Initialize N device scene fence0) →
            ∃ k s, scene !! k = Some s ∧ RenderItem.ObjCBIndex e = Z.of_nat k ∧
                   RenderItem.Mat e = aMat s ∧ RenderItem.NumFramesDirty e = N) as Hit.
  { simpl. unfold BuildRenderItems. intros e [k Hk]%list_elem_of_lookup.
    destruct (BuildRenderItemsFrom_lookup _ _ _ _ Hk) as (s & Hs & Hi & Hm & Hd & _).
    exists k, s. split; [done|]. split; [|done]. rewrite Hi.
    apply lookup_lt_Some in Hs. rewrite UINT_small; lia. }
  constructor; [constructor|..].
  - simpl. unfold BuildFrameResources. rewrite length_fmap, length_seqZ. lia.
  - intros fr e [-> _]%Hfr (k & s & Hs & -> & _)%Hit.
    apply lookup_lt_Some in Hs. lia.
  - intros fr k m (_ & -> & _)%Hfr Hm. simpl in Hm.
    by destruct (BuildMaterials_lookup _ _ Hm) as (_ & _ & ? & _).
  - simpl. unfold BuildRenderItems. apply NoDup_alt. intros i j x.
    rewrite !list_lookup_fmap.
    destruct (BuildRenderItemsFrom N 0 scene !! i) as [ei|] eqn:Hi; [|done].
    destruct (BuildRenderItemsFrom N 0 scene !! j) as [ej|] eqn:Hj; [|done].
    destruct (BuildRenderItemsFrom_lookup _ _ _ _ Hi) as (si & Hsi & Hii & _).
    destruct (BuildRenderItemsFrom_lookup _ _ _ _ Hj) as (sj & Hsj & Hij & _).
    apply lookup_lt_Some in Hsi, Hsj.
    rewrite UINT_small in Hii, Hij by lia.
    simpl. intros [= <-] [= Heq]. lia.
  - simpl. intros k1 k2 m1 m2 H1 H2 Heq.
    destruct (BuildMaterials_lookup _ _ H1) as (_ & _ & R1 & G1 & W1 & F1 & S1).
    destruct (BuildMaterials_lookup _ _ H2) as (_ & _ & R2 & G2 & W2 & F2 & S2).
    assert (Material.MatCBIndex m1 = 0 ∨ Material.MatCBIndex m1 = 1 ∨
            Material.MatCBIndex m1 = 2 ∨ Material.MatCBIndex m1 = 3) as [E|[E|[E|E]]] by lia.
    + transitivity "grass"%string; [apply G1 | symmetry; apply G2]; lia.
    + transitivity "water"%string; [apply W1 | symmetry; apply W2]; lia.
    + transitivity "wirefence"%string; [apply F1 | symmetry; apply F2]; lia.
    + transitivity "stone"%string; [apply S1 | symmetry; apply S2]; lia.
  - simpl. apply BuildMaterials_is_Some. rewrite !elem_of_cons. tauto.
  - intros e (k & s & Hs & _ & -> & _)%Hit. simpl. apply BuildMaterials_is_Some.
    eapply bool_decide_eq_true, Hmats, list_elem_of_In, list_elem_of_lookup_2, Hs.
  - simpl. intros p Hp%elem_of_seq. lia.
  - simpl. lia.
  - constructor; simpl; try lia.
    intros s f. rewrite at_index_fmap.
    destruct (at_index _ s) as [fr|] eqn:Hs; [|done]. simpl. intros [= <-].
    destruct (Hfr fr) as (_ & _ & ->).
    { apply at_index_Some in Hs as [_ Hs]. apply list_elem_of_lookup. eauto. }
    split; [lia|]. by left.
  - intros e (k & s & _ & _ & _ & ->)%Hit. lia.
  - simpl. intros k m Hm. destruct (BuildMaterials_lookup _ _ Hm) as (_ & -> & _). lia.
Qed.

Lemma Run_Steps inputs a : Run N inputs a = Steps N (Advance <$> inputs) a.
Proof.
  revert a. induction inputs as [|i inputs IH]; intros a; [done|].
  rewrite fmap_cons. simpl. destruct (Frame N i a); simpl; [apply IH|done].
Qed.

Lemma turns_Advance (inputs : list FrameInput) :
  turns (Advance <$> inputs) = Z.of_nat (length inputs).
Proof.
  induction inputs as [|i inputs IH]; [done|]. rewrite fmap_cons.
  change (turns (Advance i :: (Advance <$> inputs))) with (1 + turns (Advance <$> inputs)).
  rewrite IH. simpl. lia.
Qed.

(** Every state the application reaches satisfies the invariant. *)
Lemma reachable device scene fence0 l :
  1 ≤ N → well_authored scene = true → 0 ≤ fence0 → fence0 + turns l < 2 ^ 64 →
  ∃ a, Steps N l (Initialize N device scene fence0) = Ok a ∧ wf a ∧
       mCurrentFence (timeline a) = fence0 + turns l ∧
       mCurrFrameResourceIndex a = turns l `mod` N.
Proof.
  intros HN Hscene Hf Hno.
  assert (0 ≤ turns l) as Hnn by (clear; induction l as [|[] l IH]; simpl; lia).
  destruct (Steps_spec l (Initialize N device scene fence0) HN) as (a & HS & Hwf & Hcur & Hidx).
  - apply Initialize_wf; [done..|lia].
  - simpl. lia.
  - exists a. simpl in Hcur, Hidx. by rewrite Z.add_0_l in Hidx.
Qed.

(** *** What one turn does to one item and to one material *)

Lemma at_index_elem_of {A} (l : list A) i x : at_index l i = Some x → x ∈ l.
Proof using Type.
  intros [_ Hl]%at_index_Some. apply list_elem_of_lookup. eauto.
Qed.

Lemma NoDup_fmap_elem {A B} (f : A → B) (l : list A) x y :
  NoDup (f <$> l) → x ∈ l → y ∈ l → f x = f y → x = y.
Proof using Type.
  intros Hnd [i Hi]%list_elem_of_lookup [j Hj]%list_elem_of_lookup Heq.
  assert (i = j) as ->; [|congruence].
  apply (NoDup_lookup _ _ _ (f x) Hnd); rewrite list_lookup_fmap.
  - by rewrite Hi.
  - by rewrite Hj, Heq.
Qed.

Lemma Frame_item p e i a :
  1 ≤ N → wf a → mCurrentFence (timeline a) + 1 < 2 ^ 64 →
  mAllRitems a !! p = Some e →
  ∃ a', Frame N i a = Ok a' ∧ wf a' ∧
    mCurrentFence (timeline a') = mCurrentFence (timeline a) + 1 ∧
    mCurrFrameResourceIndex a' = NextFrameResourceIndex N (mCurrFrameResourceIndex a) ∧
    mAllRitems a' !! p = Some (visit_item e) ∧
    ∀ s fr, at_index (mFrameResources a) s = Some fr →
      ∃ fr', at_index (mFrameResources a') s = Some fr' ∧
        let j := RenderItem.ObjCBIndex e in
        let cb := FrameResource.ObjectCB fr in
        let cb' := FrameResource.ObjectCB fr' in
        if decide (s = mCurrFrameResourceIndex a' ∧ 0 < RenderItem.NumFramesDirty e)
        then UploadBuffer.read cb' j = Some (objConstants e) ∧
             UploadBuffer.uploads cb' j = S (UploadBuffer.uploads cb j)
        else UploadBuffer.read cb' j = UploadBuffer.read cb j ∧
             UploadBuffer.uploads cb' j = UploadBuffer.uploads cb j.
Proof.
  intros HN Hwf Hno He.
  destruct (Frame_spec i a HN Hwf Hno)
    as (fr0 & w & cbO & cbM & l & tl & Hfr0 & Hw & HcbO & HcbM & Hcur & HF & Hwf').
  exists (turned i a w cbO cbM tl). split; [done|]. split; [done|].
  split; [done|]. split; [done|]. split; [by simpl; rewrite list_lookup_fmap, He|].
  intros s fr Hs. simpl.
  pose proof (at_index_lt _ _ _ Hfr0) as Hlt0. pose proof (at_index_lt _ _ _ Hs) as Hlts.
  rewrite at_index_insert by lia.
  destruct (decide (NextFrameResourceIndex N (mCurrFrameResourceIndex a) = s)) as [<-|Hne].
  - eexists. split; [done|]. simpl. assert (fr = fr0) as -> by congruence.
    destruct (update_dirty_inv _ _ _ _ _ _ _ _ HcbO) as (_ & _ & _ & _ & Hread & Hup).
    assert (e ∈ mAllRitems a) as Hin by (apply list_elem_of_lookup; eauto).
    case_decide as Hd.
    + destruct Hd as [_ Hd]. rewrite Hread, Hup. split.
      * rewrite written_Some; [done..|]. intros e' He' _ Heq. f_equal.
        apply (NoDup_fmap_elem RenderItem.ObjCBIndex (mAllRitems a)); try done.
        apply (wf_object_indices _ (wf_static _ Hwf)).
      * rewrite writes_one; [lia|..|done|done].
        apply (wf_object_indices _ (wf_static _ Hwf)).
    + assert (¬ 0 < RenderItem.NumFramesDirty e) as Hd' by tauto.
      assert (∀ e', e' ∈ mAllRitems a → 0 < RenderItem.NumFramesDirty e' →
                    RenderItem.ObjCBIndex e' ≠ RenderItem.ObjCBIndex e) as Hother.
      { intros e' He' Hd'' Heq. apply Hd'.
        assert (e' = e) as <-; [|done].
        apply (NoDup_fmap_elem RenderItem.ObjCBIndex (mAllRitems a)); try done.
        apply (wf_object_indices _ (wf_static _ Hwf)). }
      rewrite Hread, Hup, written_None, writes_zero by done. simpl. split; [done|lia].
  - exists fr. split; [done|]. simpl. rewrite decide_False; [done|]. intros [? _]. done.
Qed.

(** The material named [k] as the material pass of a turn finds it: the
    water has just been scrolled and marked dirty. *)
Definition animated (gt : GameTimer) (k : string) (m : Material.t) : Material.t :=
  if decide (k = "water"%string) then scrolled gt m else m.

Lemma animated_lookup gt (mats : gmap string Material.t) w k :
  mats !! "water"%string = Some w →
  <["water"%string := scrolled gt w]> mats !! k = animated gt k <$> mats !! k.
Proof.
  intros Hw. unfold animated. destruct (decide (k = "water"%string)) as [->|Hne].
  - by rewrite lookup_insert_eq, Hw.
  - rewrite lookup_insert_ne by done. by destruct (mats !! k).
Qed.

Lemma animated_index gt k m :
  Material.MatCBIndex (animated gt k m) = Material.MatCBIndex m.
Proof. unfold animated. by case_decide. Qed.

Lemma Frame_material k m i a :
  1 ≤ N → wf a → mCurrentFence (timeline a) + 1 < 2 ^ 64 →
  mMaterials a !! k = Some m →
  let m1 := animated (gt i) k m in
  ∃ a', Frame N i a = Ok a' ∧ wf a' ∧
    mCurrentFence (timeline a') = mCurrentFence (timeline a) + 1 ∧
    mCurrFrameResourceIndex a' = NextFrameResourceIndex N (mCurrFrameResourceIndex a) ∧
    mMaterials a' !! k = Some (visit_material m1) ∧
    ∀ s fr, at_index (mFrameResources a) s = Some fr →
      ∃ fr', at_index (mFrameResources a') s = Some fr' ∧
        let j := Material.MatCBIndex m in
        let cb := FrameResource.MaterialCB fr in
        let cb' := FrameResource.MaterialCB fr' in
        if decide (s = mCurrFrameResourceIndex a' ∧ 0 < Material.NumFramesDirty m1)
        then UploadBuffer.read cb' j = Some (matConstants m1) ∧
             UploadBuffer.uploads cb' j = S (UploadBuffer.uploads cb j)
        else UploadBuffer.read cb' j = UploadBuffer.read cb j ∧
             UploadBuffer.uploads cb' j = UploadBuffer.uploads cb j.
Proof.
  intros HN Hwf Hno Hm m1.
  destruct (Frame_spec i a HN Hwf Hno)
    as (fr0 & w & cbO & cbM & l & tl & Hfr0 & Hw & HcbO & HcbM & Hcur & HF & Hwf').
  set (mats1 := <["water"%string := scrolled (gt i) w]> (mMaterials a)) in *.
  assert (mats1 !! k = Some m1) as Hm1.
  { unfold mats1. by rewrite (animated_lookup _ _ w), Hm. }
  assert (∀ k' m', mats1 !! k' = Some m' → Material.MatCBIndex m' = Material.MatCBIndex m1 →
                   k' = k) as Hinj.
  { intros k' m'. unfold mats1. rewrite (animated_lookup _ _ w) by done.
    destruct (mMaterials a !! k') as [m0|] eqn:Hm0; [|done]. simpl. intros [= <-].
    unfold m1. rewrite !animated_index. intros Heq.
    by apply (wf_material_indices _ (wf_static _ Hwf) k' k m0 m). }
  exists (turned i a w cbO cbM tl). split; [done|]. split; [done|].
  split; [done|]. split; [done|].
  split; [by simpl; fold mats1; rewrite lookup_fmap, Hm1|].
  intros s fr Hs. simpl.
  pose proof (at_index_lt _ _ _ Hfr0) as Hlt0. pose proof (at_index_lt _ _ _ Hs) as Hlts.
  rewrite at_index_insert by lia.
  destruct (decide (NextFrameResourceIndex N (mCurrFrameResourceIndex a) = s)) as [<-|Hne].
  - eexists. split; [done|]. simpl. assert (fr = fr0) as -> by congruence.
    destruct (update_dirty_inv _ _ _ _ _ _ _ _ HcbM) as (_ & _ & _ & _ & Hread & Hup).
    assert ((k, m1) ∈ map_to_list mats1) as Hin by (by apply elem_of_map_to_list).
    replace (Material.MatCBIndex m) with (Material.MatCBIndex m1)
      by apply animated_index.
    case_decide as Hd.
    + destruct Hd as [_ Hd]. rewrite Hread, Hup.
      change (Material.MatCBIndex m1) with ((Material.MatCBIndex ∘ snd) (k, m1)).
      split.
      * rewrite (written_Some _ _ _ _ (k, m1)); [done..|].
        intros [k' m'] He'%elem_of_map_to_list _ Heq. simpl in *.
        assert (k' = k) as -> by (by eapply Hinj). congruence.
      * rewrite (writes_one _ _ _ (k, m1)); [lia| |done|done].
        apply NoDup_fmap_2_strong; [|apply NoDup_map_to_list].
        intros [k1 x1] [k2 x2] H1%elem_of_map_to_list H2%elem_of_map_to_list Heq.
        simpl in Heq.
        assert (k1 = k2) as ->; [|congruence].
        revert H1 H2. unfold mats1. rewrite !(animated_lookup _ _ w) by done.
        destruct (mMaterials a !! k1) as [y1|] eqn:Hy1; [|done].
        destruct (mMaterials a !! k2) as [y2|] eqn:Hy2; [|done].
        simpl. intros [= <-] [= <-]. rewrite !animated_index in Heq.
        by apply (wf_material_indices _ (wf_static _ Hwf) k1 k2 y1 y2).
    + assert (¬ 0 < Material.NumFramesDirty m1) as Hd' by tauto.
      assert (∀ e', e' ∈ map_to_list mats1 → 0 < (Material.NumFramesDirty ∘ snd) e' →
                (Material.MatCBIndex ∘ snd) e' ≠ Material.MatCBIndex m1) as Hother.
      { intros [k' m'] He'%elem_of_map_to_list Hd'' Heq. simpl in *. apply Hd'.
        assert (k' = k) as -> by (by eapply Hinj).
        assert (m' = m1) as <- by congruence. done. }
      rewrite Hread, Hup, written_None, writes_zero by done. simpl. split; [done|lia].
  - exists fr. split; [done|]. simpl. rewrite decide_False; [done|]. intros [? _]. done.
Qed.

(** *** Propagation over several turns *)

(** Number of turns before ring slot [s] is selected again when the current
    index is [idx]; [0] means at the very next turn. *)
Definition turns_until (idx s : Z) : Z := (s - idx - 1) `mod` N.

Lemma mod_wrap x : 1 ≤ N → - N ≤ x < N → x `mod` N = if decide (x < 0) then x + N else x.
Proof.
  intros HN Hx. case_decide.
  - rewrite <- (Z_mod_plus_full x 1 N), Z.mul_1_l. apply Z.mod_small. lia.
  - apply Z.mod_small. lia.
Qed.

Lemma turns_until_spec idx s :
  1 ≤ N → 0 ≤ idx < N → 0 ≤ s < N →
  0 ≤ turns_until idx s < N ∧
  (turns_until idx s = 0 ↔ s = NextFrameResourceIndex N idx) ∧
  (turns_until idx s ≠ 0 →
   turns_until (NextFrameResourceIndex N idx) s = turns_until idx s - 1) ∧
  turns_until s s = N - 1.
Proof.
  intros HN Hidx Hs. unfold turns_until.
  rewrite NextFrameResourceIndex_mod by lia.
  rewrite (mod_wrap (s - idx - 1)) by lia.
  rewrite (mod_wrap (s - s - 1)) by lia.
  destruct (decide (idx + 1 = N)) as [Heq|Hne].
  - rewrite Heq, Z_mod_same_full. rewrite (mod_wrap (s - 0 - 1)) by lia.
    repeat case_decide; lia.
  - rewrite (Z.mod_small (idx + 1)) by lia.
    destruct (decide (s = idx + 1)) as [->|Hne'].
    + rewrite (mod_wrap (idx + 1 - (idx + 1) - 1)) by lia. repeat case_decide; lia.
    + rewrite (mod_wrap (s - (idx + 1) - 1)) by lia. repeat case_decide; lia.
Qed.

Lemma propagate_item inputs : ∀ a p e,
  1 ≤ N → wf a → mAllRitems a !! p = Some e →
  Z.of_nat (length inputs) ≤ RenderItem.NumFramesDirty e →
  mCurrentFence (timeline a) + Z.of_nat (length inputs) < 2 ^ 64 →
  ∃ a' e', Run N inputs a = Ok a' ∧ wf a' ∧
    mAllRitems a' !! p = Some e' ∧
    RenderItem.NumFramesDirty e' = RenderItem.NumFramesDirty e - Z.of_nat (length inputs) ∧
    RenderItem.ObjCBIndex e' = RenderItem.ObjCBIndex e ∧
    RenderItem.World e' = RenderItem.World e ∧
    RenderItem.TexTransform e' = RenderItem.TexTransform e ∧
    ∀ s fr, at_index (mFrameResources a) s = Some fr →
      ∃ fr', at_index (mFrameResources a') s = Some fr' ∧
        let j := RenderItem.ObjCBIndex e in
        let cb := FrameResource.ObjectCB fr in
        let cb' := FrameResource.ObjectCB fr' in
        if decide (turns_until (mCurrFrameResourceIndex a) s < Z.of_nat (length inputs))
        then UploadBuffer.read cb' j = Some (objConstants e) ∧
             UploadBuffer.uploads cb' j = S (UploadBuffer.uploads cb j)
        else UploadBuffer.read cb' j = UploadBuffer.read cb j ∧
             UploadBuffer.uploads cb' j = UploadBuffer.uploads cb j.
Proof.
  induction inputs as [|i inputs IH]; intros a p e HN Hwf He Hlen Hno.
  - exists a, e. simpl. split; [done|]. split; [done|]. split; [done|].
    split; [lia|]. split; [done|]. split; [done|]. split; [done|].
    intros s fr Hs. exists fr. split; [done|].
    pose proof (at_index_lt _ _ _ Hs) as Hlt.
    rewrite (wf_ring _ (wf_static _ Hwf)) in Hlt.
    destruct (turns_until_spec (mCurrFrameResourceIndex a) s HN (wf_index _ Hwf) Hlt) as [? _].
    rewrite decide_False by lia. done.
  - simpl length in *.
    destruct (Frame_item p e i a HN Hwf ltac:(lia) He)
      as (a1 & HF & Hwf1 & Hcur1 & Hidx1 & He1 & Hslots1).
    assert (0 < RenderItem.NumFramesDirty e) as Hd by lia.
    destruct (IH a1 p (visit_item e) HN Hwf1 He1) as
      (a' & e' & HR & Hwf' & He' & Hd' & Hi' & Hw' & Ht' & Hslots');
      [rewrite visit_item_dirty, decide_True by done; lia | lia |].
    exists a', e'. simpl. rewrite HF. simpl. split; [done|]. split; [done|].
    split; [done|]. rewrite Hd', Hi', Hw', Ht'.
    rewrite visit_item_dirty, decide_True by done.
    unfold visit. rewrite decide_True by done. simpl.
    split; [lia|]. split; [done|]. split; [done|]. split; [done|].
    intros s fr Hs.
    destruct (Hslots1 s fr Hs) as (fr1 & Hs1 & Hfr1).
    destruct (Hslots' s fr1 Hs1) as (fr' & Hs' & Hfr').
    exists fr'. split; [done|]. simpl in *.
    pose proof (at_index_lt _ _ _ Hs) as Hlt.
    rewrite (wf_ring _ (wf_static _ Hwf)) in Hlt.
    destruct (turns_until_spec (mCurrFrameResourceIndex a) s HN (wf_index _ Hwf) Hlt)
      as (Hr & Hzero & Hstep & _).
    destruct (turns_until_spec s s HN Hlt Hlt) as (_ & _ & _ & Hself).
    pose proof (wf_item_dirty _ Hwf e ltac:(apply list_elem_of_lookup; eauto)) as Hbound.
    rewrite visit_item_index, visit_item_constants in Hfr'.
    rewrite Hidx1 in Hfr1, Hfr'.
    destruct (decide (s = NextFrameResourceIndex N (mCurrFrameResourceIndex a))) as [Heq|Hne].
    + rewrite decide_True in Hfr1 by done.
      rewrite <- Heq, Hself, decide_False in Hfr' by lia.
      rewrite decide_True by (apply Hzero in Heq; lia).
      destruct Hfr1 as [<- <-]. done.
    + rewrite decide_False in Hfr1 by tauto.
      assert (turns_until (mCurrFrameResourceIndex a) s ≠ 0) as Hnz by tauto.
      rewrite (Hstep Hnz) in Hfr'. destruct Hfr1 as [<- <-].
      repeat case_decide; try lia; done.
Qed.

Lemma propagate_material inputs : ∀ a k m,
  1 ≤ N → wf a → k ≠ "water"%string → mMaterials a !! k = Some m →
  Z.of_nat (length inputs) ≤ Material.NumFramesDirty m →
  mCurrentFence (timeline a) + Z.of_nat (length inputs) < 2 ^ 64 →
  ∃ a' m', Run N inputs a = Ok a' ∧ wf a' ∧
    mMaterials a' !! k = Some m' ∧
    Material.NumFramesDirty m' = Material.NumFramesDirty m - Z.of_nat (length inputs) ∧
    Material.MatCBIndex m' = Material.MatCBIndex m ∧
    matConstants m' = matConstants m ∧
    ∀ s fr, at_index (mFrameResources a) s = Some fr →
      ∃ fr', at_index (mFrameResources a') s = Some fr' ∧
        let j := Material.MatCBIndex m in
        let cb := FrameResource.MaterialCB fr in
        let cb' := FrameResource.MaterialCB fr' in
        if decide (turns_until (mCurrFrameResourceIndex a) s < Z.of_nat (length inputs))
        then UploadBuffer.read cb' j = Some (matConstants m) ∧
             UploadBuffer.uploads cb' j = S (UploadBuffer.uploads cb j)
        else UploadBuffer.read cb' j = UploadBuffer.read cb j ∧
             UploadBuffer.uploads cb' j = UploadBuffer.uploads cb j.
Proof.
  induction inputs as [|i inputs IH]; intros a k m HN Hwf Hk Hm Hlen Hno.
  - exists a, m. simpl. split; [done|]. split; [done|]. split; [done|].
    split; [lia|]. split; [done|]. split; [done|].
    intros s fr Hs. exists fr. split; [done|].
    pose proof (at_index_lt _ _ _ Hs) as Hlt.
    rewrite (wf_ring _ (wf_static _ Hwf)) in Hlt.
    destruct (turns_until_spec (mCurrFrameResourceIndex a) s HN (wf_index _ Hwf) Hlt) as [? _].
    rewrite decide_False by lia. done.
  - simpl length in *.
    destruct (Frame_material k m i a HN Hwf ltac:(lia) Hm)
      as (a1 & HF & Hwf1 & Hcur1 & Hidx1 & Hm1 & Hslots1).
    unfold animated in Hm1, Hslots1. rewrite decide_False in Hm1, Hslots1 by done.
    assert (0 < Material.NumFramesDirty m) as Hd by lia.
    destruct (IH a1 k (visit_material m) HN Hwf1 Hk Hm1) as
      (a' & m' & HR & Hwf' & Hm' & Hd' & Hi' & Hc' & Hslots');
      [rewrite visit_material_dirty, decide_True by done; lia | lia |].
    exists a', m'. simpl. rewrite HF. simpl. split; [done|]. split; [done|].
    split; [done|]. rewrite Hd', Hi', Hc'.
    rewrite visit_material_dirty, decide_True by done.
    rewrite visit_material_constants.
    unfold visit. rewrite decide_True by done. simpl.
    split; [lia|]. split; [done|]. split; [done|].
    intros s fr Hs.
    destruct (Hslots1 s fr Hs) as (fr1 & Hs1 & Hfr1).
    destruct (Hslots' s fr1 Hs1) as (fr' & Hs' & Hfr').
    exists fr'. split; [done|]. simpl in *.
    pose proof (at_index_lt _ _ _ Hs) as Hlt.
    rewrite (wf_ring _ (wf_static _ Hwf)) in Hlt.
    destruct (turns_until_spec (mCurrFrameResourceIndex a) s HN (wf_index _ Hwf) Hlt)
      as (Hr & Hzero & Hstep & _).
    destruct (turns_until_spec s s HN Hlt Hlt) as (_ & _ & _ & Hself).
    pose proof (wf_material_dirty _ Hwf k m Hm) as Hbound.
    assert (Material.MatCBIndex (visit_material m) = Material.MatCBIndex m) as Hvi.
    { apply (f_equal fst (visit_material_indices m)). }
    rewrite Hvi, visit_material_constants in Hfr'.
    rewrite Hidx1 in Hfr1, Hfr'.
    destruct (decide (s = NextFrameResourceIndex N (mCurrFrameResourceIndex a))) as [Heq|Hne].
    + rewrite decide_True in Hfr1 by done.
      rewrite <- Heq, Hself, decide_False in Hfr' by lia.
      rewrite decide_True by (apply Hzero in Heq; lia).
      destruct Hfr1 as [<- <-]. done.
    + rewrite decide_False in Hfr1 by tauto.
      assert (turns_until (mCurrFrameResourceIndex a) s ≠ 0) as Hnz by tauto.
      rewrite (Hstep Hnz) in Hfr'. destruct Hfr1 as [<- <-].
      repeat case_decide; try lia; done.
Qed.
End TexWavesFacts.

(** ** ShapesApp: event sequences, what never changes, and the invariant *)

Module ShapesSteps.
Section Steps.
Context `{Float32} `{RecordSizes}.
Context (N : Z).
Import Shapes.

(** The protocol stated with [RenderItem::NumFramesDirty]. *)
Definition markDirty (e : RenderItem.t) : RenderItem.t :=
  RenderItem.set_NumFramesDirty N e.

Definition ModifyItem (p : nat) (world : XMFLOAT4X4) (a : App) : App :=
  set_mAllRitems
    (alter (λ e, markDirty (RenderItem.mk world (RenderItem.NumFramesDirty e)
                              (RenderItem.ObjCBIndex e) (RenderItem.Geo e)
                              (RenderItem.DrawArgs e))) p (mAllRitems a)) a.

Inductive Step : Type :=
| Advance (i : FrameInput)
| SetWorld (p : nat) (world : XMFLOAT4X4).

Definition step (s : Step) (a : App) : result App :=
  match s with
  | Advance i => Frame N i a
  | SetWorld p world => Ok (ModifyItem p world a)
  end.

Fixpoint Steps (l : list Step) (a : App) : result App :=
  match l with
  | [] => Ok a
  | s :: rest => a' ← step s a; Steps rest a'
  end.

Fixpoint turns (l : list Step) : Z :=
  match l with
  | [] => 0
  | Advance _ :: rest => 1 + turns rest
  | _ :: rest => turns rest
  end.
End Steps.
End ShapesSteps.

Section ShapesFacts.
Context `{Float32} `{RecordSizes}.
Context (N : Z).
Import Shapes ShapesSteps.
Implicit Types (a : App) (fr : FrameResource.t).

Definition sh_slot_regions fr : (Z * Z * Z) * (Z * Z * Z) :=
  (region (FrameResource.ObjectCB fr), region (FrameResource.PassCB fr)).

(** The parts of the state that are fixed at start-up. *)
Definition sh_layout a
    : list Z * list ((Z * Z * Z) * (Z * Z * Z)) * list nat * list (option CBV) * Z :=
  (RenderItem.ObjCBIndex <$> mAllRitems a,
   sh_slot_regions <$> mFrameResources a,
   mOpaqueRitems a, mCbvHeap a, mPassCbvOffset a).

Record sh_wf_layout a : Prop := {
  sh_wf_ring : Z.of_nat (length (mFrameResources a)) = N;
  sh_wf_objects : ∀ fr e, fr ∈ mFrameResources a → e ∈ mAllRitems a →
    0 ≤ RenderItem.ObjCBIndex e < UploadBuffer.capacity (FrameResource.ObjectCB fr);
  sh_wf_object_indices : NoDup (RenderItem.ObjCBIndex <$> mAllRitems a);
  sh_wf_layer : ∀ p, p ∈ mOpaqueRitems a → (p < length (mAllRitems a))%nat;
}.

Record sh_wf a : Prop := {
  sh_wf_static : sh_wf_layout a;
  sh_wf_index : 0 ≤ mCurrFrameResourceIndex a < N;
  sh_wf_sync : sync_inv (FrameResource.Fence <$> mFrameResources a) (timeline a);
  sh_wf_item_dirty : ∀ e, e ∈ mAllRitems a → 0 ≤ RenderItem.NumFramesDirty e ≤ N;
}.

Lemma sh_wf_layout_ext a a' : sh_layout a' = sh_layout a → sh_wf_layout a → sh_wf_layout a'.
Proof.
  unfold sh_layout. intros [= Hobj Hring Hlayer Hheap Hoff] [Hr Ho Hoi Hl].
  assert (length (mFrameResources a') = length (mFrameResources a)) as Hlen.
  { apply (f_equal length) in Hring. by rewrite !length_fmap in Hring. }
  assert (length (mAllRitems a') = length (mAllRitems a)) as Hlen'.
  { apply (f_equal length) in Hobj. by rewrite !length_fmap in Hobj. }
  constructor.
  - by rewrite Hlen.
  - intros fr e [i Hi]%list_elem_of_lookup [j Hj]%list_elem_of_lookup.
    apply (f_equal (λ l, l !! i)) in Hring. rewrite !list_lookup_fmap, Hi in Hring.
    apply (f_equal (λ l, l !! j)) in Hobj. rewrite !list_lookup_fmap, Hj in Hobj.
    destruct (mFrameResources a !! i) as [fr0|] eqn:Hfr0; [|done].
    destruct (mAllRitems a !! j) as [e0|] eqn:He0; [|done].
    simpl in Hring, Hobj. injection Hobj as ->. injection Hring as -> _ _ _ _ _.
    apply Ho; apply list_elem_of_lookup; eauto.
  - by rewrite Hobj.
  - intros p. rewrite Hlayer, Hlen'. apply Hl.
Qed.

Abbreviation sh_visit := (visit RenderItem.NumFramesDirty RenderItem.decrement).
Abbreviation sh_pass :=
  (update_dirty RenderItem.NumFramesDirty RenderItem.decrement
     RenderItem.ObjCBIndex objConstants).

Ltac sh_unfold_app :=
  unfold mCurrFrameResource, set_mCurrFrameResource, set_mFrameResources,
    set_mCurrFrameResourceIndex, set_mAllRitems, set_timeline,
    FrameResource.set_ObjectCB, FrameResource.set_Fence;
  simpl.

Lemma sh_visit_index e : RenderItem.ObjCBIndex (sh_visit e) = RenderItem.ObjCBIndex e.
Proof. unfold visit. by case_decide. Qed.

Lemma sh_visit_dirty e :
  RenderItem.NumFramesDirty (sh_visit e)
  = if decide (0 < RenderItem.NumFramesDirty e) then RenderItem.NumFramesDirty e - 1
    else RenderItem.NumFramesDirty e.
Proof. unfold visit. by case_decide. Qed.

Lemma sh_visit_constants e : objConstants (sh_visit e) = objConstants e.
Proof. unfold visit. by case_decide. Qed.

Lemma sh_Draw_spec gt a :
  sh_wf_layout a → 0 ≤ mCurrFrameResourceIndex a < N →
  ∃ fr cmds,
    at_index (mFrameResources a) (mCurrFrameResourceIndex a) = Some fr ∧
    Draw gt a
    = Ok (mkApp (<[Z.to_nat (mCurrFrameResourceIndex a) :=
                     FrameResource.mk (FrameResource.PassCB fr) (FrameResource.ObjectCB fr)
                       (Submit (mCurrFrameResourceIndex a) cmds (timeline a)).1]>
                   (mFrameResources a))
                (mCurrFrameResourceIndex a) (mCbvHeap a) (mAllRitems a)
                (mOpaqueRitems a) (mPassCbvOffset a)
                (Submit (mCurrFrameResourceIndex a) cmds (timeline a)).2).
Proof.
  intros Hlay Hidx.
  destruct (at_index_is_Some (mFrameResources a) (mCurrFrameResourceIndex a)) as [fr Hfr];
    [rewrite (sh_wf_ring _ Hlay); lia|].
  assert (∃ cmds, DrawRenderItems a (mOpaqueRitems a) = Ok cmds) as [cmds Hcmds].
  { unfold DrawRenderItems, mCurrFrameResource. rewrite Hfr. simpl.
    apply mapM_Ok. intros p Hp.
    destruct (lookup_lt_is_Some_2 (mAllRitems a) p (sh_wf_layer _ Hlay p Hp)) as [ri Hri].
    rewrite Hri. simpl. by eexists. }
  exists fr, cmds. split; [done|].
  unfold Draw, mCurrFrameResource. rewrite Hfr. simpl. rewrite Hcmds. simpl. done.
Qed.

(** The state one turn of the message loop leads to. *)
Definition sh_turned a cbO tl : App :=
  let s := NextFrameResourceIndex N (mCurrFrameResourceIndex a) in
  match at_index (mFrameResources a) s with
  | Some fr =>
    mkApp (<[Z.to_nat s := FrameResource.mk (FrameResource.PassCB fr) cbO
                             (mCurrentFence (timeline a) + 1)]> (mFrameResources a))
          s (mCbvHeap a) (sh_visit <$> mAllRitems a) (mOpaqueRitems a) (mPassCbvOffset a) tl
  | None => a
  end.

Lemma sh_Frame_spec i a :
  1 ≤ N → sh_wf a → mCurrentFence (timeline a) + 1 < 2 ^ 64 →
  let s := NextFrameResourceIndex N (mCurrFrameResourceIndex a) in
  ∃ fr cbO tl,
    at_index (mFrameResources a) s = Some fr ∧
    sh_pass (FrameResource.ObjectCB fr) (mAllRitems a) = Ok (cbO, sh_visit <$> mAllRitems a) ∧
    mCurrentFence tl = mCurrentFence (timeline a) + 1 ∧
    Frame N i a = Ok (sh_turned a cbO tl) ∧
    sh_wf (sh_turned a cbO tl).
Proof.
  intros HN [Hlay Hidx Hsync Hid] Hno s.
  pose proof (NextFrameResourceIndex_range N (mCurrFrameResourceIndex a) HN ltac:(lia)) as Hs.
  fold s in Hs. pose proof (sh_wf_ring _ Hlay) as Hlen.
  destruct (at_index_is_Some (mFrameResources a) s) as [fr Hfr]; [lia|].
  pose proof (at_index_elem_of _ _ _ Hfr) as Hin.
  destruct (WaitForFrameResource_spec (FrameResource.Fence <$> mFrameResources a)
              (gpu_run (gpu_before_update i) (timeline a)) s (FrameResource.Fence fr))
    as (t1 & Hwait & [n1 Hn1] & Hsync1 & Hreached & Hidle & _).
  { by apply gpu_run_inv. }
  { by rewrite at_index_fmap, Hfr. }
  destruct (update_dirty_Ok RenderItem.NumFramesDirty RenderItem.decrement
              RenderItem.ObjCBIndex objConstants (FrameResource.ObjectCB fr) (mAllRitems a))
    as [cbO HcbO].
  { intros e He _. by apply (sh_wf_objects _ Hlay). }
  set (ring1 := <[Z.to_nat s := FrameResource.mk (FrameResource.PassCB fr) cbO
                                  (FrameResource.Fence fr)]> (mFrameResources a)).
  assert (Update N (gt i) (gpu (gpu_before_update i) a)
          = Ok (mkApp ring1 s (mCbvHeap a) (sh_visit <$> mAllRitems a) (mOpaqueRitems a)
                  (mPassCbvOffset a) t1)) as HU.
  { unfold Update, gpu. sh_unfold_app. fold s. rewrite Hfr. simpl. rewrite Hwait. simpl.
    unfold UpdateObjectCBs. sh_unfold_app. rewrite Hfr. simpl. rewrite HcbO. simpl. done. }
  set (a1 := mkApp ring1 _ _ _ _ _ _) in HU.
  assert (sh_layout a1 = sh_layout a) as Hlay1.
  { unfold sh_layout, a1, ring1. simpl.
    rewrite <- list_fmap_compose.
    rewrite (list_fmap_ext (RenderItem.ObjCBIndex ∘ sh_visit) RenderItem.ObjCBIndex
               (mAllRitems a)) by (intros; apply sh_visit_index).
    rewrite list_fmap_insert.
    rewrite (list_insert_id (sh_slot_regions <$> mFrameResources a)); [done|].
    apply at_index_Some in Hfr as [_ Hfr]. rewrite list_lookup_fmap, Hfr. simpl.
    unfold sh_slot_regions. simpl. by rewrite (update_dirty_region _ _ _ _ _ _ _ _ HcbO). }
  assert (sh_wf_layout (gpu (gpu_before_draw i) a1)) as Hlay2.
  { apply (sh_wf_layout_ext a); [|done]. by rewrite <- Hlay1. }
  destruct (sh_Draw_spec (gt i) (gpu (gpu_before_draw i) a1) Hlay2)
    as (fr1 & cmds & Hfr1 & HD); [done|].
  simpl in Hfr1. unfold ring1 in Hfr1. rewrite at_index_insert in Hfr1 by lia.
  rewrite decide_True in Hfr1 by done. injection Hfr1 as <-.
  cbn -[Submit gpu_run] in HD. unfold ring1 in HD. rewrite list_insert_insert_eq in HD.
  destruct (Submit s cmds (gpu_run (gpu_before_draw i) t1)) as [fence tl] eqn:Hsub.
  assert (mCurrentFence (gpu_run (gpu_before_draw i) t1) = mCurrentFence (timeline a)) as Hcur1.
  { by rewrite Hn1, !gpu_run_mCurrentFence. }
  destruct (Submit_inv (FrameResource.Fence <$> mFrameResources a)
              (gpu_run (gpu_before_draw i) t1) s cmds fence tl)
    as (Hfence & Hcur & Hsync2).
  { by apply gpu_run_inv. }
  { by apply gpu_run_idle. }
  { rewrite length_fmap. lia. }
  { by rewrite Hcur1. }
  { done. }
  rewrite Hcur1 in Hfence. subst fence.
  exists fr, cbO, tl. split; [done|]. split; [done|]. split; [done|].
  unfold sh_turned. fold s. rewrite Hfr.
  split.
  - unfold Frame. rewrite HU. simpl. rewrite HD. done.
  - constructor.
    + apply (sh_wf_layout_ext a); [|done]. unfold sh_layout. simpl.
      rewrite <- list_fmap_compose.
      rewrite (list_fmap_ext (RenderItem.ObjCBIndex ∘ sh_visit) RenderItem.ObjCBIndex
                 (mAllRitems a)) by (intros; apply sh_visit_index).
      rewrite list_fmap_insert.
      rewrite (list_insert_id (sh_slot_regions <$> mFrameResources a)); [done|].
      apply at_index_Some in Hfr as [_ Hfr]. rewrite list_lookup_fmap, Hfr. simpl.
      unfold sh_slot_regions. simpl. by rewrite (update_dirty_region _ _ _ _ _ _ _ _ HcbO).
    + done.
    + simpl. rewrite list_fmap_insert. simpl. done.
    + simpl. intros e (e0 & -> & He0)%list_elem_of_fmap.
      rewrite sh_visit_dirty. specialize (Hid e0 He0). case_decide; lia.
Qed.

Lemma sh_ModifyItem_wf p world a : 0 ≤ N → sh_wf a → sh_wf (ModifyItem N p world a).
Proof.
  intros HN [Hlay Hidx Hsync Hid].
  constructor; try done.
  - apply (sh_wf_layout_ext a); [|done]. unfold sh_layout, ModifyItem. simpl.
    rewrite !(list_fmap_alter _ _ id) by (by apply Forall_forall).
    rewrite !list_alter_id by done. done.
  - intros e [j Hj]%list_elem_of_lookup. simpl in Hj. rewrite list_lookup_alter in Hj.
    case_decide as Hpj.
    + subst j. destruct (mAllRitems a !! p) as [e0|] eqn:He0; [|done]. injection Hj as <-.
      simpl. lia.
    + apply Hid. apply list_elem_of_lookup. eauto.
Qed.

Lemma sh_Steps_spec l a :
  1 ≤ N → sh_wf a → mCurrentFence (timeline a) + turns l < 2 ^ 64 →
  ∃ a', Steps N l a = Ok a' ∧ sh_wf a' ∧
        mCurrentFence (timeline a') = mCurrentFence (timeline a) + turns l ∧
        mCurrFrameResourceIndex a' = (mCurrFrameResourceIndex a + turns l) `mod` N.
Proof.
  intros HN. revert a. induction l as [|st l IH]; intros a Hwf Hno.
  - exists a. simpl. split; [done|]. split; [done|]. split; [lia|].
    rewrite Z.add_0_r, Z.mod_small; [done|]. apply (sh_wf_index _ Hwf).
  - assert (0 ≤ turns l) as Hnn.
    { clear. induction l as [|[] l IH]; simpl; lia. }
    destruct st as [i|p world]; simpl in *.
    + destruct (sh_Frame_spec i a HN Hwf) as (fr & cbO & tl & Hfr & _ & Hcur & HF & Hwf');
        [lia|].
      rewrite HF. simpl. destruct (IH _ Hwf') as (a' & HS & Hwf'' & Hcur' & Hidx').
      { unfold sh_turned in *. rewrite Hfr in *. simpl. lia. }
      exists a'. split; [done|]. split; [done|].
      unfold sh_turned in Hcur', Hidx'. rewrite Hfr in Hcur', Hidx'. simpl in Hcur', Hidx'.
      split; [lia|]. rewrite Hidx'.
      rewrite NextFrameResourceIndex_mod by (try done; apply (sh_wf_index _ Hwf)).
      rewrite Zplus_mod_idemp_l. f_equal. lia.
    + destruct (IH (ModifyItem N p world a)) as (a' & HS & Hwf'' & Hcur' & Hidx');
        [apply sh_ModifyItem_wf; [lia|done] | done |].
      by exists a'.
Qed.

Lemma sh_BuildRenderItemsFrom_lookup c scene k e :
  BuildRenderItemsFrom N c scene !! k = Some e →
  ∃ s, scene !! k = Some s ∧
       RenderItem.ObjCBIndex e = UINT (c + Z.of_nat k) ∧
       RenderItem.NumFramesDirty e = N ∧ RenderItem.World e = s.1.
Proof.
  revert c k. induction scene as [|[w args] scene IH]; intros c k; simpl; [done|].
  destruct k as [|k]; simpl.
  - intros [= <-]. exists (w, args). simpl. rewrite Z.add_0_r. done.
  - intros (s' & Hs' & Hi & Hrest)%IH. exists s'. split; [done|].
    split; [|done]. rewrite Hi. f_equal. lia.
Qed.

Lemma sh_BuildRenderItemsFrom_length c scene :
  length (BuildRenderItemsFrom N c scene) = length scene.
Proof.
  revert c. induction scene as [|[w args] scene IH]; intros c; simpl; [done|]. by rewrite IH.
Qed.

Lemma sh_Initialize_wf device scene fence0 :
  1 ≤ N → Z.of_nat (length scene) < 2 ^ 32 → 0 ≤ fence0 < 2 ^ 64 →
  sh_wf (Initialize N device scene fence0).
Proof.
  intros HN Hlen Hf. unfold Initialize.
  destruct (BuildDescriptorHeaps N _) as [heap off]. 
  set (a0 := mkApp _ _ _ _ _ _ _).
  assert (∀ fr, fr ∈ mFrameResources a0 →
            UploadBuffer.capacity (FrameResource.ObjectCB fr) = Z.of_nat (length scene) ∧
            FrameResource.Fence fr = 0) as Hfr.
  { simpl. unfold BuildFrameResources. intros fr (i & -> & Hi)%list_elem_of_fmap.
    unfold FrameResource.create. simpl. unfold BuildRenderItems.
    rewrite sh_BuildRenderItemsFrom_length.
    rewrite !create_capacity; rewrite ?UINT_small; try done; lia. }
  assert (∀ e, e ∈ mAllRitems a0 →
            ∃ k s, scene !! k = Some s ∧ RenderItem.ObjCBIndex e = Z.of_nat k ∧
                   RenderItem.NumFramesDirty e = N) as Hit.
  { simpl. unfold BuildRenderItems. intros e [k Hk]%list_elem_of_lookup.
    destruct (sh_BuildRenderItemsFrom_lookup _ _ _ _ Hk) as (s & Hs & Hi & Hd & _).
    exists k, s. split; [done|]. split; [|done]. rewrite Hi.
    apply lookup_lt_Some in Hs. rewrite UINT_small; lia. }
  constructor; [constructor|..].
  - simpl. unfold BuildFrameResources. rewrite length_fmap, length_seqZ. lia.
  - intros fr e [-> _]%Hfr (k & s & Hs & -> & _)%Hit.
    apply lookup_lt_Some in Hs. lia.
  - simpl. unfold BuildRenderItems. apply NoDup_alt. intros i j x.
    rewrite !list_lookup_fmap.
    destruct (BuildRenderItemsFrom N 0 scene !! i) as [ei|] eqn:Hi; [|done].
    destruct (BuildRenderItemsFrom N 0 scene !! j) as [ej|] eqn:Hj; [|done].
    destruct (sh_BuildRenderItemsFrom_lookup _ _ _ _ Hi) as (si & Hsi & Hii & _).
    destruct (sh_BuildRenderItemsFrom_lookup _ _ _ _ Hj) as (sj & Hsj & Hij & _).
    apply lookup_lt_Some in Hsi, Hsj.
    rewrite UINT_small in Hii, Hij by lia.
    simpl. intros [= <-] [= Heq]. lia.
  - simpl. intros p Hp%elem_of_seq. lia.
  - simpl. lia.
  - constructor; simpl; try lia.
    intros s f. rewrite at_index_fmap.
    destruct (at_index _ s) as [fr|] eqn:Hs; [|done]. simpl. intros [= <-].
    destruct (Hfr fr) as (_ & ->); [by eapply at_index_elem_of|].
    split; [lia|]. by left.
  - intros e (k & s & _ & _ & ->)%Hit. lia.
Qed.

Lemma sh_Run_Steps inputs a : Run N inputs a = Steps N (Advance <$> inputs) a.
Proof.
  revert a. induction inputs as [|i inputs IH]; intros a; [done|].
  rewrite fmap_cons. simpl. destruct (Frame N i a); simpl; [apply IH|done].
Qed.

Lemma sh_turns_Advance (inputs : list FrameInput) :
  turns (Advance <$> inputs) = Z.of_nat (length inputs).
Proof.
  induction inputs as [|i inputs IH]; [done|]. rewrite fmap_cons.
  change (turns (Advance i :: (Advance <$> inputs))) with (1 + turns (Advance <$> inputs)).
  rewrite IH. simpl. lia.
Qed.

Lemma sh_reachable device scene fence0 l :
  1 ≤ N → Z.of_nat (length scene) < 2 ^ 32 → 0 ≤ fence0 → fence0 + turns l < 2 ^ 64 →
  ∃ a, Steps N l (Initialize N device scene fence0) = Ok a ∧ sh_wf a ∧
       mCurrentFence (timeline a) = fence0 + turns l ∧
       mCurrFrameResourceIndex a = turns l `mod` N.
Proof.
  intros HN Hscene Hf Hno.
  assert (0 ≤ turns l) as Hnn by (clear; induction l as [|[] l IH]; simpl; lia).
  destruct (sh_Steps_spec l (Initialize N device scene fence0) HN) as (a & HS & Hwf & Hcur & Hidx).
  - apply sh_Initialize_wf; [done..|lia].
  - unfold Initialize. destruct (BuildDescriptorHeaps N _). simpl. lia.
  - exists a. unfold Initialize in Hcur, Hidx. destruct (BuildDescriptorHeaps N _).
    simpl in Hcur, Hidx. by rewrite Z.add_0_l in Hidx.
Qed.

Lemma sh_Frame_item p e i a :
  1 ≤ N → sh_wf a → mCurrentFence (timeline a) + 1 < 2 ^ 64 →
  mAllRitems a !! p = Some e →
  ∃ a', Frame N i a = Ok a' ∧ sh_wf a' ∧
    mCurrentFence (timeline a') = mCurrentFence (timeline a) + 1 ∧
    mCurrFrameResourceIndex a' = NextFrameResourceIndex N (mCurrFrameResourceIndex a) ∧
    mCbvHeap a' = mCbvHeap a ∧ mOpaqueRitems a' = mOpaqueRitems a ∧
    mAllRitems a' !! p = Some (sh_visit e) ∧
    ∀ s fr, at_index (mFrameResources a) s = Some fr →
      ∃ fr', at_index (mFrameResources a') s = Some fr' ∧
        UploadBuffer.GPUVirtualAddress (FrameResource.ObjectCB fr')
        = UploadBuffer.GPUVirtualAddress (FrameResource.ObjectCB fr) ∧
        let j := RenderItem.ObjCBIndex e in
        let cb := FrameResource.ObjectCB fr in
        let cb' := FrameResource.ObjectCB fr' in
        if decide (s = mCurrFrameResourceIndex a' ∧ 0 < RenderItem.NumFramesDirty e)
        then UploadBuffer.read cb' j = Some (objConstants e) ∧
             UploadBuffer.uploads cb' j = S (UploadBuffer.uploads cb j)
        else UploadBuffer.read cb' j = UploadBuffer.read cb j ∧
             UploadBuffer.uploads cb' j = UploadBuffer.uploads cb j.
Proof.
  intros HN Hwf Hno He.
  destruct (sh_Frame_spec i a HN Hwf Hno) as (fr0 & cbO & tl & Hfr0 & HcbO & Hcur & HF & Hwf').
  exists (sh_turned a cbO tl). split; [done|]. split; [done|].
  unfold sh_turned in *. rewrite Hfr0 in *. simpl.
  split; [done|]. split; [done|]. split; [done|]. split; [done|].
  split; [by rewrite list_lookup_fmap, He|].
  intros s fr Hs.
  pose proof (at_index_lt _ _ _ Hfr0) as Hlt0. pose proof (at_index_lt _ _ _ Hs) as Hlts.
  rewrite at_index_insert by lia.
  destruct (decide (NextFrameResourceIndex N (mCurrFrameResourceIndex a) = s)) as [<-|Hne].
  - eexists. split; [done|]. simpl. assert (fr = fr0) as -> by congruence.
    destruct (update_dirty_inv _ _ _ _ _ _ _ _ HcbO) as (_ & _ & _ & Hva & Hread & Hup).
    split; [done|].
    assert (e ∈ mAllRitems a) as Hin by (apply list_elem_of_lookup; eauto).
    case_decide as Hd.
    + destruct Hd as [_ Hd]. rewrite Hread, Hup. split.
      * rewrite written_Some; [done..|]. intros e' He' _ Heq. f_equal.
        apply (NoDup_fmap_elem RenderItem.ObjCBIndex (mAllRitems a)); try done.
        apply (sh_wf_object_indices _ (sh_wf_static _ Hwf)).
      * rewrite writes_one; [lia|..|done|done].
        apply (sh_wf_object_indices _ (sh_wf_static _ Hwf)).
    + assert (¬ 0 < RenderItem.NumFramesDirty e) as Hd' by tauto.
      assert (∀ e', e' ∈ mAllRitems a → 0 < RenderItem.NumFramesDirty e' →
                    RenderItem.ObjCBIndex e' ≠ RenderItem.ObjCBIndex e) as Hother.
      { intros e' He' Hd'' Heq. apply Hd'.
        assert (e' = e) as <-; [|done].
        apply (NoDup_fmap_elem RenderItem.ObjCBIndex (mAllRitems a)); try done.
        apply (sh_wf_object_indices _ (sh_wf_static _ Hwf)). }
      rewrite Hread, Hup, written_None, writes_zero by done. simpl. split; [done|lia].
  - exists fr. split; [done|]. split; [done|]. simpl.
    rewrite decide_False; [done|]. intros [? _]. done.
Qed.

Lemma sh_propagate_item inputs : ∀ a p e,
  1 ≤ N → sh_wf a → mAllRitems a !! p = Some e →
  Z.of_nat (length inputs) ≤ RenderItem.NumFramesDirty e →
  mCurrentFence (timeline a) + Z.of_nat (length inputs) < 2 ^ 64 →
  ∃ a' e', Run N inputs a = Ok a' ∧ sh_wf a' ∧
    mAllRitems a' !! p = Some e' ∧
    RenderItem.NumFramesDirty e' = RenderItem.NumFramesDirty e - Z.of_nat (length inputs) ∧
    RenderItem.ObjCBIndex e' = RenderItem.ObjCBIndex e ∧
    RenderItem.World e' = RenderItem.World e ∧
    ∀ s fr, at_index (mFrameResources a) s = Some fr →
      ∃ fr', at_index (mFrameResources a') s = Some fr' ∧
        let j := RenderItem.ObjCBIndex e in
        let cb := FrameResource.ObjectCB fr in
        let cb' := FrameResource.ObjectCB fr' in
        if decide (turns_until N (mCurrFrameResourceIndex a) s < Z.of_nat (length inputs))
        then UploadBuffer.read cb' j = Some (objConstants e) ∧
             UploadBuffer.uploads cb' j = S (UploadBuffer.uploads cb j)
        else UploadBuffer.read cb' j = UploadBuffer.read cb j ∧
             UploadBuffer.uploads cb' j = UploadBuffer.uploads cb j.
Proof.
  induction inputs as [|i inputs IH]; intros a p e HN Hwf He Hlen Hno.
  - exists a, e. simpl. split; [done|]. split; [done|]. split; [done|].
    split; [lia|]. split; [done|]. split; [done|].
    intros s fr Hs. exists fr. split; [done|].
    pose proof (at_index_lt _ _ _ Hs) as Hlt.
    rewrite (sh_wf_ring _ (sh_wf_static _ Hwf)) in Hlt.
    destruct (turns_until_spec N (mCurrFrameResourceIndex a) s HN (sh_wf_index _ Hwf) Hlt)
      as [? _].
    rewrite decide_False by lia. done.
  - simpl length in *.
    destruct (sh_Frame_item p e i a HN Hwf ltac:(lia) He)
      as (a1 & HF & Hwf1 & Hcur1 & Hidx1 & _ & _ & He1 & Hslots1).
    assert (0 < RenderItem.NumFramesDirty e) as Hd by lia.
    destruct (IH a1 p (sh_visit e) HN Hwf1 He1) as
      (a' & e' & HR & Hwf' & He' & Hd' & Hi' & Hw' & Hslots');
      [rewrite sh_visit_dirty, decide_True by done; lia | lia |].
    exists a', e'. simpl. rewrite HF. simpl. split; [done|]. split; [done|].
    split; [done|]. rewrite Hd', Hi', Hw'.
    rewrite sh_visit_dirty, decide_True by done.
    unfold visit. rewrite decide_True by done. simpl.
    split; [lia|]. split; [done|]. split; [done|].
    intros s fr Hs.
    destruct (Hslots1 s fr Hs) as (fr1 & Hs1 & _ & Hfr1).
    destruct (Hslots' s fr1 Hs1) as (fr' & Hs' & Hfr').
    exists fr'. split; [done|]. simpl in *.
    pose proof (at_index_lt _ _ _ Hs) as Hlt.
    rewrite (sh_wf_ring _ (sh_wf_static _ Hwf)) in Hlt.
    destruct (turns_until_spec N (mCurrFrameResourceIndex a) s HN (sh_wf_index _ Hwf) Hlt)
      as (Hr & Hzero & Hstep & _).
    destruct (turns_until_spec N s s HN Hlt Hlt) as (_ & _ & _ & Hself).
    pose proof (sh_wf_item_dirty _ Hwf e ltac:(apply list_elem_of_lookup; eauto)) as Hbound.
    rewrite sh_visit_index, sh_visit_constants in Hfr'.
    rewrite Hidx1 in Hfr1, Hfr'.
    destruct (decide (s = NextFrameResourceIndex N (mCurrFrameResourceIndex a))) as [Heq|Hne].
    + rewrite decide_True in Hfr1 by done.
      rewrite <- Heq, Hself, decide_False in Hfr' by lia.
      rewrite decide_True by (apply Hzero in Heq; lia).
      destruct Hfr1 as [<- <-]. done.
    + rewrite decide_False in Hfr1 by tauto.
      assert (turns_until N (mCurrFrameResourceIndex a) s ≠ 0) as Hnz by tauto.
      rewrite (Hstep Hnz) in Hfr'. destruct Hfr1 as [<- <-].
      repeat case_decide; try lia; done.
Qed.

(** *** The descriptor heap *)

Lemma foldl_writes_length {A X} (step : list X → A → list X) (w : A → nat * X) l hp :
  (∀ hp x, step hp x = <[(w x).1 := (w x).2]> hp) →
  length (foldl step hp l) = length hp.
Proof using Type.
  intros Hstep. revert hp. induction l as [|x l IH]; intros hp; simpl; [done|].
  by rewrite IH, Hstep, length_insert.
Qed.

Lemma foldl_writes_other {A X} (step : list X → A → list X) (w : A → nat * X) l hp k :
  (∀ hp x, step hp x = <[(w x).1 := (w x).2]> hp) →
  (∀ x, x ∈ l → (w x).1 ≠ k) →
  foldl step hp l !! k = hp !! k.
Proof using Type.
  intros Hstep. revert hp. induction l as [|x l IH]; intros hp Hk; simpl; [done|].
  rewrite IH by (intros x' Hx'; apply Hk, elem_of_cons; by right).
  rewrite Hstep, list_lookup_insert_ne; [done|]. apply Hk, elem_of_cons. by left.
Qed.

Lemma foldl_writes_at {A X} (step : list X → A → list X) (w : A → nat * X) l hp x :
  (∀ hp x, step hp x = <[(w x).1 := (w x).2]> hp) →
  x ∈ l → ((w x).1 < length hp)%nat →
  (∀ x', x' ∈ l → (w x').1 = (w x).1 → (w x').2 = (w x).2) →
  foldl step hp l !! (w x).1 = Some (w x).2.
Proof using Type.
  intros Hstep. induction l as [|y l IH] using rev_ind; intros Hx Hlt Hsame.
  - by apply elem_of_nil in Hx.
  - rewrite foldl_app. simpl. rewrite Hstep.
    destruct (decide ((w y).1 = (w x).1)) as [Heq|Hne].
    + rewrite Heq, list_lookup_insert_eq
        by (by rewrite (foldl_writes_length step w)).
      f_equal. apply Hsame; [|done]. apply elem_of_app. right. by apply list_elem_of_singleton.
    + rewrite list_lookup_insert_ne by done. apply IH; [|done|].
      * apply elem_of_app in Hx as [Hx|Hx%list_elem_of_singleton]; [done|]. by subst.
      * intros x' Hx'. apply Hsame. apply elem_of_app. by left.
Qed.

(** The view [BuildConstantBufferViews] creates for object [i] of a frame
    resource. *)
Definition object_view fr (i : Z) : CBV :=
  let objCBByteSize := CalcConstantBufferByteSize sizeof_ObjectConstants in
  {| BufferLocation := UINT64 (UploadBuffer.GPUVirtualAddress (FrameResource.ObjectCB fr)
                               + UINT (i * objCBByteSize));
     SizeInBytes := objCBByteSize |}.

Lemma CreateConstantBufferView_UINT x cbv (heap : list (option CBV)) :
  CreateConstantBufferView (UINT x) cbv heap = <[Z.to_nat (UINT x) := Some cbv]> heap.
Proof using Type.
  unfold CreateConstantBufferView. rewrite decide_True; [done|].
  unfold UINT. apply Z.mod_pos_bound. lia.
Qed.

Lemma BuildObjectViews_spec n f fr (heap : list (option CBV)) :
  0 ≤ f → 0 ≤ n → f * n + n ≤ 2 ^ 32 →
  length (BuildObjectViews n f fr heap) = length heap ∧
  (∀ k, ¬ (f * n ≤ Z.of_nat k < f * n + n) →
        BuildObjectViews n f fr heap !! k = heap !! k) ∧
  (∀ i, 0 ≤ i < n → f * n + i < Z.of_nat (length heap) →
        BuildObjectViews n f fr heap !! Z.to_nat (f * n + i) = Some (Some (object_view fr i))).
Proof.
  intros Hf Hn Hfit. unfold BuildObjectViews.
  set (w := λ i : Z, (Z.to_nat (UINT (UINT (f * n) + i)), Some (object_view fr i))).
  set (step := λ (heap : list (option CBV)) (i : Z), CreateConstantBufferView _ _ heap).
  assert (∀ hp x, step hp x = <[(w x).1 := (w x).2]> hp) as Hstep.
  { intros hp x. unfold step, w. simpl. by rewrite CreateConstantBufferView_UINT. }
  assert (∀ i, 0 ≤ i < n → (w i).1 = Z.to_nat (f * n + i)) as Hw.
  { intros i Hi. unfold w. simpl. f_equal.
    assert (0 ≤ f * n) by nia.
    rewrite (UINT_small (f * n)) by lia. apply UINT_small. lia. }
  split; [by apply (foldl_writes_length step w)|]. split.
  - intros k Hk. apply (foldl_writes_other step w); [done|].
    intros i Hi%elem_of_seqZ. rewrite Hw by lia.
    assert (0 ≤ f * n) by nia. lia.
  - intros i Hi Hlt.
    rewrite <- (Hw i Hi).
    change (Some (object_view fr i)) with (w i).2.
    apply (foldl_writes_at step w); [done|..].
    + apply elem_of_seqZ. lia.
    + rewrite Hw by done. assert (0 ≤ f * n) by nia. lia.
    + intros i' Hi'%elem_of_seqZ. rewrite !Hw by lia.
      assert (0 ≤ f * n) by nia. intros Heq.
      assert (i' = i) as -> by lia. done.
Qed.

Lemma object_views_spec (ring : list FrameResource.t) n (frames : list Z)
    (heap : list (option CBV)) :
  0 ≤ n → (∀ f, f ∈ frames → 0 ≤ f ∧ f * n + n ≤ 2 ^ 32) →
  let built :=
    foldl (λ heap frameIndex,
             match at_index ring frameIndex with
             | Some fr => BuildObjectViews n frameIndex fr heap
             | None => heap
             end) heap frames in
  length built = length heap ∧
  ∀ f fr i, f ∈ frames → at_index ring f = Some fr → 0 ≤ i < n →
            f * n + i < Z.of_nat (length heap) →
            built !! Z.to_nat (f * n + i) = Some (Some (object_view fr i)).
Proof.
  intros Hn. induction frames as [|g frames IH] using rev_ind; intros Hfr built.
  - split; [done|]. intros f fr i Hf. by apply elem_of_nil in Hf.
  - destruct IH as [Hlen IH].
    { intros f Hf. apply Hfr, elem_of_app. by left. }
    destruct (Hfr g) as [Hg Hgfit]; [apply elem_of_app; right; by apply list_elem_of_singleton|].
    unfold built. rewrite foldl_app. simpl.
    set (prev := foldl _ heap frames) in *.
    destruct (at_index ring g) as [frg|] eqn:Hfrg.
    + destruct (BuildObjectViews_spec n g frg prev Hg Hn Hgfit) as (Hlen' & Hother & Hat).
      split; [congruence|].
      intros f fr i Hf Hring Hi Hlt.
      destruct (decide (f = g)) as [->|Hne].
      * assert (fr = frg) as -> by congruence. apply Hat; [done|]. by rewrite Hlen.
      * rewrite Hother.
        -- apply IH; try done.
           apply elem_of_app in Hf as [Hf|Hf%list_elem_of_singleton]; done.
        -- destruct (Hfr f Hf) as [Hf0 _]. rewrite Z2Nat.id by nia. nia.
    + split; [done|]. intros f fr i Hf Hring Hi Hlt.
      apply IH; try done.
      apply elem_of_app in Hf as [Hf|Hf%list_elem_of_singleton]; [done|]. congruence.
Qed.

Lemma pass_views_other (ring : list FrameResource.t) off (frames : list Z)
    (heap : list (option CBV)) k :
  (∀ f, f ∈ frames → Z.to_nat (UINT (off + f)) ≠ k) →
  foldl (λ heap frameIndex,
           match at_index ring frameIndex with
           | Some fr =>
             CreateConstantBufferView (UINT (off + frameIndex))
               {| BufferLocation := UploadBuffer.GPUVirtualAddress (FrameResource.PassCB fr);
                  SizeInBytes := CalcConstantBufferByteSize sizeof_PassConstants |} heap
           | None => heap
           end) heap frames !! k = heap !! k.
Proof.
  revert heap. induction frames as [|f frames IH]; intros heap Hk; simpl; [done|].
  rewrite IH by (intros f' Hf'; apply Hk, elem_of_cons; by right).
  destruct (at_index ring f); [|done].
  rewrite CreateConstantBufferView_UINT, list_lookup_insert_ne; [done|].
  apply Hk, elem_of_cons. by left.
Qed.

(** After start-up the descriptor at [s * objCount + i] is the view of object
    [i] in ring slot [s]'s per-object region. *)
Lemma sh_heap_lookup device scene fence0 s i :
  1 ≤ N → (Z.of_nat (length scene) + 1) * N < 2 ^ 32 →
  0 ≤ s < N → 0 ≤ i < Z.of_nat (length scene) →
  let a0 := Initialize N device scene fence0 in
  ∃ fr, at_index (mFrameResources a0) s = Some fr ∧
        region (FrameResource.ObjectCB fr)
        = (Z.of_nat (length scene), CalcConstantBufferByteSize sizeof_ObjectConstants,
           ObjectCB_address device s) ∧
        length (mOpaqueRitems a0) = length scene ∧
        at_index (mCbvHeap a0) (s * Z.of_nat (length scene) + i)
        = Some (Some (object_view fr i)).
Proof.
  intros HN Hfit Hs Hi. set (n := Z.of_nat (length scene)) in *.
  assert (0 ≤ n) as Hn by lia.
  assert (0 ≤ n * N ∧ n * N + N = (n + 1) * N ∧ s * n + n ≤ n * N) as (Hnn & Hsum & Hsn) by nia.
  unfold Initialize, BuildDescriptorHeaps. simpl.
  rewrite length_seq. unfold BuildRenderItems. rewrite sh_BuildRenderItemsFrom_length.
  fold n. rewrite (UINT_small n) by lia. rewrite (UINT_small (n + 1)) by lia.
  rewrite (UINT_small ((n + 1) * N)) by lia. rewrite (UINT_small (n * N)) by lia.
  set (ring := BuildFrameResources N device (BuildRenderItemsFrom N 0 scene)).
  assert (at_index ring s
          = Some (FrameResource.create device s 1 (UINT (Z.of_nat (length (BuildRenderItemsFrom N 0 scene))))))
    as Hfr.
  { unfold ring, BuildFrameResources. rewrite at_index_fmap.
    unfold at_index. rewrite decide_True by lia.
    rewrite (lookup_seqZ_lt 0 N (Z.to_nat s)) by lia. simpl. do 2 f_equal. lia. }
  rewrite sh_BuildRenderItemsFrom_length in Hfr. fold n in Hfr. rewrite (UINT_small n) in Hfr by lia.
  eexists. split; [done|]. split.
  { unfold region, FrameResource.create. simpl. by rewrite create_capacity. }
  split; [done|].
  unfold BuildConstantBufferViews. rewrite ?length_seq, ?sh_BuildRenderItemsFrom_length.
  fold n. rewrite (UINT_small n) by lia.
  unfold at_index at 1. rewrite decide_True by nia.
  rewrite pass_views_other.
  - destruct (object_views_spec ring n (seqZ 0 N)
                (replicate (Z.to_nat ((n + 1) * N)) None) Hn) as [_ Hat].
    + intros f Hf%elem_of_seqZ. split; [lia|]. nia.
    + apply Hat; [apply elem_of_seqZ; lia | done | done |].
      rewrite length_replicate. nia.
  - intros f Hf%elem_of_seqZ. rewrite UINT_small by nia. nia.
Qed.

Lemma sh_layout_turned a fr cbO l tl :
  at_index (mFrameResources a) (NextFrameResourceIndex N (mCurrFrameResourceIndex a)) = Some fr →
  sh_pass (FrameResource.ObjectCB fr) (mAllRitems a) = Ok (cbO, l) →
  sh_layout (sh_turned a cbO tl) = sh_layout a.
Proof.
  intros Hfr HcbO. unfold sh_turned. rewrite Hfr. unfold sh_layout. simpl.
  rewrite <- list_fmap_compose.
  rewrite (list_fmap_ext (RenderItem.ObjCBIndex ∘ sh_visit) RenderItem.ObjCBIndex
             (mAllRitems a)) by (intros; apply sh_visit_index).
  rewrite list_fmap_insert.
  rewrite (list_insert_id (sh_slot_regions <$> mFrameResources a)); [done|].
  apply at_index_Some in Hfr as [_ Hfr]. rewrite list_lookup_fmap, Hfr. simpl.
  unfold sh_slot_regions. simpl. by rewrite (update_dirty_region _ _ _ _ _ _ _ _ HcbO).
Qed.

Lemma sh_Steps_layout l : ∀ a a',
  1 ≤ N → sh_wf a → mCurrentFence (timeline a) + turns l < 2 ^ 64 →
  Steps N l a = Ok a' → sh_layout a' = sh_layout a.
Proof.
  induction l as [|st l IH]; intros a a' HN Hwf Hno; simpl.
  - by intros [= <-].
  - assert (0 ≤ turns l) as Hnn by (clear; induction l as [|[] l IH]; simpl; lia).
    destruct st as [i|p world]; simpl in *.
    + destruct (sh_Frame_spec i a HN Hwf) as (fr & cbO & tl & Hfr & HcbO & Hcur & HF & Hwf');
        [lia|].
      assert (mCurrentFence (timeline (sh_turned a cbO tl)) = mCurrentFence (timeline a) + 1)
        as Hcur' by (unfold sh_turned; by rewrite Hfr).
      rewrite HF. simpl. intros HS. rewrite (IH _ _ HN Hwf' ltac:(lia) HS).
      by eapply sh_layout_turned.
    + intros HS. rewrite (IH _ _ HN (sh_ModifyItem_wf p world a ltac:(lia) Hwf) Hno HS).
      unfold sh_layout, ModifyItem. simpl.
      rewrite !(list_fmap_alter _ _ id) by (by apply Forall_forall).
      rewrite !list_alter_id by done. done.
Qed.
End ShapesFacts.

(** ** TexWavesApp: further facts about reachable states *)

Section TexWavesReachable.
Context `{Float32} `{RecordSizes}.
Context (N : Z).
Import TexWaves TexWavesSteps.
Implicit Types (a : App) (fr : FrameResource.t).

#[local] Abbreviation visit_material := (visit Material.NumFramesDirty Material.decrement).

Lemma layout_turned i a fr w cbO cbM lO lM tl :
  at_index (mFrameResources a) (NextFrameResourceIndex N (mCurrFrameResourceIndex a)) = Some fr →
  mMaterials a !! "water"%string = Some w →
  update_dirty RenderItem.NumFramesDirty RenderItem.decrement RenderItem.ObjCBIndex
    objConstants (FrameResource.ObjectCB fr) (mAllRitems a) = Ok (cbO, lO) →
  update_dirty (Material.NumFramesDirty ∘ snd) (prod_map id Material.decrement)
    (Material.MatCBIndex ∘ snd) (matConstants ∘ snd) (FrameResource.MaterialCB fr)
    (map_to_list (<["water"%string := scrolled N (gt i) w]> (mMaterials a))) = Ok (cbM, lM) →
  layout (turned N i a w cbO cbM tl) = layout a.
Proof.
  intros Hfr Hw HcbO HcbM. unfold turned.
  apply (layout_frame N a _ fr w); try done; by eapply update_dirty_region.
Qed.

Lemma Steps_layout l : ∀ a a',
  1 ≤ N → wf N a → mCurrentFence (timeline a) + turns l < 2 ^ 64 →
  Steps N l a = Ok a' → layout a' = layout a.
Proof.
  induction l as [|st l IH]; intros a a' HN Hwf Hno; simpl.
  - by intros [= <-].
  - assert (0 ≤ turns l) as Hnn by (clear; induction l as [|[] l IH]; simpl; lia).
    destruct st as [i|p world|name transform]; simpl in *.
    + destruct (Frame_spec N i a HN Hwf)
        as (fr & w & cbO & cbM & lM & tl & Hfr & Hw & HcbO & HcbM & Hcur & HF & Hwf'); [lia|].
      rewrite HF. simpl. intros HS. rewrite (IH _ _ HN Hwf' ltac:(simpl; lia) HS).
      by eapply layout_turned.
    + intros HS. rewrite (IH _ _ HN (ModifyItem_wf N p world a ltac:(lia) Hwf) Hno HS).
      unfold layout, ModifyItem. simpl.
      rewrite !(list_fmap_alter _ _ id) by (by apply Forall_forall).
      rewrite !list_alter_id by done. done.
    + intros HS. rewrite (IH _ _ HN (ModifyMaterial_wf N name transform a ltac:(lia) Hwf) Hno HS).
      unfold layout, ModifyMaterial. simpl.
      f_equal. f_equal. f_equal. f_equal.
      apply map_eq. intros k. rewrite !lookup_fmap, lookup_alter.
      case_decide; [|done]. subst k. by destruct (mMaterials a !! name).
Qed.

(** The regions and indices start-up lays out. *)
Lemma Initialize_layout device scene fence0 :
  1 ≤ N → Z.of_nat (length scene) < 2 ^ 32 →
  let a0 := Initialize N device scene fence0 in
  (∀ s fr, at_index (mFrameResources a0) s = Some fr →
     region (FrameResource.ObjectCB fr)
     = (Z.of_nat (length scene), CalcConstantBufferByteSize sizeof_ObjectConstants,
        ObjectCB_address device s) ∧
     region (FrameResource.MaterialCB fr)
     = (4, CalcConstantBufferByteSize sizeof_MaterialConstants,
        MaterialCB_address device s)) ∧
  (∀ p ri, mAllRitems a0 !! p = Some ri →
     RenderItem.ObjCBIndex ri = Z.of_nat p ∧ (p < length scene)%nat).
Proof.
  intros HN Hlen a0. split.
  - intros s fr. unfold a0. simpl. unfold BuildFrameResources.
    rewrite at_index_fmap. intros Hs.
    destruct (at_index (seqZ 0 N) s) as [s'|] eqn:Hs'; [|done].
    apply at_index_Some in Hs' as [Hs0 Hs'%lookup_seqZ]. destruct Hs' as [-> Hs'].
    rewrite Z2Nat.id, Z.add_0_l in Hs by done. simpl in Hs. injection Hs as <-.
    unfold region, FrameResource.create. simpl. unfold BuildRenderItems.
    rewrite BuildRenderItemsFrom_length, BuildMaterials_size.
    rewrite !create_capacity; rewrite ?UINT_small; try done; lia.
  - intros p ri. unfold a0. simpl. unfold BuildRenderItems. intros Hp.
    destruct (BuildRenderItemsFrom_lookup _ _ _ _ _ Hp) as (s & Hs & Hi & _).
    apply lookup_lt_Some in Hs. split; [|done]. rewrite Hi, UINT_small; lia.
Qed.

(** The same for every state reached from start-up. *)
Lemma reachable_layout device scene fence0 l :
  1 ≤ N → well_authored scene = true → 0 ≤ fence0 → fence0 + turns l < 2 ^ 64 →
  ∃ a, Steps N l (Initialize N device scene fence0) = Ok a ∧ wf N a ∧
    mCurrentFence (timeline a) = fence0 + turns l ∧
    mCurrFrameResourceIndex a = turns l `mod` N ∧
    (∀ s fr, at_index (mFrameResources a) s = Some fr →
       region (FrameResource.ObjectCB fr)
       = (Z.of_nat (length scene), CalcConstantBufferByteSize sizeof_ObjectConstants,
          ObjectCB_address device s) ∧
       region (FrameResource.MaterialCB fr)
       = (4, CalcConstantBufferByteSize sizeof_MaterialConstants,
          MaterialCB_address device s)) ∧
    (∀ p ri, mAllRitems a !! p = Some ri →
       RenderItem.ObjCBIndex ri = Z.of_nat p ∧ (p < length scene)%nat) ∧
    length (mAllRitems a) = length scene.
Proof.
  intros HN Hscene Hf Hno.
  assert (Z.of_nat (length scene) < 2 ^ 32) as Hlen.
  { apply andb_prop in Hscene as [Hlen _]. by apply bool_decide_eq_true in Hlen. }
  destruct (reachable N device scene fence0 l HN Hscene Hf Hno) as (a & HS & Hwf & Hcur & Hidx).
  exists a. split; [done|]. split; [done|]. split; [done|]. split; [done|].
  assert (0 ≤ turns l) as Hnn by (clear; induction l as [|[] l IH]; simpl; lia).
  assert (layout a = layout (Initialize N device scene fence0)) as Hlay.
  { apply (Steps_layout l); try done; try (simpl; lia).
    apply Initialize_wf; [done..|lia]. }
  destruct (Initialize_layout device scene fence0 HN Hlen) as [Hring Hitems].
  unfold layout in Hlay. injection Hlay as Hobj _ _ Hreg _ _ _.
  split; [|split].
  - intros s fr Hs.
    apply (f_equal (λ l, at_index l s)) in Hreg. rewrite !at_index_fmap, Hs in Hreg.
    simpl in Hring.
    destruct (at_index (BuildFrameResources N device (BuildRenderItems N scene)
                          (BuildMaterials N)) s) as [fr0|] eqn:Hfr0; [|done].
    destruct (Hring s fr0 Hfr0) as [HO HM].
    unfold slot_regions in Hreg. simpl in Hreg. split; congruence.
  - intros p ri Hp.
    apply (f_equal (λ l, l !! p)) in Hobj. rewrite !list_lookup_fmap, Hp in Hobj.
    simpl in Hitems.
    destruct (BuildRenderItems N scene !! p) as [ri0|] eqn:Hri0; [|done].
    simpl in Hobj. injection Hobj as ->. by apply Hitems.
  - apply (f_equal length) in Hobj. rewrite !length_fmap in Hobj. rewrite Hobj.
    simpl. unfold BuildRenderItems. apply BuildRenderItemsFrom_length.
Qed.

(** [Update] on a state satisfying the invariant: the wait, and the state in
    which the passes start writing into the selected slot. *)
Lemma Update_wait gt a :
  1 ≤ N → wf N a →
  let s := NextFrameResourceIndex N (mCurrFrameResourceIndex a) in
  ∃ fr t' a',
    at_index (mFrameResources a) s = Some fr ∧
    WaitForFrameResource (FrameResource.Fence fr) (timeline a) = Ok t' ∧
    (∃ n, t' = gpu_run n (timeline a)) ∧
    (FrameResource.Fence fr ≠ 0 → CompletedValue (timeline a) < FrameResource.Fence fr →
     CompletedValue t' = FrameResource.Fence fr) ∧
    (¬ (FrameResource.Fence fr ≠ 0 ∧ CompletedValue (timeline a) < FrameResource.Fence fr) →
     t' = timeline a) ∧
    (FrameResource.Fence fr = 0 ∨ FrameResource.Fence fr ≤ CompletedValue t') ∧
    idle s t' ∧
    Update N gt a = Ok a' ∧ mCurrFrameResourceIndex a' = s ∧ timeline a' = t'.
Proof.
  intros HN Hwf s.
  destruct (Update_spec N gt a HN Hwf)
    as (fr & t' & w & cbO & cbM & Hfr & Hwait & Hw & HcbO & HcbM & HU).
  fold s in Hfr, HU.
  destruct (WaitForFrameResource_spec (FrameResource.Fence <$> mFrameResources a)
              (timeline a) s (FrameResource.Fence fr) (wf_sync _ _ Hwf))
    as (t1 & Hwait' & Hrun & _ & Hreached & Hidle & Hblocked).
  { by rewrite at_index_fmap, Hfr. }
  assert (t1 = t') as -> by congruence.
  exists fr, t'. eexists. split; [done|]. split; [done|]. split; [done|].
  split; [done|]. split.
  { intros Hg. unfold WaitForFrameResource in Hwait. rewrite decide_False in Hwait by done.
    congruence. }
  split; [done|]. split; [done|]. split; [exact HU|]. done.
Qed.

(** [Update] always uploads the water material into the selected slot and
    leaves its dirty count at [N - 1]. *)
Lemma Update_water gt a :
  1 ≤ N → wf N a →
  ∃ w a' fr fr',
    mMaterials a !! "water"%string = Some w ∧
    Update N gt a = Ok a' ∧
    mMaterials a' !! "water"%string = Some (visit_material (scrolled N gt w)) ∧
    Material.NumFramesDirty (visit_material (scrolled N gt w)) = N - 1 ∧
    at_index (mFrameResources a) (mCurrFrameResourceIndex a') = Some fr ∧
    at_index (mFrameResources a') (mCurrFrameResourceIndex a') = Some fr' ∧
    UploadBuffer.read (FrameResource.MaterialCB fr') (Material.MatCBIndex w)
    = Some (matConstants (scrolled N gt w)) ∧
    UploadBuffer.uploads (FrameResource.MaterialCB fr') (Material.MatCBIndex w)
    = S (UploadBuffer.uploads (FrameResource.MaterialCB fr) (Material.MatCBIndex w)).
Proof.
  intros HN Hwf.
  destruct (Update_spec N gt a HN Hwf)
    as (fr & t' & w & cbO & cbM & Hfr & Hwait & Hw & HcbO & [l HcbM] & HU).
  set (mats1 := <["water"%string := scrolled N gt w]> (mMaterials a)) in *.
  set (m1 := scrolled N gt w).
  assert (mats1 !! "water"%string = Some m1) as Hm1 by apply lookup_insert_eq.
  assert (∀ k1 k2 x1 x2, mats1 !! k1 = Some x1 → mats1 !! k2 = Some x2 →
            Material.MatCBIndex x1 = Material.MatCBIndex x2 → k1 = k2) as Hinj.
  { intros k1 k2 x1 x2. unfold mats1. rewrite !(animated_lookup N _ _ w) by done.
    destruct (mMaterials a !! k1) as [y1|] eqn:Hy1; [|done].
    destruct (mMaterials a !! k2) as [y2|] eqn:Hy2; [|done].
    simpl. intros [= <-] [= <-]. rewrite !animated_index.
    by apply (wf_material_indices _ _ (wf_static _ _ Hwf) k1 k2 y1 y2). }
  pose proof (at_index_lt _ _ _ Hfr) as Hlt.
  exists w. eexists. exists fr. eexists.
  split; [done|]. split; [exact HU|]. simpl. fold mats1.
  split; [by rewrite lookup_fmap, Hm1|].
  split; [rewrite visit_material_dirty, scrolled_dirty; case_decide; lia|].
  split; [done|].
  rewrite at_index_insert by lia. rewrite decide_True by done.
  split; [done|]. simpl.
  destruct (update_dirty_inv _ _ _ _ _ _ _ _ HcbM) as (_ & _ & _ & _ & Hread & Hup).
  assert (("water"%string, m1) ∈ map_to_list mats1) as Hin by (by apply elem_of_map_to_list).
  rewrite Hread, Hup.
  change (Material.MatCBIndex w) with ((Material.MatCBIndex ∘ snd) ("water"%string, m1)).
  split.
  - rewrite (written_Some _ _ _ _ ("water"%string, m1)); [done..| |].
    + unfold m1. simpl. lia.
    + intros [k' m'] He'%elem_of_map_to_list _ Heq. simpl in *.
      assert (k' = "water"%string) as -> by (by eapply Hinj). congruence.
  - rewrite (writes_one _ _ _ ("water"%string, m1)); [lia| |done|].
    + apply NoDup_fmap_2_strong; [|apply NoDup_map_to_list].
      intros [k1 x1] [k2 x2] H1%elem_of_map_to_list H2%elem_of_map_to_list Heq.
      simpl in Heq. assert (k1 = k2) as -> by (by eapply Hinj). congruence.
    + unfold m1. simpl. lia.
Qed.
End TexWavesReachable.

(** ** ShapesApp: further facts about reachable states *)

Section ShapesReachable.
Context `{Float32} `{RecordSizes}.
Context (N : Z).
Import Shapes ShapesSteps.
Implicit Types (a : App) (fr : FrameResource.t).

Lemma sh_Update_wait gt a :
  1 ≤ N → sh_wf N a →
  let s := NextFrameResourceIndex N (mCurrFrameResourceIndex a) in
  ∃ fr t' a',
    at_index (mFrameResources a) s = Some fr ∧
    WaitForFrameResource (FrameResource.Fence fr) (timeline a) = Ok t' ∧
    (∃ n, t' = gpu_run n (timeline a)) ∧
    (FrameResource.Fence fr ≠ 0 → CompletedValue (timeline a) < FrameResource.Fence fr →
     CompletedValue t' = FrameResource.Fence fr) ∧
    (¬ (FrameResource.Fence fr ≠ 0 ∧ CompletedValue (timeline a) < FrameResource.Fence fr) →
     t' = timeline a) ∧
    (FrameResource.Fence fr = 0 ∨ FrameResource.Fence fr ≤ CompletedValue t') ∧
    idle s t' ∧
    Update N gt a = Ok a' ∧ mCurrFrameResourceIndex a' = s ∧ timeline a' = t'.
Proof.
  intros HN [Hlay Hidx Hsync Hid] s.
  pose proof (NextFrameResourceIndex_range N (mCurrFrameResourceIndex a) HN ltac:(lia)) as Hs.
  fold s in Hs. pose proof (sh_wf_ring _ _ Hlay) as Hlen.
  destruct (at_index_is_Some (mFrameResources a) s) as [fr Hfr]; [lia|].
  destruct (WaitForFrameResource_spec (FrameResource.Fence <$> mFrameResources a)
              (timeline a) s (FrameResource.Fence fr) Hsync)
    as (t' & Hwait & Hrun & _ & Hreached & Hidle & Hblocked).
  { by rewrite at_index_fmap, Hfr. }
  destruct (update_dirty_Ok RenderItem.NumFramesDirty RenderItem.decrement
              RenderItem.ObjCBIndex objConstants (FrameResource.ObjectCB fr) (mAllRitems a))
    as [cbO HcbO].
  { intros e He _. apply (sh_wf_objects _ _ Hlay); [by eapply at_index_elem_of | done]. }
  exists fr, t'. eexists. split; [done|]. split; [done|]. split; [done|].
  split; [done|]. split.
  { intros Hg. unfold WaitForFrameResource in Hwait. rewrite decide_False in Hwait by done.
    congruence. }
  split; [done|]. split; [done|]. split.
  { unfold Update, mCurrFrameResource, set_mCurrFrameResourceIndex. simpl. fold s.
    rewrite Hfr. simpl. rewrite Hwait. simpl.
    unfold UpdateObjectCBs, mCurrFrameResource, set_timeline. simpl. rewrite Hfr. simpl.
    rewrite HcbO. simpl. done. }
  done.
Qed.

Lemma sh_reachable_layout device scene fence0 l :
  1 ≤ N → Z.of_nat (length scene) < 2 ^ 32 → 0 ≤ fence0 → fence0 + turns l < 2 ^ 64 →
  ∃ a, Steps N l (Initialize N device scene fence0) = Ok a ∧ sh_wf N a ∧
    mCurrentFence (timeline a) = fence0 + turns l ∧
    mCurrFrameResourceIndex a = turns l `mod` N ∧
    mCbvHeap a = mCbvHeap (Initialize N device scene fence0) ∧
    mOpaqueRitems a = mOpaqueRitems (Initialize N device scene fence0) ∧
    (∀ s fr fr0, at_index (mFrameResources a) s = Some fr →
       at_index (mFrameResources (Initialize N device scene fence0)) s = Some fr0 →
       region (FrameResource.ObjectCB fr) = region (FrameResource.ObjectCB fr0)) ∧
    (∀ p ri, mAllRitems a !! p = Some ri →
       RenderItem.ObjCBIndex ri = Z.of_nat p ∧ (p < length scene)%nat) ∧
    length (mAllRitems a) = length scene ∧
    length (mFrameResources a) = length (mFrameResources (Initialize N device scene fence0)).
Proof.
  intros HN Hlen Hf Hno.
  assert (0 ≤ turns l) as Hnn by (clear; induction l as [|[] l IH]; simpl; lia).
  destruct (sh_reachable N device scene fence0 l HN Hlen Hf Hno) as (a & HS & Hwf & Hcur & Hidx).
  exists a. split; [done|]. split; [done|]. split; [done|]. split; [done|].
  assert (sh_layout a = sh_layout (Initialize N device scene fence0)) as Hlay.
  { apply (sh_Steps_layout N l); try done;
      try (unfold Initialize; destruct (BuildDescriptorHeaps N _); simpl; lia).
    apply sh_Initialize_wf; [done..|lia]. }
  assert (∀ p ri, mAllRitems (Initialize N device scene fence0) !! p = Some ri →
            RenderItem.ObjCBIndex ri = Z.of_nat p ∧ (p < length scene)%nat) as Hitems.
  { intros p ri. unfold Initialize. destruct (BuildDescriptorHeaps N _). simpl.
    unfold BuildRenderItems. intros Hp.
    destruct (sh_BuildRenderItemsFrom_lookup _ _ _ _ _ Hp) as (s & Hs & Hi & _).
    apply lookup_lt_Some in Hs. split; [|done]. rewrite Hi, UINT_small; lia. }
  assert (length (mAllRitems (Initialize N device scene fence0)) = length scene) as Hlen0.
  { unfold Initialize. destruct (BuildDescriptorHeaps N _). simpl.
    unfold BuildRenderItems. apply sh_BuildRenderItemsFrom_length. }
  clear HS. revert Hlay Hitems Hlen0.
  generalize (Initialize N device scene fence0). intros a0 Hlay Hitems Hlen0.
  unfold sh_layout in Hlay. injection Hlay as Hobj Hreg Hop Hheap _.
  split; [done|]. split; [done|].
  split; [|split; [|split]].
  - intros s fr fr0 Hs Hs0.
    apply (f_equal (λ l, at_index l s)) in Hreg. rewrite !at_index_fmap, Hs, Hs0 in Hreg.
    unfold sh_slot_regions in Hreg. simpl in Hreg. congruence.
  - intros p ri Hp.
    apply (f_equal (λ l, l !! p)) in Hobj. rewrite !list_lookup_fmap, Hp in Hobj.
    destruct (mAllRitems a0 !! p) as [ri0|] eqn:Hri0; [|done].
    simpl in Hobj. injection Hobj as ->. by apply Hitems.
  - apply (f_equal length) in Hobj. rewrite !length_fmap in Hobj. by rewrite Hobj.
  - apply (f_equal length) in Hreg. by rewrite !length_fmap in Hreg.
Qed.
End ShapesReachable.

(** * Main theorems *)

Section MainTheorems.
Context `{Float32} `{RecordSizes}.

(** C5.  The ring slot selected for recording is determined by the frame
    counter modulo [N]: starting from slot index 0, the [k]-th call to
    [Update] ([k = 1, 2, ...], that is after [k - 1] complete turns of the
    message loop) returns with the current frame-resource index [k mod N], one
    past the index the previous turn left, so that successive frames visit the
    [N] slots cyclically.  Both applications. *)
Theorem frame_resource_index_cycles (N : Z) device scene shapes_scene fence0
    (inputs : list FrameInput) (i : FrameInput) :
  1 ≤ N → well_authored scene = true → Z.of_nat (length shapes_scene) < 2 ^ 32 →
  0 ≤ fence0 → fence0 + Z.of_nat (length inputs) < 2 ^ 64 →
  let k := Z.of_nat (length inputs) + 1 in
  (∃ a a', TexWaves.Run N inputs (TexWaves.Initialize N device scene fence0) = Ok a ∧
           TexWaves.mCurrFrameResourceIndex a = (k - 1) `mod` N ∧
           TexWaves.Update N (gt i) (TexWaves.gpu (gpu_before_update i) a) = Ok a' ∧
           TexWaves.mCurrFrameResourceIndex a'
           = (TexWaves.mCurrFrameResourceIndex a + 1) `mod` N ∧
           TexWaves.mCurrFrameResourceIndex a' = k `mod` N) ∧
  (∃ a a', Shapes.Run N inputs (Shapes.Initialize N device shapes_scene fence0) = Ok a ∧
           Shapes.mCurrFrameResourceIndex a = (k - 1) `mod` N ∧
           Shapes.Update N (gt i) (Shapes.gpu (gpu_before_update i) a) = Ok a' ∧
           Shapes.mCurrFrameResourceIndex a'
           = (Shapes.mCurrFrameResourceIndex a + 1) `mod` N ∧
           Shapes.mCurrFrameResourceIndex a' = k `mod` N).
Proof.
  intros HN Hscene Hshapes Hf Hno k. split.
  - destruct (reachable N device scene fence0 (TexWavesSteps.Advance <$> inputs))
      as (a & HS & Hwf & _ & Hidx); [done..|by rewrite turns_Advance|].
    rewrite turns_Advance in Hidx. rewrite <- Run_Steps in HS.
    destruct (Update_wait N (gt i) _ HN (gpu_wf N (gpu_before_update i) a Hwf))
      as (fr & t' & a' & _ & _ & _ & _ & _ & _ & _ & HU & Hidx' & _).
    exists a, a'. split; [done|]. split; [by replace (k - 1) with (Z.of_nat (length inputs)) by lia|].
    split; [done|]. rewrite Hidx'. simpl.
    rewrite NextFrameResourceIndex_mod by (try done; apply (wf_index _ _ Hwf)).
    split; [done|]. rewrite Hidx, Zplus_mod_idemp_l. done.
  - destruct (sh_reachable N device shapes_scene fence0 (ShapesSteps.Advance <$> inputs))
      as (a & HS & Hwf & _ & Hidx); [done..|by rewrite sh_turns_Advance|].
    rewrite sh_turns_Advance in Hidx. rewrite <- sh_Run_Steps in HS.
    assert (sh_wf N (Shapes.gpu (gpu_before_update i) a)) as Hwf0.
    { destruct Hwf as [Hlay Hi Hsync Hd]. constructor; try done.
      - by destruct Hlay.
      - simpl. by apply gpu_run_inv. }
    destruct (sh_Update_wait N (gt i) _ HN Hwf0)
      as (fr & t' & a' & _ & _ & _ & _ & _ & _ & _ & HU & Hidx' & _).
    exists a, a'. split; [done|]. split; [by replace (k - 1) with (Z.of_nat (length inputs)) by lia|].
    split; [done|]. rewrite Hidx'. simpl.
    rewrite NextFrameResourceIndex_mod by (try done; apply (sh_wf_index _ _ Hwf)).
    split; [done|]. rewrite Hidx, Zplus_mod_idemp_l. done.
Qed.

(** C1.  For every ring size [N >= 1] and every sequence of turns of the
    message loop (and of modifications in between), [Update] selects the next
    ring slot and, if that slot was submitted before (its fence checkpoint is
    not 0) and the fence's completed value is still below the checkpoint,
    blocks: it returns only after the GPU has progressed until the completed
    value has reached the checkpoint; otherwise it does not wait.  Either way
    the passes of [Update] start, and [Draw] later records, with the checkpoint
    reached (or 0) and with no command list of that slot left in the queue: no
    ring slot is reused for recording while its previously submitted GPU work
    is unfinished.  Both applications. *)
Theorem ring_slot_reused_only_after_gpu_finished (N : Z) device scene shapes_scene fence0
    (l : list TexWavesSteps.Step) (sl : list ShapesSteps.Step) (i : FrameInput) :
  1 ≤ N → well_authored scene = true → Z.of_nat (length shapes_scene) < 2 ^ 32 →
  0 ≤ fence0 →
  fence0 + TexWavesSteps.turns l < 2 ^ 64 → fence0 + ShapesSteps.turns sl < 2 ^ 64 →
  (∃ a fr t' a',
     TexWavesSteps.Steps N l (TexWaves.Initialize N device scene fence0) = Ok a ∧
     let a0 := TexWaves.gpu (gpu_before_update i) a in
     let s := NextFrameResourceIndex N (TexWaves.mCurrFrameResourceIndex a) in
     let Fence := TexWaves.FrameResource.Fence fr in
     at_index (TexWaves.mFrameResources a) s = Some fr ∧
     WaitForFrameResource Fence (TexWaves.timeline a0) = Ok t' ∧
     (∃ n, t' = gpu_run n (TexWaves.timeline a0)) ∧
     (Fence ≠ 0 → CompletedValue (TexWaves.timeline a0) < Fence → CompletedValue t' = Fence) ∧
     (¬ (Fence ≠ 0 ∧ CompletedValue (TexWaves.timeline a0) < Fence) →
      t' = TexWaves.timeline a0) ∧
     (Fence = 0 ∨ Fence ≤ CompletedValue t') ∧
     idle s t' ∧
     TexWaves.Update N (gt i) a0 = Ok a' ∧
     TexWaves.mCurrFrameResourceIndex a' = s ∧ TexWaves.timeline a' = t' ∧
     idle s (TexWaves.timeline (TexWaves.gpu (gpu_before_draw i) a'))) ∧
  (∃ a fr t' a',
     ShapesSteps.Steps N sl (Shapes.Initialize N device shapes_scene fence0) = Ok a ∧
     let a0 := Shapes.gpu (gpu_before_update i) a in
     let s := NextFrameResourceIndex N (Shapes.mCurrFrameResourceIndex a) in
     let Fence := Shapes.FrameResource.Fence fr in
     at_index (Shapes.mFrameResources a) s = Some fr ∧
     WaitForFrameResource Fence (Shapes.timeline a0) = Ok t' ∧
     (∃ n, t' = gpu_run n (Shapes.timeline a0)) ∧
     (Fence ≠ 0 → CompletedValue (Shapes.timeline a0) < Fence → CompletedValue t' = Fence) ∧
     (¬ (Fence ≠ 0 ∧ CompletedValue (Shapes.timeline a0) < Fence) →
      t' = Shapes.timeline a0) ∧
     (Fence = 0 ∨ Fence ≤ CompletedValue t') ∧
     idle s t' ∧
     Shapes.Update N (gt i) a0 = Ok a' ∧
     Shapes.mCurrFrameResourceIndex a' = s ∧ Shapes.timeline a' = t' ∧
     idle s (Shapes.timeline (Shapes.gpu (gpu_before_draw i) a'))).
Proof.
  intros HN Hscene Hshapes Hf Hno Hsno. split.
  - destruct (reachable N device scene fence0 l) as (a & HS & Hwf & _ & _); [done..|].
    destruct (Update_wait N (gt i) _ HN (gpu_wf N (gpu_before_update i) a Hwf))
      as (fr & t' & a' & Hfr & Hwait & Hrun & Hblock & Hskip & Hreached & Hidle & HU & Hidx & Htl).
    exists a, fr, t', a'. simpl in *. repeat (split; [done|]).
    rewrite Htl. by apply gpu_run_idle.
  - destruct (sh_reachable N device shapes_scene fence0 sl) as (a & HS & Hwf & _ & _); [done..|].
    assert (sh_wf N (Shapes.gpu (gpu_before_update i) a)) as Hwf0.
    { destruct Hwf as [Hlay Hi Hsync Hd]. constructor; try done.
      - by destruct Hlay.
      - simpl. by apply gpu_run_inv. }
    destruct (sh_Update_wait N (gt i) _ HN Hwf0)
      as (fr & t' & a' & Hfr & Hwait & Hrun & Hblock & Hskip & Hreached & Hidle & HU & Hidx & Htl).
    exists a, fr, t', a'. simpl in *. repeat (split; [done|]).
    rewrite Htl. by apply gpu_run_idle.
Qed.

(** C9.  In every state reached by any sequence of turns of the message loop
    and of modifications, the dirty count [NumFramesDirty] of every render
    item and of every material lies in [[0, N]]: it starts at [N], a visit
    decrements it only when it is strictly positive, and marking dirty assigns
    [N].  Both applications. *)
Theorem dirty_count_stays_within_ring_size (N : Z) device scene shapes_scene fence0
    (l : list TexWavesSteps.Step) (sl : list ShapesSteps.Step) :
  1 ≤ N → well_authored scene = true → Z.of_nat (length shapes_scene) < 2 ^ 32 →
  0 ≤ fence0 →
  fence0 + TexWavesSteps.turns l < 2 ^ 64 → fence0 + ShapesSteps.turns sl < 2 ^ 64 →
  (∀ e, e ∈ TexWaves.mAllRitems (TexWaves.Initialize N device scene fence0) →
        TexWaves.RenderItem.NumFramesDirty e = N) ∧
  (∀ k m, TexWaves.mMaterials (TexWaves.Initialize N device scene fence0) !! k = Some m →
        TexWaves.Material.NumFramesDirty m = N) ∧
  (∀ e, TexWaves.RenderItem.NumFramesDirty
          (visit TexWaves.RenderItem.NumFramesDirty TexWaves.RenderItem.decrement e)
        = if decide (0 < TexWaves.RenderItem.NumFramesDirty e)
          then TexWaves.RenderItem.NumFramesDirty e - 1
          else TexWaves.RenderItem.NumFramesDirty e) ∧
  (∀ e, TexWaves.RenderItem.NumFramesDirty (TexWavesSteps.markDirty N e) = N) ∧
  (∃ a, TexWavesSteps.Steps N l (TexWaves.Initialize N device scene fence0) = Ok a ∧
        (∀ e, e ∈ TexWaves.mAllRitems a → 0 ≤ TexWaves.RenderItem.NumFramesDirty e ≤ N) ∧
        (∀ k m, TexWaves.mMaterials a !! k = Some m →
                0 ≤ TexWaves.Material.NumFramesDirty m ≤ N)) ∧
  (∃ a, ShapesSteps.Steps N sl (Shapes.Initialize N device shapes_scene fence0) = Ok a ∧
        (∀ e, e ∈ Shapes.mAllRitems a → 0 ≤ Shapes.RenderItem.NumFramesDirty e ≤ N)).
Proof.
  intros HN Hscene Hshapes Hf Hno Hsno.
  split; [|split; [|split; [|split; [|split]]]].
  - simpl. unfold TexWaves.BuildRenderItems. intros e [k Hk]%list_elem_of_lookup.
    by destruct (BuildRenderItemsFrom_lookup _ _ _ _ _ Hk) as (s & _ & _ & _ & Hd & _).
  - simpl. intros k m Hm. by destruct (BuildMaterials_lookup _ _ _ Hm) as (_ & Hd & _).
  - intros e. unfold visit. by case_decide.
  - done.
  - destruct (reachable N device scene fence0 l) as (a & HS & Hwf & _ & _); [done..|].
    exists a. split; [done|]. split; [apply (wf_item_dirty _ _ Hwf) | apply (wf_material_dirty _ _ Hwf)].
  - destruct (sh_reachable N device shapes_scene fence0 sl) as (a & HS & Hwf & _ & _); [done..|].
    exists a. split; [done|]. apply (sh_wf_item_dirty _ _ Hwf).
Qed.

(** C6.  Marking dirty assigns [N]: marking an item or a material twice in
    succession, with no ring-slot visit in between, leaves its dirty count at
    exactly [N], whatever it was before; so do two successive modifications
    through [SetWorld] and two successive runs of [AnimateMaterials] for the
    water material.  The count saturates at [N] and does not accumulate. *)
Theorem markDirty_twice_is_N (N : Z) (a : TexWaves.App) (gt1 gt2 : GameTimer)
    (p : nat) (world1 world2 : XMFLOAT4X4) :
  is_Some (TexWaves.mMaterials a !! "water"%string) →
  (p < length (TexWaves.mAllRitems a))%nat →
  (∀ e, TexWaves.RenderItem.NumFramesDirty (TexWavesSteps.markDirty N e) = N ∧
        TexWaves.RenderItem.NumFramesDirty
          (TexWavesSteps.markDirty N (TexWavesSteps.markDirty N e)) = N) ∧
  (∀ m, TexWaves.Material.NumFramesDirty (TexWavesSteps.markMaterialDirty N m) = N ∧
        TexWaves.Material.NumFramesDirty
          (TexWavesSteps.markMaterialDirty N (TexWavesSteps.markMaterialDirty N m)) = N) ∧
  (∃ e, TexWaves.mAllRitems
          (TexWavesSteps.ModifyItem N p world2 (TexWavesSteps.ModifyItem N p world1 a)) !! p
        = Some e ∧ TexWaves.RenderItem.NumFramesDirty e = N) ∧
  (∃ a1 a2 w1 w2,
     TexWaves.AnimateMaterials N gt1 a = Ok a1 ∧
     TexWaves.AnimateMaterials N gt2 a1 = Ok a2 ∧
     TexWaves.mMaterials a1 !! "water"%string = Some w1 ∧
     TexWaves.Material.NumFramesDirty w1 = N ∧
     TexWaves.mMaterials a2 !! "water"%string = Some w2 ∧
     TexWaves.Material.NumFramesDirty w2 = N).
Proof.
  intros [w Hw] Hp. split; [done|]. split; [done|]. split.
  - destruct (lookup_lt_is_Some_2 _ _ Hp) as [e He].
    eexists. simpl. rewrite !list_lookup_alter_eq, He. simpl. done.
  - pose proof (AnimateMaterials_spec N gt1 a w Hw) as H1.
    set (a1 := TexWaves.set_mMaterials _ a) in H1.
    assert (TexWaves.mMaterials a1 !! "water"%string = Some (scrolled N gt1 w)) as Hw1
      by apply lookup_insert_eq.
    pose proof (AnimateMaterials_spec N gt2 a1 _ Hw1) as H2.
    eexists a1, _, _, _. split; [done|]. split; [exact H2|]. split; [done|].
    split; [done|]. split; [apply lookup_insert_eq|done].
Qed.

(** C10.  In [TexWavesApp], [AnimateMaterials] runs on every [Update] and
    sets the water material's dirty count to [N] before the material pass
    runs; so in every reachable state every [Update] uploads the water
    material's constants into the selected ring slot (exactly one upload, at
    the water's index) and returns with the water's dirty count at [N - 1],
    which is not 0 for a ring of two or more slots (it is 2 for the program's
    [gNumFrameResources = 3]): the water material is never clean. *)
Theorem water_material_is_uploaded_every_frame (N : Z) device scene fence0
    (l : list TexWavesSteps.Step) (i : FrameInput) :
  1 ≤ N → well_authored scene = true → 0 ≤ fence0 →
  fence0 + TexWavesSteps.turns l < 2 ^ 64 →
  (∀ b gt w, TexWaves.mMaterials b !! "water"%string = Some w →
     ∃ b' w', TexWaves.AnimateMaterials N gt b = Ok b' ∧
              TexWaves.mMaterials b' !! "water"%string = Some w' ∧
              TexWaves.Material.NumFramesDirty w' = N) ∧
  ∃ a a' w' fr fr',
    TexWavesSteps.Steps N l (TexWaves.Initialize N device scene fence0) = Ok a ∧
    TexWaves.Update N (gt i) (TexWaves.gpu (gpu_before_update i) a) = Ok a' ∧
    TexWaves.mMaterials a' !! "water"%string = Some w' ∧
    TexWaves.Material.NumFramesDirty w' = N - 1 ∧
    (2 ≤ N → 0 < TexWaves.Material.NumFramesDirty w') ∧
    at_index (TexWaves.mFrameResources a) (TexWaves.mCurrFrameResourceIndex a') = Some fr ∧
    at_index (TexWaves.mFrameResources a') (TexWaves.mCurrFrameResourceIndex a') = Some fr' ∧
    UploadBuffer.read (TexWaves.FrameResource.MaterialCB fr') (TexWaves.Material.MatCBIndex w')
    = Some (TexWaves.matConstants w') ∧
    UploadBuffer.uploads (TexWaves.FrameResource.MaterialCB fr')
      (TexWaves.Material.MatCBIndex w')
    = S (UploadBuffer.uploads (TexWaves.FrameResource.MaterialCB fr)
           (TexWaves.Material.MatCBIndex w')).
Proof.
  intros HN Hscene Hf Hno. split.
  - intros b gt w Hw. rewrite (AnimateMaterials_spec N gt b w Hw).
    eexists _, _. split; [done|]. split; [apply lookup_insert_eq|done].
  - destruct (reachable N device scene fence0 l) as (a & HS & Hwf & _ & _); [done..|].
    destruct (Update_water N (gt i) _ HN (gpu_wf N (gpu_before_update i) a Hwf))
      as (w & a' & fr & fr' & Hw & HU & Hw' & Hd & Hfr & Hfr' & Hread & Hup).
    exists a, a'. eexists. exists fr, fr'.
    split; [done|]. split; [done|]. split; [exact Hw'|].
    split; [done|]. split; [lia|]. split; [done|]. split; [done|].
    rewrite visit_material_constants.
    replace (TexWaves.Material.MatCBIndex (visit _ _ (scrolled N (gt i) w)))
      with (TexWaves.Material.MatCBIndex w); [done|].
    symmetry. exact (f_equal fst (visit_material_indices (scrolled N (gt i) w))).
Qed.

(** How far an update has got into ring slot [s] after [len] turns started
    with current index [idx]: if the slot has been selected in the meantime,
    record [j] of its region holds [x] and has been uploaded exactly once more;
    otherwise the record and its upload count are what they were. *)
Definition propagated {T} (N idx len s : Z) (cb cb' : UploadBuffer.t T) (j : Z) (x : T)
    : Prop :=
  if decide (turns_until N idx s < len)
  then UploadBuffer.read cb' j = Some x ∧
       UploadBuffer.uploads cb' j = S (UploadBuffer.uploads cb j)
  else UploadBuffer.read cb' j = UploadBuffer.read cb j ∧
       UploadBuffer.uploads cb' j = UploadBuffer.uploads cb j.

Lemma propagated_all {T} N idx s (cb cb' : UploadBuffer.t T) j x :
  1 ≤ N → 0 ≤ idx < N → 0 ≤ s < N →
  propagated N idx N s cb cb' j x →
  UploadBuffer.read cb' j = Some x ∧
  UploadBuffer.uploads cb' j = S (UploadBuffer.uploads cb j).
Proof using Type.
  intros HN Hidx Hs. unfold propagated.
  destruct (turns_until_spec N idx s HN Hidx Hs) as [? _].
  by rewrite decide_True by lia.
Qed.

Lemma reachable_material N device scene fence0 (l : list TexWavesSteps.Step) a k m0 :
  1 ≤ N → well_authored scene = true → 0 ≤ fence0 →
  fence0 + TexWavesSteps.turns l < 2 ^ 64 →
  TexWavesSteps.Steps N l (TexWaves.Initialize N device scene fence0) = Ok a →
  TexWaves.BuildMaterials N !! k = Some m0 →
  ∃ m, TexWaves.mMaterials a !! k = Some m ∧
       TexWaves.Material.MatCBIndex m = TexWaves.Material.MatCBIndex m0.
Proof.
  intros HN Hscene Hf Hno HS Hk.
  assert (0 ≤ TexWavesSteps.turns l) as Hnn by (clear; induction l as [|[] l IH]; simpl; lia).
  assert (layout a = layout (TexWaves.Initialize N device scene fence0)) as Hlay.
  { apply (Steps_layout N l); try done; try (simpl; lia).
    apply Initialize_wf; [done..|lia]. }
  unfold layout in Hlay. injection Hlay as _ _ Hmi _ _ _ _.
  apply (f_equal (λ x, x !! k)) in Hmi. rewrite !lookup_fmap in Hmi.
  simpl in Hmi. rewrite Hk in Hmi.
  destruct (TexWaves.mMaterials a !! k) as [m|]; [|done].
  exists m. split; [done|]. unfold material_indices in Hmi. simpl in Hmi. congruence.
Qed.



(** C8.  The material pass walks the material table, not the items.  For
    every scene, whatever number of its items reference the material [name],
    marking that material dirty in a reachable state makes the next turn
    upload its constants exactly once, into the slot that turn selects, and
    into no other slot; over the next [N] turns every ring slot receives
    exactly one upload of the material's constants. *)
Theorem material_uploaded_once_per_ring_slot (N : Z) device scene fence0
    (l : list TexWavesSteps.Step) (name : string) (transform : XMFLOAT4X4)
    (i : FrameInput) (inputs : list FrameInput) :
  1 ≤ N → well_authored scene = true → 0 ≤ fence0 →
  fence0 + TexWavesSteps.turns l + N < 2 ^ 64 →
  name ∈ ["grass"; "wirefence"; "stone"]%string →
  Z.of_nat (length inputs) = N →
  ∃ a m,
    TexWavesSteps.Steps N l (TexWaves.Initialize N device scene fence0) = Ok a ∧
    TexWaves.mMaterials a !! name = Some m ∧
    let marked := TexWavesSteps.ModifyMaterial N name transform a in
    let j := TexWaves.Material.MatCBIndex m in
    (∃ a1, TexWaves.Frame N i marked = Ok a1 ∧
       ∀ s, 0 ≤ s < N → ∃ fr fr1,
         at_index (TexWaves.mFrameResources a) s = Some fr ∧
         at_index (TexWaves.mFrameResources a1) s = Some fr1 ∧
         UploadBuffer.uploads (TexWaves.FrameResource.MaterialCB fr1) j
         = if decide (s = TexWaves.mCurrFrameResourceIndex a1)
           then S (UploadBuffer.uploads (TexWaves.FrameResource.MaterialCB fr) j)
           else UploadBuffer.uploads (TexWaves.FrameResource.MaterialCB fr) j) ∧
    (∃ a', TexWaves.Run N inputs marked = Ok a' ∧
       ∀ s, 0 ≤ s < N → ∃ fr fr',
         at_index (TexWaves.mFrameResources a) s = Some fr ∧
         at_index (TexWaves.mFrameResources a') s = Some fr' ∧
         UploadBuffer.uploads (TexWaves.FrameResource.MaterialCB fr') j
         = S (UploadBuffer.uploads (TexWaves.FrameResource.MaterialCB fr) j)).
Proof.
  intros HN Hscene Hf Hno Hname Hlen.
  assert (0 ≤ TexWavesSteps.turns l) as Hnn by (clear; induction l as [|[] l IH]; simpl; lia).
  destruct (reachable N device scene fence0 l) as (a & HS & Hwf & Hcur & Hidx); [done..|lia|].
  assert (name ≠ "water"%string) as Hnw.
  { intros ->. revert Hname. rewrite !elem_of_cons, elem_of_nil. intros [|[|[|[]]]]; done. }
  destruct (BuildMaterials_is_Some N name) as [m0 Hm0].
  { revert Hname. rewrite !elem_of_cons, !elem_of_nil. tauto. }
  destruct (reachable_material N device scene fence0 l a name m0) as (m & Hm & _);
    [done..|lia|done|done|].
  set (m1 := TexWavesSteps.markMaterialDirty N (TexWaves.Material.set_MatTransform transform m)).
  set (a2 := TexWavesSteps.ModifyMaterial N name transform a).
  assert (wf N a2) as Hwf2 by (apply ModifyMaterial_wf; [lia|done]).
  assert (TexWaves.mMaterials a2 !! name = Some m1) as Hm1.
  { simpl. by rewrite lookup_alter_eq, Hm. }
  assert (∀ s, 0 ≤ s < N → is_Some (at_index (TexWaves.mFrameResources a) s)) as Hring.
  { intros s Hs. apply at_index_is_Some. rewrite (wf_ring _ _ (wf_static _ _ Hwf)). lia. }
  exists a, m. split; [done|]. split; [done|]. simpl. fold a2. split.
  - destruct (Frame_material N name m1 i a2) as (a1 & HF & _ & _ & _ & _ & Hslots);
      [done|done|simpl; rewrite Hcur; lia|done|].
    exists a1. split; [done|]. intros s Hs.
    destruct (Hring s Hs) as [fr Hfr].
    destruct (Hslots s fr Hfr) as (fr1 & Hfr1 & Hprop).
    exists fr, fr1. split; [done|]. split; [done|].
    simpl in Hprop. unfold animated in Hprop. rewrite (decide_False (P := name = _)) in Hprop by done.
    change (TexWaves.Material.NumFramesDirty m1) with N in Hprop.
    repeat case_decide; try tauto; try lia; by destruct Hprop.
  - destruct (propagate_material N inputs a2 name m1) as (a' & m' & HR & _ & _ & _ & _ & _ & Hslots).
    { done. }
    { done. }
    { done. }
    { done. }
    { simpl. lia. }
    { simpl. rewrite Hcur. lia. }
    exists a'. split; [done|]. intros s Hs.
    destruct (Hring s Hs) as [fr Hfr].
    destruct (Hslots s fr Hfr) as (fr' & Hfr' & Hprop).
    exists fr, fr'. split; [done|]. split; [done|].
    assert (propagated N (TexWaves.mCurrFrameResourceIndex a) N s
              (TexWaves.FrameResource.MaterialCB fr) (TexWaves.FrameResource.MaterialCB fr')
              (TexWaves.Material.MatCBIndex m) (TexWaves.matConstants m1)) as Hp.
    { unfold propagated. rewrite Hlen in Hprop. exact Hprop. }
    by apply propagated_all in Hp as [_ ?]; [|done|apply (wf_index _ _ Hwf)|lia].
Qed.

(** The per-object upload regions of a ring of [N] slots with [count]
    records each are addressable: the byte size of a region fits the 32-bit
    arithmetic of the bind path and each region lies inside the 64-bit
    address space. *)
Definition addressable (N : Z) (device : Device) (count : Z) : bool :=
  let bytes := count * CalcConstantBufferByteSize sizeof_ObjectConstants in
  (bytes <? 2 ^ 32)
  && forallb (λ s, (0 <=? ObjectCB_address device s)
                   && (ObjectCB_address device s + bytes <? 2 ^ 64)) (seqZ 0 N).

Lemma CalcConstantBufferByteSize_nonneg byteSize : 0 ≤ CalcConstantBufferByteSize byteSize.
Proof.
  unfold CalcConstantBufferByteSize. apply Z.land_nonneg. left.
  unfold UINT. apply Z.mod_pos_bound. lia.
Qed.

Lemma addressable_spec N device count s i :
  addressable N device count = true → 0 ≤ s < N → 0 ≤ i < count →
  let size := CalcConstantBufferByteSize sizeof_ObjectConstants in
  0 ≤ i * size < 2 ^ 32 ∧
  0 ≤ ObjectCB_address device s + i * size < 2 ^ 64.
Proof.
  unfold addressable. intros [Hb Hall]%andb_prop Hs Hi.
  pose proof (CalcConstantBufferByteSize_nonneg sizeof_ObjectConstants) as Hsz.
  apply Z.ltb_lt in Hb. rewrite forallb_forall in Hall.
  specialize (Hall s). rewrite <- list_elem_of_In, elem_of_seqZ in Hall.
  destruct (andb_prop _ _ (Hall ltac:(lia))) as [Hlo%Z.leb_le Hhi%Z.ltb_lt].
  simpl. nia.
Qed.

(** The bind path of TexWavesApp for item [p] with slot [s] current. *)
Lemma TexWaves_bind_path (N : Z) device scene fence0 (l : list TexWavesSteps.Step)
    (s : Z) (p : nat) :
  1 ≤ N → well_authored scene = true →
  addressable N device (Z.of_nat (length scene)) = true →
  0 ≤ fence0 → fence0 + TexWavesSteps.turns l < 2 ^ 64 →
  0 ≤ s < N → (p < length scene)%nat →
  ∃ a fr ri call,
    TexWavesSteps.Steps N l (TexWaves.Initialize N device scene fence0) = Ok a ∧
    at_index (TexWaves.mFrameResources a) s = Some fr ∧
    TexWaves.mAllRitems a !! p = Some ri ∧
    TexWaves.RenderItem.ObjCBIndex ri = Z.of_nat p ∧
    region (TexWaves.FrameResource.ObjectCB fr)
    = (Z.of_nat (length scene), CalcConstantBufferByteSize sizeof_ObjectConstants,
       ObjectCB_address device s) ∧
    TexWaves.DrawRenderItems (TexWaves.set_mCurrFrameResourceIndex s a) [p] = Ok [call] ∧
    TexWaves.objCBAddress call
    = ObjectCB_address device s
      + Z.of_nat p * CalcConstantBufferByteSize sizeof_ObjectConstants.
Proof.
  intros HN Hscene Haddr Hf Hno Hs Hp.
  destruct (reachable_layout N device scene fence0 l) as
    (a & HS & Hwf & _ & _ & Hreg & Hitems & Hlength); [done..|].
  destruct (at_index_is_Some (TexWaves.mFrameResources a) s) as [fr Hfr];
    [rewrite (wf_ring _ _ (wf_static _ _ Hwf)); lia|].
  destruct (lookup_lt_is_Some_2 (TexWaves.mAllRitems a) p) as [ri Hri]; [lia|].
  destruct (Hitems p ri Hri) as [Hidx _].
  destruct (wf_mat _ _ (wf_static _ _ Hwf) ri) as [mat Hmat].
  { apply list_elem_of_lookup. by exists p. }
  destruct (Hreg s fr Hfr) as [Hobj _]. pose proof Hobj as Hobj'. unfold region in Hobj'.
  injection Hobj' as Hcap Hsize Hva.
  destruct (addressable_spec N device _ s (Z.of_nat p) Haddr Hs) as [Hoff Hin]; [lia|].
  exists a, fr, ri. eexists. split; [done|]. split; [done|]. split; [done|]. split; [done|].
  split; [done|].
  unfold TexWaves.DrawRenderItems, TexWaves.mCurrFrameResource,
    TexWaves.set_mCurrFrameResourceIndex. simpl.
  rewrite Hfr. simpl. rewrite Hri. simpl. unfold TexWaves.DrawRenderItem. simpl.
  rewrite Hmat. simpl. split; [reflexivity|]. simpl.
  rewrite Hva, Hidx. rewrite UINT_small by done. by rewrite UINT64_small.
Qed.

(** The bind path of ShapesApp for item [p] with slot [s] current: the
    descriptor bound and the address it views. *)
Lemma Shapes_bind_path (N : Z) device scene fence0 (l : list ShapesSteps.Step)
    (s : Z) (p : nat) :
  1 ≤ N → addressable N device (Z.of_nat (length scene)) = true →
  (Z.of_nat (length scene) + 1) * N < 2 ^ 32 →
  0 ≤ fence0 → fence0 + ShapesSteps.turns l < 2 ^ 64 →
  0 ≤ s < N → (p < length scene)%nat →
  ∃ a fr ri call,
    ShapesSteps.Steps N l (Shapes.Initialize N device scene fence0) = Ok a ∧
    at_index (Shapes.mFrameResources a) s = Some fr ∧
    Shapes.mAllRitems a !! p = Some ri ∧
    Shapes.RenderItem.ObjCBIndex ri = Z.of_nat p ∧
    region (Shapes.FrameResource.ObjectCB fr)
    = (Z.of_nat (length scene), CalcConstantBufferByteSize sizeof_ObjectConstants,
       ObjectCB_address device s) ∧
    Shapes.DrawRenderItems (Shapes.set_mCurrFrameResourceIndex s a) [p] = Ok [call] ∧
    Shapes.cbvIndex call = s * Z.of_nat (length scene) + Z.of_nat p ∧
    Shapes.bound_address (Shapes.set_mCurrFrameResourceIndex s a) call
    = Some (ObjectCB_address device s
            + Z.of_nat p * CalcConstantBufferByteSize sizeof_ObjectConstants).
Proof.
  intros HN Haddr Hheap Hf Hno Hs Hp.
  set (n := Z.of_nat (length scene)) in *.
  assert (n < 2 ^ 32) as Hn by nia.
  destruct (sh_reachable_layout N device scene fence0 l) as
    (a & HS & Hwf & _ & _ & Hcbv & Hopaque & Hreg & Hitems & Hlength & _); [done..|].
  destruct (sh_heap_lookup N device scene fence0 s (Z.of_nat p))
    as (fr0 & Hfr0 & Hreg0 & Hlen0 & Hview); [done|done|done|lia|].
  fold n in Hview, Hreg0.
  destruct (at_index_is_Some (Shapes.mFrameResources a) s) as [fr Hfr];
    [rewrite (sh_wf_ring _ _ (sh_wf_static _ _ Hwf)); lia|].
  destruct (lookup_lt_is_Some_2 (Shapes.mAllRitems a) p) as [ri Hri]; [lia|].
  destruct (Hitems p ri Hri) as [Hidx _].
  pose proof (Hreg s fr fr0 Hfr Hfr0) as Hobj. rewrite Hreg0 in Hobj.
  destruct (addressable_spec N device _ s (Z.of_nat p) Haddr Hs) as [Hoff Hin]; [lia|].
  assert (0 ≤ s * n ∧ s * n + Z.of_nat p < (n + 1) * N) as [Hsn Hlt] by nia.
  assert (UINT (UINT (s * UINT (Z.of_nat (length (Shapes.mOpaqueRitems a))))
                + Shapes.RenderItem.ObjCBIndex ri) = s * n + Z.of_nat p) as Hcbvi.
  { rewrite Hopaque, Hlen0, Hidx. fold n.
    rewrite (UINT_small n) by lia. rewrite (UINT_small (s * n)) by lia.
    apply UINT_small. lia. }
  exists a, fr, ri. eexists. split; [done|]. split; [done|]. split; [done|]. split; [done|].
  split; [done|].
  unfold Shapes.DrawRenderItems, Shapes.mCurrFrameResource,
    Shapes.set_mCurrFrameResourceIndex. simpl.
  rewrite Hfr. simpl. rewrite Hri. simpl. split; [reflexivity|].
  unfold Shapes.bound_address, Shapes.DrawRenderItem. simpl.
  rewrite Hcbvi. split; [done|].
  rewrite Hcbv, Hview. simpl.
  unfold region in Hreg0. injection Hreg0 as _ _ Hva0.
  rewrite Hva0. rewrite UINT_small by done. by rewrite UINT64_small.
Qed.

(** Event sequences compose, and so do their turn counts. *)
Lemma TexWaves_Steps_app N (l1 l2 : list TexWavesSteps.Step) a :
  TexWavesSteps.Steps N (l1 ++ l2) a
  = TexWavesSteps.Steps N l1 a ≫= TexWavesSteps.Steps N l2.
Proof.
  revert a. induction l1 as [|st l1 IH]; intros a; simpl; [done|].
  destruct (TexWavesSteps.step N st a); simpl; [apply IH|done].
Qed.

Lemma TexWaves_turns_app (l1 l2 : list TexWavesSteps.Step) :
  TexWavesSteps.turns (l1 ++ l2) = TexWavesSteps.turns l1 + TexWavesSteps.turns l2.
Proof. induction l1 as [|[] l1 IH]; simpl; lia. Qed.

Lemma Shapes_Steps_app N (l1 l2 : list ShapesSteps.Step) a :
  ShapesSteps.Steps N (l1 ++ l2) a
  = ShapesSteps.Steps N l1 a ≫= ShapesSteps.Steps N l2.
Proof.
  revert a. induction l1 as [|st l1 IH]; intros a; simpl; [done|].
  destruct (ShapesSteps.step N st a); simpl; [apply IH|done].
Qed.

Lemma Shapes_turns_app (l1 l2 : list ShapesSteps.Step) :
  ShapesSteps.turns (l1 ++ l2) = ShapesSteps.turns l1 + ShapesSteps.turns l2.
Proof. induction l1 as [|[] l1 IH]; simpl; lia. Qed.

(** A record index at or beyond the capacity of a region holds nothing. *)
Lemma read_beyond_capacity {T} (b : UploadBuffer.t T) i :
  UploadBuffer.capacity b ≤ i → UploadBuffer.read b i = None.
Proof.
  unfold UploadBuffer.capacity, UploadBuffer.read. intros Hi. case_decide; [|done].
  rewrite lookup_ge_None_2; [done|lia].
Qed.

(** The write path of TexWavesApp for item [p]: once the item has been
    modified, the next [N] turns store its constants at its object index in
    every ring slot [s], by one [CopyData] call each. *)
Lemma TexWaves_write_path (N : Z) device scene fence0 (l : list TexWavesSteps.Step)
    (s : Z) (p : nat) (world : XMFLOAT4X4) (inputs : list FrameInput) :
  1 ≤ N → well_authored scene = true → 0 ≤ fence0 →
  fence0 + TexWavesSteps.turns l + N < 2 ^ 64 →
  0 ≤ s < N → (p < length scene)%nat → Z.of_nat (length inputs) = N →
  ∃ a a' fr fr' ri',
    TexWavesSteps.Steps N l (TexWaves.Initialize N device scene fence0) = Ok a ∧
    TexWaves.Run N inputs (TexWavesSteps.ModifyItem N p world a) = Ok a' ∧
    TexWavesSteps.Steps N
      (l ++ TexWavesSteps.SetWorld p world :: (TexWavesSteps.Advance <$> inputs))
      (TexWaves.Initialize N device scene fence0) = Ok a' ∧
    TexWavesSteps.turns
      (l ++ TexWavesSteps.SetWorld p world :: (TexWavesSteps.Advance <$> inputs))
    = TexWavesSteps.turns l + N ∧
    at_index (TexWaves.mFrameResources a) s = Some fr ∧
    at_index (TexWaves.mFrameResources a') s = Some fr' ∧
    TexWaves.mAllRitems a' !! p = Some ri' ∧
    TexWaves.RenderItem.World ri' = world ∧
    UploadBuffer.read (TexWaves.FrameResource.ObjectCB fr') (TexWaves.RenderItem.ObjCBIndex ri')
    = Some (TexWaves.objConstants ri') ∧
    UploadBuffer.uploads (TexWaves.FrameResource.ObjectCB fr')
      (TexWaves.RenderItem.ObjCBIndex ri')
    = S (UploadBuffer.uploads (TexWaves.FrameResource.ObjectCB fr)
           (TexWaves.RenderItem.ObjCBIndex ri')).
Proof.
  intros HN Hscene Hf Hno Hs Hp Hlen.
  assert (0 ≤ TexWavesSteps.turns l) as Hnn by (clear; induction l as [|[] l IH]; simpl; lia).
  destruct (reachable_layout N device scene fence0 l) as
    (a & HS & Hwf & Hcur & Hidx & _ & Hitems & Hlength); [done..|lia|].
  destruct (lookup_lt_is_Some_2 (TexWaves.mAllRitems a) p) as [e He]; [lia|].
  set (e1 := TexWavesSteps.markDirty N (TexWaves.RenderItem.set_World world e)).
  destruct (propagate_item N inputs (TexWavesSteps.ModifyItem N p world a) p e1)
    as (a' & e' & HR & Hwf' & He' & Hd' & Hi' & Hw' & Ht' & Hslots).
  { done. }
  { apply ModifyItem_wf; [lia|done]. }
  { simpl. by rewrite list_lookup_alter_eq, He. }
  { simpl. lia. }
  { simpl. rewrite Hcur. lia. }
  assert (TexWaves.objConstants e' = TexWaves.objConstants e1) as Hc.
  { unfold TexWaves.objConstants. by rewrite Hw', Ht'. }
  destruct (at_index_is_Some (TexWaves.mFrameResources a) s) as [fr Hfr];
    [rewrite (wf_ring _ _ (wf_static _ _ Hwf)); lia|].
  destruct (Hslots s fr Hfr) as (fr' & Hfr' & Hprop).
  assert (propagated N (TexWaves.mCurrFrameResourceIndex a) N s
            (TexWaves.FrameResource.ObjectCB fr) (TexWaves.FrameResource.ObjectCB fr')
            (TexWaves.RenderItem.ObjCBIndex e') (TexWaves.objConstants e')) as Hpr.
  { unfold propagated. rewrite Hi', Hc. rewrite Hlen in Hprop. exact Hprop. }
  apply propagated_all in Hpr as [Hread Hup]; [|done|apply (wf_index _ _ Hwf)|done].
  exists a, a', fr, fr', e'. split; [done|]. split; [done|].
  split.
  { rewrite TexWaves_Steps_app, HS. simpl. rewrite <- Run_Steps. exact HR. }
  split.
  { rewrite TexWaves_turns_app. simpl. rewrite turns_Advance. lia. }
  split; [done|]. split; [done|]. split; [done|]. split; [by rewrite Hw'|].
  split; [exact Hread|exact Hup].
Qed.

(** The same for ShapesApp. *)
Lemma Shapes_write_path (N : Z) device scene fence0 (l : list ShapesSteps.Step)
    (s : Z) (p : nat) (world : XMFLOAT4X4) (inputs : list FrameInput) :
  1 ≤ N → Z.of_nat (length scene) < 2 ^ 32 → 0 ≤ fence0 →
  fence0 + ShapesSteps.turns l + N < 2 ^ 64 →
  0 ≤ s < N → (p < length scene)%nat → Z.of_nat (length inputs) = N →
  ∃ a a' fr fr' ri',
    ShapesSteps.Steps N l (Shapes.Initialize N device scene fence0) = Ok a ∧
    Shapes.Run N inputs (ShapesSteps.ModifyItem N p world a) = Ok a' ∧
    ShapesSteps.Steps N
      (l ++ ShapesSteps.SetWorld p world :: (ShapesSteps.Advance <$> inputs))
      (Shapes.Initialize N device scene fence0) = Ok a' ∧
    ShapesSteps.turns
      (l ++ ShapesSteps.SetWorld p world :: (ShapesSteps.Advance <$> inputs))
    = ShapesSteps.turns l + N ∧
    at_index (Shapes.mFrameResources a) s = Some fr ∧
    at_index (Shapes.mFrameResources a') s = Some fr' ∧
    Shapes.mAllRitems a' !! p = Some ri' ∧
    Shapes.RenderItem.World ri' = world ∧
    UploadBuffer.read (Shapes.FrameResource.ObjectCB fr') (Shapes.RenderItem.ObjCBIndex ri')
    = Some (Shapes.objConstants ri') ∧
    UploadBuffer.uploads (Shapes.FrameResource.ObjectCB fr')
      (Shapes.RenderItem.ObjCBIndex ri')
    = S (UploadBuffer.uploads (Shapes.FrameResource.ObjectCB fr)
           (Shapes.RenderItem.ObjCBIndex ri')).
Proof.
  intros HN Hscene Hf Hno Hs Hp Hlen.
  assert (0 ≤ ShapesSteps.turns l) as Hnn by (clear; induction l as [|[] l IH]; simpl; lia).
  destruct (sh_reachable_layout N device scene fence0 l) as
    (a & HS & Hwf & Hcur & Hidx & _ & _ & _ & Hitems & Hlength & _); [done..|lia|].
  destruct (lookup_lt_is_Some_2 (Shapes.mAllRitems a) p) as [e He]; [lia|].
  set (e1 := ShapesSteps.markDirty N
               (Shapes.RenderItem.mk world (Shapes.RenderItem.NumFramesDirty e)
                  (Shapes.RenderItem.ObjCBIndex e) (Shapes.RenderItem.Geo e)
                  (Shapes.RenderItem.DrawArgs e))).
  destruct (sh_propagate_item N inputs (ShapesSteps.ModifyItem N p world a) p e1)
    as (a' & e' & HR & Hwf' & He' & Hd' & Hi' & Hw' & Hslots).
  { done. }
  { apply sh_ModifyItem_wf; [lia|done]. }
  { simpl. by rewrite list_lookup_alter_eq, He. }
  { simpl. lia. }
  { simpl. rewrite Hcur. lia. }
  assert (Shapes.objConstants e' = Shapes.objConstants e1) as Hc.
  { unfold Shapes.objConstants. by rewrite Hw'. }
  destruct (at_index_is_Some (Shapes.mFrameResources a) s) as [fr Hfr];
    [rewrite (sh_wf_ring _ _ (sh_wf_static _ _ Hwf)); lia|].
  destruct (Hslots s fr Hfr) as (fr' & Hfr' & Hprop).
  assert (propagated N (Shapes.mCurrFrameResourceIndex a) N s
            (Shapes.FrameResource.ObjectCB fr) (Shapes.FrameResource.ObjectCB fr')
            (Shapes.RenderItem.ObjCBIndex e') (Shapes.objConstants e')) as Hpr.
  { unfold propagated. rewrite Hi', Hc. rewrite Hlen in Hprop. exact Hprop. }
  apply propagated_all in Hpr as [Hread Hup]; [|done|apply (sh_wf_index _ _ Hwf)|done].
  exists a, a', fr, fr', e'. split; [done|]. split; [done|].
  split.
  { rewrite Shapes_Steps_app, HS. simpl. rewrite <- sh_Run_Steps. exact HR. }
  split.
  { rewrite Shapes_turns_app. simpl. rewrite sh_turns_Advance. lia. }
  split; [done|]. split; [done|]. split; [done|]. split; [by rewrite Hw'|].
  split; [exact Hread|exact Hup].
Qed.

(** Both paths of TexWavesApp for item [p] and ring slot [s]: in a reachable
    state, and after a modification of the item followed by [N] turns. *)
Lemma TexWaves_write_bind_path (N : Z) device scene fence0 (l : list TexWavesSteps.Step)
    (s : Z) (p : nat) (world : XMFLOAT4X4) (inputs : list FrameInput) :
  1 ≤ N → well_authored scene = true →
  addressable N device (Z.of_nat (length scene)) = true →
  0 ≤ fence0 → fence0 + TexWavesSteps.turns l + N < 2 ^ 64 →
  0 ≤ s < N → (p < length scene)%nat → Z.of_nat (length inputs) = N →
  let place := (Z.of_nat (length scene), CalcConstantBufferByteSize sizeof_ObjectConstants,
                ObjectCB_address device s) in
  let address := ObjectCB_address device s
                 + Z.of_nat p * CalcConstantBufferByteSize sizeof_ObjectConstants in
  ∃ a fr ri call a' fr' ri' call',
    (TexWavesSteps.Steps N l (TexWaves.Initialize N device scene fence0) = Ok a ∧
     at_index (TexWaves.mFrameResources a) s = Some fr ∧
     TexWaves.mAllRitems a !! p = Some ri ∧
     TexWaves.RenderItem.ObjCBIndex ri = Z.of_nat p ∧
     region (TexWaves.FrameResource.ObjectCB fr) = place ∧
     TexWaves.DrawRenderItems (TexWaves.set_mCurrFrameResourceIndex s a) [p] = Ok [call] ∧
     TexWaves.objCBAddress call = address) ∧
    (TexWaves.Run N inputs (TexWavesSteps.ModifyItem N p world a) = Ok a' ∧
     at_index (TexWaves.mFrameResources a') s = Some fr' ∧
     TexWaves.mAllRitems a' !! p = Some ri' ∧
     TexWaves.RenderItem.ObjCBIndex ri' = Z.of_nat p ∧
     TexWaves.RenderItem.World ri' = world ∧
     region (TexWaves.FrameResource.ObjectCB fr') = place ∧
     UploadBuffer.read (TexWaves.FrameResource.ObjectCB fr') (Z.of_nat p)
     = Some (TexWaves.objConstants ri') ∧
     UploadBuffer.uploads (TexWaves.FrameResource.ObjectCB fr') (Z.of_nat p)
     = S (UploadBuffer.uploads (TexWaves.FrameResource.ObjectCB fr) (Z.of_nat p)) ∧
     TexWaves.DrawRenderItems (TexWaves.set_mCurrFrameResourceIndex s a') [p] = Ok [call'] ∧
     TexWaves.objCBAddress call' = address).
Proof.
  intros HN Hscene Haddr Hf Hno Hs Hp Hlen place address.
  assert (0 ≤ TexWavesSteps.turns l) as Hnn by (clear; induction l as [|[] l IH]; simpl; lia).
  destruct (TexWaves_bind_path N device scene fence0 l s p)
    as (a & fr & ri & call & HS & Hfr & Hri & Hidx & Hreg & HD & Hbound);
    [done|done|done|done|lia|done|done|].
  destruct (TexWaves_write_path N device scene fence0 l s p world inputs)
    as (a0 & a' & fr0 & fr' & ri' & HS0 & HR & HS' & Hturns & Hfr0 & Hfr' & Hri' & Hw
        & Hread & Hup); [done..|].
  assert (a0 = a) as -> by congruence. assert (fr0 = fr) as -> by congruence.
  destruct (TexWaves_bind_path N device scene fence0
              (l ++ TexWavesSteps.SetWorld p world :: (TexWavesSteps.Advance <$> inputs)) s p)
    as (a1 & fr1 & ri1 & call' & HS1 & Hfr1 & Hri1 & Hidx1 & Hreg1 & HD1 & Hbound1);
    [done|done|done|done|rewrite Hturns; lia|done|done|].
  assert (a1 = a') as -> by congruence. assert (fr1 = fr') as -> by congruence.
  assert (ri1 = ri') as -> by congruence.
  rewrite Hidx1 in Hread, Hup.
  exists a, fr, ri, call, a', fr', ri', call'.
  split; [repeat (split; [assumption|]); assumption|].
  repeat (split; [assumption|]); assumption.
Qed.

(** Both paths of ShapesApp, with the descriptor the draw path selects. *)
Lemma Shapes_write_bind_path (N : Z) device scene fence0 (l : list ShapesSteps.Step)
    (s : Z) (p : nat) (world : XMFLOAT4X4) (inputs : list FrameInput) :
  1 ≤ N → addressable N device (Z.of_nat (length scene)) = true →
  (Z.of_nat (length scene) + 1) * N < 2 ^ 32 →
  0 ≤ fence0 → fence0 + ShapesSteps.turns l + N < 2 ^ 64 →
  0 ≤ s < N → (p < length scene)%nat → Z.of_nat (length inputs) = N →
  let place := (Z.of_nat (length scene), CalcConstantBufferByteSize sizeof_ObjectConstants,
                ObjectCB_address device s) in
  let address := ObjectCB_address device s
                 + Z.of_nat p * CalcConstantBufferByteSize sizeof_ObjectConstants in
  ∃ a fr ri call a' fr' ri' call',
    (ShapesSteps.Steps N l (Shapes.Initialize N device scene fence0) = Ok a ∧
     at_index (Shapes.mFrameResources a) s = Some fr ∧
     Shapes.mAllRitems a !! p = Some ri ∧
     Shapes.RenderItem.ObjCBIndex ri = Z.of_nat p ∧
     region (Shapes.FrameResource.ObjectCB fr) = place ∧
     Shapes.DrawRenderItems (Shapes.set_mCurrFrameResourceIndex s a) [p] = Ok [call] ∧
     Shapes.cbvIndex call = s * Z.of_nat (length scene) + Z.of_nat p ∧
     Shapes.bound_address (Shapes.set_mCurrFrameResourceIndex s a) call = Some address) ∧
    (Shapes.Run N inputs (ShapesSteps.ModifyItem N p world a) = Ok a' ∧
     at_index (Shapes.mFrameResources a') s = Some fr' ∧
     Shapes.mAllRitems a' !! p = Some ri' ∧
     Shapes.RenderItem.ObjCBIndex ri' = Z.of_nat p ∧
     Shapes.RenderItem.World ri' = world ∧
     region (Shapes.FrameResource.ObjectCB fr') = place ∧
     UploadBuffer.read (Shapes.FrameResource.ObjectCB fr') (Z.of_nat p)
     = Some (Shapes.objConstants ri') ∧
     UploadBuffer.uploads (Shapes.FrameResource.ObjectCB fr') (Z.of_nat p)
     = S (UploadBuffer.uploads (Shapes.FrameResource.ObjectCB fr) (Z.of_nat p)) ∧
     Shapes.DrawRenderItems (Shapes.set_mCurrFrameResourceIndex s a') [p] = Ok [call'] ∧
     Shapes.cbvIndex call' = s * Z.of_nat (length scene) + Z.of_nat p ∧
     Shapes.bound_address (Shapes.set_mCurrFrameResourceIndex s a') call' = Some address).
Proof.
  intros HN Haddr Hheap Hf Hno Hs Hp Hlen place address.
  assert (0 ≤ ShapesSteps.turns l) as Hnn by (clear; induction l as [|[] l IH]; simpl; lia).
  assert (Z.of_nat (length scene) < 2 ^ 32) as Hn by nia.
  destruct (Shapes_bind_path N device scene fence0 l s p)
    as (a & fr & ri & call & HS & Hfr & Hri & Hidx & Hreg & HD & Hcbv & Hbound);
    [done|done|done|done|lia|done|done|].
  destruct (Shapes_write_path N device scene fence0 l s p world inputs)
    as (a0 & a' & fr0 & fr' & ri' & HS0 & HR & HS' & Hturns & Hfr0 & Hfr' & Hri' & Hw
        & Hread & Hup); [done..|].
  assert (a0 = a) as -> by congruence. assert (fr0 = fr) as -> by congruence.
  destruct (Shapes_bind_path N device scene fence0
              (l ++ ShapesSteps.SetWorld p world :: (ShapesSteps.Advance <$> inputs)) s p)
    as (a1 & fr1 & ri1 & call' & HS1 & Hfr1 & Hri1 & Hidx1 & Hreg1 & HD1 & Hcbv1 & Hbound1);
    [done|done|done|done|rewrite Hturns; lia|done|done|].
  assert (a1 = a') as -> by congruence. assert (fr1 = fr') as -> by congruence.
  assert (ri1 = ri') as -> by congruence.
  rewrite Hidx1 in Hread, Hup.
  exists a, fr, ri, call, a', fr', ri', call'.
  split; [repeat (split; [assumption|]); assumption|].
  repeat (split; [assumption|]); assumption.
Qed.

(** C3.  For every ring slot [s] and every item [p] (whose object index is
    [p]) of either application, the address at which the write path stores
    the item's constants in slot [s]'s per-object upload region is the
    address the draw path binds for the item when slot [s] is current:
    directly as [objCBAddress] in TexWavesApp, through the descriptor
    [cbvIndex] selects in ShapesApp.  The write path is followed as it runs:
    the item is modified in any reachable state and the message loop takes
    [N] more turns.  [UpdateObjectCBs] has then made exactly one more
    [CopyData] call for the item's index on slot [s]'s region, that record of
    the region reads back as the item's new constants, and the address the
    draw path binds is the address of that record, [write_address] of the
    same region and index.  The bound address is the same before the
    modification.  The regions are assumed addressable, and the ShapesApp
    descriptor heap to have fewer than [2^32] descriptors. *)
Theorem write_and_bind_paths_agree_on_address (N : Z) device scene shapes_scene fence0
    (l : list TexWavesSteps.Step) (sl : list ShapesSteps.Step) (s : Z) (p : nat)
    (world : XMFLOAT4X4) (inputs : list FrameInput) :
  1 ≤ N → well_authored scene = true →
  addressable N device (Z.of_nat (length scene)) = true →
  addressable N device (Z.of_nat (length shapes_scene)) = true →
  (Z.of_nat (length shapes_scene) + 1) * N < 2 ^ 32 →
  0 ≤ fence0 →
  fence0 + TexWavesSteps.turns l + N < 2 ^ 64 →
  fence0 + ShapesSteps.turns sl + N < 2 ^ 64 →
  0 ≤ s < N →
  Z.of_nat (length inputs) = N →
  ((p < length scene)%nat →
   ∃ a fr ri call,
     TexWavesSteps.Steps N l (TexWaves.Initialize N device scene fence0) = Ok a ∧
     at_index (TexWaves.mFrameResources a) s = Some fr ∧
     TexWaves.mAllRitems a !! p = Some ri ∧
     TexWaves.RenderItem.ObjCBIndex ri = Z.of_nat p ∧
     TexWaves.DrawRenderItems (TexWaves.set_mCurrFrameResourceIndex s a) [p] = Ok [call] ∧
     TexWaves.objCBAddress call
     = UploadBuffer.write_address (TexWaves.FrameResource.ObjectCB fr)
         (TexWaves.RenderItem.ObjCBIndex ri) ∧
     ∃ a' fr' ri' call',
       TexWaves.Run N inputs (TexWavesSteps.ModifyItem N p world a) = Ok a' ∧
       at_index (TexWaves.mFrameResources a') s = Some fr' ∧
       TexWaves.mAllRitems a' !! p = Some ri' ∧
       TexWaves.RenderItem.ObjCBIndex ri' = TexWaves.RenderItem.ObjCBIndex ri ∧
       TexWaves.RenderItem.World ri' = world ∧
       UploadBuffer.uploads (TexWaves.FrameResource.ObjectCB fr')
         (TexWaves.RenderItem.ObjCBIndex ri')
       = S (UploadBuffer.uploads (TexWaves.FrameResource.ObjectCB fr)
              (TexWaves.RenderItem.ObjCBIndex ri')) ∧
       UploadBuffer.read (TexWaves.FrameResource.ObjectCB fr')
         (TexWaves.RenderItem.ObjCBIndex ri')
       = Some (TexWaves.objConstants ri') ∧
       TexWaves.DrawRenderItems (TexWaves.set_mCurrFrameResourceIndex s a') [p]
       = Ok [call'] ∧
       TexWaves.objCBAddress call'
       = UploadBuffer.write_address (TexWaves.FrameResource.ObjectCB fr')
           (TexWaves.RenderItem.ObjCBIndex ri') ∧
       TexWaves.objCBAddress call' = TexWaves.objCBAddress call) ∧
  ((p < length shapes_scene)%nat →
   ∃ a fr ri call,
     ShapesSteps.Steps N sl (Shapes.Initialize N device shapes_scene fence0) = Ok a ∧
     at_index (Shapes.mFrameResources a) s = Some fr ∧
     Shapes.mAllRitems a !! p = Some ri ∧
     Shapes.RenderItem.ObjCBIndex ri = Z.of_nat p ∧
     Shapes.DrawRenderItems (Shapes.set_mCurrFrameResourceIndex s a) [p] = Ok [call] ∧
     Shapes.bound_address (Shapes.set_mCurrFrameResourceIndex s a) call
     = Some (UploadBuffer.write_address (Shapes.FrameResource.ObjectCB fr)
               (Shapes.RenderItem.ObjCBIndex ri)) ∧
     ∃ a' fr' ri' call',
       Shapes.Run N inputs (ShapesSteps.ModifyItem N p world a) = Ok a' ∧
       at_index (Shapes.mFrameResources a') s = Some fr' ∧
       Shapes.mAllRitems a' !! p = Some ri' ∧
       Shapes.RenderItem.ObjCBIndex ri' = Shapes.RenderItem.ObjCBIndex ri ∧
       Shapes.RenderItem.World ri' = world ∧
       UploadBuffer.uploads (Shapes.FrameResource.ObjectCB fr')
         (Shapes.RenderItem.ObjCBIndex ri')
       = S (UploadBuffer.uploads (Shapes.FrameResource.ObjectCB fr)
              (Shapes.RenderItem.ObjCBIndex ri')) ∧
       UploadBuffer.read (Shapes.FrameResource.ObjectCB fr')
         (Shapes.RenderItem.ObjCBIndex ri')
       = Some (Shapes.objConstants ri') ∧
       Shapes.DrawRenderItems (Shapes.set_mCurrFrameResourceIndex s a') [p]
       = Ok [call'] ∧
       Shapes.bound_address (Shapes.set_mCurrFrameResourceIndex s a') call'
       = Some (UploadBuffer.write_address (Shapes.FrameResource.ObjectCB fr')
                 (Shapes.RenderItem.ObjCBIndex ri')) ∧
       Shapes.bound_address (Shapes.set_mCurrFrameResourceIndex s a') call'
       = Shapes.bound_address (Shapes.set_mCurrFrameResourceIndex s a) call).
Proof.
  intros HN Hscene Haddr Hsaddr Hheap Hf Hno Hsno Hs Hlen. split; intros Hp.
  - destruct (TexWaves_write_bind_path N device scene fence0 l s p world inputs)
      as (a & fr & ri & call & a' & fr' & ri' & call'
          & (HS & Hfr & Hri & Hidx & Hreg & HD & Hbound)
          & (HR & Hfr' & Hri' & Hidx' & Hw & Hreg' & Hread & Hup & HD' & Hbound'));
      [done..|].
    unfold region in Hreg, Hreg'.
    injection Hreg as _ Hsize Hva. injection Hreg' as _ Hsize' Hva'.
    exists a, fr, ri, call. repeat (split; [done|]).
    split.
    { unfold UploadBuffer.write_address, UploadBuffer.offset.
      by rewrite Hbound, Hsize, Hva, Hidx. }
    exists a', fr', ri', call'. rewrite Hidx', Hidx.
    repeat (split; [done|]). split; [|congruence].
    unfold UploadBuffer.write_address, UploadBuffer.offset.
    by rewrite Hbound', Hsize', Hva'.
  - destruct (Shapes_write_bind_path N device shapes_scene fence0 sl s p world inputs)
      as (a & fr & ri & call & a' & fr' & ri' & call'
          & (HS & Hfr & Hri & Hidx & Hreg & HD & _ & Hbound)
          & (HR & Hfr' & Hri' & Hidx' & Hw & Hreg' & Hread & Hup & HD' & _ & Hbound'));
      [done..|].
    unfold region in Hreg, Hreg'.
    injection Hreg as _ Hsize Hva. injection Hreg' as _ Hsize' Hva'.
    exists a, fr, ri, call. repeat (split; [done|]).
    split.
    { unfold UploadBuffer.write_address, UploadBuffer.offset.
      by rewrite Hbound, Hsize, Hva, Hidx. }
    exists a', fr', ri', call'. rewrite Hidx', Hidx.
    repeat (split; [done|]). split; [|congruence].
    unfold UploadBuffer.write_address, UploadBuffer.offset.
    by rewrite Hbound', Hsize', Hva'.
Qed.

(** C4 (amended).  Inside slot [s]'s per-object upload region the constants
    of the item with object index [p] lie at record index [p], that is at
    byte offset [p] times the aligned record size, whatever [s] is; the write
    path and the bind path both use it.  The write path is followed as it
    runs: after a modification of the item in any reachable state and [N]
    more turns, [UpdateObjectCBs] has made exactly one more [CopyData] call
    for index [p] on slot [s]'s region, record [p] of the region reads back
    as the item's new constants, and the draw path binds the region's base
    address plus [p] times the aligned record size.  The number
    [s * count + p] is the index, in ShapesApp's descriptor heap, of the
    descriptor that views this record; TexWavesApp binds the address itself.
    Each region holds [count] records, so beyond slot 0 the record index
    [s * count + p] lies outside the region and holds nothing. *)
Theorem object_constants_lie_at_their_index_in_every_slot (N : Z) device scene
    shapes_scene fence0 (l : list TexWavesSteps.Step) (sl : list ShapesSteps.Step)
    (s : Z) (p : nat) (world : XMFLOAT4X4) (inputs : list FrameInput) :
  1 ≤ N → well_authored scene = true →
  addressable N device (Z.of_nat (length scene)) = true →
  addressable N device (Z.of_nat (length shapes_scene)) = true →
  (Z.of_nat (length shapes_scene) + 1) * N < 2 ^ 32 →
  0 ≤ fence0 →
  fence0 + TexWavesSteps.turns l + N < 2 ^ 64 →
  fence0 + ShapesSteps.turns sl + N < 2 ^ 64 →
  0 ≤ s < N →
  Z.of_nat (length inputs) = N →
  let size := CalcConstantBufferByteSize sizeof_ObjectConstants in
  ((p < length scene)%nat →
   ∃ a fr ri call,
     TexWavesSteps.Steps N l (TexWaves.Initialize N device scene fence0) = Ok a ∧
     at_index (TexWaves.mFrameResources a) s = Some fr ∧
     TexWaves.mAllRitems a !! p = Some ri ∧
     TexWaves.RenderItem.ObjCBIndex ri = Z.of_nat p ∧
     UploadBuffer.capacity (TexWaves.FrameResource.ObjectCB fr) = Z.of_nat (length scene) ∧
     UploadBuffer.offset (TexWaves.FrameResource.ObjectCB fr)
       (TexWaves.RenderItem.ObjCBIndex ri) = Z.of_nat p * size ∧
     TexWaves.DrawRenderItems (TexWaves.set_mCurrFrameResourceIndex s a) [p] = Ok [call] ∧
     TexWaves.objCBAddress call
     = UploadBuffer.GPUVirtualAddress (TexWaves.FrameResource.ObjectCB fr)
       + Z.of_nat p * size ∧
     ∃ a' fr' ri' call',
       TexWaves.Run N inputs (TexWavesSteps.ModifyItem N p world a) = Ok a' ∧
       at_index (TexWaves.mFrameResources a') s = Some fr' ∧
       TexWaves.mAllRitems a' !! p = Some ri' ∧
       TexWaves.RenderItem.ObjCBIndex ri' = Z.of_nat p ∧
       TexWaves.RenderItem.World ri' = world ∧
       UploadBuffer.capacity (TexWaves.FrameResource.ObjectCB fr')
       = Z.of_nat (length scene) ∧
       UploadBuffer.uploads (TexWaves.FrameResource.ObjectCB fr') (Z.of_nat p)
       = S (UploadBuffer.uploads (TexWaves.FrameResource.ObjectCB fr) (Z.of_nat p)) ∧
       UploadBuffer.read (TexWaves.FrameResource.ObjectCB fr') (Z.of_nat p)
       = Some (TexWaves.objConstants ri') ∧
       (1 ≤ s →
        UploadBuffer.read (TexWaves.FrameResource.ObjectCB fr')
          (s * Z.of_nat (length scene) + Z.of_nat p) = None) ∧
       UploadBuffer.offset (TexWaves.FrameResource.ObjectCB fr') (Z.of_nat p)
       = Z.of_nat p * size ∧
       TexWaves.DrawRenderItems (TexWaves.set_mCurrFrameResourceIndex s a') [p]
       = Ok [call'] ∧
       TexWaves.objCBAddress call'
       = UploadBuffer.GPUVirtualAddress (TexWaves.FrameResource.ObjectCB fr')
         + Z.of_nat p * size) ∧
  ((p < length shapes_scene)%nat →
   ∃ a fr ri call,
     ShapesSteps.Steps N sl (Shapes.Initialize N device shapes_scene fence0) = Ok a ∧
     at_index (Shapes.mFrameResources a) s = Some fr ∧
     Shapes.mAllRitems a !! p = Some ri ∧
     Shapes.RenderItem.ObjCBIndex ri = Z.of_nat p ∧
     UploadBuffer.capacity (Shapes.FrameResource.ObjectCB fr)
     = Z.of_nat (length shapes_scene) ∧
     UploadBuffer.offset (Shapes.FrameResource.ObjectCB fr)
       (Shapes.RenderItem.ObjCBIndex ri) = Z.of_nat p * size ∧
     Shapes.DrawRenderItems (Shapes.set_mCurrFrameResourceIndex s a) [p] = Ok [call] ∧
     Shapes.cbvIndex call = s * Z.of_nat (length shapes_scene) + Z.of_nat p ∧
     Shapes.bound_address (Shapes.set_mCurrFrameResourceIndex s a) call
     = Some (UploadBuffer.GPUVirtualAddress (Shapes.FrameResource.ObjectCB fr)
             + Z.of_nat p * size) ∧
     ∃ a' fr' ri' call',
       Shapes.Run N inputs (ShapesSteps.ModifyItem N p world a) = Ok a' ∧
       at_index (Shapes.mFrameResources a') s = Some fr' ∧
       Shapes.mAllRitems a' !! p = Some ri' ∧
       Shapes.RenderItem.ObjCBIndex ri' = Z.of_nat p ∧
       Shapes.RenderItem.World ri' = world ∧
       UploadBuffer.capacity (Shapes.FrameResource.ObjectCB fr')
       = Z.of_nat (length shapes_scene) ∧
       UploadBuffer.uploads (Shapes.FrameResource.ObjectCB fr') (Z.of_nat p)
       = S (UploadBuffer.uploads (Shapes.FrameResource.ObjectCB fr) (Z.of_nat p)) ∧
       UploadBuffer.read (Shapes.FrameResource.ObjectCB fr') (Z.of_nat p)
       = Some (Shapes.objConstants ri') ∧
       (1 ≤ s →
        UploadBuffer.read (Shapes.FrameResource.ObjectCB fr')
          (s * Z.of_nat (length shapes_scene) + Z.of_nat p) = None) ∧
       UploadBuffer.offset (Shapes.FrameResource.ObjectCB fr') (Z.of_nat p)
       = Z.of_nat p * size ∧
       Shapes.DrawRenderItems (Shapes.set_mCurrFrameResourceIndex s a') [p]
       = Ok [call'] ∧
       Shapes.cbvIndex call' = s * Z.of_nat (length shapes_scene) + Z.of_nat p ∧
       Shapes.bound_address (Shapes.set_mCurrFrameResourceIndex s a') call'
       = Some (UploadBuffer.GPUVirtualAddress (Shapes.FrameResource.ObjectCB fr')
               + Z.of_nat p * size)).
Proof.
  intros HN Hscene Haddr Hsaddr Hheap Hf Hno Hsno Hs Hlen size. split; intros Hp.
  - destruct (TexWaves_write_bind_path N device scene fence0 l s p world inputs)
      as (a & fr & ri & call & a' & fr' & ri' & call'
          & (HS & Hfr & Hri & Hidx & Hreg & HD & Hbound)
          & (HR & Hfr' & Hri' & Hidx' & Hw & Hreg' & Hread & Hup & HD' & Hbound'));
      [done..|].
    unfold region in Hreg, Hreg'.
    injection Hreg as Hcap Hsize Hva. injection Hreg' as Hcap' Hsize' Hva'.
    exists a, fr, ri, call. repeat (split; [done|]).
    split; [unfold UploadBuffer.offset; by rewrite Hsize, Hidx|]. split; [done|].
    split; [by rewrite Hbound, Hva|].
    exists a', fr', ri', call'. repeat (split; [done|]).
    split; [intros Hs1; apply read_beyond_capacity; nia|].
    split; [unfold UploadBuffer.offset; by rewrite Hsize'|]. split; [done|].
    by rewrite Hbound', Hva'.
  - destruct (Shapes_write_bind_path N device shapes_scene fence0 sl s p world inputs)
      as (a & fr & ri & call & a' & fr' & ri' & call'
          & (HS & Hfr & Hri & Hidx & Hreg & HD & Hcbv & Hbound)
          & (HR & Hfr' & Hri' & Hidx' & Hw & Hreg' & Hread & Hup & HD' & Hcbv' & Hbound'));
      [done..|].
    unfold region in Hreg, Hreg'.
    injection Hreg as Hcap Hsize Hva. injection Hreg' as Hcap' Hsize' Hva'.
    exists a, fr, ri, call. repeat (split; [done|]).
    split; [unfold UploadBuffer.offset; by rewrite Hsize, Hidx|]. split; [done|].
    split; [done|]. split; [by rewrite Hbound, Hva|].
    exists a', fr', ri', call'. repeat (split; [done|]).
    split; [intros Hs1; apply read_beyond_capacity; nia|].
    split; [unfold UploadBuffer.offset; by rewrite Hsize'|]. split; [done|].
    split; [done|]. by rewrite Hbound', Hva'.
Qed.

Lemma sh_Initialize_capacity (N : Z) device scene fence0 fr :
  Z.of_nat (length scene) < 2 ^ 32 →
  fr ∈ Shapes.mFrameResources (Shapes.Initialize N device scene fence0) →
  UploadBuffer.capacity (Shapes.FrameResource.ObjectCB fr) = Z.of_nat (length scene).
Proof.
  intros Hlen. unfold Shapes.Initialize.
  destruct (Shapes.BuildDescriptorHeaps N _) as [heap off]. simpl.
  unfold Shapes.BuildFrameResources. intros (i & -> & Hi)%list_elem_of_fmap.
  unfold Shapes.FrameResource.create. simpl. unfold Shapes.BuildRenderItems.
  rewrite sh_BuildRenderItemsFrom_length.
  rewrite create_capacity; rewrite ?UINT_small; try done; lia.
Qed.

(** C7.  [CopyData(index, record)] stores the record at byte offset
    [index * mElementByteSize] of the region when [index] is inside it and
    leaves the other records alone; it fails with [OutOfRange] whenever
    [index >= capacity], and it succeeds only for indices inside the region.
    A dirty item whose index is outside the current slot's region makes the
    whole object pass fail with [OutOfRange].  Under the construction of
    either application every slot's per-object region holds as many records
    as there are items and every item's [ObjCBIndex] is below that number, in
    every reachable state, and no sequence of turns and modifications
    fails. *)
Theorem CopyData_out_of_range_fails_and_is_unreachable (N : Z) device scene shapes_scene
    fence0 (l : list TexWavesSteps.Step) (sl : list ShapesSteps.Step) :
  1 ≤ N → well_authored scene = true → Z.of_nat (length shapes_scene) < 2 ^ 32 →
  0 ≤ fence0 →
  fence0 + TexWavesSteps.turns l < 2 ^ 64 →
  fence0 + ShapesSteps.turns sl < 2 ^ 64 →
  (∀ (T : Type) (cb : UploadBuffer.t T) (index : Z) (record : T),
     (UploadBuffer.capacity cb ≤ index →
      UploadBuffer.CopyData index record cb = Fail OutOfRange) ∧
     (0 ≤ index < UploadBuffer.capacity cb →
      ∃ cb', UploadBuffer.CopyData index record cb = Ok cb' ∧
        UploadBuffer.read cb' index = Some record ∧
        UploadBuffer.write_address cb' index
        = UploadBuffer.GPUVirtualAddress cb + index * UploadBuffer.mElementByteSize cb ∧
        UploadBuffer.capacity cb' = UploadBuffer.capacity cb ∧
        ∀ j, j ≠ index → UploadBuffer.read cb' j = UploadBuffer.read cb j) ∧
     (∀ cb', UploadBuffer.CopyData index record cb = Ok cb' →
        0 ≤ index < UploadBuffer.capacity cb)) ∧
  (∀ gt a fr e,
     TexWaves.mCurrFrameResource a = Ok fr → e ∈ TexWaves.mAllRitems a →
     0 < TexWaves.RenderItem.NumFramesDirty e →
     UploadBuffer.capacity (TexWaves.FrameResource.ObjectCB fr)
     ≤ TexWaves.RenderItem.ObjCBIndex e →
     (∀ e', e' ∈ TexWaves.mAllRitems a → 0 ≤ TexWaves.RenderItem.ObjCBIndex e') →
     TexWaves.UpdateObjectCBs gt a = Fail OutOfRange) ∧
  (∃ a, TexWavesSteps.Steps N l (TexWaves.Initialize N device scene fence0) = Ok a ∧
     length (TexWaves.mAllRitems a) = length scene ∧
     ∀ fr e, fr ∈ TexWaves.mFrameResources a → e ∈ TexWaves.mAllRitems a →
       UploadBuffer.capacity (TexWaves.FrameResource.ObjectCB fr)
       = Z.of_nat (length (TexWaves.mAllRitems a)) ∧
       0 ≤ TexWaves.RenderItem.ObjCBIndex e
         < UploadBuffer.capacity (TexWaves.FrameResource.ObjectCB fr)) ∧
  (∃ a, ShapesSteps.Steps N sl (Shapes.Initialize N device shapes_scene fence0) = Ok a ∧
     length (Shapes.mAllRitems a) = length shapes_scene ∧
     ∀ fr e, fr ∈ Shapes.mFrameResources a → e ∈ Shapes.mAllRitems a →
       UploadBuffer.capacity (Shapes.FrameResource.ObjectCB fr)
       = Z.of_nat (length (Shapes.mAllRitems a)) ∧
       0 ≤ Shapes.RenderItem.ObjCBIndex e
         < UploadBuffer.capacity (Shapes.FrameResource.ObjectCB fr)).
Proof.
  intros HN Hscene Hshapes Hf Hno Hsno. split; [|split; [|split]].
  - intros T cb index record. split; [apply CopyData_Fail|]. split.
    + intros Hin. destruct (CopyData_Ok cb index record Hin) as [cb' Hcopy].
      exists cb'. split; [done|].
      pose proof (CopyData_inv _ _ _ _ Hcopy) as (_ & Hsz & Hva & _ & _).
      split; [by rewrite (CopyData_read _ _ _ _ index Hcopy), decide_True|].
      split; [unfold UploadBuffer.write_address, UploadBuffer.offset; by rewrite Hsz, Hva|].
      split; [by eapply CopyData_capacity|].
      intros j Hj. by rewrite (CopyData_read _ _ _ _ j Hcopy), decide_False.
    + intros cb' Hcopy. by apply CopyData_inv in Hcopy as [? _].
  - intros gt a fr e Hfr He Hd Hcap Hnn. unfold TexWaves.UpdateObjectCBs.
    rewrite Hfr. simpl.
    rewrite (update_dirty_Fail _ _ _ _ _ _ e); [done..|].
    intros e' He' _. by apply Hnn.
  - destruct (reachable_layout N device scene fence0 l) as
      (a & HS & Hwf & _ & _ & Hreg & _ & Hlength); [done..|].
    exists a. split; [done|]. split; [done|]. intros fr e Hfr He.
    split; [|by apply (wf_objects _ _ (wf_static _ _ Hwf))].
    apply list_elem_of_lookup in Hfr as [i Hi].
    destruct (Hreg (Z.of_nat i) fr) as [Hobj _].
    { apply at_index_Some. split; [lia|]. by rewrite Nat2Z.id. }
    unfold region in Hobj. injection Hobj as Hcap _ _. by rewrite Hcap, Hlength.
  - destruct (sh_reachable_layout N device shapes_scene fence0 sl) as
      (a & HS & Hwf & _ & _ & _ & _ & Hreg & _ & Hlength & Hring); [done..|].
    exists a. split; [done|]. split; [done|]. intros fr e Hfr He.
    split; [|by apply (sh_wf_objects _ _ (sh_wf_static _ _ Hwf))].
    apply list_elem_of_lookup in Hfr as [i Hi].
    destruct (lookup_lt_is_Some_2
                (Shapes.mFrameResources (Shapes.Initialize N device shapes_scene fence0)) i)
      as [fr0 Hfr0]; [rewrite <- Hring; by eapply lookup_lt_Some|].
    assert (region (Shapes.FrameResource.ObjectCB fr)
            = region (Shapes.FrameResource.ObjectCB fr0)) as Hobj.
    { apply (Hreg (Z.of_nat i)); apply at_index_Some; (split; [lia|]); by rewrite Nat2Z.id. }
    unfold region in Hobj. injection Hobj as Hcap _ _.
    rewrite Hcap, Hlength. apply (sh_Initialize_capacity N device _ fence0); [done|].
    apply list_elem_of_lookup. by exists i.
Qed.

End MainTheorems.

(** * Further properties of the message loop *)

Section MoreTheorems.
Context `{Float32} `{RecordSizes}.

(** X1.  A turn of the message loop writes object and material constants
    into the selected ring slot only: every other slot keeps its per-object
    and per-material region and its fence stamp exactly as they were.  In the
    selected slot these regions stay where they are, and a record changes
    only at the index of an entry that was dirty when the turn began (for
    materials: or of the water, which every turn marks); no other record is
    rewritten or uploaded.  Both applications, every reachable state. *)
Theorem turn_writes_only_dirty_records_of_selected_slot (N : Z) device scene shapes_scene
    fence0 (l : list TexWavesSteps.Step) (sl : list ShapesSteps.Step) (i : FrameInput) :
  1 ≤ N → well_authored scene = true → Z.of_nat (length shapes_scene) < 2 ^ 32 →
  0 ≤ fence0 →
  fence0 + TexWavesSteps.turns l + 1 < 2 ^ 64 →
  fence0 + ShapesSteps.turns sl + 1 < 2 ^ 64 →
  (∃ a a',
     TexWavesSteps.Steps N l (TexWaves.Initialize N device scene fence0) = Ok a ∧
     TexWaves.Frame N i a = Ok a' ∧
     ∀ s fr, at_index (TexWaves.mFrameResources a) s = Some fr →
       ∃ fr', at_index (TexWaves.mFrameResources a') s = Some fr' ∧
         (s ≠ TexWaves.mCurrFrameResourceIndex a' → fr' = fr) ∧
         region (TexWaves.FrameResource.ObjectCB fr')
         = region (TexWaves.FrameResource.ObjectCB fr) ∧
         region (TexWaves.FrameResource.MaterialCB fr')
         = region (TexWaves.FrameResource.MaterialCB fr) ∧
         (∀ j, (∀ e, e ∈ TexWaves.mAllRitems a → 0 < TexWaves.RenderItem.NumFramesDirty e →
                     TexWaves.RenderItem.ObjCBIndex e ≠ j) →
               UploadBuffer.read (TexWaves.FrameResource.ObjectCB fr') j
               = UploadBuffer.read (TexWaves.FrameResource.ObjectCB fr) j ∧
               UploadBuffer.uploads (TexWaves.FrameResource.ObjectCB fr') j
               = UploadBuffer.uploads (TexWaves.FrameResource.ObjectCB fr) j) ∧
         (∀ j, (∀ k m, TexWaves.mMaterials a !! k = Some m →
                       k = "water"%string ∨ 0 < TexWaves.Material.NumFramesDirty m →
                       TexWaves.Material.MatCBIndex m ≠ j) →
               UploadBuffer.read (TexWaves.FrameResource.MaterialCB fr') j
               = UploadBuffer.read (TexWaves.FrameResource.MaterialCB fr) j ∧
               UploadBuffer.uploads (TexWaves.FrameResource.MaterialCB fr') j
               = UploadBuffer.uploads (TexWaves.FrameResource.MaterialCB fr) j)) ∧
  (∃ a a',
     ShapesSteps.Steps N sl (Shapes.Initialize N device shapes_scene fence0) = Ok a ∧
     Shapes.Frame N i a = Ok a' ∧
     ∀ s fr, at_index (Shapes.mFrameResources a) s = Some fr →
       ∃ fr', at_index (Shapes.mFrameResources a') s = Some fr' ∧
         (s ≠ Shapes.mCurrFrameResourceIndex a' → fr' = fr) ∧
         region (Shapes.FrameResource.ObjectCB fr')
         = region (Shapes.FrameResource.ObjectCB fr) ∧
         (∀ j, (∀ e, e ∈ Shapes.mAllRitems a → 0 < Shapes.RenderItem.NumFramesDirty e →
                     Shapes.RenderItem.ObjCBIndex e ≠ j) →
               UploadBuffer.read (Shapes.FrameResource.ObjectCB fr') j
               = UploadBuffer.read (Shapes.FrameResource.ObjectCB fr) j ∧
               UploadBuffer.uploads (Shapes.FrameResource.ObjectCB fr') j
               = UploadBuffer.uploads (Shapes.FrameResource.ObjectCB fr) j)).
Proof.
  intros HN Hscene Hshapes Hf Hno Hsno.
  assert (0 ≤ TexWavesSteps.turns l) as Hnn by (clear; induction l as [|[] l IH]; simpl; lia).
  assert (0 ≤ ShapesSteps.turns sl) as Hsnn by (clear; induction sl as [|[] l IH]; simpl; lia).
  split.
  - destruct (reachable N device scene fence0 l) as (a & HS & Hwf & Hcur & _); [done..|lia|].
    destruct (Frame_spec N i a HN Hwf) as
      (fr0 & w & cbO & cbM & l' & tl & Hfr0 & Hw & HcbO & HcbM & _ & HF & _); [lia|].
    set (s0 := NextFrameResourceIndex N (TexWaves.mCurrFrameResourceIndex a)) in *.
    pose proof (at_index_lt _ _ _ Hfr0) as Hs0.
    destruct (update_dirty_inv _ _ _ _ _ _ _ _ HcbO) as (_ & HcO & HsO & HvO & HrO & HuO).
    destruct (update_dirty_inv _ _ _ _ _ _ _ _ HcbM) as (_ & HcM & HsM & HvM & HrM & HuM).
    exists a, (turned N i a w cbO cbM tl). split; [done|]. split; [done|].
    intros s fr Hfr. pose proof (at_index_lt _ _ _ Hfr) as Hs.
    unfold turned. fold s0. simpl. rewrite at_index_insert by lia.
    destruct (decide (s0 = s)) as [<-|Hne].
    + assert (fr = fr0) as -> by congruence.
      eexists. split; [done|]. simpl. split; [done|].
      split; [unfold region; congruence|]. split; [unfold region; congruence|].
      split.
      * intros j Hj. by rewrite HrO, HuO, written_None, writes_zero by done.
      * intros j Hj.
        assert (∀ e, e ∈ map_to_list (<["water"%string := scrolled N (gt i) w]>
                                        (TexWaves.mMaterials a)) →
                     0 < (TexWaves.Material.NumFramesDirty ∘ snd) e →
                     (TexWaves.Material.MatCBIndex ∘ snd) e ≠ j) as Hother.
        { intros [k m] Hk%elem_of_map_to_list Hd. simpl in *.
          rewrite (animated_lookup N _ _ w) in Hk by done.
          destruct (TexWaves.mMaterials a !! k) as [m0|] eqn:Hm0; [|done].
          injection Hk as <-. rewrite animated_index. apply (Hj k m0 Hm0).
          unfold animated in Hd. case_decide; [by left|by right]. }
        by rewrite HrM, HuM, written_None, writes_zero by done.
    + exists fr. split; [done|]. split; [done|]. repeat split; done.
  - destruct (sh_reachable N device shapes_scene fence0 sl) as (a & HS & Hwf & Hcur & _);
      [done..|lia|].
    destruct (sh_Frame_spec N i a HN Hwf) as (fr0 & cbO & tl & Hfr0 & HcbO & _ & HF & _);
      [lia|].
    set (s0 := NextFrameResourceIndex N (Shapes.mCurrFrameResourceIndex a)) in *.
    pose proof (at_index_lt _ _ _ Hfr0) as Hs0.
    destruct (update_dirty_inv _ _ _ _ _ _ _ _ HcbO) as (_ & HcO & HsO & HvO & HrO & HuO).
    exists a, (sh_turned N a cbO tl). split; [done|]. split; [done|].
    intros s fr Hfr. pose proof (at_index_lt _ _ _ Hfr) as Hs.
    unfold sh_turned. fold s0. rewrite Hfr0. simpl. rewrite at_index_insert by lia.
    destruct (decide (s0 = s)) as [<-|Hne].
    + assert (fr = fr0) as -> by congruence.
      eexists. split; [done|]. simpl. split; [done|].
      split; [unfold region; congruence|].
      intros j Hj. by rewrite HrO, HuO, written_None, writes_zero by done.
    + exists fr. split; [done|]. split; [done|]. repeat split; done.
Qed.

End MoreTheorems.

(** ** Steady state *)

Section DirtyPassMore.
Context {Item Rec : Type}.
Context (NumFramesDirty : Item → Z) (decrement : Item → Item).
Context (CBIndex : Item → Z) (constants : Item → Rec).

(** A pass over a table without dirty entries writes nothing. *)
Lemma update_dirty_clean (cb : UploadBuffer.t Rec) (table : list Item) :
  (∀ e, e ∈ table → NumFramesDirty e ≤ 0) →
  update_dirty NumFramesDirty decrement CBIndex constants cb table = Ok (cb, table).
Proof.
  induction table as [|e rest IH]; intros Hclean; simpl; [done|].
  rewrite decide_False.
  - rewrite IH; [done|]. intros e' He'. apply Hclean, elem_of_cons. by right.
  - specialize (Hclean e). rewrite elem_of_cons in Hclean. intros Hd.
    assert (NumFramesDirty e ≤ 0) by (apply Hclean; by left). lia.
Qed.

Lemma fmap_visit_clean (table : list Item) :
  (∀ e, e ∈ table → NumFramesDirty e ≤ 0) →
  visit NumFramesDirty decrement <$> table = table.
Proof.
  induction table as [|e rest IH]; intros Hclean; [done|]. rewrite fmap_cons.
  rewrite IH by (intros e' He'; apply Hclean, elem_of_cons; by right).
  unfold visit. rewrite decide_False; [done|].
  assert (NumFramesDirty e ≤ 0) by (apply Hclean, elem_of_cons; by left). lia.
Qed.

(** A pass over a table whose only dirty entry is [e] makes the one call
    [CopyData(e->CBIndex, constants(e))]. *)
Lemma update_dirty_single (cb : UploadBuffer.t Rec) (table : list Item) (e : Item) :
  NoDup table → e ∈ table → 0 < NumFramesDirty e →
  (∀ e', e' ∈ table → e' ≠ e → NumFramesDirty e' ≤ 0) →
  update_dirty NumFramesDirty decrement CBIndex constants cb table
  = (cb' ← UploadBuffer.CopyData (CBIndex e) (constants e) cb;
     Ok (cb', visit NumFramesDirty decrement <$> table)).
Proof.
  revert cb. induction table as [|x rest IH]; intros cb Hnd He Hd Hclean.
  - by apply elem_of_nil in He.
  - apply NoDup_cons in Hnd as [Hx Hnd]. rewrite fmap_cons.
    cbn [update_dirty]. unfold visit at 1.
    apply elem_of_cons in He as [->|He].
    + rewrite !decide_True by done.
      destruct (UploadBuffer.CopyData (CBIndex x) (constants x) cb) as [cb1|f]; simpl; [|done].
      assert (∀ e', e' ∈ rest → NumFramesDirty e' ≤ 0) as Hrest.
      { intros e' He'. apply Hclean; [apply elem_of_cons; by right|]. by intros ->. }
      rewrite update_dirty_clean by done. simpl. by rewrite fmap_visit_clean.
    + assert (x ≠ e) as Hxe by (intros ->; done).
      assert (NumFramesDirty x ≤ 0) as Hxd.
      { apply Hclean; [apply elem_of_cons; by left|done]. }
      rewrite !decide_False by lia. rewrite IH; try done.
      * by destruct (UploadBuffer.CopyData (CBIndex e) (constants e) cb).
      * intros e' He' Hne. apply Hclean; [apply elem_of_cons; by right|done].
Qed.
End DirtyPassMore.

Section SteadyState.
Context `{Float32} `{RecordSizes}.
Context (N : Z).

(** Turns without modifications wear the dirty counts down. *)
Lemma Run_counts inputs : ∀ (a : TexWaves.App) c,
  1 ≤ N → wf N a →
  mCurrentFence (TexWaves.timeline a) + Z.of_nat (length inputs) < 2 ^ 64 →
  (∀ e, e ∈ TexWaves.mAllRitems a → TexWaves.RenderItem.NumFramesDirty e ≤ c) →
  (∀ k m, k ≠ "water"%string → TexWaves.mMaterials a !! k = Some m →
          TexWaves.Material.NumFramesDirty m ≤ c) →
  ∃ a', TexWaves.Run N inputs a = Ok a' ∧ wf N a' ∧
    mCurrentFence (TexWaves.timeline a')
    = mCurrentFence (TexWaves.timeline a) + Z.of_nat (length inputs) ∧
    (∀ e, e ∈ TexWaves.mAllRitems a' →
          TexWaves.RenderItem.NumFramesDirty e ≤ Z.max 0 (c - Z.of_nat (length inputs))) ∧
    (∀ k m, k ≠ "water"%string → TexWaves.mMaterials a' !! k = Some m →
          TexWaves.Material.NumFramesDirty m ≤ Z.max 0 (c - Z.of_nat (length inputs))).
Proof.
  induction inputs as [|i inputs IH]; intros a c HN Hwf Hno Hit Hmat.
  - exists a. simpl. split; [done|]. split; [done|]. split; [lia|].
    split; [intros e He; specialize (Hit e He); lia|].
    intros k m Hk Hm. specialize (Hmat k m Hk Hm). lia.
  - rewrite length_cons, Nat2Z.inj_succ in *.
    destruct (Frame_spec N i a HN Hwf) as
      (fr0 & w & cbO & cbM & l' & tl & _ & Hw & _ & _ & Hcur & HF & Hwf'); [lia|].
    destruct (IH (turned N i a w cbO cbM tl) (Z.max 0 (c - 1)) HN Hwf')
      as (a' & HR & Hwf'' & Hcur' & Hit' & Hmat').
    + simpl. rewrite Hcur. lia.
    + simpl. intros e' (e & -> & He)%list_elem_of_fmap.
      rewrite visit_item_dirty. specialize (Hit e He). case_decide; lia.
    + simpl. intros k m' Hk. rewrite lookup_fmap, lookup_insert_ne by done.
      destruct (TexWaves.mMaterials a !! k) as [m|] eqn:Hm; [|done].
      intros [= <-]. rewrite visit_material_dirty. specialize (Hmat k m Hk Hm).
      case_decide; lia.
    + exists a'. simpl. rewrite HF. simpl. split; [done|]. split; [done|].
      split; [simpl in Hcur'; rewrite Hcur', Hcur; lia|].
      split; [intros e He; specialize (Hit' e He); lia|].
      intros k m Hk Hm. specialize (Hmat' k m Hk Hm). lia.
Qed.

Lemma sh_Run_counts inputs : ∀ (a : Shapes.App) c,
  1 ≤ N → sh_wf N a →
  mCurrentFence (Shapes.timeline a) + Z.of_nat (length inputs) < 2 ^ 64 →
  (∀ e, e ∈ Shapes.mAllRitems a → Shapes.RenderItem.NumFramesDirty e ≤ c) →
  ∃ a', Shapes.Run N inputs a = Ok a' ∧ sh_wf N a' ∧
    mCurrentFence (Shapes.timeline a')
    = mCurrentFence (Shapes.timeline a) + Z.of_nat (length inputs) ∧
    (∀ e, e ∈ Shapes.mAllRitems a' →
          Shapes.RenderItem.NumFramesDirty e ≤ Z.max 0 (c - Z.of_nat (length inputs))).
Proof.
  induction inputs as [|i inputs IH]; intros a c HN Hwf Hno Hit.
  - exists a. simpl. split; [done|]. split; [done|]. split; [lia|].
    intros e He; specialize (Hit e He); lia.
  - rewrite length_cons, Nat2Z.inj_succ in *.
    destruct (sh_Frame_spec N i a HN Hwf) as (fr0 & cbO & tl & Hfr0 & _ & Hcur & HF & Hwf');
      [lia|].
    destruct (IH (sh_turned N a cbO tl) (Z.max 0 (c - 1)) HN Hwf')
      as (a' & HR & Hwf'' & Hcur' & Hit').
    + unfold sh_turned. rewrite Hfr0. simpl. rewrite Hcur. lia.
    + unfold sh_turned. rewrite Hfr0. simpl. intros e' (e & -> & He)%list_elem_of_fmap.
      rewrite sh_visit_dirty. specialize (Hit e He). case_decide; lia.
    + exists a'. simpl. rewrite HF. simpl. split; [done|]. split; [done|].
      split.
      { rewrite Hcur'. unfold sh_turned. rewrite Hfr0. simpl. rewrite Hcur. lia. }
      intros e He; specialize (Hit' e He); lia.
Qed.
End SteadyState.

Section SteadyStateTheorem.
Context `{Float32} `{RecordSizes}.

(** X2.  Once a modification has been propagated the loop stops uploading
    object and material constants, the water apart.
    After [N] turns without modifications, from any reachable state, every
    render item and every material other than the water is clean, and a
    further turn leaves the render items and every slot's per-object region
    exactly as they are: it makes no [CopyData] call for objects at all.  In
    TexWavesApp that turn makes exactly one [CopyData] call on the selected
    slot's material region, for the water material. *)
Theorem steady_state_uploads_no_object_and_only_the_water_material (N : Z) device scene
    shapes_scene fence0 (l : list TexWavesSteps.Step) (sl : list ShapesSteps.Step)
    (inputs : list FrameInput) (i : FrameInput) :
  1 ≤ N → well_authored scene = true → Z.of_nat (length shapes_scene) < 2 ^ 32 →
  0 ≤ fence0 →
  fence0 + TexWavesSteps.turns l + N + 1 < 2 ^ 64 →
  fence0 + ShapesSteps.turns sl + N + 1 < 2 ^ 64 →
  Z.of_nat (length inputs) = N →
  (∃ a a1 a2 w,
     TexWavesSteps.Steps N l (TexWaves.Initialize N device scene fence0) = Ok a ∧
     TexWaves.Run N inputs a = Ok a1 ∧
     (∀ e, e ∈ TexWaves.mAllRitems a1 → TexWaves.RenderItem.NumFramesDirty e = 0) ∧
     (∀ k m, k ≠ "water"%string → TexWaves.mMaterials a1 !! k = Some m →
             TexWaves.Material.NumFramesDirty m = 0) ∧
     TexWaves.mMaterials a1 !! "water"%string = Some w ∧
     TexWaves.Frame N i a1 = Ok a2 ∧
     TexWaves.mAllRitems a2 = TexWaves.mAllRitems a1 ∧
     ∀ s fr, at_index (TexWaves.mFrameResources a1) s = Some fr →
       ∃ fr2, at_index (TexWaves.mFrameResources a2) s = Some fr2 ∧
         TexWaves.FrameResource.ObjectCB fr2 = TexWaves.FrameResource.ObjectCB fr ∧
         UploadBuffer.CopyLog (TexWaves.FrameResource.MaterialCB fr2)
         = if decide (s = TexWaves.mCurrFrameResourceIndex a2)
           then TexWaves.Material.MatCBIndex w
                :: UploadBuffer.CopyLog (TexWaves.FrameResource.MaterialCB fr)
           else UploadBuffer.CopyLog (TexWaves.FrameResource.MaterialCB fr)) ∧
  (∃ a a1 a2,
     ShapesSteps.Steps N sl (Shapes.Initialize N device shapes_scene fence0) = Ok a ∧
     Shapes.Run N inputs a = Ok a1 ∧
     (∀ e, e ∈ Shapes.mAllRitems a1 → Shapes.RenderItem.NumFramesDirty e = 0) ∧
     Shapes.Frame N i a1 = Ok a2 ∧
     Shapes.mAllRitems a2 = Shapes.mAllRitems a1 ∧
     ∀ s fr, at_index (Shapes.mFrameResources a1) s = Some fr →
       ∃ fr2, at_index (Shapes.mFrameResources a2) s = Some fr2 ∧
         Shapes.FrameResource.ObjectCB fr2 = Shapes.FrameResource.ObjectCB fr).
Proof.
  intros HN Hscene Hshapes Hf Hno Hsno Hlen.
  assert (0 ≤ TexWavesSteps.turns l) as Hnn by (clear; induction l as [|[] l IH]; simpl; lia).
  assert (0 ≤ ShapesSteps.turns sl) as Hsnn by (clear; induction sl as [|[] l IH]; simpl; lia).
  split.
  - destruct (reachable N device scene fence0 l) as (a & HS & Hwf & Hcur & _); [done..|lia|].
    destruct (Run_counts N inputs a N HN Hwf) as (a1 & HR & Hwf1 & Hcur1 & Hit & Hmat).
    { rewrite Hcur. lia. }
    { intros e He. apply (wf_item_dirty _ _ Hwf e He). }
    { intros k m _ Hm. apply (wf_material_dirty _ _ Hwf k m Hm). }
    rewrite Hlen, Z.sub_diag in Hit, Hmat. simpl in Hit, Hmat.
    assert (∀ e, e ∈ TexWaves.mAllRitems a1 → TexWaves.RenderItem.NumFramesDirty e = 0) as Hit0.
    { intros e He. pose proof (wf_item_dirty _ _ Hwf1 e He). specialize (Hit e He). lia. }
    assert (∀ k m, k ≠ "water"%string → TexWaves.mMaterials a1 !! k = Some m →
                   TexWaves.Material.NumFramesDirty m = 0) as Hmat0.
    { intros k m Hk Hm. pose proof (wf_material_dirty _ _ Hwf1 k m Hm).
      specialize (Hmat k m Hk Hm). lia. }
    destruct (Frame_spec N i a1 HN Hwf1) as
      (fr0 & w & cbO & cbM & l' & tl & Hfr0 & Hw & HcbO & HcbM & _ & HF & _); [lia|].
    set (s0 := NextFrameResourceIndex N (TexWaves.mCurrFrameResourceIndex a1)) in *.
    pose proof (at_index_lt _ _ _ Hfr0) as Hs0.
    rewrite update_dirty_clean in HcbO by (intros e He; rewrite (Hit0 e He); lia).
    injection HcbO as <- Hitems.
    set (mats1 := <["water"%string := scrolled N (gt i) w]> (TexWaves.mMaterials a1)) in *.
    rewrite (update_dirty_single _ _ _ _ _ _ ("water"%string, scrolled N (gt i) w)) in HcbM.
    2: { apply NoDup_map_to_list. }
    2: { apply elem_of_map_to_list. apply lookup_insert_eq. }
    2: { simpl. lia. }
    2: { intros [k m] Hk%elem_of_map_to_list Hne. simpl.
         destruct (decide (k = "water"%string)) as [->|Hkw].
         - unfold mats1 in Hk. rewrite lookup_insert_eq in Hk. congruence.
         - unfold mats1 in Hk. rewrite lookup_insert_ne in Hk by done.
           rewrite (Hmat0 k m Hkw Hk). lia. }
    simpl in HcbM. apply bind_Ok in HcbM as (cb1 & Hcopy & [= <- _]).
    destruct (CopyData_inv _ _ _ _ Hcopy) as (_ & _ & _ & _ & Hlog).
    exists a, a1. eexists. exists w.
    split; [done|]. split; [done|]. split; [done|]. split; [done|]. split; [done|].
    split; [exact HF|]. simpl. split; [done|].
    intros s fr Hfr. pose proof (at_index_lt _ _ _ Hfr) as Hs.
    fold s0. rewrite at_index_insert by lia.
    destruct (decide (s0 = s)) as [<-|Hne].
    + assert (fr = fr0) as -> by congruence.
      eexists. split; [done|]. simpl. split; [done|].
      rewrite decide_True by done. done.
    + exists fr. split; [done|]. split; [done|]. rewrite decide_False by done. done.
  - destruct (sh_reachable N device shapes_scene fence0 sl) as (a & HS & Hwf & Hcur & _);
      [done..|lia|].
    destruct (sh_Run_counts N inputs a N HN Hwf) as (a1 & HR & Hwf1 & Hcur1 & Hit).
    { rewrite Hcur. lia. }
    { intros e He. apply (sh_wf_item_dirty _ _ Hwf e He). }
    rewrite Hlen, Z.sub_diag in Hit. simpl in Hit.
    assert (∀ e, e ∈ Shapes.mAllRitems a1 → Shapes.RenderItem.NumFramesDirty e = 0) as Hit0.
    { intros e He. pose proof (sh_wf_item_dirty _ _ Hwf1 e He). specialize (Hit e He). lia. }
    destruct (sh_Frame_spec N i a1 HN Hwf1) as (fr0 & cbO & tl & Hfr0 & HcbO & _ & HF & _);
      [lia|].
    set (s0 := NextFrameResourceIndex N (Shapes.mCurrFrameResourceIndex a1)) in *.
    pose proof (at_index_lt _ _ _ Hfr0) as Hs0.
    rewrite update_dirty_clean in HcbO by (intros e He; rewrite (Hit0 e He); lia).
    injection HcbO as <- Hitems.
    exists a, a1. eexists.
    split; [done|]. split; [done|]. split; [done|]. split; [exact HF|].
    unfold sh_turned. fold s0. rewrite Hfr0. simpl. split; [done|].
    intros s fr Hfr. pose proof (at_index_lt _ _ _ Hfr) as Hs.
    rewrite at_index_insert by lia.
    destruct (decide (s0 = s)) as [<-|Hne].
    + assert (fr = fr0) as -> by congruence. eexists. split; [done|]. done.
    + exists fr. done.
Qed.
End SteadyStateTheorem.

(** ** How far the CPU runs ahead *)

Section RingStamps.
Context {C : Type}.
Implicit Types (t : Timeline.t C) (fences : list Z).

(** After [mCurrentFence - fence0] turns the slot [d] positions behind the
    current one carries the stamp [mCurrentFence - d] if it has been submitted
    at all, and 0 otherwise; the fence never falls behind its start value. *)
Definition stamped (N fence0 idx : Z) fences t : Prop :=
  fence0 ≤ CompletedValue t ∧
  ∀ s f, at_index fences s = Some f →
    f = if decide ((idx - s) `mod` N < mCurrentFence t - fence0)
        then mCurrentFence t - (idx - s) `mod` N else 0.

Lemma gpu_run_CompletedValue fences n t :
  sync_inv fences t → CompletedValue t ≤ CompletedValue (gpu_run n t).
Proof.
  revert t. induction n as [|n IH]; simpl; intros t Ht; [done|].
  etrans; [|apply IH, gpu_step_inv, Ht].
  destruct Ht as [_ _ Hasc _ _]. unfold gpu_step.
  destruct (mCommandQueue t) as [|[s cmds|v] q]; simpl; [done..|].
  change (signals (Signal v :: q)) with (v :: signals q) in Hasc.
  simpl in Hasc. lia.
Qed.

Lemma ascending_length lo hi l : ascending lo hi l → Z.of_nat (length l) ≤ hi - lo.
Proof.
  revert lo. induction l as [|v l IH]; simpl; intros lo Hl; [lia|].
  destruct Hl as [Hlo Hl]. specialize (IH _ Hl). lia.
Qed.

(** One turn: [k1] GPU steps, the wait of [Update] for the next slot, [k2]
    GPU steps, the submission of [Draw]. *)
Lemma turn_stamped N fence0 idx fences t k1 k2 f t1 cmds :
  1 ≤ N → 0 ≤ fence0 → 0 ≤ idx < N → Z.of_nat (length fences) = N →
  mCurrentFence t + 1 < 2 ^ 64 →
  sync_inv fences t → stamped N fence0 idx fences t →
  let s := NextFrameResourceIndex N idx in
  at_index fences s = Some f →
  WaitForFrameResource f (gpu_run k1 t) = Ok t1 →
  let t3 := (Submit s cmds (gpu_run k2 t1)).2 in
  mCurrentFence t1 = mCurrentFence t ∧
  mCurrentFence t1 - CompletedValue t1 ≤ N - 1 ∧
  mCurrentFence t3 = mCurrentFence t + 1 ∧
  mCurrentFence t3 - CompletedValue t3 ≤ N ∧
  stamped N fence0 s (<[Z.to_nat s := mCurrentFence t + 1]> fences) t3.
Proof.
  intros HN Hf0 Hidx Hlen Hno Hsync [Hlow Hst] s Hf Hwait t3.
  pose proof (NextFrameResourceIndex_range N idx HN ltac:(lia)) as Hs. fold s in Hs.
  assert (s = (idx + 1) `mod` N) as Hsmod.
  { unfold s. apply NextFrameResourceIndex_mod; lia. }
  pose proof (gpu_run_inv fences k1 t Hsync) as Hsync0.
  pose proof (gpu_run_CompletedValue fences k1 t Hsync) as Hmono0.
  destruct (WaitForFrameResource_spec fences (gpu_run k1 t) s f Hsync0 Hf)
    as (t1' & Hwait' & [n Hrun] & Hsync1 & Hreached & _ & _).
  assert (t1' = t1) as -> by congruence.
  pose proof (gpu_run_CompletedValue fences n _ Hsync0) as Hmono1. rewrite <- Hrun in Hmono1.
  assert (mCurrentFence t1 = mCurrentFence t) as Hcur1.
  { rewrite Hrun. by rewrite !gpu_run_mCurrentFence. }
  pose proof (ascending_le _ _ _ (sync_ascending _ _ Hsync)) as Hle.
  assert ((idx - s) `mod` N = N - 1) as Hd.
  { rewrite Hsmod. destruct (decide (idx + 1 = N)) as [Heq|Hne].
    - rewrite Heq, Z_mod_same_full, Z.sub_0_r. rewrite Z.mod_small by lia. lia.
    - rewrite (Z.mod_small (idx + 1)) by lia.
      replace (idx - (idx + 1)) with (-1) by lia.
      rewrite <- (Z_mod_plus_full (-1) 1 N), Z.mul_1_l. rewrite Z.mod_small by lia. lia. }
  assert (mCurrentFence t1 - CompletedValue t1 ≤ N - 1) as Hlead.
  { specialize (Hst s f Hf). rewrite Hd in Hst. rewrite Hcur1.
    case_decide; [|lia]. destruct Hreached as [?|?]; lia. }
  pose proof (gpu_run_inv fences k2 t1 Hsync1) as Hsync2.
  pose proof (gpu_run_CompletedValue fences k2 t1 Hsync1) as Hmono2.
  assert (mCurrentFence t3 = mCurrentFence t + 1) as Hcur3.
  { unfold t3, Submit. simpl. rewrite gpu_run_mCurrentFence, Hcur1.
    apply UINT64_small. destruct Hsync as [Hc _ _ _ _]. lia. }
  assert (CompletedValue t3 = CompletedValue (gpu_run k2 t1)) as Hc3 by done.
  split; [done|]. split; [done|]. split; [done|]. split; [lia|].
  split; [lia|].
  intros s' f' Hs'.
  assert (0 ≤ s' < N) as Hs'r.
  { apply at_index_lt in Hs'. rewrite length_insert in Hs'. lia. }
  rewrite at_index_insert in Hs' by lia. rewrite Hcur3.
  destruct (decide (s = s')) as [<-|Hne].
  - injection Hs' as <-. rewrite Z.sub_diag, Zmod_0_l.
    rewrite decide_True by lia. lia.
  - specialize (Hst s' f' Hs').
    assert ((s - s') `mod` N = (idx - s') `mod` N + 1) as Hd'.
    { rewrite Hsmod. rewrite Hsmod in Hne. destruct (decide (idx + 1 = N)) as [Heq|Hne'].
      - rewrite Heq, Z_mod_same_full in *.
        rewrite (Z.mod_small (idx - s')) by lia.
        rewrite <- (Z_mod_plus_full (0 - s') 1 N), Z.mul_1_l. rewrite Z.mod_small; lia.
      - rewrite (Z.mod_small (idx + 1)) in * by lia.
        destruct (decide (s' ≤ idx)).
        + rewrite !Z.mod_small; lia.
        + rewrite <- (Z_mod_plus_full (idx + 1 - s') 1 N), Z.mul_1_l.
          rewrite <- (Z_mod_plus_full (idx - s') 1 N), Z.mul_1_l.
          rewrite !Z.mod_small; lia. }
    rewrite Hd'. rewrite Hst. repeat case_decide; lia.
Qed.
End RingStamps.

Section Lead.
Context `{Float32} `{RecordSizes}.
Context (N : Z).

(** The timeline and the stamps one turn of TexWavesApp leads to. *)
Lemma Frame_sync i (a : TexWaves.App) :
  1 ≤ N → wf N a → mCurrentFence (TexWaves.timeline a) + 1 < 2 ^ 64 →
  let s := NextFrameResourceIndex N (TexWaves.mCurrFrameResourceIndex a) in
  ∃ fr t1 a1 cmds a',
    at_index (TexWaves.mFrameResources a) s = Some fr ∧
    WaitForFrameResource (TexWaves.FrameResource.Fence fr)
      (gpu_run (gpu_before_update i) (TexWaves.timeline a)) = Ok t1 ∧
    TexWaves.Update N (gt i) (TexWaves.gpu (gpu_before_update i) a) = Ok a1 ∧
    TexWaves.timeline a1 = t1 ∧
    TexWaves.Frame N i a = Ok a' ∧ wf N a' ∧
    TexWaves.mCurrFrameResourceIndex a' = s ∧
    TexWaves.timeline a' = (Submit s cmds (gpu_run (gpu_before_draw i) t1)).2 ∧
    TexWaves.FrameResource.Fence <$> TexWaves.mFrameResources a'
    = <[Z.to_nat s := mCurrentFence (TexWaves.timeline a) + 1]>
        (TexWaves.FrameResource.Fence <$> TexWaves.mFrameResources a).
Proof.
  intros HN Hwf Hno s.
  destruct (Frame_spec N i a HN Hwf Hno) as
    (fr0 & w & cbO & cbM & l' & tl & Hfr0 & _ & _ & _ & _ & HF & Hwf').
  fold s in Hfr0.
  destruct (Update_wait N (gt i) _ HN (gpu_wf N (gpu_before_update i) a Hwf))
    as (fr & t1 & a1 & Hfr & Hwait & _ & _ & _ & _ & _ & HU & Hidx1 & Htl1).
  simpl in Hfr, Hwait, Hidx1. fold s in Hfr, Hidx1.
  assert (fr = fr0) as -> by congruence.
  pose proof HF as HF'. unfold TexWaves.Frame in HF'. rewrite HU in HF'. simpl in HF'.
  unfold TexWaves.Draw in HF'.
  apply bind_Ok in HF' as (fr2 & _ & HF').
  apply bind_Ok in HF' as (cmds & _ & HF').
  simpl in HF'. rewrite Hidx1, Htl1 in HF'.
  assert ((Submit s cmds (gpu_run (gpu_before_draw i) t1)).2 = tl) as Htl
    by (injection HF'; intros; assumption).
  exists fr0, t1, a1, cmds, (turned N i a w cbO cbM tl).
  split; [done|]. split; [done|]. split; [done|]. split; [done|]. split; [done|].
  split; [done|]. split; [done|]. split.
  - rewrite Htl. reflexivity.
  - unfold turned. cbn [TexWaves.mFrameResources]. rewrite list_fmap_insert. reflexivity.
Qed.

Lemma sh_Frame_sync i (a : Shapes.App) :
  1 ≤ N → sh_wf N a → mCurrentFence (Shapes.timeline a) + 1 < 2 ^ 64 →
  let s := NextFrameResourceIndex N (Shapes.mCurrFrameResourceIndex a) in
  ∃ fr t1 a1 cmds a',
    at_index (Shapes.mFrameResources a) s = Some fr ∧
    WaitForFrameResource (Shapes.FrameResource.Fence fr)
      (gpu_run (gpu_before_update i) (Shapes.timeline a)) = Ok t1 ∧
    Shapes.Update N (gt i) (Shapes.gpu (gpu_before_update i) a) = Ok a1 ∧
    Shapes.timeline a1 = t1 ∧
    Shapes.Frame N i a = Ok a' ∧ sh_wf N a' ∧
    Shapes.mCurrFrameResourceIndex a' = s ∧
    Shapes.timeline a' = (Submit s cmds (gpu_run (gpu_before_draw i) t1)).2 ∧
    Shapes.FrameResource.Fence <$> Shapes.mFrameResources a'
    = <[Z.to_nat s := mCurrentFence (Shapes.timeline a) + 1]>
        (Shapes.FrameResource.Fence <$> Shapes.mFrameResources a).
Proof.
  intros HN Hwf Hno s.
  destruct (sh_Frame_spec N i a HN Hwf Hno) as (fr0 & cbO & tl & Hfr0 & _ & _ & HF & Hwf').
  fold s in Hfr0.
  assert (sh_wf N (Shapes.gpu (gpu_before_update i) a)) as Hwf0.
  { destruct Hwf as [Hlay Hi Hsync Hd]. constructor; try done.
    - by destruct Hlay.
    - simpl. by apply gpu_run_inv. }
  destruct (sh_Update_wait N (gt i) _ HN Hwf0)
    as (fr & t1 & a1 & Hfr & Hwait & _ & _ & _ & _ & _ & HU & Hidx1 & Htl1).
  simpl in Hfr, Hwait, Hidx1. fold s in Hfr, Hidx1.
  assert (fr = fr0) as -> by congruence.
  pose proof HF as HF'. unfold Shapes.Frame in HF'. rewrite HU in HF'. simpl in HF'.
  unfold Shapes.Draw in HF'.
  apply bind_Ok in HF' as (fr2 & _ & HF').
  apply bind_Ok in HF' as (cmds & _ & HF').
  simpl in HF'. rewrite Hidx1, Htl1 in HF'.
  exists fr0, t1, a1, cmds, (sh_turned N a cbO tl).
  split; [done|]. split; [done|]. split; [done|]. split; [done|]. split; [done|].
  split; [done|]. unfold sh_turned in *. fold s in HF' |- *. rewrite Hfr0 in HF' |- *.
  assert ((Submit s cmds (gpu_run (gpu_before_draw i) t1)).2 = tl) as Htl
    by (injection HF'; intros; assumption).
  split; [done|]. split.
  - rewrite Htl. reflexivity.
  - cbn [Shapes.mFrameResources]. rewrite list_fmap_insert. reflexivity.
Qed.
End Lead.

Section LeadSteps.
Context `{Float32} `{RecordSizes}.
Context (N fence0 : Z).

Lemma Frame_lead i (a : TexWaves.App) :
  1 ≤ N → 0 ≤ fence0 → wf N a →
  stamped N fence0 (TexWaves.mCurrFrameResourceIndex a)
    (TexWaves.FrameResource.Fence <$> TexWaves.mFrameResources a) (TexWaves.timeline a) →
  mCurrentFence (TexWaves.timeline a) + 1 < 2 ^ 64 →
  ∃ a1 a',
    TexWaves.Update N (gt i) (TexWaves.gpu (gpu_before_update i) a) = Ok a1 ∧
    mCurrentFence (TexWaves.timeline a1) - CompletedValue (TexWaves.timeline a1) ≤ N - 1 ∧
    TexWaves.Frame N i a = Ok a' ∧ wf N a' ∧
    stamped N fence0 (TexWaves.mCurrFrameResourceIndex a')
      (TexWaves.FrameResource.Fence <$> TexWaves.mFrameResources a') (TexWaves.timeline a') ∧
    mCurrentFence (TexWaves.timeline a') - CompletedValue (TexWaves.timeline a') ≤ N ∧
    mCurrentFence (TexWaves.timeline a') = mCurrentFence (TexWaves.timeline a) + 1.
Proof.
  intros HN Hf0 Hwf Hst Hno.
  destruct (Frame_sync N i a HN Hwf Hno)
    as (fr & t1 & a1 & cmds & a' & Hfr & Hwait & HU & Htl1 & HF & Hwf' & Hidx' & Htl' & Hring').
  assert (at_index (TexWaves.FrameResource.Fence <$> TexWaves.mFrameResources a)
            (NextFrameResourceIndex N (TexWaves.mCurrFrameResourceIndex a))
          = Some (TexWaves.FrameResource.Fence fr)) as Hf.
  { rewrite at_index_fmap, Hfr. reflexivity. }
  assert (Z.of_nat (length (TexWaves.FrameResource.Fence <$> TexWaves.mFrameResources a)) = N)
    as Hlen by (rewrite length_fmap; apply (wf_ring N a (wf_static N a Hwf))).
  destruct (turn_stamped N fence0 _ _ _ (gpu_before_update i) (gpu_before_draw i) _ t1 cmds
              HN Hf0 (wf_index N a Hwf) Hlen Hno (wf_sync N a Hwf) Hst Hf Hwait)
    as (Hc1 & Hl1 & Hc3 & Hl3 & Hst3).
  exists a1, a'. rewrite Htl1, Hidx', Htl', Hring'.
  split; [exact HU|]. split; [exact Hl1|]. split; [exact HF|]. split; [exact Hwf'|].
  split; [exact Hst3|]. split; [exact Hl3|exact Hc3].
Qed.

Lemma Steps_lead l : ∀ a : TexWaves.App,
  1 ≤ N → 0 ≤ fence0 → wf N a →
  stamped N fence0 (TexWaves.mCurrFrameResourceIndex a)
    (TexWaves.FrameResource.Fence <$> TexWaves.mFrameResources a) (TexWaves.timeline a) →
  mCurrentFence (TexWaves.timeline a) - CompletedValue (TexWaves.timeline a) ≤ N →
  mCurrentFence (TexWaves.timeline a) + TexWavesSteps.turns l < 2 ^ 64 →
  ∃ a', TexWavesSteps.Steps N l a = Ok a' ∧ wf N a' ∧
    stamped N fence0 (TexWaves.mCurrFrameResourceIndex a')
      (TexWaves.FrameResource.Fence <$> TexWaves.mFrameResources a') (TexWaves.timeline a') ∧
    mCurrentFence (TexWaves.timeline a') - CompletedValue (TexWaves.timeline a') ≤ N ∧
    mCurrentFence (TexWaves.timeline a')
    = mCurrentFence (TexWaves.timeline a) + TexWavesSteps.turns l.
Proof.
  induction l as [|st l IH]; intros a HN Hf0 Hwf Hst Hlead Hno.
  - exists a. split; [done|]. split; [done|]. split; [done|]. split; [lia|]. simpl. lia.
  - assert (0 ≤ TexWavesSteps.turns l) as Hnn.
    { clear. induction l as [|[] l IH]; simpl; lia. }
    destruct st as [i|p world|name transform]; simpl in *.
    + destruct (Frame_lead i a HN Hf0 Hwf Hst ltac:(lia))
        as (a1 & a' & _ & _ & HF & Hwf' & Hst' & Hlead' & Hcur').
      rewrite HF. simpl.
      destruct (IH a' HN Hf0 Hwf' Hst' Hlead' ltac:(lia)) as (a2 & HS & ? & ? & ? & Hcur2).
      exists a2. split; [done|]. split; [done|]. split; [done|]. split; [lia|]. lia.
    + apply (IH (TexWavesSteps.ModifyItem N p world a)); try done.
      apply ModifyItem_wf; [lia|done].
    + apply (IH (TexWavesSteps.ModifyMaterial N name transform a)); try done.
      apply ModifyMaterial_wf; [lia|done].
Qed.

Lemma Initialize_stamped device scene :
  1 ≤ N →
  let a := TexWaves.Initialize N device scene fence0 in
  stamped N fence0 (TexWaves.mCurrFrameResourceIndex a)
    (TexWaves.FrameResource.Fence <$> TexWaves.mFrameResources a) (TexWaves.timeline a) ∧
  mCurrentFence (TexWaves.timeline a) = fence0 ∧
  CompletedValue (TexWaves.timeline a) = fence0.
Proof.
  intros HN. simpl. split; [|done]. split; [simpl; lia|]. simpl. intros s f.
  rewrite at_index_fmap. unfold TexWaves.BuildFrameResources.
  destruct (at_index _ s) as [fr|] eqn:Hs; [|done].
  apply at_index_Some in Hs as [_ Hs]. apply list_lookup_fmap_Some in Hs as (k & -> & _).
  simpl. intros [= <-]. rewrite decide_False; [done|].
  pose proof (Z.mod_pos_bound (0 - s) N). lia.
Qed.

Lemma sh_Frame_lead i (a : Shapes.App) :
  1 ≤ N → 0 ≤ fence0 → sh_wf N a →
  stamped N fence0 (Shapes.mCurrFrameResourceIndex a)
    (Shapes.FrameResource.Fence <$> Shapes.mFrameResources a) (Shapes.timeline a) →
  mCurrentFence (Shapes.timeline a) + 1 < 2 ^ 64 →
  ∃ a1 a',
    Shapes.Update N (gt i) (Shapes.gpu (gpu_before_update i) a) = Ok a1 ∧
    mCurrentFence (Shapes.timeline a1) - CompletedValue (Shapes.timeline a1) ≤ N - 1 ∧
    Shapes.Frame N i a = Ok a' ∧ sh_wf N a' ∧
    stamped N fence0 (Shapes.mCurrFrameResourceIndex a')
      (Shapes.FrameResource.Fence <$> Shapes.mFrameResources a') (Shapes.timeline a') ∧
    mCurrentFence (Shapes.timeline a') - CompletedValue (Shapes.timeline a') ≤ N ∧
    mCurrentFence (Shapes.timeline a') = mCurrentFence (Shapes.timeline a) + 1.
Proof.
  intros HN Hf0 Hwf Hst Hno.
  destruct (sh_Frame_sync N i a HN Hwf Hno)
    as (fr & t1 & a1 & cmds & a' & Hfr & Hwait & HU & Htl1 & HF & Hwf' & Hidx' & Htl' & Hring').
  assert (at_index (Shapes.FrameResource.Fence <$> Shapes.mFrameResources a)
            (NextFrameResourceIndex N (Shapes.mCurrFrameResourceIndex a))
          = Some (Shapes.FrameResource.Fence fr)) as Hf.
  { rewrite at_index_fmap, Hfr. reflexivity. }
  assert (Z.of_nat (length (Shapes.FrameResource.Fence <$> Shapes.mFrameResources a)) = N)
    as Hlen by (rewrite length_fmap; apply (sh_wf_ring N a (sh_wf_static N a Hwf))).
  destruct (turn_stamped N fence0 _ _ _ (gpu_before_update i) (gpu_before_draw i) _ t1 cmds
              HN Hf0 (sh_wf_index N a Hwf) Hlen Hno (sh_wf_sync N a Hwf) Hst Hf Hwait)
    as (Hc1 & Hl1 & Hc3 & Hl3 & Hst3).
  exists a1, a'. rewrite Htl1, Hidx', Htl', Hring'.
  split; [exact HU|]. split; [exact Hl1|]. split; [exact HF|]. split; [exact Hwf'|].
  split; [exact Hst3|]. split; [exact Hl3|exact Hc3].
Qed.

Lemma sh_Steps_lead l : ∀ a : Shapes.App,
  1 ≤ N → 0 ≤ fence0 → sh_wf N a →
  stamped N fence0 (Shapes.mCurrFrameResourceIndex a)
    (Shapes.FrameResource.Fence <$> Shapes.mFrameResources a) (Shapes.timeline a) →
  mCurrentFence (Shapes.timeline a) - CompletedValue (Shapes.timeline a) ≤ N →
  mCurrentFence (Shapes.timeline a) + ShapesSteps.turns l < 2 ^ 64 →
  ∃ a', ShapesSteps.Steps N l a = Ok a' ∧ sh_wf N a' ∧
    stamped N fence0 (Shapes.mCurrFrameResourceIndex a')
      (Shapes.FrameResource.Fence <$> Shapes.mFrameResources a') (Shapes.timeline a') ∧
    mCurrentFence (Shapes.timeline a') - CompletedValue (Shapes.timeline a') ≤ N ∧
    mCurrentFence (Shapes.timeline a')
    = mCurrentFence (Shapes.timeline a) + ShapesSteps.turns l.
Proof.
  induction l as [|st l IH]; intros a HN Hf0 Hwf Hst Hlead Hno.
  - exists a. split; [done|]. split; [done|]. split; [done|]. split; [lia|]. simpl. lia.
  - assert (0 ≤ ShapesSteps.turns l) as Hnn.
    { clear. induction l as [|[] l IH]; simpl; lia. }
    destruct st as [i|p world]; simpl in *.
    + destruct (sh_Frame_lead i a HN Hf0 Hwf Hst ltac:(lia))
        as (a1 & a' & _ & _ & HF & Hwf' & Hst' & Hlead' & Hcur').
      rewrite HF. simpl.
      destruct (IH a' HN Hf0 Hwf' Hst' Hlead' ltac:(lia)) as (a2 & HS & ? & ? & ? & Hcur2).
      exists a2. split; [done|]. split; [done|]. split; [done|]. split; [lia|]. lia.
    + apply (IH (ShapesSteps.ModifyItem N p world a)); try done.
      apply sh_ModifyItem_wf; [lia|done].
Qed.

Lemma sh_Initialize_stamped device scene :
  1 ≤ N →
  let a := Shapes.Initialize N device scene fence0 in
  stamped N fence0 (Shapes.mCurrFrameResourceIndex a)
    (Shapes.FrameResource.Fence <$> Shapes.mFrameResources a) (Shapes.timeline a) ∧
  mCurrentFence (Shapes.timeline a) = fence0 ∧
  CompletedValue (Shapes.timeline a) = fence0.
Proof.
  intros HN. simpl. split; [|done]. split; [simpl; lia|]. simpl. intros s f.
  rewrite at_index_fmap. unfold Shapes.BuildFrameResources.
  destruct (at_index _ s) as [fr|] eqn:Hs; [|done].
  apply at_index_Some in Hs as [_ Hs]. apply list_lookup_fmap_Some in Hs as (k & -> & _).
  simpl. intros [= <-]. rewrite decide_False; [done|].
  pose proof (Z.mod_pos_bound (0 - s) N). lia.
Qed.
End LeadSteps.

Section LeadTheorems.
Context `{Float32} `{RecordSizes}.

(** X3.  The ring bounds how far the CPU runs ahead of the GPU.  In every
    reachable state of either application at most [N] submitted frames are
    unfinished: the fence counter exceeds the completed value by at most [N],
    and at most [N] signals are queued.  When [Update] returns from its wait
    on the next slot, at most [N - 1] are unfinished, however little the GPU
    has progressed in between. *)
Theorem cpu_is_at_most_N_frames_ahead_of_gpu (N : Z) device scene shapes_scene fence0
    (l : list TexWavesSteps.Step) (sl : list ShapesSteps.Step) (i : FrameInput) :
  1 ≤ N → well_authored scene = true → Z.of_nat (length shapes_scene) < 2 ^ 32 →
  0 ≤ fence0 →
  fence0 + TexWavesSteps.turns l + 1 < 2 ^ 64 →
  fence0 + ShapesSteps.turns sl + 1 < 2 ^ 64 →
  (∃ a a1,
     TexWavesSteps.Steps N l (TexWaves.Initialize N device scene fence0) = Ok a ∧
     0 ≤ mCurrentFence (TexWaves.timeline a) - CompletedValue (TexWaves.timeline a) ≤ N ∧
     Z.of_nat (length (signals (mCommandQueue (TexWaves.timeline a)))) ≤ N ∧
     TexWaves.Update N (gt i) (TexWaves.gpu (gpu_before_update i) a) = Ok a1 ∧
     mCurrentFence (TexWaves.timeline a1) - CompletedValue (TexWaves.timeline a1) ≤ N - 1) ∧
  (∃ a a1,
     ShapesSteps.Steps N sl (Shapes.Initialize N device shapes_scene fence0) = Ok a ∧
     0 ≤ mCurrentFence (Shapes.timeline a) - CompletedValue (Shapes.timeline a) ≤ N ∧
     Z.of_nat (length (signals (mCommandQueue (Shapes.timeline a)))) ≤ N ∧
     Shapes.Update N (gt i) (Shapes.gpu (gpu_before_update i) a) = Ok a1 ∧
     mCurrentFence (Shapes.timeline a1) - CompletedValue (Shapes.timeline a1) ≤ N - 1).
Proof.
  intros HN Hscene Hshapes Hf Hno Hsno.
  assert (0 ≤ TexWavesSteps.turns l) as Hnn by (clear; induction l as [|[] l IH]; simpl; lia).
  assert (0 ≤ ShapesSteps.turns sl) as Hsnn by (clear; induction sl as [|[] l IH]; simpl; lia).
  split.
  - destruct (Initialize_stamped N fence0 device scene HN) as (Hst0 & Hc0 & Hd0).
    destruct (Steps_lead N fence0 l _ HN Hf
                (Initialize_wf N device scene fence0 HN Hscene ltac:(lia)) Hst0)
      as (a & HS & Hwf & Hst & Hlead & Hcur); [lia..|].
    destruct (Frame_lead N fence0 i a HN Hf Hwf Hst) as (a1 & _ & HU & Hl1 & _); [lia|].
    pose proof (sync_ascending _ _ (wf_sync N a Hwf)) as Hasc.
    pose proof (ascending_le _ _ _ Hasc). pose proof (ascending_length _ _ _ Hasc).
    exists a, a1. split; [exact HS|]. split; [lia|]. split; [lia|]. split; [exact HU|exact Hl1].
  - destruct (sh_Initialize_stamped N fence0 device shapes_scene HN) as (Hst0 & Hc0 & Hd0).
    destruct (sh_Steps_lead N fence0 sl _ HN Hf
                (sh_Initialize_wf N device shapes_scene fence0 HN Hshapes ltac:(lia)) Hst0)
      as (a & HS & Hwf & Hst & Hlead & Hcur); [lia..|].
    destruct (sh_Frame_lead N fence0 i a HN Hf Hwf Hst) as (a1 & _ & HU & Hl1 & _); [lia|].
    pose proof (sync_ascending _ _ (sh_wf_sync N a Hwf)) as Hasc.
    pose proof (ascending_le _ _ _ Hasc). pose proof (ascending_length _ _ _ Hasc).
    exists a, a1. split; [exact HS|]. split; [lia|]. split; [lia|]. split; [exact HU|exact Hl1].
Qed.

(** X4.  The fence stamp of a ring slot is the fence value of the latest
    frame drawn with it.  After [n] turns (and any modifications) slot [s] was
    last used [d = (n - s) mod N] turns ago; its stamp is [fence0 + n - d] if
    [d < n], and still 0 if the slot has not been used yet. *)
Theorem ring_slot_stamp_is_fence_of_its_latest_frame (N : Z) device scene shapes_scene fence0
    (l : list TexWavesSteps.Step) (sl : list ShapesSteps.Step) :
  1 ≤ N → well_authored scene = true → Z.of_nat (length shapes_scene) < 2 ^ 32 →
  0 ≤ fence0 →
  fence0 + TexWavesSteps.turns l < 2 ^ 64 →
  fence0 + ShapesSteps.turns sl < 2 ^ 64 →
  (∃ a, TexWavesSteps.Steps N l (TexWaves.Initialize N device scene fence0) = Ok a ∧
     ∀ s fr, at_index (TexWaves.mFrameResources a) s = Some fr →
       let n := TexWavesSteps.turns l in
       let d := (n - s) `mod` N in
       TexWaves.FrameResource.Fence fr = if decide (d < n) then fence0 + n - d else 0) ∧
  (∃ a, ShapesSteps.Steps N sl (Shapes.Initialize N device shapes_scene fence0) = Ok a ∧
     ∀ s fr, at_index (Shapes.mFrameResources a) s = Some fr →
       let n := ShapesSteps.turns sl in
       let d := (n - s) `mod` N in
       Shapes.FrameResource.Fence fr = if decide (d < n) then fence0 + n - d else 0).
Proof.
  intros HN Hscene Hshapes Hf Hno Hsno.
  assert (0 ≤ TexWavesSteps.turns l) as Hnn by (clear; induction l as [|[] l IH]; simpl; lia).
  assert (0 ≤ ShapesSteps.turns sl) as Hsnn by (clear; induction sl as [|[] l IH]; simpl; lia).
  split.
  - destruct (Initialize_stamped N fence0 device scene HN) as (Hst0 & Hc0 & Hd0).
    destruct (Steps_lead N fence0 l _ HN Hf
                (Initialize_wf N device scene fence0 HN Hscene ltac:(lia)) Hst0)
      as (a & HS & Hwf & [_ Hst] & _ & Hcur); [lia..|].
    destruct (reachable N device scene fence0 l HN Hscene Hf Hno) as (a' & HS' & _ & _ & Hidx).
    assert (a' = a) as -> by congruence.
    exists a. split; [exact HS|]. intros s fr Hfr n d.
    rewrite (Hst s (TexWaves.FrameResource.Fence fr)) by (rewrite at_index_fmap, Hfr; reflexivity).
    rewrite Hcur, Hc0, Hidx. fold n. rewrite Zminus_mod_idemp_l. fold d.
    replace (fence0 + n - fence0) with n by lia. reflexivity.
  - destruct (sh_Initialize_stamped N fence0 device shapes_scene HN) as (Hst0 & Hc0 & Hd0).
    destruct (sh_Steps_lead N fence0 sl _ HN Hf
                (sh_Initialize_wf N device shapes_scene fence0 HN Hshapes ltac:(lia)) Hst0)
      as (a & HS & Hwf & [_ Hst] & _ & Hcur); [lia..|].
    destruct (sh_reachable N device shapes_scene fence0 sl HN Hshapes Hf Hsno)
      as (a' & HS' & _ & _ & Hidx).
    assert (a' = a) as -> by congruence.
    exists a. split; [exact HS|]. intros s fr Hfr n d.
    rewrite (Hst s (Shapes.FrameResource.Fence fr)) by (rewrite at_index_fmap, Hfr; reflexivity).
    rewrite Hcur, Hc0, Hidx. fold n. rewrite Zminus_mod_idemp_l. fold d.
    replace (fence0 + n - fence0) with n by lia. reflexivity.
Qed.
End LeadTheorems.

(** ** The material bind path of TexWavesApp *)

Section MaterialBindPath.
Context `{Float32} `{RecordSizes}.
#[local] Abbreviation visit_item :=
  (visit TexWaves.RenderItem.NumFramesDirty TexWaves.RenderItem.decrement).
#[local] Abbreviation visit_material :=
  (visit TexWaves.Material.NumFramesDirty TexWaves.Material.decrement).

(** The per-material upload regions of a ring of [N] slots, 4 records each,
    are addressable: the byte size of a region fits the 32-bit arithmetic of
    the bind path and each region lies inside the 64-bit address space. *)
Definition materials_addressable (N : Z) (device : Device) : bool :=
  let bytes := 4 * CalcConstantBufferByteSize sizeof_MaterialConstants in
  (bytes <? 2 ^ 32)
  && forallb (λ s, (0 <=? MaterialCB_address device s)
                   && (MaterialCB_address device s + bytes <? 2 ^ 64)) (seqZ 0 N).

Lemma materials_addressable_spec N device s i :
  materials_addressable N device = true → 0 ≤ s < N → 0 ≤ i < 4 →
  let size := CalcConstantBufferByteSize sizeof_MaterialConstants in
  0 ≤ i * size < 2 ^ 32 ∧
  0 ≤ MaterialCB_address device s + i * size < 2 ^ 64.
Proof.
  unfold materials_addressable. intros [Hb Hall]%andb_prop Hs Hi.
  pose proof (CalcConstantBufferByteSize_nonneg sizeof_MaterialConstants) as Hsz.
  apply Z.ltb_lt in Hb. rewrite forallb_forall in Hall.
  specialize (Hall s). rewrite <- list_elem_of_In, elem_of_seqZ in Hall.
  destruct (andb_prop _ _ (Hall ltac:(lia))) as [Hlo%Z.leb_le Hhi%Z.ltb_lt].
  simpl. nia.
Qed.

(** The material bind path of TexWavesApp for item [p] with slot [s]
    current. *)
Lemma TexWaves_material_bind_path (N : Z) device scene fence0
    (l : list TexWavesSteps.Step) (s : Z) (p : nat) :
  1 ≤ N → well_authored scene = true → materials_addressable N device = true →
  0 ≤ fence0 → fence0 + TexWavesSteps.turns l < 2 ^ 64 →
  0 ≤ s < N → (p < length scene)%nat →
  ∃ a fr ri mat call,
    TexWavesSteps.Steps N l (TexWaves.Initialize N device scene fence0) = Ok a ∧
    wf N a ∧
    mCurrentFence (TexWaves.timeline a) = fence0 + TexWavesSteps.turns l ∧
    at_index (TexWaves.mFrameResources a) s = Some fr ∧
    TexWaves.mAllRitems a !! p = Some ri ∧
    TexWaves.mMaterials a !! TexWaves.RenderItem.Mat ri = Some mat ∧
    TexWaves.DrawRenderItems (TexWaves.set_mCurrFrameResourceIndex s a) [p] = Ok [call] ∧
    0 ≤ TexWaves.Material.MatCBIndex mat
      < UploadBuffer.capacity (TexWaves.FrameResource.MaterialCB fr) ∧
    TexWaves.matCBAddress call
    = UploadBuffer.write_address (TexWaves.FrameResource.MaterialCB fr)
        (TexWaves.Material.MatCBIndex mat).
Proof.
  intros HN Hscene Haddr Hf Hno Hs Hp.
  destruct (reachable_layout N device scene fence0 l) as
    (a & HS & Hwf & Hcur & _ & Hreg & Hitems & Hlength); [done..|].
  destruct (at_index_is_Some (TexWaves.mFrameResources a) s) as [fr Hfr];
    [rewrite (wf_ring _ _ (wf_static _ _ Hwf)); lia|].
  destruct (lookup_lt_is_Some_2 (TexWaves.mAllRitems a) p) as [ri Hri]; [lia|].
  destruct (wf_mat _ _ (wf_static _ _ Hwf) ri) as [mat Hmat].
  { apply list_elem_of_lookup. by exists p. }
  destruct (Hreg s fr Hfr) as [_ Hm]. pose proof Hm as Hm'. unfold region in Hm'.
  injection Hm' as Hcap Hsize Hva.
  pose proof (wf_materials _ _ (wf_static _ _ Hwf) fr _ mat
                (at_index_elem_of _ _ _ Hfr) Hmat) as Hidx.
  destruct (materials_addressable_spec N device s (TexWaves.Material.MatCBIndex mat) Haddr Hs)
    as [Hoff Hin]; [lia|].
  exists a, fr, ri, mat. eexists. split; [done|]. split; [done|]. split; [done|].
  split; [done|]. split; [done|]. split; [done|].
  unfold TexWaves.DrawRenderItems, TexWaves.mCurrFrameResource,
    TexWaves.set_mCurrFrameResourceIndex. simpl.
  rewrite Hfr. simpl. rewrite Hri. simpl. unfold TexWaves.DrawRenderItem. simpl.
  rewrite Hmat. simpl. split; [reflexivity|]. split; [exact Hidx|]. simpl.
  unfold UploadBuffer.write_address, UploadBuffer.offset.
  rewrite Hva, Hsize. rewrite UINT_small by done. by rewrite UINT64_small.
Qed.

(** X5.  In every reachable state of TexWavesApp, for every ring slot [s]
    and every render item, the material constant-buffer address the draw path
    binds for the item when slot [s] is current is the address at which
    [UpdateMaterialCBs] stores the constants of the item's material in that
    slot, and the material's index lies inside the slot's region of 4
    records.  The write path is followed as it runs: when the item's material
    is modified and the message loop takes a turn, [UpdateMaterialCBs] makes
    exactly one [CopyData] call for the material's index on the region of
    the slot the turn selects, that record reads back as the constants of the
    material as the turn leaves it, and the draw of the item in that turn
    binds the address of that record.  The material regions are assumed
    addressable. *)
Theorem material_bind_path_agrees_with_write_path (N : Z) device scene fence0
    (l : list TexWavesSteps.Step) (s : Z) (p : nat) (transform : XMFLOAT4X4)
    (i : FrameInput) :
  1 ≤ N → well_authored scene = true → materials_addressable N device = true →
  0 ≤ fence0 → fence0 + TexWavesSteps.turns l + 1 < 2 ^ 64 →
  0 ≤ s < N → (p < length scene)%nat →
  ∃ a fr ri mat call,
    TexWavesSteps.Steps N l (TexWaves.Initialize N device scene fence0) = Ok a ∧
    at_index (TexWaves.mFrameResources a) s = Some fr ∧
    TexWaves.mAllRitems a !! p = Some ri ∧
    TexWaves.mMaterials a !! TexWaves.RenderItem.Mat ri = Some mat ∧
    TexWaves.DrawRenderItems (TexWaves.set_mCurrFrameResourceIndex s a) [p] = Ok [call] ∧
    0 ≤ TexWaves.Material.MatCBIndex mat
      < UploadBuffer.capacity (TexWaves.FrameResource.MaterialCB fr) ∧
    TexWaves.matCBAddress call
    = UploadBuffer.write_address (TexWaves.FrameResource.MaterialCB fr)
        (TexWaves.Material.MatCBIndex mat) ∧
    ∃ a1 fr0 fr1 mat1 call1,
      TexWaves.Frame N i
        (TexWavesSteps.ModifyMaterial N (TexWaves.RenderItem.Mat ri) transform a) = Ok a1 ∧
      at_index (TexWaves.mFrameResources a) (TexWaves.mCurrFrameResourceIndex a1)
      = Some fr0 ∧
      at_index (TexWaves.mFrameResources a1) (TexWaves.mCurrFrameResourceIndex a1)
      = Some fr1 ∧
      TexWaves.mMaterials a1 !! TexWaves.RenderItem.Mat ri = Some mat1 ∧
      TexWaves.Material.MatCBIndex mat1 = TexWaves.Material.MatCBIndex mat ∧
      UploadBuffer.uploads (TexWaves.FrameResource.MaterialCB fr1)
        (TexWaves.Material.MatCBIndex mat1)
      = S (UploadBuffer.uploads (TexWaves.FrameResource.MaterialCB fr0)
             (TexWaves.Material.MatCBIndex mat1)) ∧
      UploadBuffer.read (TexWaves.FrameResource.MaterialCB fr1)
        (TexWaves.Material.MatCBIndex mat1)
      = Some (TexWaves.matConstants mat1) ∧
      TexWaves.DrawRenderItems a1 [p] = Ok [call1] ∧
      TexWaves.matCBAddress call1
      = UploadBuffer.write_address (TexWaves.FrameResource.MaterialCB fr1)
          (TexWaves.Material.MatCBIndex mat1).
Proof.
  intros HN Hscene Haddr Hf Hno Hs Hp.
  assert (0 ≤ TexWavesSteps.turns l) as Hnn by (clear; induction l as [|[] l IH]; simpl; lia).
  destruct (TexWaves_material_bind_path N device scene fence0 l s p)
    as (a & fr & ri & mat & call & HS & Hwf & Hcur & Hfr & Hri & Hmat & HD & Hin & Hbound);
    [done|done|done|done|lia|done|done|].
  exists a, fr, ri, mat, call. do 7 (split; [assumption|]).
  set (k := TexWaves.RenderItem.Mat ri) in *.
  set (m1 := TexWavesSteps.markMaterialDirty N
               (TexWaves.Material.set_MatTransform transform mat)).
  set (a2 := TexWavesSteps.ModifyMaterial N k transform a).
  assert (wf N a2) as Hwf2 by (apply ModifyMaterial_wf; [lia|done]).
  assert (TexWaves.mMaterials a2 !! k = Some m1) as Hm1.
  { simpl. by rewrite lookup_alter_eq, Hmat. }
  destruct (Frame_material N k m1 i a2) as (a1 & HF & Hwf1 & Hcur1 & Hidx1 & Hmat1 & Hslots);
    [done|done|simpl; rewrite Hcur; lia|done|].
  destruct (Frame_item N p ri i a2) as (a1' & HF' & _ & _ & _ & Hri1 & _);
    [done|done|simpl; rewrite Hcur; lia|done|].
  assert (a1' = a1) as -> by congruence.
  set (s1 := TexWaves.mCurrFrameResourceIndex a1) in *.
  assert (0 ≤ s1 < N) as Hs1 by apply (wf_index _ _ Hwf1).
  destruct (at_index_is_Some (TexWaves.mFrameResources a) s1) as [fr0 Hfr0];
    [rewrite (wf_ring _ _ (wf_static _ _ Hwf)); lia|].
  destruct (Hslots s1 fr0 Hfr0) as (fr1 & Hfr1 & Hprop).
  simpl in Hprop.
  assert (TexWaves.Material.NumFramesDirty (animated N (gt i) k m1) = N) as Hdirty.
  { unfold animated. destruct (decide (k = "water"%string)); [apply scrolled_dirty|done]. }
  rewrite decide_True in Hprop by (split; [done|lia]).
  destruct Hprop as [Hread Hup].
  set (mat1 := visit_material (animated N (gt i) k m1)) in *.
  assert (TexWaves.Material.MatCBIndex mat1 = TexWaves.Material.MatCBIndex mat) as Hi1.
  { unfold mat1.
    etrans; [exact (f_equal fst (visit_material_indices (animated N (gt i) k m1)))|].
    simpl. by rewrite animated_index. }
  assert (TexWaves.matConstants mat1 = TexWaves.matConstants (animated N (gt i) k m1)) as Hc1
    by apply visit_material_constants.
  destruct (TexWaves_material_bind_path N device scene fence0
              (l ++ [TexWavesSteps.SetMatTransform k transform; TexWavesSteps.Advance i]) s1 p)
    as (a1' & fr1' & ri1 & mat1' & call1 & HS1 & _ & _ & Hfr1' & Hri1' & Hmat1' & HD1 & _
        & Hbound1);
    [done|done|done|done|rewrite TexWaves_turns_app; simpl; lia|done|done|].
  rewrite TexWaves_Steps_app, HS in HS1. simpl in HS1. fold a2 in HS1. rewrite HF in HS1.
  simpl in HS1. assert (a1' = a1) as -> by congruence.
  assert (fr1' = fr1) as -> by congruence.
  assert (ri1 = visit_item ri) as -> by congruence.
  rewrite visit_item_Mat in Hmat1'. fold k in Hmat1'.
  assert (mat1' = mat1) as -> by congruence.
  assert (TexWaves.set_mCurrFrameResourceIndex s1 a1 = a1) as Hset
    by (unfold s1; by destruct a1).
  rewrite Hset in HD1.
  exists a1, fr0, fr1, mat1, call1. rewrite Hi1, Hc1.
  split; [exact HF|]. split; [exact Hfr0|]. split; [exact Hfr1|]. split; [exact Hmat1|].
  split; [reflexivity|]. split; [exact Hup|]. split; [exact Hread|]. split; [exact HD1|].
  by rewrite <- Hi1.
Qed.
End MaterialBindPath.

(** ** The descriptor heap of ShapesApp *)

Lemma INT_small x : - 2 ^ 31 ≤ x < 2 ^ 31 → INT x = x.
Proof. intros Hx. unfold INT. rewrite Z.mod_small; lia. Qed.

Section PassViews.
Context `{Float32} `{RecordSizes}.
Context (N : Z).


(** The view the second loop of [BuildConstantBufferViews] creates for a
    frame resource. *)
Definition pass_view (fr : Shapes.FrameResource.t) : Shapes.CBV :=
  {| Shapes.BufferLocation := UploadBuffer.GPUVirtualAddress (Shapes.FrameResource.PassCB fr);
     Shapes.SizeInBytes := CalcConstantBufferByteSize sizeof_PassConstants |}.

Lemma pass_views_spec (ring : list Shapes.FrameResource.t) off (frames : list Z)
    (heap : list (option Shapes.CBV)) :
  NoDup frames →
  (∀ f, f ∈ frames → 0 ≤ off + f < 2 ^ 32 ∧ off + f < Z.of_nat (length heap)) →
  let built :=
    foldl (λ heap frameIndex,
             match at_index ring frameIndex with
             | Some fr =>
               Shapes.CreateConstantBufferView (UINT (off + frameIndex))
                 {| Shapes.BufferLocation :=
                      UploadBuffer.GPUVirtualAddress (Shapes.FrameResource.PassCB fr);
                    Shapes.SizeInBytes := CalcConstantBufferByteSize sizeof_PassConstants |}
                 heap
             | None => heap
             end) heap frames in
  length built = length heap ∧
  ∀ f fr, f ∈ frames → at_index ring f = Some fr →
          built !! Z.to_nat (off + f) = Some (Some (pass_view fr)).
Proof.
  revert heap. induction frames as [|g frames IH]; intros heap Hnd Hfit; simpl.
  - split; [done|]. intros f fr Hf. by apply elem_of_nil in Hf.
  - apply NoDup_cons in Hnd as [Hg Hnd].
    destruct (Hfit g) as [Hgr Hgl]; [by left|].
    set (heap1 := match at_index ring g with Some fr => _ | None => heap end).
    assert (length heap1 = length heap) as Hlen1.
    { unfold heap1. destruct (at_index ring g); [|done].
      by rewrite CreateConstantBufferView_UINT, length_insert. }
    destruct (IH heap1 Hnd) as [Hlen Hat].
    { intros f Hf. rewrite Hlen1. apply Hfit. by right. }
    split; [congruence|].
    intros f fr [->|Hf]%elem_of_cons Hfr; [|by apply Hat].
    rewrite pass_views_other.
    + unfold heap1. rewrite Hfr, CreateConstantBufferView_UINT.
      rewrite (UINT_small (off + g)) by lia.
      rewrite list_lookup_insert_eq; [done|]. lia.
    + intros f' Hf'. destruct (Hfit f') as [Hr' _]; [by right|].
      rewrite (UINT_small (off + f')) by lia.
      intros Heq. apply Hg. assert (f' = g) as -> by lia. done.
Qed.

(** After start-up the heap holds [(n + 1) * N] descriptors, and the one at
    [n * N + s] views ring slot [s]'s pass region. *)
Lemma sh_heap_pass device scene fence0 s :
  1 ≤ N → (Z.of_nat (length scene) + 1) * N < 2 ^ 32 → 0 ≤ s < N →
  let n := Z.of_nat (length scene) in
  let a0 := Shapes.Initialize N device scene fence0 in
  ∃ fr, at_index (Shapes.mFrameResources a0) s = Some fr ∧
        UploadBuffer.GPUVirtualAddress (Shapes.FrameResource.PassCB fr)
        = PassCB_address device s ∧
        Shapes.mPassCbvOffset a0 = n * N ∧
        length (Shapes.mOpaqueRitems a0) = length scene ∧
        Z.of_nat (length (Shapes.mCbvHeap a0)) = (n + 1) * N ∧
        at_index (Shapes.mCbvHeap a0) (n * N + s) = Some (Some (pass_view fr)).
Proof.
  intros HN Hfit Hs n. fold n in Hfit.
  assert (0 ≤ n) as Hn by lia.
  assert (0 ≤ n * N ∧ n * N + N = (n + 1) * N ∧ s * n + n ≤ n * N) as (Hnn & Hsum & Hsn) by nia.
  unfold Shapes.Initialize, Shapes.BuildDescriptorHeaps. simpl.
  rewrite length_seq. unfold Shapes.BuildRenderItems. rewrite sh_BuildRenderItemsFrom_length.
  fold n. rewrite (UINT_small n) by lia. rewrite (UINT_small (n + 1)) by lia.
  rewrite (UINT_small ((n + 1) * N)) by lia. rewrite (UINT_small (n * N)) by lia.
  set (ring := Shapes.BuildFrameResources N device (Shapes.BuildRenderItemsFrom N 0 scene)).
  assert (at_index ring s
          = Some (Shapes.FrameResource.create device s 1
                    (UINT (Z.of_nat (length (Shapes.BuildRenderItemsFrom N 0 scene))))))
    as Hfr.
  { unfold ring, Shapes.BuildFrameResources. rewrite at_index_fmap.
    unfold at_index. rewrite decide_True by lia.
    rewrite (lookup_seqZ_lt 0 N (Z.to_nat s)) by lia. simpl. do 2 f_equal. lia. }
  rewrite sh_BuildRenderItemsFrom_length in Hfr. fold n in Hfr.
  rewrite (UINT_small n) in Hfr by lia.
  eexists. split; [exact Hfr|]. split; [reflexivity|]. split; [reflexivity|].
  split; [reflexivity|].
  unfold Shapes.BuildConstantBufferViews.
  rewrite ?length_seq, ?sh_BuildRenderItemsFrom_length. fold n. rewrite (UINT_small n) by lia.
  destruct (object_views_spec ring n (seqZ 0 N)
              (replicate (Z.to_nat ((n + 1) * N)) None) Hn) as [Hlen0 _].
  { intros f Hf%elem_of_seqZ. split; [lia|]. nia. }
  rewrite length_replicate in Hlen0.
  match goal with |- context [foldl ?step ?h (seqZ 0 N)] =>
    destruct (pass_views_spec ring (n * N) (seqZ 0 N) h) as [Hlen Hat] end.
  { apply NoDup_seqZ. }
  { intros f Hf%elem_of_seqZ. rewrite Hlen0. lia. }
  split.
  - rewrite Hlen, Hlen0. lia.
  - unfold at_index at 1. rewrite decide_True by lia.
    apply Hat; [apply elem_of_seqZ; lia|exact Hfr].
Qed.
End PassViews.

Section PassViewTheorems.
Context `{Float32} `{RecordSizes}.

(** Every reachable state keeps the heap of start-up, and each ring slot keeps
    the pass region it was created with. *)
Lemma sh_reachable_pass (N : Z) device scene fence0 (l : list ShapesSteps.Step) s :
  1 ≤ N → (Z.of_nat (length scene) + 1) * N < 2 ^ 32 →
  0 ≤ fence0 → fence0 + ShapesSteps.turns l < 2 ^ 64 → 0 ≤ s < N →
  let n := Z.of_nat (length scene) in
  ∃ a, ShapesSteps.Steps N l (Shapes.Initialize N device scene fence0) = Ok a ∧ ∃ fr,
    at_index (Shapes.mFrameResources a) s = Some fr ∧
    UploadBuffer.GPUVirtualAddress (Shapes.FrameResource.PassCB fr) = PassCB_address device s ∧
    Shapes.mPassCbvOffset a = n * N ∧
    Shapes.mCbvHeap a = Shapes.mCbvHeap (Shapes.Initialize N device scene fence0) ∧
    Z.of_nat (length (Shapes.mCbvHeap a)) = (n + 1) * N ∧
    at_index (Shapes.mCbvHeap a) (n * N + s) = Some (Some (pass_view fr)) ∧
    Z.of_nat (length (Shapes.mOpaqueRitems a)) = n ∧
    (∀ p ri, Shapes.mAllRitems a !! p = Some ri →
       Shapes.RenderItem.ObjCBIndex ri = Z.of_nat p ∧ (p < length scene)%nat).
Proof.
  intros HN Hfit Hf Hno Hs n. fold n in Hfit.
  assert (n < 2 ^ 32) as Hn by nia.
  assert (0 ≤ ShapesSteps.turns l) as Hnn by (clear; induction l as [|[] l IH]; simpl; lia).
  destruct (sh_reachable_layout N device scene fence0 l) as
    (a & HS & Hwf & _ & _ & Hcbv & Hopaque & _ & Hitems & _ & _); [done..|].
  exists a. split; [exact HS|].
  assert (sh_layout a = sh_layout (Shapes.Initialize N device scene fence0)) as Hlay.
  { apply (sh_Steps_layout N l _ _ HN); [| |exact HS].
    - apply sh_Initialize_wf; [done..|lia].
    - unfold Shapes.Initialize. destruct (Shapes.BuildDescriptorHeaps N _). simpl. lia. }
  destruct (sh_heap_pass N device scene fence0 s HN Hfit Hs)
    as (fr0 & Hfr0 & Hva0 & Hoff0 & Hop0 & Hlen0 & Hview0).
  revert Hlay Hcbv Hopaque Hfr0 Hva0 Hoff0 Hlen0 Hview0 Hop0 Hitems. clear HS.
  generalize (Shapes.Initialize N device scene fence0). intros a0.
  unfold sh_layout. intros [= _ Hreg _ _ Hoff] Hcbv Hopaque Hfr0 Hva0 Hoff0 Hlen0 Hview0 Hop0 Hitems.
  destruct (at_index_is_Some (Shapes.mFrameResources a) s) as [fr Hfr];
    [rewrite (sh_wf_ring _ _ (sh_wf_static _ _ Hwf)); lia|].
  apply (f_equal (λ l, at_index l s)) in Hreg. rewrite !at_index_fmap, Hfr, Hfr0 in Hreg.
  unfold sh_slot_regions, region in Hreg. simpl in Hreg. injection Hreg as _ _ _ _ _ Hva.
  subst n. exists fr. split; [done|]. split; [congruence|].
  split; [congruence|]. split; [done|]. rewrite Hcbv. split; [done|].
  split; [unfold pass_view in *; rewrite Hva; exact Hview0|].
  split; [rewrite Hopaque, Hop0; done|done].
Qed.

(** X6.  The pass descriptor [Draw] binds is the view of the current ring
    slot's pass constants.  In every reachable state of ShapesApp, with slot
    [s] current, [passCbvIndex] is [n * N + s], the descriptor there was
    created by [BuildConstantBufferViews] for slot [s]'s pass region, and
    every object descriptor [DrawRenderItems] binds lies below the pass
    descriptors.  The heap is assumed to have fewer than [2^31] descriptors,
    so that the [int] index is not negative. *)
Theorem pass_descriptor_views_pass_buffer_of_current_slot (N : Z) device scene fence0
    (l : list ShapesSteps.Step) (s : Z) :
  1 ≤ N → (Z.of_nat (length scene) + 1) * N < 2 ^ 31 →
  0 ≤ fence0 → fence0 + ShapesSteps.turns l < 2 ^ 64 → 0 ≤ s < N →
  let n := Z.of_nat (length scene) in
  ∃ a fr,
    ShapesSteps.Steps N l (Shapes.Initialize N device scene fence0) = Ok a ∧
    at_index (Shapes.mFrameResources a) s = Some fr ∧
    let a_s := Shapes.set_mCurrFrameResourceIndex s a in
    passCbvIndex a_s = n * N + s ∧
    passCbv a_s
    = Some {| Shapes.BufferLocation :=
                UploadBuffer.GPUVirtualAddress (Shapes.FrameResource.PassCB fr);
              Shapes.SizeInBytes := CalcConstantBufferByteSize sizeof_PassConstants |} ∧
    UploadBuffer.GPUVirtualAddress (Shapes.FrameResource.PassCB fr) = PassCB_address device s ∧
    ∀ p ri, Shapes.mAllRitems a !! p = Some ri →
      0 ≤ Shapes.cbvIndex (Shapes.DrawRenderItem a_s ri) < n * N.
Proof.
  intros HN Hfit Hf Hno Hs n. fold n in Hfit.
  destruct (sh_reachable_pass N device scene fence0 l s HN ltac:(fold n; lia) Hf Hno Hs)
    as (a & HS & fr & Hfr & Hva & Hoff & _ & Hlen & Hview & Hop & Hitems).
  fold n in Hoff, Hlen, Hview, Hop.
  assert (0 ≤ n ∧ 0 ≤ n * N ∧ n * N + s < (n + 1) * N) as (Hn & Hnn & Hlt) by nia.
  exists a, fr. split; [exact HS|]. split; [exact Hfr|].
  assert (passCbvIndex (Shapes.set_mCurrFrameResourceIndex s a) = n * N + s) as Hidx.
  { unfold passCbvIndex. simpl. rewrite Hoff, UINT_small by lia. apply INT_small. lia. }
  split; [exact Hidx|]. split.
  { unfold passCbv. rewrite Hidx. simpl. rewrite Hview. reflexivity. }
  split; [exact Hva|].
  intros p ri Hri. destruct (Hitems p ri Hri) as [Hi Hp].
  unfold Shapes.DrawRenderItem. simpl. rewrite Hi, Hop.
  assert (0 ≤ s * n ∧ s * n + Z.of_nat p < n * N) by nia.
  rewrite (UINT_small n) by lia. rewrite (UINT_small (s * n)) by lia.
  rewrite UINT_small by lia. lia.
Qed.

(** X7.  [BuildDescriptorHeaps] and [BuildConstantBufferViews] fill the heap
    completely.  In every reachable state of ShapesApp the heap has
    [(n + 1) * N] descriptors and every one of them holds a view: descriptor
    [k < n * N] views object [k mod n] in the per-object region of ring slot
    [k / n], and descriptor [n * N + s] views the pass region of slot [s]. *)
Theorem descriptor_heap_is_fully_populated (N : Z) device scene fence0
    (l : list ShapesSteps.Step) :
  1 ≤ N → (Z.of_nat (length scene) + 1) * N < 2 ^ 32 →
  0 ≤ fence0 → fence0 + ShapesSteps.turns l < 2 ^ 64 →
  let n := Z.of_nat (length scene) in
  ∃ a,
    ShapesSteps.Steps N l (Shapes.Initialize N device scene fence0) = Ok a ∧
    Z.of_nat (length (Shapes.mCbvHeap a)) = (n + 1) * N ∧
    ∀ k, 0 ≤ k < (n + 1) * N →
      let s := if decide (k < n * N) then k `div` n else k - n * N in
      ∃ fr, at_index (Shapes.mFrameResources a) s = Some fr ∧
        at_index (Shapes.mCbvHeap a) k
        = Some (Some (if decide (k < n * N) then object_view fr (k `mod` n)
                      else pass_view fr)).
Proof.
  intros HN Hfit Hf Hno n. fold n in Hfit.
  assert (n < 2 ^ 32) as Hn32 by nia.
  destruct (sh_reachable_layout N device scene fence0 l) as
    (a & HS & Hwf & _ & _ & Hcbv & _ & Hreg & _ & _ & _); [done..|].
  destruct (sh_reachable_pass N device scene fence0 l 0 HN ltac:(fold n; lia) Hf Hno ltac:(lia))
    as (a' & HS' & _ & _ & _ & _ & _ & Hlen & _).
  assert (a' = a) as -> by congruence. fold n in Hlen.
  exists a. split; [exact HS|]. split; [exact Hlen|].
  intros k Hk s. destruct (decide (k < n * N)) as [Hobj|Hpass].
  - assert (0 < n) as Hn by nia.
    assert (0 ≤ s < N) as Hs.
    { unfold s. split; [apply Z.div_pos; lia|]. apply Z.div_lt_upper_bound; lia. }
    pose proof (Z.mod_pos_bound k n Hn) as Hi.
    assert (k = s * n + k `mod` n) as Hkeq.
    { unfold s. pose proof (Z.div_mod k n ltac:(lia)). lia. }
    destruct (sh_heap_lookup N device scene fence0 s (k `mod` n))
      as (fr0 & Hfr0 & _ & _ & Hview); [done|done|done|done|].
    fold n in Hview. rewrite <- Hkeq in Hview.
    destruct (at_index_is_Some (Shapes.mFrameResources a) s) as [fr Hfr];
      [rewrite (sh_wf_ring _ _ (sh_wf_static _ _ Hwf)); lia|].
    pose proof (Hreg s fr fr0 Hfr Hfr0) as Heq. unfold region in Heq.
    injection Heq as _ _ Hva.
    exists fr. split; [exact Hfr|]. rewrite Hcbv, Hview.
    unfold object_view. rewrite Hva. reflexivity.
  - assert (0 ≤ s < N) as Hs by (unfold s; lia).
    destruct (sh_reachable_pass N device scene fence0 l s HN ltac:(fold n; lia) Hf Hno Hs)
      as (a' & HS2 & fr & Hfr & _ & _ & _ & _ & Hview & _).
    assert (a' = a) as -> by congruence. fold n in Hview.
    exists fr. split; [exact Hfr|]. rewrite <- Hview. f_equal. unfold s. lia.
Qed.
End PassViewTheorems.

(** ** The index buffer of the water grid *)




Section WavesGeometryFacts.
Import WavesGeometry.

Lemma for_each_app {A S} (f : S → A → result S) st l1 l2 :
  for_each f st (l1 ++ l2) = st' ← for_each f st l1; for_each f st' l2.
Proof.
  revert st. induction l1 as [|x l1 IH]; intros st; simpl; [done|].
  destruct (f st x); simpl; [apply IH|done].
Qed.

Lemma store_app pre l k d v :
  k = Z.of_nat (length pre) → 0 ≤ d < Z.of_nat (length l) →
  store (k + d) v (pre ++ l) = Ok (pre ++ <[Z.to_nat d := UINT16 v]> l).
Proof.
  intros -> Hd. unfold store. rewrite decide_True.
  - f_equal. rewrite insert_app_r_alt by lia. f_equal. f_equal. lia.
  - rewrite length_app. lia.
Qed.

Lemma store_beyond k v indices :
  Z.of_nat (length indices) ≤ k → store k v indices = Fail OutOfRange.
Proof. intros Hk. unfold store. rewrite decide_False; [done|lia]. Qed.

Lemma quad_spec n i j pre rest k :
  k = Z.of_nat (length pre) →
  quad n i j (k, pre ++ replicate 6 0 ++ rest)
  = Ok (k + 6, pre ++ (UINT16 <$> quad_indices n i j) ++ rest).
Proof.
  intros Hk. unfold quad. simpl.
  replace k with (k + 0) at 1 by lia.
  rewrite (store_app pre _ k 0) by (done || simpl; lia). simpl.
  rewrite (store_app pre _ k 1) by (done || simpl; lia). simpl.
  rewrite (store_app pre _ k 2) by (done || simpl; lia). simpl.
  rewrite (store_app pre _ k 3) by (done || simpl; lia). simpl.
  rewrite (store_app pre _ k 4) by (done || simpl; lia). simpl.
  rewrite (store_app pre _ k 5) by (done || simpl; lia). simpl.
  reflexivity.
Qed.

(** The indices of the quads of row [i], and of all rows. *)
Definition row_indices (n i : Z) : list Z :=
  flat_map (quad_indices n i) (seqZ 0 (n - 1)).
Definition grid_indices (m n : Z) : list Z :=
  flat_map (row_indices n) (seqZ 0 (m - 1)).

Lemma row_spec n i (c : nat) : ∀ j0 pre rest k,
  k = Z.of_nat (length pre) →
  for_each (λ st j, quad n i j st) (k, pre ++ replicate (6 * c) 0 ++ rest)
    (seqZ j0 (Z.of_nat c))
  = Ok (k + 6 * Z.of_nat c,
        pre ++ (UINT16 <$> flat_map (quad_indices n i) (seqZ j0 (Z.of_nat c))) ++ rest).
Proof.
  induction c as [|c IH]; intros j0 pre rest k Hk.
  - replace (k + 6 * Z.of_nat 0) with k by lia. reflexivity.
  - rewrite seqZ_cons by lia.
    replace (Z.pred (Z.of_nat (S c))) with (Z.of_nat c) by lia.
    replace (6 * S c)%nat with (6 + 6 * c)%nat by lia.
    rewrite replicate_add, <- app_assoc.
    cbn [for_each]. rewrite quad_spec by done. cbn [mbind result_bind].
    cbn [flat_map]. rewrite fmap_app, <- !app_assoc.
    rewrite (app_assoc pre). rewrite IH.
    + f_equal. f_equal; [lia|]. by rewrite <- app_assoc.
    + rewrite length_app, length_fmap. simpl. lia.
Qed.

Lemma length_quads n i (c : nat) j0 :
  length (flat_map (quad_indices n i) (seqZ j0 (Z.of_nat c))) = (6 * c)%nat.
Proof.
  revert j0. induction c as [|c IH]; intros j0; [done|].
  rewrite seqZ_cons by lia. replace (Z.pred (Z.of_nat (S c))) with (Z.of_nat c) by lia.
  cbn [flat_map]. rewrite length_app, IH. simpl. lia.
Qed.

Lemma length_row_indices n i :
  1 ≤ n → length (row_indices n i) = (6 * Z.to_nat (n - 1))%nat.
Proof.
  intros Hn. unfold row_indices. rewrite <- (Z2Nat.id (n - 1)) at 1 by lia.
  apply length_quads.
Qed.

Lemma grid_spec n (r : nat) : ∀ i0 pre rest k,
  1 ≤ n → k = Z.of_nat (length pre) →
  for_each (λ st i, for_each (λ st j, quad n i j st) st (seqZ 0 (n - 1)))
    (k, pre ++ replicate (6 * Z.to_nat (n - 1) * r) 0 ++ rest) (seqZ i0 (Z.of_nat r))
  = Ok (k + 6 * (n - 1) * Z.of_nat r,
        pre ++ (UINT16 <$> flat_map (row_indices n) (seqZ i0 (Z.of_nat r))) ++ rest).
Proof.
  intros i0 pre rest k Hn. unfold row_indices.
  assert (∃ c : nat, n - 1 = Z.of_nat c) as [c Hc] by (exists (Z.to_nat (n - 1)); lia).
  rewrite Hc, Nat2Z.id. clear Hn Hc.
  revert i0 pre rest k. induction r as [|r IH]; intros i0 pre rest k Hk.
  - replace (k + 6 * Z.of_nat c * Z.of_nat 0) with k by lia.
    rewrite Nat.mul_0_r. reflexivity.
  - rewrite (seqZ_cons i0) by lia.
    replace (Z.pred (Z.of_nat (S r))) with (Z.of_nat r) by lia.
    replace (6 * c * S r)%nat with (6 * c + 6 * c * r)%nat by lia.
    rewrite replicate_add, <- app_assoc.
    cbn [for_each]. rewrite row_spec by done. cbn [mbind result_bind].
    cbn [flat_map]. rewrite fmap_app, <- !app_assoc.
    rewrite (app_assoc pre). rewrite IH.
    + f_equal. f_equal; [lia|]. by rewrite <- app_assoc.
    + rewrite length_app, length_fmap, length_quads. lia.
Qed.

Lemma length_grid_indices m n :
  1 ≤ m → 1 ≤ n → Z.of_nat (length (grid_indices m n)) = 6 * (m - 1) * (n - 1).
Proof.
  intros Hm Hn. unfold grid_indices. generalize 0.
  rewrite <- (Z2Nat.id (m - 1)) by lia.
  induction (Z.to_nat (m - 1)) as [|r IH]; intros i0; [simpl; lia|].
  rewrite seqZ_cons by lia. replace (Z.pred (Z.of_nat (S r))) with (Z.of_nat r) by lia.
  cbn [flat_map]. rewrite length_app, Nat2Z.inj_add, IH, length_row_indices by done. lia.
Qed.

(** Start-up to the end of the loops, for a vector that is large enough. *)
Lemma BuildWavesGeometry_spec m n TriangleCount :
  1 ≤ m → 1 ≤ n → 6 * (m - 1) * (n - 1) ≤ 3 * TriangleCount →
  BuildWavesGeometry m n TriangleCount
  = Ok ((UINT16 <$> grid_indices m n)
        ++ replicate (Z.to_nat (3 * TriangleCount - 6 * (m - 1) * (n - 1))) 0).
Proof.
  intros Hm Hn Hfit. unfold BuildWavesGeometry.
  replace (Z.to_nat (3 * TriangleCount))
    with (6 * Z.to_nat (n - 1) * Z.to_nat (m - 1)
          + Z.to_nat (3 * TriangleCount - 6 * (m - 1) * (n - 1)))%nat by nia.
  rewrite replicate_add.
  pose proof (grid_spec n (Z.to_nat (m - 1)) 0 []
                (replicate (Z.to_nat (3 * TriangleCount - 6 * (m - 1) * (n - 1))) 0)
                0 Hn eq_refl) as Hg.
  rewrite Z2Nat.id in Hg by lia. cbn [app] in Hg. rewrite Hg. reflexivity.
Qed.
End WavesGeometryFacts.

Section WavesGeometryTheorem.
Import WavesGeometry.

Lemma length_rows n (r : nat) i0 :
  1 ≤ n →
  length (flat_map (row_indices n) (seqZ i0 (Z.of_nat r))) = (6 * Z.to_nat (n - 1) * r)%nat.
Proof.
  intros Hn. revert i0. induction r as [|r IH]; intros i0; [simpl; lia|].
  rewrite seqZ_cons by lia. replace (Z.pred (Z.of_nat (S r))) with (Z.of_nat r) by lia.
  cbn [flat_map]. rewrite length_app, IH, length_row_indices by done. lia.
Qed.

Lemma grid_indices_range m n v :
  1 ≤ m → 1 ≤ n → v ∈ grid_indices m n → 0 ≤ v < m * n.
Proof.
  intros Hm Hn Hv. unfold grid_indices, row_indices in Hv.
  apply list_elem_of_In, in_flat_map in Hv as (i & Hi & Hv).
  apply in_flat_map in Hv as (j & Hj & Hv).
  apply list_elem_of_In, elem_of_seqZ in Hi, Hj.
  apply list_elem_of_In in Hv. unfold quad_indices in Hv.
  rewrite !elem_of_cons, elem_of_nil in Hv. nia.
Qed.

Lemma quad_in_grid m n i j :
  1 ≤ m → 1 ≤ n → 0 ≤ i < m - 1 → 0 ≤ j < n - 1 →
  take 6 (drop (Z.to_nat (6 * (i * (n - 1) + j))) (grid_indices m n)) = quad_indices n i j.
Proof.
  intros Hm Hn Hi Hj. unfold grid_indices.
  replace (m - 1) with (Z.of_nat (Z.to_nat i) + (1 + (m - 1 - i - 1))) by lia.
  rewrite seqZ_app, flat_map_app by lia.
  rewrite (seqZ_cons (0 + _)) by lia. cbn [flat_map].
  replace (0 + Z.of_nat (Z.to_nat i)) with i by lia.
  unfold row_indices at 2.
  replace (n - 1) with (Z.of_nat (Z.to_nat j) + (1 + (n - 1 - j - 1))) at 2 by lia.
  rewrite seqZ_app, flat_map_app by lia.
  rewrite (seqZ_cons (0 + _)) by lia. cbn [flat_map].
  replace (0 + Z.of_nat (Z.to_nat j)) with j by lia.
  rewrite <- !app_assoc. rewrite (app_assoc (flat_map (row_indices n) _)).
  rewrite drop_app_length'.
  - rewrite take_app_length'; done.
  - rewrite length_app, length_rows, length_quads by done. nia.
Qed.

(** X8.  [BuildWavesGeometry] fills the index vector without a write out of
    range and leaves no entry unwritten.  For a grid of [m] rows and [n]
    columns whose vertex count passes the function's assertion, and a vector
    of [3 * TriangleCount] entries with [TriangleCount = 2 (m-1) (n-1)], the
    six entries from [6 (i (n-1) + j)] are the two triangles of the quad in
    row [i], column [j], and every entry is the index of a grid vertex,
    stored in 16 bits without truncation. *)
Theorem water_grid_indices_stay_in_range_and_name_grid_vertices (m n TriangleCount : Z) :
  1 ≤ m → 1 ≤ n → m * n < 65535 → TriangleCount = 2 * (m - 1) * (n - 1) →
  ∃ indices,
    BuildWavesGeometry m n TriangleCount = Ok indices ∧
    Z.of_nat (length indices) = 3 * TriangleCount ∧
    Forall (λ v, 0 ≤ v < m * n) indices ∧
    ∀ i j, 0 ≤ i < m - 1 → 0 ≤ j < n - 1 →
      take 6 (drop (Z.to_nat (6 * (i * (n - 1) + j))) indices)
      = [ i * n + j; i * n + j + 1; (i + 1) * n + j;
          (i + 1) * n + j; i * n + j + 1; (i + 1) * n + j + 1 ].
Proof.
  intros Hm Hn Hvc ->.
  rewrite BuildWavesGeometry_spec by lia.
  replace (3 * (2 * (m - 1) * (n - 1)) - 6 * (m - 1) * (n - 1)) with 0 by lia.
  cbn [Z.to_nat replicate]. rewrite app_nil_r.
  assert (UINT16 <$> grid_indices m n = grid_indices m n) as ->.
  { rewrite <- (list_fmap_id (grid_indices m n)) at 2.
    apply list_fmap_ext. intros k v Hv%list_elem_of_lookup_2.
    apply grid_indices_range in Hv; [|done..]. unfold UINT16. simpl.
    apply Z.mod_small. lia. }
  exists (grid_indices m n). split; [done|]. split.
  { rewrite length_grid_indices by done. lia. }
  split.
  { apply Forall_forall. intros v Hv. by apply grid_indices_range. }
  intros i j Hi Hj. by apply quad_in_grid.
Qed.
End WavesGeometryTheorem.

Section WavesGeometryFaults.
Import WavesGeometry.

Lemma store_Ok k v indices indices' :
  store k v indices = Ok indices' →
  0 ≤ k < Z.of_nat (length indices) ∧ length indices' = length indices.
Proof.
  unfold store. case_decide as Hk; [|done]. intros [= <-].
  split; [done|]. apply length_insert.
Qed.

Lemma store_Fail k v indices f : store k v indices = Fail f → f = OutOfRange.
Proof. unfold store. case_decide; [done|]. by intros [= <-]. Qed.

Lemma quad_Ok n i j k indices st' :
  quad n i j (k, indices) = Ok st' →
  st'.1 = k + 6 ∧ length st'.2 = length indices ∧
  0 ≤ k ∧ k + 6 ≤ Z.of_nat (length indices).
Proof.
  unfold quad. intros Hq.
  apply bind_Ok in Hq as (i0 & [H0 L0]%store_Ok & Hq).
  apply bind_Ok in Hq as (i1 & [H1 L1]%store_Ok & Hq).
  apply bind_Ok in Hq as (i2 & [H2 L2]%store_Ok & Hq).
  apply bind_Ok in Hq as (i3 & [H3 L3]%store_Ok & Hq).
  apply bind_Ok in Hq as (i4 & [H4 L4]%store_Ok & Hq).
  apply bind_Ok in Hq as (i5 & [H5 L5]%store_Ok & Hq).
  injection Hq as <-. simpl. split; [done|]. split; [congruence|].
  split; [lia|]. rewrite L4, L3, L2, L1, L0 in H5. lia.
Qed.

Lemma quad_Fail n i j st f : quad n i j st = Fail f → f = OutOfRange.
Proof.
  destruct st as [k indices]. unfold quad. intros Hq.
  repeat match type of Hq with
  | (match store ?k ?v ?l with _ => _ end) = _ =>
    let E := fresh in destruct (store k v l) eqn:E; simpl in Hq;
    [|injection Hq as <-; by eapply store_Fail]
  | (mbind _ (store ?k ?v ?l)) = _ =>
    let E := fresh in destruct (store k v l) eqn:E; simpl in Hq;
    [|injection Hq as <-; by eapply store_Fail]
  end.
  done.
Qed.

Lemma row_Ok n i (l : list Z) : ∀ k indices st',
  for_each (λ st j, quad n i j st) (k, indices) l = Ok st' →
  st'.1 = k + 6 * Z.of_nat (length l) ∧ length st'.2 = length indices ∧
  (l ≠ [] → 0 ≤ k ∧ st'.1 ≤ Z.of_nat (length indices)).
Proof.
  induction l as [|j l IH]; intros k indices st'; simpl.
  - intros [= <-]. simpl. split; [lia|]. done.
  - intros Hq. apply bind_Ok in Hq as ([k1 ind1] & Hquad & Hrest).
    apply quad_Ok in Hquad as (Hk1 & Hl1 & Hk & Hfit). simpl in Hk1, Hl1. subst k1.
    apply IH in Hrest as (Hk' & Hl' & Hne).
    split; [lia|]. split; [congruence|]. intros _. split; [done|].
    destruct l as [|j' l]; [simpl in Hk'; lia|].
    destruct Hne as [_ Hle]; [done|]. lia.
Qed.

Lemma row_Fail n i (l : list Z) : ∀ st f,
  for_each (λ st j, quad n i j st) st l = Fail f → f = OutOfRange.
Proof.
  induction l as [|j l IH]; intros st f; simpl; [done|].
  destruct (quad n i j st) as [st1|f1] eqn:Hq; simpl.
  - apply IH.
  - intros [= <-]. by eapply quad_Fail.
Qed.

Lemma grid_Ok n (cols rows : list Z) : ∀ k indices st',
  for_each (λ st i, for_each (λ st j, quad n i j st) st cols) (k, indices) rows = Ok st' →
  st'.1 = k + 6 * Z.of_nat (length cols) * Z.of_nat (length rows) ∧
  length st'.2 = length indices ∧
  (cols ≠ [] → rows ≠ [] → 0 ≤ k ∧ st'.1 ≤ Z.of_nat (length indices)).
Proof.
  induction rows as [|i rows IH]; intros k indices st'; simpl.
  - intros [= <-]. simpl. split; [lia|]. done.
  - intros Hq. apply bind_Ok in Hq as ([k1 ind1] & Hrow & Hrest).
    apply row_Ok in Hrow as (Hk1 & Hl1 & Hrow). simpl in Hk1, Hl1, Hrow.
    apply IH in Hrest as (Hk' & Hl' & Hne).
    split; [lia|]. split; [congruence|]. intros Hc _.
    destruct (Hrow Hc) as [Hk Hfit]. split; [done|].
    destruct rows as [|i' rows]; [simpl in Hk'; lia|].
    destruct Hne as [_ Hle]; [done..|]. lia.
Qed.

Lemma grid_Fail n (cols rows : list Z) : ∀ st f,
  for_each (λ st i, for_each (λ st j, quad n i j st) st cols) st rows = Fail f →
  f = OutOfRange.
Proof.
  induction rows as [|i rows IH]; intros st f; simpl; [done|].
  destruct (for_each _ st cols) as [st1|f1] eqn:Hq; simpl.
  - apply IH.
  - intros [= <-]. by eapply row_Fail.
Qed.

(** X9.  The size of the index vector is necessary: with fewer than
    [6 (m-1) (n-1)] entries the loops of [BuildWavesGeometry] write beyond the
    end of the vector.  The grid has at least one quad, and the row count,
    the column count and the size of the vector are in the range of [int]. *)
Theorem water_grid_index_vector_too_short_is_out_of_range (m n TriangleCount : Z) :
  2 ≤ m < 2 ^ 31 → 2 ≤ n < 2 ^ 31 → 3 * TriangleCount < 2 ^ 31 →
  3 * TriangleCount < 6 * (m - 1) * (n - 1) →
  BuildWavesGeometry m n TriangleCount = Fail OutOfRange.
Proof.
  intros Hm Hn Hint Hshort. unfold BuildWavesGeometry.
  destruct (for_each _ _ (seqZ 0 (m - 1))) as [[k indices]|f] eqn:Hg; simpl.
  - apply grid_Ok in Hg as (Hk & Hl & Hfit). simpl in Hk, Hl, Hfit.
    rewrite !length_seqZ in Hk. rewrite length_replicate in Hfit.
    destruct Hfit as [_ Hfit].
    + intros Hnil%(f_equal length). rewrite length_seqZ in Hnil. simpl in Hnil. lia.
    + intros Hnil%(f_equal length). rewrite length_seqZ in Hnil. simpl in Hnil. lia.
    + nia.
  - f_equal. by eapply grid_Fail.
Qed.
End WavesGeometryFaults.

(** ** The shared vertex and index buffers of the castle *)

Section CastleGeometryFacts.
Context `{Float32}.
Import CastleGeometry.

Lemma concat_slice {A} (ls : list (list A)) i l :
  ls !! i = Some l →
  take (length l) (drop (length (concat (take i ls))) (concat ls)) = l.
Proof.
  intros Hl. pose proof (take_drop_middle ls i l Hl) as Hsplit.
  set (before := take i ls) in *. rewrite <- Hsplit.
  rewrite concat_app, drop_app_length. simpl. by rewrite take_app_length.
Qed.

Lemma concat_lookup {A} (ls : list (list A)) i l j x :
  ls !! i = Some l → l !! j = Some x →
  concat ls !! (length (concat (take i ls)) + j)%nat = Some x.
Proof.
  intros Hl Hx. pose proof (take_drop_middle ls i l Hl) as Hsplit.
  set (before := take i ls) in *. rewrite <- Hsplit.
  rewrite concat_app, lookup_app_r by lia.
  replace (length (concat before) + j - length (concat before))%nat with j by lia.
  simpl. by apply lookup_app_l_Some.
Qed.

Lemma pack_at pre x rest k v :
  k = Z.of_nat (length pre) → k + 1 < 2 ^ 32 →
  pack (k, pre ++ x :: rest) v = Ok (k + 1, pre ++ packed v :: rest).
Proof.
  intros Hk Hfit. unfold pack.
  rewrite decide_True by (rewrite length_app; simpl; lia).
  rewrite UINT_small by lia. rewrite insert_app_r_alt by lia.
  replace (Z.to_nat k - length pre)%nat with 0%nat by lia. reflexivity.
Qed.

Lemma pack_loop (l : list GeneratedVertex) : ∀ pre rest k,
  k = Z.of_nat (length pre) → k + Z.of_nat (length l) < 2 ^ 32 →
  for_each pack (k, pre ++ replicate (length l) zero_vertex ++ rest) l
  = Ok (k + Z.of_nat (length l), pre ++ (packed <$> l) ++ rest).
Proof.
  induction l as [|v l IH]; intros pre rest k Hk Hfit.
  - simpl. do 2 f_equal. lia.
  - cbn [for_each length replicate app].
    rewrite pack_at by (simpl in Hfit; lia || done).
    cbn [mbind result_bind].
    rewrite (cons_middle _ pre), app_assoc.
    rewrite IH.
    + rewrite <- app_assoc. rewrite fmap_cons. cbn [app]. do 2 f_equal.
      rewrite Nat2Z.inj_succ. lia.
    + rewrite length_app. simpl. lia.
    + simpl in Hfit. lia.
Qed.

Lemma shapes_loop (shapes : list MeshData) : ∀ pre rest k,
  let all := concat (Vertices <$> shapes) in
  k = Z.of_nat (length pre) → k + Z.of_nat (length all) < 2 ^ 32 →
  for_each (λ st shape, for_each pack st (Vertices shape))
    (k, pre ++ replicate (length all) zero_vertex ++ rest) shapes
  = Ok (k + Z.of_nat (length all), pre ++ (packed <$> all) ++ rest).
Proof.
  induction shapes as [|shape shapes IH]; intros pre rest k all Hk Hfit.
  - simpl. do 2 f_equal. lia.
  - unfold all in *. rewrite fmap_cons in *. cbn [concat] in *.
    rewrite length_app in *. rewrite replicate_add, <- app_assoc.
    cbn [for_each]. rewrite pack_loop by (done || lia). cbn [mbind result_bind].
    rewrite (app_assoc pre). rewrite IH.
    + rewrite fmap_app, <- !app_assoc. do 2 f_equal. lia.
    + rewrite length_app, length_fmap. lia.
    + lia.
Qed.
End CastleGeometryFacts.

Section CastleGeometryTheorem.
Context `{Float32}.
Import CastleGeometry.

Ltac no_wrap :=
  repeat match goal with
         | |- context [UINT ?x] => rewrite (UINT_small x) by lia
         end.

Lemma take_drop_eq {A} (l : list A) n n' m m' :
  n = n' → m = m' → take n (drop m l) = take n' (drop m' l).
Proof using Type. by intros -> ->. Qed.

Lemma lookup_eq_index {A} (l : list A) i i' x : i = i' → l !! i' = Some x → l !! i = Some x.
Proof using Type. by intros ->. Qed.

Ltac solve_case shapes k mesh name shape Hname Hshape :=
  injection Hname as Hname; injection Hshape as Hshape; subst shape name;
  let Hi := fresh "Hi" in let Hv := fresh "Hv" in
  assert ((GetIndices16 <$> shapes) !! k = Some (GetIndices16 mesh)) as Hi by reflexivity;
  assert ((Vertices <$> shapes) !! k = Some (Vertices mesh)) as Hv by reflexivity;
  eexists; split;
  [repeat (rewrite lookup_insert_ne by discriminate); apply lookup_insert_eq|];
  cbn [IndexCount StartIndexLocation BaseVertexLocation]; no_wrap; split;
  [etrans; [|apply (concat_slice _ _ _ Hi)];
   apply take_drop_eq; simpl; rewrite ?length_app; simpl; lia
  |let j := fresh "j" in let v := fresh "v" in let Hj := fresh "Hj" in
   intros j v Hj; pose proof (lookup_lt_Some _ _ _ Hj);
   unfold at_index; rewrite decide_True by lia;
   apply list_lookup_fmap_Some_2;
   eapply lookup_eq_index; [|apply (concat_lookup _ _ _ j v Hv Hj)];
   simpl; rewrite ?length_app; simpl; lia].

(** X10.  [BuildCastleGeometry] packs the eight shapes so that each submesh
    selects exactly its own shape.  If the shapes have fewer than [2^32]
    vertices and indices in total, the packing loop stays inside the vertex
    vector and overwrites every entry, and for each name in [DrawArgs] the
    index range [StartIndexLocation, StartIndexLocation + IndexCount) holds
    the 16-bit indices of the shape stored under that name, and index [j]
    offset by [BaseVertexLocation] designates vertex [j] of that shape. *)
Theorem castle_submeshes_select_their_own_indices_and_vertices
    (wholeWall grid column columnTop Base1 Base2 Base3 top : MeshData) :
  let shapes := [wholeWall; grid; column; columnTop; Base1; Base2; Base3; top] in
  let names := [ "wholeWall"; "ground"; "column"; "columnTop";
                 "Base1"; "Base2"; "Base3"; "top" ]%string in
  Z.of_nat (length (concat (Vertices <$> shapes))) < 2 ^ 32 →
  Z.of_nat (length (concat (Indices32 <$> shapes))) < 2 ^ 32 →
  Forall (λ shape, length (GetIndices16 shape) = length (Indices32 shape)) shapes →
  ∃ geo,
    BuildCastleGeometry wholeWall grid column columnTop Base1 Base2 Base3 top = Ok geo ∧
    VertexBufferCPU geo = packed <$> concat (Vertices <$> shapes) ∧
    ∀ i name shape, names !! i = Some name → shapes !! i = Some shape →
      ∃ sub, DrawArgs geo !! name = Some sub ∧
        drawn_indices geo sub = GetIndices16 shape ∧
        ∀ j v, Vertices shape !! j = Some v →
               drawn_vertex geo sub (Z.of_nat j) = Some (packed v).
Proof.
  intros shapes names Hv Hi Hlen.
  pose proof (shapes_loop shapes [] [] 0 eq_refl Hv) as Hloop.
  cbn [app] in Hloop. rewrite !app_nil_r in Hloop.
  unfold BuildCastleGeometry.
  match goal with |- context [replicate ?n zero_vertex] =>
    replace n with (length (concat (Vertices <$> shapes)))
      by (simpl; rewrite !length_app; simpl; lia) end.
  fold shapes. rewrite Hloop. cbn [mbind result_bind].
  eexists. split; [reflexivity|]. split; [reflexivity|].
  assert (GetIndices16 wholeWall ++ GetIndices16 grid ++ GetIndices16 column
          ++ GetIndices16 columnTop ++ GetIndices16 Base1 ++ GetIndices16 Base2
          ++ GetIndices16 Base3 ++ GetIndices16 top
          = concat (GetIndices16 <$> shapes)) as Hchain.
  { simpl. by rewrite app_nil_r. }
  unfold drawn_indices, drawn_vertex. cbn [VertexBufferCPU IndexBufferCPU DrawArgs].
  rewrite Hchain. clear Hchain Hloop.
  repeat (apply Forall_cons in Hlen as [? Hlen]). clear Hlen.
  simpl in Hv, Hi. rewrite !length_app in Hv, Hi. simpl in Hv, Hi.
  unfold size_UINT.
  intros i name shape Hname Hshape.
  destruct i as [|i]; [solve_case shapes 0%nat wholeWall name shape Hname Hshape|].
  destruct i as [|i]; [solve_case shapes 1%nat grid name shape Hname Hshape|].
  destruct i as [|i]; [solve_case shapes 2%nat column name shape Hname Hshape|].
  destruct i as [|i]; [solve_case shapes 3%nat columnTop name shape Hname Hshape|].
  destruct i as [|i]; [solve_case shapes 4%nat Base1 name shape Hname Hshape|].
  destruct i as [|i]; [solve_case shapes 5%nat Base2 name shape Hname Hshape|].
  destruct i as [|i]; [solve_case shapes 6%nat Base3 name shape Hname Hshape|].
  destruct i as [|i]; [solve_case shapes 7%nat top name shape Hname Hshape|].
  done.
Qed.
End CastleGeometryTheorem.

(** ** Textures and their descriptors in TexWavesApp *)


Section TextureFacts.
Context `{Float32} `{RecordSizes}.
Import Textures.

Lemma BuildDescriptorHeaps_spec :
  ∃ grassTex waterTex fenceTex stoneTex,
    BuildDescriptorHeaps LoadTextures
    = Ok [Some grassTex; Some waterTex; Some fenceTex; Some stoneTex] ∧
    Name grassTex = "grassTex"%string ∧ Name waterTex = "waterTex"%string ∧
    Name fenceTex = "fenceTex"%string ∧ Name stoneTex = "stoneTex"%string.
Proof.
  do 4 eexists. unfold BuildDescriptorHeaps, LoadTextures. cbn [Name].
  rewrite (lookup_insert_ne _ "stoneTex" "grassTex") by discriminate.
  rewrite (lookup_insert_ne _ "fenceTex" "grassTex") by discriminate.
  rewrite (lookup_insert_ne _ "waterTex" "grassTex") by discriminate.
  rewrite (lookup_insert_eq _ "grassTex").
  rewrite (lookup_insert_ne _ "stoneTex" "waterTex") by discriminate.
  rewrite (lookup_insert_ne _ "fenceTex" "waterTex") by discriminate.
  rewrite (lookup_insert_eq _ "waterTex").
  rewrite (lookup_insert_ne _ "stoneTex" "fenceTex") by discriminate.
  rewrite (lookup_insert_eq _ "fenceTex").
  rewrite (lookup_insert_eq _ "stoneTex").
  split; [reflexivity|]. done.
Qed.

Lemma BuildMaterials_srv N k m :
  TexWaves.BuildMaterials N !! k = Some m →
  TexWaves.Material.DiffuseSrvHeapIndex m = TexWaves.Material.MatCBIndex m.
Proof.
  unfold TexWaves.BuildMaterials.
  rewrite !lookup_insert_Some, lookup_empty.
  intros [[<- <-]|[? [[<- <-]|[? [[<- <-]|[? [[<- <-]|[? ?]]]]]]]]; done.
Qed.

(** X11.  The texture descriptor bound for a render item is the one created
    for its material's texture.  In every reachable state of TexWavesApp, the
    handle [DrawRenderItems] binds for an item lies [DiffuseSrvHeapIndex]
    descriptors after the start of the heap, that index is one of the four
    cells of the heap, and [BuildDescriptorHeaps] has created there the view
    of the texture that belongs to the item's material. *)
Theorem texture_descriptor_of_item_is_its_material_texture (N : Z) device scene fence0
    (l : list TexWavesSteps.Step) (s : Z) (p : nat) :
  1 ≤ N → well_authored scene = true →
  0 ≤ fence0 → fence0 + TexWavesSteps.turns l < 2 ^ 64 →
  0 ≤ s < N → (p < length scene)%nat →
  ∃ a ri mat call heap t,
    TexWavesSteps.Steps N l (TexWaves.Initialize N device scene fence0) = Ok a ∧
    TexWaves.mAllRitems a !! p = Some ri ∧
    TexWaves.mMaterials a !! TexWaves.RenderItem.Mat ri = Some mat ∧
    TexWaves.DrawRenderItems (TexWaves.set_mCurrFrameResourceIndex s a) [p] = Ok [call] ∧
    BuildDescriptorHeaps LoadTextures = Ok heap ∧
    let k := TexWaves.Material.DiffuseSrvHeapIndex mat in
    TexWaves.tex call
    = UINT64 (DescriptorHeapStart device + k * DescriptorHandleIncrementSize device) ∧
    0 ≤ k < Z.of_nat (length heap) ∧
    at_index heap k = Some (Some t) ∧
    (TexWaves.RenderItem.Mat ri, Name t) ∈ diffuse_map.
Proof.
  intros HN Hscene Hf Hno Hs Hp.
  assert (0 ≤ TexWavesSteps.turns l) as Hnn by (clear; induction l as [|[] l IH]; simpl; lia).
  destruct (reachable_layout N device scene fence0 l) as
    (a & HS & Hwf & _ & _ & _ & _ & Hlength); [done..|].
  assert (layout a = layout (TexWaves.Initialize N device scene fence0)) as Hlay.
  { apply (Steps_layout N l _ _ HN); [| |exact HS].
    - apply Initialize_wf; [done..|lia].
    - simpl. lia. }
  unfold layout in Hlay. injection Hlay as _ _ Hmats _ _ Hstart Hinc.
  simpl in Hstart, Hinc.
  destruct (at_index_is_Some (TexWaves.mFrameResources a) s) as [fr Hfr];
    [rewrite (wf_ring _ _ (wf_static _ _ Hwf)); lia|].
  destruct (lookup_lt_is_Some_2 (TexWaves.mAllRitems a) p) as [ri Hri]; [lia|].
  destruct (wf_mat _ _ (wf_static _ _ Hwf) ri) as [mat Hmat].
  { apply list_elem_of_lookup. by exists p. }
  apply (f_equal (λ m, m !! TexWaves.RenderItem.Mat ri)) in Hmats.
  rewrite !lookup_fmap, Hmat in Hmats. simpl in Hmats.
  destruct (TexWaves.BuildMaterials N !! TexWaves.RenderItem.Mat ri) as [m0|] eqn:Hm0;
    [|done].
  simpl in Hmats. injection Hmats as Hcb Hsrv.
  pose proof (BuildMaterials_srv _ _ _ Hm0) as Heq.
  destruct (BuildMaterials_lookup _ _ _ Hm0) as (_ & _ & Hrange & Hg & Hw & Hfe & Hst).
  destruct BuildDescriptorHeaps_spec as (tg & tw & tf & ts & Hheap & Ng & Nw & Nf & Ns).
  assert (∃ t, at_index [Some tg; Some tw; Some tf; Some ts]
                 (TexWaves.Material.DiffuseSrvHeapIndex mat) = Some (Some t) ∧
               (TexWaves.RenderItem.Mat ri, Name t) ∈ diffuse_map) as (t & Ht & Hin).
  { rewrite Hsrv, Heq. unfold diffuse_map.
    assert (TexWaves.Material.MatCBIndex m0 = 0 ∨ TexWaves.Material.MatCBIndex m0 = 1 ∨
            TexWaves.Material.MatCBIndex m0 = 2 ∨ TexWaves.Material.MatCBIndex m0 = 3)
      as [E|[E|[E|E]]] by lia; rewrite E.
    - exists tg. split; [reflexivity|]. rewrite (proj2 Hg E), Ng. rewrite !elem_of_cons. tauto.
    - exists tw. split; [reflexivity|]. rewrite (proj2 Hw E), Nw. rewrite !elem_of_cons. tauto.
    - exists tf. split; [reflexivity|]. rewrite (proj2 Hfe E), Nf. rewrite !elem_of_cons. tauto.
    - exists ts. split; [reflexivity|]. rewrite (proj2 Hst E), Ns. rewrite !elem_of_cons. tauto. }
  exists a, ri, mat. eexists. exists [Some tg; Some tw; Some tf; Some ts], t.
  split; [exact HS|]. split; [exact Hri|]. split; [exact Hmat|].
  unfold TexWaves.DrawRenderItems, TexWaves.mCurrFrameResource,
    TexWaves.set_mCurrFrameResourceIndex. simpl.
  rewrite Hfr. simpl. rewrite Hri. simpl. unfold TexWaves.DrawRenderItem. simpl.
  rewrite Hmat. simpl. split; [reflexivity|]. split; [exact Hheap|]. simpl.
  split; [by rewrite Hstart, Hinc|]. split; [rewrite Hsrv, Heq; lia|]. split; [exact Ht|exact Hin].
Qed.
End TextureFacts.

(** ** What a turn submits *)

Section Submission.
Context {C : Type}.

Lemma gpu_step_suffix (t : Timeline.t C) :
  mCommandQueue (gpu_step t) `suffix_of` mCommandQueue t.
Proof.
  unfold gpu_step. destruct (mCommandQueue t) as [|[s cmds|v] q] eqn:E; simpl.
  - by rewrite E.
  - by apply suffix_cons_r.
  - by apply suffix_cons_r.
Qed.

Lemma gpu_run_suffix n (t : Timeline.t C) :
  mCommandQueue (gpu_run n t) `suffix_of` mCommandQueue t.
Proof.
  revert t. induction n as [|n IH]; intros t; simpl; [reflexivity|].
  etrans; [apply IH|apply gpu_step_suffix].
Qed.

Lemma mapM_lookup {A B} (f : A → result B) (l : list A) ys :
  mapM f l = Ok ys →
  length ys = length l ∧
  ∀ i x, l !! i = Some x → ∃ y, ys !! i = Some y ∧ f x = Ok y.
Proof.
  revert ys. induction l as [|x l IH]; intros ys; simpl.
  - intros [= <-]. split; [done|]. intros i x. by rewrite lookup_nil.
  - intros Hm. apply bind_Ok in Hm as (y & Hy & Hm).
    apply bind_Ok in Hm as (ys' & Hys & [= <-]).
    destruct (IH _ Hys) as [Hlen Hat]. split; [simpl; by rewrite Hlen|].
    intros [|i] x'; simpl.
    + intros [= <-]. by exists y.
    + apply Hat.
Qed.
End Submission.

Section Draws.
Context `{Float32} `{RecordSizes}.
Context (N : Z).

Lemma Frame_draws i (a : TexWaves.App) :
  1 ≤ N → wf N a → mCurrentFence (TexWaves.timeline a) + 1 < 2 ^ 64 →
  ∃ a' cmds q,
    TexWaves.Frame N i a = Ok a' ∧ wf N a' ∧
    mCurrentFence (TexWaves.timeline a') = mCurrentFence (TexWaves.timeline a) + 1 ∧
    TexWaves.DrawRenderItems a' (TexWaves.mRitemLayer a') = Ok cmds ∧
    q `suffix_of` mCommandQueue (TexWaves.timeline a) ∧
    mCommandQueue (TexWaves.timeline a')
    = q ++ [ExecuteCommandLists (TexWaves.mCurrFrameResourceIndex a') cmds;
            Signal (mCurrentFence (TexWaves.timeline a'))].
Proof.
  intros HN Hwf Hno.
  set (s := NextFrameResourceIndex N (TexWaves.mCurrFrameResourceIndex a)).
  destruct (Frame_spec N i a HN Hwf Hno) as
    (fr0 & w & cbO & cbM & l' & tl & Hfr0 & _ & _ & _ & Hcur & HF & Hwf').
  fold s in Hfr0.
  destruct (Update_wait N (gt i) _ HN (gpu_wf N (gpu_before_update i) a Hwf))
    as (fr & t1 & a1 & Hfr & Hwait & [n Hn] & _ & _ & _ & _ & HU & Hidx1 & Htl1).
  simpl in Hfr, Hwait, Hidx1, Hn. fold s in Hfr, Hidx1.
  pose proof HF as HF'. unfold TexWaves.Frame in HF'. rewrite HU in HF'. simpl in HF'.
  unfold TexWaves.Draw in HF'.
  apply bind_Ok in HF' as (fr2 & Hfr2 & HF').
  apply bind_Ok in HF' as (cmds & Hcmds & HF').
  simpl in HF'.
  match type of HF' with Ok ?x = Ok ?y => assert (y = x) as Heq by congruence end.
  exists (turned N i a w cbO cbM tl), cmds,
    (mCommandQueue (gpu_run (gpu_before_draw i) (TexWaves.timeline a1))).
  split; [exact HF|]. split; [exact Hwf'|]. split; [exact Hcur|].
  rewrite Heq. clear Heq HF'. split; [|split].
  - rewrite <- Hcmds.
    unfold TexWaves.DrawRenderItems, TexWaves.mCurrFrameResource. simpl.
    unfold TexWaves.mCurrFrameResource in Hfr2. simpl in Hfr2.
    destruct (at_index (TexWaves.mFrameResources a1) (TexWaves.mCurrFrameResourceIndex a1))
      as [fr2'|] eqn:Hfr2'; [|done].
    rewrite at_index_insert by (by eapply at_index_lt). rewrite decide_True by done.
    injection Hfr2 as ->. reflexivity.
  - rewrite Htl1, Hn. etrans; [apply gpu_run_suffix|].
    etrans; [apply gpu_run_suffix|]. apply gpu_run_suffix.
  - simpl. rewrite Hidx1. reflexivity.
Qed.

Lemma sh_Frame_draws i (a : Shapes.App) :
  1 ≤ N → sh_wf N a → mCurrentFence (Shapes.timeline a) + 1 < 2 ^ 64 →
  ∃ a' cmds q,
    Shapes.Frame N i a = Ok a' ∧ sh_wf N a' ∧
    mCurrentFence (Shapes.timeline a') = mCurrentFence (Shapes.timeline a) + 1 ∧
    Shapes.DrawRenderItems a' (Shapes.mOpaqueRitems a') = Ok cmds ∧
    q `suffix_of` mCommandQueue (Shapes.timeline a) ∧
    mCommandQueue (Shapes.timeline a')
    = q ++ [ExecuteCommandLists (Shapes.mCurrFrameResourceIndex a') cmds;
            Signal (mCurrentFence (Shapes.timeline a'))].
Proof.
  intros HN Hwf Hno.
  set (s := NextFrameResourceIndex N (Shapes.mCurrFrameResourceIndex a)).
  destruct (sh_Frame_spec N i a HN Hwf Hno) as (fr0 & cbO & tl & Hfr0 & _ & Hcur & HF & Hwf').
  fold s in Hfr0.
  assert (sh_wf N (Shapes.gpu (gpu_before_update i) a)) as Hwf0.
  { destruct Hwf as [Hlay Hi Hsync Hd]. constructor; try done.
    - by destruct Hlay.
    - simpl. by apply gpu_run_inv. }
  destruct (sh_Update_wait N (gt i) _ HN Hwf0)
    as (fr & t1 & a1 & Hfr & Hwait & [n Hn] & _ & _ & _ & _ & HU & Hidx1 & Htl1).
  simpl in Hfr, Hwait, Hidx1, Hn. fold s in Hfr, Hidx1.
  pose proof HF as HF'. unfold Shapes.Frame in HF'. rewrite HU in HF'. simpl in HF'.
  unfold Shapes.Draw in HF'.
  apply bind_Ok in HF' as (fr2 & Hfr2 & HF').
  apply bind_Ok in HF' as (cmds & Hcmds & HF').
  simpl in HF'.
  match type of HF' with Ok ?x = Ok ?y => assert (y = x) as Heq by congruence end.
  exists (sh_turned N a cbO tl), cmds,
    (mCommandQueue (gpu_run (gpu_before_draw i) (Shapes.timeline a1))).
  split; [exact HF|]. split; [exact Hwf'|].
  split; [unfold sh_turned; fold s; rewrite Hfr0; exact Hcur|].
  rewrite Heq. clear Heq HF'. split; [|split].
  - rewrite <- Hcmds.
    unfold Shapes.DrawRenderItems, Shapes.mCurrFrameResource. simpl.
    unfold Shapes.mCurrFrameResource in Hfr2. simpl in Hfr2.
    destruct (at_index (Shapes.mFrameResources a1) (Shapes.mCurrFrameResourceIndex a1))
      as [fr2'|] eqn:Hfr2'; [|done].
    rewrite at_index_insert by (by eapply at_index_lt). rewrite decide_True by done.
    injection Hfr2 as ->. reflexivity.
  - rewrite Htl1, Hn. etrans; [apply gpu_run_suffix|].
    etrans; [apply gpu_run_suffix|]. apply gpu_run_suffix.
  - simpl. rewrite Hidx1. reflexivity.
Qed.
End Draws.

Section DrawsTheorem.
Context `{Float32} `{RecordSizes}.

(** X12.  What a turn hands to the GPU.  From any reachable state of either
    application a turn appends exactly two commands to the queue: one command
    list for the selected ring slot, then the signal of the new fence value.
    What was queued before is kept in order, shortened only at the head by
    what the GPU has executed meanwhile.  The command list holds one draw
    per render item, in creation order: its entry [p] is the draw that
    [DrawRenderItems] records for item [p]. *)
Theorem turn_submits_one_draw_per_item_then_signals (N : Z) device scene shapes_scene
    fence0 (l : list TexWavesSteps.Step) (sl : list ShapesSteps.Step) (i : FrameInput) :
  1 ≤ N → well_authored scene = true → Z.of_nat (length shapes_scene) < 2 ^ 32 →
  0 ≤ fence0 →
  fence0 + TexWavesSteps.turns l + 1 < 2 ^ 64 →
  fence0 + ShapesSteps.turns sl + 1 < 2 ^ 64 →
  (∃ a a' cmds q,
     TexWavesSteps.Steps N l (TexWaves.Initialize N device scene fence0) = Ok a ∧
     TexWaves.Frame N i a = Ok a' ∧
     q `suffix_of` mCommandQueue (TexWaves.timeline a) ∧
     mCommandQueue (TexWaves.timeline a')
     = q ++ [ExecuteCommandLists (TexWaves.mCurrFrameResourceIndex a') cmds;
             Signal (mCurrentFence (TexWaves.timeline a'))] ∧
     mCurrentFence (TexWaves.timeline a') = mCurrentFence (TexWaves.timeline a) + 1 ∧
     length cmds = length scene ∧
     ∀ p, (p < length scene)%nat →
       ∃ call, cmds !! p = Some call ∧ TexWaves.DrawRenderItems a' [p] = Ok [call]) ∧
  (∃ a a' cmds q,
     ShapesSteps.Steps N sl (Shapes.Initialize N device shapes_scene fence0) = Ok a ∧
     Shapes.Frame N i a = Ok a' ∧
     q `suffix_of` mCommandQueue (Shapes.timeline a) ∧
     mCommandQueue (Shapes.timeline a')
     = q ++ [ExecuteCommandLists (Shapes.mCurrFrameResourceIndex a') cmds;
             Signal (mCurrentFence (Shapes.timeline a'))] ∧
     mCurrentFence (Shapes.timeline a') = mCurrentFence (Shapes.timeline a) + 1 ∧
     length cmds = length shapes_scene ∧
     ∀ p, (p < length shapes_scene)%nat →
       ∃ call, cmds !! p = Some call ∧ Shapes.DrawRenderItems a' [p] = Ok [call]).
Proof.
  intros HN Hscene Hshapes Hf Hno Hsno.
  assert (0 ≤ TexWavesSteps.turns l) as Hnn by (clear; induction l as [|[] l IH]; simpl; lia).
  assert (0 ≤ ShapesSteps.turns sl) as Hsnn by (clear; induction sl as [|[] l IH]; simpl; lia).
  split.
  - destruct (reachable N device scene fence0 l) as (a & HS & Hwf & Hcur & _); [done..|lia|].
    destruct (Frame_draws N i a HN Hwf) as (a' & cmds & q & HF & Hwf' & Hcur' & HD & Hq & Hqueue);
      [lia|].
    assert (layout a' = layout (TexWaves.Initialize N device scene fence0)) as Hlay.
    { apply (Steps_layout N (l ++ [TexWavesSteps.Advance i]) _ _ HN).
      - apply Initialize_wf; [done..|lia].
      - assert (TexWavesSteps.turns (l ++ [TexWavesSteps.Advance i])
                = TexWavesSteps.turns l + 1) as ->
          by (clear; induction l as [|[] l IH]; simpl in *; lia).
        simpl. lia.
      - clear -HS HF. revert HS. generalize (TexWaves.Initialize N device scene fence0).
        induction l as [|st l IH]; intros a0; simpl.
        + intros [= ->]. by rewrite HF.
        + destruct (TexWavesSteps.step N st a0); simpl; [apply IH|done]. }
    unfold layout in Hlay. injection Hlay as _ _ _ _ Hlayer _ _. simpl in Hlayer.
    unfold TexWaves.BuildRenderItems in Hlayer. rewrite BuildRenderItemsFrom_length in Hlayer.
    exists a, a', cmds, q. split; [exact HS|]. split; [exact HF|]. split; [exact Hq|].
    split; [exact Hqueue|]. split; [exact Hcur'|].
    unfold TexWaves.DrawRenderItems in HD. apply bind_Ok in HD as (fr & Hfr & HD).
    rewrite Hlayer in HD. destruct (mapM_lookup _ _ _ HD) as [Hlen Hat].
    rewrite length_seq in Hlen. split; [exact Hlen|].
    intros p Hp. destruct (Hat p p) as (call & Hcall & Hdraw); [by apply lookup_seq_lt|].
    exists call. split; [exact Hcall|].
    unfold TexWaves.DrawRenderItems. rewrite Hfr. simpl. rewrite Hdraw. reflexivity.
  - destruct (sh_reachable N device shapes_scene fence0 sl) as (a & HS & Hwf & Hcur & _);
      [done..|lia|].
    destruct (sh_Frame_draws N i a HN Hwf)
      as (a' & cmds & q & HF & Hwf' & Hcur' & HD & Hq & Hqueue); [lia|].
    assert (sh_layout a' = sh_layout (Shapes.Initialize N device shapes_scene fence0)) as Hlay.
    { apply (sh_Steps_layout N (sl ++ [ShapesSteps.Advance i]) _ _ HN).
      - apply sh_Initialize_wf; [done..|lia].
      - assert (ShapesSteps.turns (sl ++ [ShapesSteps.Advance i])
                = ShapesSteps.turns sl + 1) as ->
          by (clear; induction sl as [|[] l IH]; simpl in *; lia).
        unfold Shapes.Initialize. destruct (Shapes.BuildDescriptorHeaps N _). simpl. lia.
      - clear -HS HF. revert HS.
        generalize (Shapes.Initialize N device shapes_scene fence0).
        induction sl as [|st l IH]; intros a0; simpl.
        + intros [= ->]. by rewrite HF.
        + destruct (ShapesSteps.step N st a0); simpl; [apply IH|done]. }
    exists a, a', cmds, q. split; [exact HS|].
    assert (Shapes.mOpaqueRitems (Shapes.Initialize N device shapes_scene fence0)
            = seq 0 (length shapes_scene)) as Hop0.
    { unfold Shapes.Initialize. destruct (Shapes.BuildDescriptorHeaps N _). simpl.
      unfold Shapes.BuildRenderItems. by rewrite sh_BuildRenderItemsFrom_length. }
    revert Hlay Hop0. clear HS. generalize (Shapes.Initialize N device shapes_scene fence0).
    intros a0 Hlay Hop0.
    unfold sh_layout in Hlay. injection Hlay as _ _ Hlayer _ _. rewrite Hop0 in Hlayer.
    split; [exact HF|]. split; [exact Hq|].
    split; [exact Hqueue|]. split; [exact Hcur'|].
    unfold Shapes.DrawRenderItems in HD. apply bind_Ok in HD as (fr & Hfr & HD).
    rewrite Hlayer in HD. destruct (mapM_lookup _ _ _ HD) as [Hlen Hat].
    rewrite length_seq in Hlen. split; [exact Hlen|].
    intros p Hp. destruct (Hat p p) as (call & Hcall & Hdraw); [by apply lookup_seq_lt|].
    exists call. split; [exact Hcall|].
    unfold Shapes.DrawRenderItems. rewrite Hfr. simpl. rewrite Hdraw. reflexivity.
Qed.
End DrawsTheorem.

(** ** The dynamic vertex buffer of the water *)


Section WavesVBFacts.
Context {T : Type}.

Lemma copy_loop (record : Z → T) (c : nat) : ∀ lo (vb : UploadBuffer.t T),
  0 ≤ lo → lo + Z.of_nat c ≤ UploadBuffer.capacity vb →
  ∃ vb', for_each (λ vb i, UploadBuffer.CopyData i (record i) vb) vb (seqZ lo (Z.of_nat c))
         = Ok vb' ∧
    region vb' = region vb ∧
    ∀ j, UploadBuffer.read vb' j
         = (if decide (lo ≤ j < lo + Z.of_nat c) then Some (record j)
            else UploadBuffer.read vb j) ∧
         UploadBuffer.uploads vb' j
         = (if decide (lo ≤ j < lo + Z.of_nat c) then S (UploadBuffer.uploads vb j)
            else UploadBuffer.uploads vb j).
Proof.
  induction c as [|c IH]; intros lo vb Hlo Hfit.
  - exists vb. split; [done|]. split; [done|]. intros j.
    rewrite !decide_False by lia. done.
  - rewrite seqZ_cons by lia. replace (Z.pred (Z.of_nat (S c))) with (Z.of_nat c) by lia.
    cbn [for_each].
    destruct (CopyData_Ok vb lo (record lo)) as [vb1 H1]; [lia|].
    rewrite H1. cbn [mbind result_bind].
    pose proof (CopyData_capacity _ _ _ _ H1) as Hcap.
    destruct (IH (Z.succ lo) vb1) as (vb' & Hloop & Hreg & Hat); [lia|lia|].
    exists vb'. split; [exact Hloop|]. split.
    { rewrite Hreg. unfold region. rewrite Hcap.
      destruct (CopyData_inv _ _ _ _ H1) as (_ & -> & -> & _). done. }
    intros j. destruct (Hat j) as [-> ->].
    rewrite (CopyData_read _ _ _ _ j H1), (CopyData_uploads _ _ _ _ j H1).
    destruct (decide (j = lo)) as [->|Hne];
      split; repeat case_decide; try lia; reflexivity.
Qed.

Lemma copy_loop_Fail (record : Z → T) (count : Z) (vb : UploadBuffer.t T) :
  UploadBuffer.capacity vb < count →
  for_each (λ vb i, UploadBuffer.CopyData i (record i) vb) vb (seqZ 0 count)
  = Fail OutOfRange.
Proof.
  intros Hshort. set (cap := UploadBuffer.capacity vb) in *.
  assert (0 ≤ cap) as Hcap by (unfold cap, UploadBuffer.capacity; lia).
  replace count with (cap + (count - cap)) by lia.
  rewrite seqZ_app, for_each_app by lia.
  destruct (copy_loop record (Z.to_nat cap) 0 vb) as (vb1 & Hloop & Hreg & _); [lia|lia|].
  rewrite Z2Nat.id in Hloop by lia. rewrite Hloop. cbn [mbind result_bind].
  rewrite seqZ_cons by lia. cbn [for_each].
  rewrite CopyData_Fail; [done|].
  unfold region in Hreg. injection Hreg as -> _ _. fold cap. lia.
Qed.
End WavesVBFacts.

Section WavesVBTheorem.
Context `{Float32}.
Import WavesVB.

(** X13.  [UpdateWaves] refreshes the whole dynamic vertex buffer and never
    writes outside it.  For a buffer with as many elements as the wave grid
    has vertices, which is how [BuildFrameResources] sizes it, the copy loop
    goes through, leaves the buffer where it is, and uploads every vertex
    exactly once: afterwards element [i] holds the vertex built from the
    current solution. *)
Theorem wave_vertices_refresh_the_whole_dynamic_buffer (fdiv : float → float → float)
    (mWaves : Waves) (currWavesVB : UploadBuffer.t CastleGeometry.Vertex) :
  UploadBuffer.capacity currWavesVB = VertexCount mWaves →
  ∃ vb', UpdateWaves fdiv mWaves currWavesVB = Ok vb' ∧
    region vb' = region currWavesVB ∧
    ∀ i, 0 ≤ i < VertexCount mWaves →
      UploadBuffer.read vb' i = Some (wave_vertex fdiv mWaves i) ∧
      UploadBuffer.uploads vb' i = S (UploadBuffer.uploads currWavesVB i).
Proof.
  intros Hcap. unfold UpdateWaves.
  assert (0 ≤ VertexCount mWaves) as Hn
    by (rewrite <- Hcap; unfold UploadBuffer.capacity; lia).
  destruct (copy_loop (wave_vertex fdiv mWaves) (Z.to_nat (VertexCount mWaves)) 0 currWavesVB)
    as (vb' & Hloop & Hreg & Hat); [lia|lia|].
  rewrite Z2Nat.id in Hloop, Hat by lia.
  exists vb'. split; [exact Hloop|]. split; [exact Hreg|].
  intros i Hi. destruct (Hat i) as [-> ->]. by rewrite !decide_True by lia.
Qed.

(** X14.  The size of the dynamic vertex buffer is necessary: with fewer
    elements than the wave grid has vertices the copy loop of [UpdateWaves]
    runs out of range. *)
Theorem wave_vertex_buffer_too_small_is_out_of_range (fdiv : float → float → float)
    (mWaves : Waves) (currWavesVB : UploadBuffer.t CastleGeometry.Vertex) :
  UploadBuffer.capacity currWavesVB < VertexCount mWaves →
  UpdateWaves fdiv mWaves currWavesVB = Fail OutOfRange.
Proof. intros Hshort. by apply copy_loop_Fail. Qed.
End WavesVBTheorem.

(** ** The shared vertex and index buffers of ShapesApp *)

Section ShapeGeometryFacts.
Context `{Float32}.
Import CastleGeometry ShapeGeometry.

Lemma paint_at color pre x rest k v :
  k = Z.of_nat (length pre) → k + 1 < 2 ^ 32 →
  paint color (k, pre ++ x :: rest) v = Ok (k + 1, pre ++ painted color v :: rest).
Proof.
  intros Hk Hfit. unfold paint.
  rewrite decide_True by (rewrite length_app; simpl; lia).
  rewrite UINT_small by lia. rewrite insert_app_r_alt by lia.
  replace (Z.to_nat k - length pre)%nat with 0%nat by lia. reflexivity.
Qed.

Lemma paint_loop color (l : list GeneratedVertex) : ∀ pre rest k,
  k = Z.of_nat (length pre) → k + Z.of_nat (length l) < 2 ^ 32 →
  for_each (paint color) (k, pre ++ replicate (length l) ShapeGeometry.zero_vertex ++ rest) l
  = Ok (k + Z.of_nat (length l), pre ++ (painted color <$> l) ++ rest).
Proof.
  induction l as [|v l IH]; intros pre rest k Hk Hfit.
  - simpl. do 2 f_equal. lia.
  - cbn [for_each length replicate app].
    rewrite paint_at by (simpl in Hfit; lia || done).
    cbn [mbind result_bind].
    rewrite (cons_middle _ pre), app_assoc.
    rewrite IH.
    + rewrite <- app_assoc. rewrite fmap_cons. cbn [app]. do 2 f_equal.
      rewrite Nat2Z.inj_succ. lia.
    + rewrite length_app. simpl. lia.
    + simpl in Hfit. lia.
Qed.

(** A packing loop in the middle of the vector: [written] is what the loops
    before have written, [todo] the number of entries left for the loops
    after. *)
Lemma paint_next color (l : list GeneratedVertex) (written : list ShapeGeometry.Vertex)
    (todo : nat) :
  Z.of_nat (length written) + Z.of_nat (length l) < 2 ^ 32 →
  for_each (paint color)
    (Z.of_nat (length written), written ++ replicate (length l + todo) ShapeGeometry.zero_vertex) l
  = Ok (Z.of_nat (length (written ++ (painted color <$> l))),
        (written ++ (painted color <$> l)) ++ replicate todo ShapeGeometry.zero_vertex).
Proof.
  intros Hfit. rewrite replicate_add.
  rewrite paint_loop by (done || lia).
  rewrite length_app, length_fmap, Nat2Z.inj_add, <- app_assoc. reflexivity.
Qed.
End ShapeGeometryFacts.

Section ShapeGeometryTheorem.
Context `{Float32}.
Import CastleGeometry ShapeGeometry.

Ltac no_wrap :=
  repeat match goal with
         | |- context [UINT ?x] => rewrite (UINT_small x) by lia
         end.

Ltac solve_case shapes parts k mesh colour name shape Hname Hshape Hcolour :=
  injection Hname as Hname; injection Hshape as Hshape; injection Hcolour as Hcolour;
  subst shape name;
  let Hi := fresh "Hi" in let Hv := fresh "Hv" in
  assert ((GetIndices16 <$> shapes) !! k = Some (GetIndices16 mesh)) as Hi by reflexivity;
  assert (parts !! k = Some (painted colour <$> Vertices mesh)) as Hv
    by (rewrite <- Hcolour; reflexivity);
  eexists; split;
  [repeat (rewrite lookup_insert_ne by discriminate); apply lookup_insert_eq|];
  cbn [IndexCount StartIndexLocation BaseVertexLocation]; no_wrap; split;
  [etrans; [|apply (concat_slice _ _ _ Hi)];
   apply take_drop_eq; simpl; rewrite ?length_app; simpl; lia
  |let j := fresh "j" in let v := fresh "v" in let Hj := fresh "Hj" in
   intros j v Hj; pose proof (lookup_lt_Some _ _ _ Hj);
   unfold at_index; rewrite decide_True by lia;
   eapply lookup_eq_index;
   [|apply (concat_lookup _ _ _ j (painted colour v) Hv);
     rewrite list_lookup_fmap, Hj; reflexivity];
   simpl; rewrite ?length_app, ?length_fmap; simpl; lia].

(** X15.  [BuildShapeGeometry] packs the eight shapes so that each submesh
    selects exactly its own shape, in its own colour.  If the shapes have
    fewer than [2^32] vertices and indices in total, the eight packing loops
    stay inside the vertex vector and overwrite every entry: the vector ends
    up as the vertices of the eight shapes in order, each painted with the
    colour of its loop.  For each name in [DrawArgs] the index range
    [StartIndexLocation, StartIndexLocation + IndexCount) holds the 16-bit
    indices of the shape stored under that name, and index [j] offset by
    [BaseVertexLocation] designates vertex [j] of that shape, painted with
    the colour of that shape's loop. *)
Theorem shape_submeshes_select_their_own_indices_and_coloured_vertices (Colors : Colors)
    (wholeWall grid column columnTop Base1 Base2 Base3 top : MeshData) :
  let shapes := [wholeWall; grid; column; columnTop; Base1; Base2; Base3; top] in
  let names := [ "wholeWall"; "ground"; "column"; "columnTop";
                 "Base1"; "Base2"; "Base3"; "top" ]%string in
  let colours := [ Red Colors; ground_colour; Green Colors; Yellow Colors;
                   Blue Colors; DeepPink Colors; Cyan Colors; Red Colors ] in
  Z.of_nat (length (concat (Vertices <$> shapes))) < 2 ^ 32 →
  Z.of_nat (length (concat (Indices32 <$> shapes))) < 2 ^ 32 →
  Forall (λ shape, length (GetIndices16 shape) = length (Indices32 shape)) shapes →
  ∃ geo,
    BuildShapeGeometry Colors wholeWall grid column columnTop Base1 Base2 Base3 top
    = Ok geo ∧
    ShapeGeometry.VertexBufferCPU geo
    = concat (zip_with (λ colour shape, painted colour <$> Vertices shape) colours shapes) ∧
    ∀ i name shape colour,
      names !! i = Some name → shapes !! i = Some shape → colours !! i = Some colour →
      ∃ sub, ShapeGeometry.DrawArgs geo !! name = Some sub ∧
        ShapeGeometry.drawn_indices geo sub = GetIndices16 shape ∧
        ∀ j v, Vertices shape !! j = Some v →
               ShapeGeometry.drawn_vertex geo sub (Z.of_nat j) = Some (painted colour v).
Proof.
  intros shapes names colours Hv Hi Hlen.
  simpl in Hv, Hi. rewrite !length_app in Hv, Hi. simpl in Hv, Hi.
  unfold BuildShapeGeometry.
  match goal with |- context [replicate ?n ShapeGeometry.zero_vertex] =>
    replace n with
      (length (Vertices wholeWall) + (length (Vertices grid) + (length (Vertices column)
       + (length (Vertices columnTop) + (length (Vertices Base1) + (length (Vertices Base2)
       + (length (Vertices Base3) + (length (Vertices top) + 0))))))))%nat by lia end.
  match goal with |- context [(0, replicate ?n ShapeGeometry.zero_vertex)] =>
    change (0, replicate n ShapeGeometry.zero_vertex)
      with (Z.of_nat (length (@nil ShapeGeometry.Vertex)),
            [] ++ replicate n ShapeGeometry.zero_vertex) end.
  do 8 (rewrite paint_next by (rewrite ?length_app, ?length_fmap; simpl; lia);
        cbn [mbind result_bind]).
  cbn [replicate]. rewrite app_nil_r. cbn [app].
  set (parts := [ painted (Red Colors) <$> Vertices wholeWall;
                  painted ground_colour <$> Vertices grid;
                  painted (Green Colors) <$> Vertices column;
                  painted (Yellow Colors) <$> Vertices columnTop;
                  painted (Blue Colors) <$> Vertices Base1;
                  painted (DeepPink Colors) <$> Vertices Base2;
                  painted (Cyan Colors) <$> Vertices Base3;
                  painted (Red Colors) <$> Vertices top ]).
  rewrite <- !app_assoc.
  assert ((painted (Red Colors) <$> Vertices wholeWall)
          ++ (painted ground_colour <$> Vertices grid)
          ++ (painted (Green Colors) <$> Vertices column)
          ++ (painted (Yellow Colors) <$> Vertices columnTop)
          ++ (painted (Blue Colors) <$> Vertices Base1)
          ++ (painted (DeepPink Colors) <$> Vertices Base2)
          ++ (painted (Cyan Colors) <$> Vertices Base3)
          ++ (painted (Red Colors) <$> Vertices top)
          = concat parts) as Hparts.
  { simpl. by rewrite app_nil_r. }
  rewrite Hparts. clear Hparts.
  eexists. split; [reflexivity|]. split; [reflexivity|].
  assert (GetIndices16 wholeWall ++ GetIndices16 grid ++ GetIndices16 column
          ++ GetIndices16 columnTop ++ GetIndices16 Base1 ++ GetIndices16 Base2
          ++ GetIndices16 Base3 ++ GetIndices16 top
          = concat (GetIndices16 <$> shapes)) as Hchain.
  { simpl. by rewrite app_nil_r. }
  unfold ShapeGeometry.drawn_indices, ShapeGeometry.drawn_vertex.
  cbn [ShapeGeometry.VertexBufferCPU ShapeGeometry.IndexBufferCPU ShapeGeometry.DrawArgs].
  rewrite Hchain. clear Hchain.
  repeat (apply Forall_cons in Hlen as [? Hlen]). clear Hlen.
  unfold size_UINT.
  intros i name shape colour Hname Hshape Hcolour.
  destruct i as [|i];
    [solve_case shapes parts 0%nat wholeWall colour name shape Hname Hshape Hcolour|].
  destruct i as [|i];
    [solve_case shapes parts 1%nat grid colour name shape Hname Hshape Hcolour|].
  destruct i as [|i];
    [solve_case shapes parts 2%nat column colour name shape Hname Hshape Hcolour|].
  destruct i as [|i];
    [solve_case shapes parts 3%nat columnTop colour name shape Hname Hshape Hcolour|].
  destruct i as [|i];
    [solve_case shapes parts 4%nat Base1 colour name shape Hname Hshape Hcolour|].
  destruct i as [|i];
    [solve_case shapes parts 5%nat Base2 colour name shape Hname Hshape Hcolour|].
  destruct i as [|i];
    [solve_case shapes parts 6%nat Base3 colour name shape Hname Hshape Hcolour|].
  destruct i as [|i];
    [solve_case shapes parts 7%nat top colour name shape Hname Hshape Hcolour|].
  done.
Qed.
End ShapeGeometryTheorem.

(** * The theorems on the castle scenes *)

(** The theorems above are instantiated on the two scenes of the repository,
    with [gNumFrameResources = 3] ring slots, the record sizes of the HLSL
    constant buffers and example device addresses and timings. *)

#[local] Existing Instance MilliFloat.

(** [sizeof(ObjectConstants)] is two 4x4 float matrices, [sizeof
    (MaterialConstants)] a float4, a float3, a float and a 4x4 matrix. *)
#[local] Instance castle_sizes : RecordSizes := {|
  sizeof_ObjectConstants := 128;
  sizeof_MaterialConstants := 96;
  sizeof_PassConstants := 928;
|}.

Definition castle_device : Device := {|
  ObjectCB_address := λ i, 1048576 + 65536 * i;
  MaterialCB_address := λ i, 2097152 + 65536 * i;
  PassCB_address := λ i, 3145728 + 65536 * i;
  DescriptorHeapStart := 4096;
  DescriptorHandleIncrementSize := 32;
|}.

Definition castle_scene : list TexWaves.Authored := TexWaves.castle (λ _, Identity4x4).

Definition shapes_castle : list (XMFLOAT4X4 * string) := Shapes.castle (λ _, Identity4x4).

(** A turn at 16 ms in which the GPU executes [before_update] queue entries
    before [Update] and [before_draw] before [Draw]. *)
Definition turn (before_update before_draw : nat) : FrameInput :=
  {| gt := {| DeltaTime := 16; TotalTime := 0 |};
     gpu_before_update := before_update;
     gpu_before_draw := before_draw |}.

(** Four turns during which the GPU lags behind, then catches up. *)
Definition four_turns : list FrameInput := [turn 0 0; turn 0 1; turn 0 0; turn 3 0].

Definition three_turns : list FrameInput := [turn 0 0; turn 1 0; turn 0 2].

(** A world or texture matrix other than the identity. *)
Definition moved : XMFLOAT4X4 := set_41_42 (flit 5 0) (flit 25 1) Identity4x4.

(** Five turns of TexWavesApp with an item and a material modified in between. *)
Definition castle_steps : list TexWavesSteps.Step :=
  [ TexWavesSteps.Advance (turn 0 0);
    TexWavesSteps.SetWorld 2 moved;
    TexWavesSteps.Advance (turn 0 1);
    TexWavesSteps.SetMatTransform "grass" moved;
    TexWavesSteps.Advance (turn 0 0);
    TexWavesSteps.Advance (turn 2 0);
    TexWavesSteps.Advance (turn 0 3) ].

(** Four turns of ShapesApp with an item modified in between. *)
Definition shapes_steps : list ShapesSteps.Step :=
  [ ShapesSteps.Advance (turn 0 0);
    ShapesSteps.Advance (turn 0 1);
    ShapesSteps.SetWorld 3 moved;
    ShapesSteps.Advance (turn 0 0);
    ShapesSteps.Advance (turn 4 0) ].

(** Side conditions on the examples hold by evaluation. *)
Ltac evaluate :=
  first [ by vm_compute
        | vm_compute; lia
        | by repeat constructor
        | eexists; vm_compute; reflexivity ].

(** The fifth [Update] of both applications. *)
Lemma frame_resource_index_cycles_castle :
  let N := gNumFrameResources in
  let device := castle_device in
  let scene := castle_scene in
  let shapes_scene := shapes_castle in
  let fence0 := 0 in
  let inputs := four_turns in
  let i := turn 1 0 in
  (1 ≤ N ∧
   well_authored scene = true ∧
   Z.of_nat (length shapes_scene) < 2 ^ 32 ∧
   0 ≤ fence0 ∧
   fence0 + Z.of_nat (length inputs) < 2 ^ 64) ∧
  (let k := Z.of_nat (length inputs) + 1 in
  (∃ a a', TexWaves.Run N inputs (TexWaves.Initialize N device scene fence0) = Ok a ∧
           TexWaves.mCurrFrameResourceIndex a = (k - 1) `mod` N ∧
           TexWaves.Update N (gt i) (TexWaves.gpu (gpu_before_update i) a) = Ok a' ∧
           TexWaves.mCurrFrameResourceIndex a'
           = (TexWaves.mCurrFrameResourceIndex a + 1) `mod` N ∧
           TexWaves.mCurrFrameResourceIndex a' = k `mod` N) ∧
  (∃ a a', Shapes.Run N inputs (Shapes.Initialize N device shapes_scene fence0) = Ok a ∧
           Shapes.mCurrFrameResourceIndex a = (k - 1) `mod` N ∧
           Shapes.Update N (gt i) (Shapes.gpu (gpu_before_update i) a) = Ok a' ∧
           Shapes.mCurrFrameResourceIndex a'
           = (Shapes.mCurrFrameResourceIndex a + 1) `mod` N ∧
           Shapes.mCurrFrameResourceIndex a' = k `mod` N)).
Proof.
  intros N device scene shapes_scene fence0 inputs i.
  assert (1 ≤ N) as H1 by evaluate.
  assert (well_authored scene = true) as H2 by evaluate.
  assert (Z.of_nat (length shapes_scene) < 2 ^ 32) as H3 by evaluate.
  assert (0 ≤ fence0) as H4 by evaluate.
  assert (fence0 + Z.of_nat (length inputs) < 2 ^ 64) as H5 by evaluate.
  split; [exact (conj H1 (conj H2 (conj H3 (conj H4 H5))))|].
  exact (frame_resource_index_cycles N device scene shapes_scene fence0 inputs i H1 H2 H3 H4 H5).
Defined.

(** The fence wait of the turn that follows [castle_steps] and [shapes_steps]. *)
Lemma ring_slot_reused_only_after_gpu_finished_castle :
  let N := gNumFrameResources in
  let device := castle_device in
  let scene := castle_scene in
  let shapes_scene := shapes_castle in
  let fence0 := 0 in
  let l := castle_steps in
  let sl := shapes_steps in
  let i := turn 1 0 in
  (1 ≤ N ∧
   well_authored scene = true ∧
   Z.of_nat (length shapes_scene) < 2 ^ 32 ∧
   0 ≤ fence0 ∧
   fence0 + TexWavesSteps.turns l < 2 ^ 64 ∧
   fence0 + ShapesSteps.turns sl < 2 ^ 64) ∧
  ((∃ a fr t' a',
     TexWavesSteps.Steps N l (TexWaves.Initialize N device scene fence0) = Ok a ∧
     let a0 := TexWaves.gpu (gpu_before_update i) a in
     let s := NextFrameResourceIndex N (TexWaves.mCurrFrameResourceIndex a) in
     let Fence := TexWaves.FrameResource.Fence fr in
     at_index (TexWaves.mFrameResources a) s = Some fr ∧
     WaitForFrameResource Fence (TexWaves.timeline a0) = Ok t' ∧
     (∃ n, t' = gpu_run n (TexWaves.timeline a0)) ∧
     (Fence ≠ 0 → CompletedValue (TexWaves.timeline a0) < Fence → CompletedValue t' = Fence) ∧
     (¬ (Fence ≠ 0 ∧ CompletedValue (TexWaves.timeline a0) < Fence) →
      t' = TexWaves.timeline a0) ∧
     (Fence = 0 ∨ Fence ≤ CompletedValue t') ∧
     idle s t' ∧
     TexWaves.Update N (gt i) a0 = Ok a' ∧
     TexWaves.mCurrFrameResourceIndex a' = s ∧ TexWaves.timeline a' = t' ∧
     idle s (TexWaves.timeline (TexWaves.gpu (gpu_before_draw i) a'))) ∧
  (∃ a fr t' a',
     ShapesSteps.Steps N sl (Shapes.Initialize N device shapes_scene fence0) = Ok a ∧
     let a0 := Shapes.gpu (gpu_before_update i) a in
     let s := NextFrameResourceIndex N (Shapes.mCurrFrameResourceIndex a) in
     let Fence := Shapes.FrameResource.Fence fr in
     at_index (Shapes.mFrameResources a) s = Some fr ∧
     WaitForFrameResource Fence (Shapes.timeline a0) = Ok t' ∧
     (∃ n, t' = gpu_run n (Shapes.timeline a0)) ∧
     (Fence ≠ 0 → CompletedValue (Shapes.timeline a0) < Fence → CompletedValue t' = Fence) ∧
     (¬ (Fence ≠ 0 ∧ CompletedValue (Shapes.timeline a0) < Fence) →
      t' = Shapes.timeline a0) ∧
     (Fence = 0 ∨ Fence ≤ CompletedValue t') ∧
     idle s t' ∧
     Shapes.Update N (gt i) a0 = Ok a' ∧
     Shapes.mCurrFrameResourceIndex a' = s ∧ Shapes.timeline a' = t' ∧
     idle s (Shapes.timeline (Shapes.gpu (gpu_before_draw i) a')))).
Proof.
  intros N device scene shapes_scene fence0 l sl i.
  assert (1 ≤ N) as H1 by evaluate.
  assert (well_authored scene = true) as H2 by evaluate.
  assert (Z.of_nat (length shapes_scene) < 2 ^ 32) as H3 by evaluate.
  assert (0 ≤ fence0) as H4 by evaluate.
  assert (fence0 + TexWavesSteps.turns l < 2 ^ 64) as H5 by evaluate.
  assert (fence0 + ShapesSteps.turns sl < 2 ^ 64) as H6 by evaluate.
  split; [exact (conj H1 (conj H2 (conj H3 (conj H4 (conj H5 H6)))))|].
  exact (ring_slot_reused_only_after_gpu_finished N device scene shapes_scene fence0 l sl i H1 H2 H3 H4 H5 H6).
Defined.

(** The dirty counts after [castle_steps] and [shapes_steps]. *)
Lemma dirty_count_stays_within_ring_size_castle :
  let N := gNumFrameResources in
  let device := castle_device in
  let scene := castle_scene in
  let shapes_scene := shapes_castle in
  let fence0 := 0 in
  let l := castle_steps in
  let sl := shapes_steps in
  (1 ≤ N ∧
   well_authored scene = true ∧
   Z.of_nat (length shapes_scene) < 2 ^ 32 ∧
   0 ≤ fence0 ∧
   fence0 + TexWavesSteps.turns l < 2 ^ 64 ∧
   fence0 + ShapesSteps.turns sl < 2 ^ 64) ∧
  ((∀ e, e ∈ TexWaves.mAllRitems (TexWaves.Initialize N device scene fence0) →
        TexWaves.RenderItem.NumFramesDirty e = N) ∧
  (∀ k m, TexWaves.mMaterials (TexWaves.Initialize N device scene fence0) !! k = Some m →
        TexWaves.Material.NumFramesDirty m = N) ∧
  (∀ e, TexWaves.RenderItem.NumFramesDirty
          (visit TexWaves.RenderItem.NumFramesDirty TexWaves.RenderItem.decrement e)
        = if decide (0 < TexWaves.RenderItem.NumFramesDirty e)
          then TexWaves.RenderItem.NumFramesDirty e - 1
          else TexWaves.RenderItem.NumFramesDirty e) ∧
  (∀ e, TexWaves.RenderItem.NumFramesDirty (TexWavesSteps.markDirty N e) = N) ∧
  (∃ a, TexWavesSteps.Steps N l (TexWaves.Initialize N device scene fence0) = Ok a ∧
        (∀ e, e ∈ TexWaves.mAllRitems a → 0 ≤ TexWaves.RenderItem.NumFramesDirty e ≤ N) ∧
        (∀ k m, TexWaves.mMaterials a !! k = Some m →
                0 ≤ TexWaves.Material.NumFramesDirty m ≤ N)) ∧
  (∃ a, ShapesSteps.Steps N sl (Shapes.Initialize N device shapes_scene fence0) = Ok a ∧
        (∀ e, e ∈ Shapes.mAllRitems a → 0 ≤ Shapes.RenderItem.NumFramesDirty e ≤ N))).
Proof.
  intros N device scene shapes_scene fence0 l sl.
  assert (1 ≤ N) as H1 by evaluate.
  assert (well_authored scene = true) as H2 by evaluate.
  assert (Z.of_nat (length shapes_scene) < 2 ^ 32) as H3 by evaluate.
  assert (0 ≤ fence0) as H4 by evaluate.
  assert (fence0 + TexWavesSteps.turns l < 2 ^ 64) as H5 by evaluate.
  assert (fence0 + ShapesSteps.turns sl < 2 ^ 64) as H6 by evaluate.
  split; [exact (conj H1 (conj H2 (conj H3 (conj H4 (conj H5 H6)))))|].
  exact (dirty_count_stays_within_ring_size N device scene shapes_scene fence0 l sl H1 H2 H3 H4 H5 H6).
Defined.

(** Marking twice in the start-up state of the castle scene. *)
Lemma markDirty_twice_is_N_castle :
  let N := gNumFrameResources in
  let a := TexWaves.Initialize gNumFrameResources castle_device castle_scene 0 in
  let gt1 := gt (turn 0 0) in
  let gt2 := gt (turn 0 1) in
  let p := 2%nat in
  let world1 := moved in
  let world2 := Identity4x4 in
  (is_Some (TexWaves.mMaterials a !! "water"%string) ∧
   (p < length (TexWaves.mAllRitems a))%nat) ∧
  ((∀ e, TexWaves.RenderItem.NumFramesDirty (TexWavesSteps.markDirty N e) = N ∧
        TexWaves.RenderItem.NumFramesDirty
          (TexWavesSteps.markDirty N (TexWavesSteps.markDirty N e)) = N) ∧
  (∀ m, TexWaves.Material.NumFramesDirty (TexWavesSteps.markMaterialDirty N m) = N ∧
        TexWaves.Material.NumFramesDirty
          (TexWavesSteps.markMaterialDirty N (TexWavesSteps.markMaterialDirty N m)) = N) ∧
  (∃ e, TexWaves.mAllRitems
          (TexWavesSteps.ModifyItem N p world2 (TexWavesSteps.ModifyItem N p world1 a)) !! p
        = Some e ∧ TexWaves.RenderItem.NumFramesDirty e = N) ∧
  (∃ a1 a2 w1 w2,
     TexWaves.AnimateMaterials N gt1 a = Ok a1 ∧
     TexWaves.AnimateMaterials N gt2 a1 = Ok a2 ∧
     TexWaves.mMaterials a1 !! "water"%string = Some w1 ∧
     TexWaves.Material.NumFramesDirty w1 = N ∧
     TexWaves.mMaterials a2 !! "water"%string = Some w2 ∧
     TexWaves.Material.NumFramesDirty w2 = N)).
Proof.
  intros N a gt1 gt2 p world1 world2.
  assert (is_Some (TexWaves.mMaterials a !! "water"%string)) as H1 by evaluate.
  assert ((p < length (TexWaves.mAllRitems a))%nat) as H2 by evaluate.
  split; [exact (conj H1 H2)|].
  exact (markDirty_twice_is_N N a gt1 gt2 p world1 world2 H1 H2).
Defined.

(** The water material in the [Update] that follows [castle_steps]. *)
Lemma water_material_is_uploaded_every_frame_castle :
  let N := gNumFrameResources in
  let device := castle_device in
  let scene := castle_scene in
  let fence0 := 0 in
  let l := castle_steps in
  let i := turn 1 0 in
  (1 ≤ N ∧
   well_authored scene = true ∧
   0 ≤ fence0 ∧
   fence0 + TexWavesSteps.turns l < 2 ^ 64) ∧
  ((∀ b gt w, TexWaves.mMaterials b !! "water"%string = Some w →
     ∃ b' w', TexWaves.AnimateMaterials N gt b = Ok b' ∧
              TexWaves.mMaterials b' !! "water"%string = Some w' ∧
              TexWaves.Material.NumFramesDirty w' = N) ∧
  ∃ a a' w' fr fr',
    TexWavesSteps.Steps N l (TexWaves.Initialize N device scene fence0) = Ok a ∧
    TexWaves.Update N (gt i) (TexWaves.gpu (gpu_before_update i) a) = Ok a' ∧
    TexWaves.mMaterials a' !! "water"%string = Some w' ∧
    TexWaves.Material.NumFramesDirty w' = N - 1 ∧
    (2 ≤ N → 0 < TexWaves.Material.NumFramesDirty w') ∧
    at_index (TexWaves.mFrameResources a) (TexWaves.mCurrFrameResourceIndex a') = Some fr ∧
    at_index (TexWaves.mFrameResources a') (TexWaves.mCurrFrameResourceIndex a') = Some fr' ∧
    UploadBuffer.read (TexWaves.FrameResource.MaterialCB fr') (TexWaves.Material.MatCBIndex w')
    = Some (TexWaves.matConstants w') ∧
    UploadBuffer.uploads (TexWaves.FrameResource.MaterialCB fr')
      (TexWaves.Material.MatCBIndex w')
    = S (UploadBuffer.uploads (TexWaves.FrameResource.MaterialCB fr)
           (TexWaves.Material.MatCBIndex w'))).
Proof.
  intros N device scene fence0 l i.
  assert (1 ≤ N) as H1 by evaluate.
  assert (well_authored scene = true) as H2 by evaluate.
  assert (0 ≤ fence0) as H3 by evaluate.
  assert (fence0 + TexWavesSteps.turns l < 2 ^ 64) as H4 by evaluate.
  split; [exact (conj H1 (conj H2 (conj H3 H4)))|].
  exact (water_material_is_uploaded_every_frame N device scene fence0 l i H1 H2 H3 H4).
Defined.


(** The material stone, which six items of the castle scene reference. *)
Lemma material_uploaded_once_per_ring_slot_castle :
  let N := gNumFrameResources in
  let device := castle_device in
  let scene := castle_scene in
  let fence0 := 0 in
  let l := castle_steps in
  let name := "stone"%string in
  let transform := moved in
  let i := turn 1 0 in
  let inputs := three_turns in
  (1 ≤ N ∧
   well_authored scene = true ∧
   0 ≤ fence0 ∧
   fence0 + TexWavesSteps.turns l + N < 2 ^ 64 ∧
   name ∈ ["grass"; "wirefence"; "stone"]%string ∧
   Z.of_nat (length inputs) = N) ∧
  (∃ a m,
    TexWavesSteps.Steps N l (TexWaves.Initialize N device scene fence0) = Ok a ∧
    TexWaves.mMaterials a !! name = Some m ∧
    let marked := TexWavesSteps.ModifyMaterial N name transform a in
    let j := TexWaves.Material.MatCBIndex m in
    (∃ a1, TexWaves.Frame N i marked = Ok a1 ∧
       ∀ s, 0 ≤ s < N → ∃ fr fr1,
         at_index (TexWaves.mFrameResources a) s = Some fr ∧
         at_index (TexWaves.mFrameResources a1) s = Some fr1 ∧
         UploadBuffer.uploads (TexWaves.FrameResource.MaterialCB fr1) j
         = if decide (s = TexWaves.mCurrFrameResourceIndex a1)
           then S (UploadBuffer.uploads (TexWaves.FrameResource.MaterialCB fr) j)
           else UploadBuffer.uploads (TexWaves.FrameResource.MaterialCB fr) j) ∧
    (∃ a', TexWaves.Run N inputs marked = Ok a' ∧
       ∀ s, 0 ≤ s < N → ∃ fr fr',
         at_index (TexWaves.mFrameResources a) s = Some fr ∧
         at_index (TexWaves.mFrameResources a') s = Some fr' ∧
         UploadBuffer.uploads (TexWaves.FrameResource.MaterialCB fr') j
         = S (UploadBuffer.uploads (TexWaves.FrameResource.MaterialCB fr) j))).
Proof.
  intros N device scene fence0 l name transform i inputs.
  assert (1 ≤ N) as H1 by evaluate.
  assert (well_authored scene = true) as H2 by evaluate.
  assert (0 ≤ fence0) as H3 by evaluate.
  assert (fence0 + TexWavesSteps.turns l + N < 2 ^ 64) as H4 by evaluate.
  assert (name ∈ ["grass"; "wirefence"; "stone"]%string) as H5 by evaluate.
  assert (Z.of_nat (length inputs) = N) as H6 by evaluate.
  split; [exact (conj H1 (conj H2 (conj H3 (conj H4 (conj H5 H6)))))|].
  exact (material_uploaded_once_per_ring_slot N device scene fence0 l name transform i inputs H1 H2 H3 H4 H5 H6).
Defined.

(** Item 2 and ring slot 1: the item is moved after the five turns of
    [castle_steps] (the four of [shapes_steps]) and three more turns follow. *)
Lemma write_and_bind_paths_agree_on_address_castle :
  let N := gNumFrameResources in
  let device := castle_device in
  let scene := castle_scene in
  let shapes_scene := shapes_castle in
  let fence0 := 0 in
  let l := castle_steps in
  let sl := shapes_steps in
  let s := 1 in
  let p := 2%nat in
  let world := moved in
  let inputs := three_turns in
  (1 ≤ N ∧
   well_authored scene = true ∧
   addressable N device (Z.of_nat (length scene)) = true ∧
   addressable N device (Z.of_nat (length shapes_scene)) = true ∧
   (Z.of_nat (length shapes_scene) + 1) * N < 2 ^ 32 ∧
   0 ≤ fence0 ∧
   fence0 + TexWavesSteps.turns l + N < 2 ^ 64 ∧
   fence0 + ShapesSteps.turns sl + N < 2 ^ 64 ∧
   0 ≤ s < N ∧
   Z.of_nat (length inputs) = N) ∧
  (((p < length scene)%nat →
   ∃ a fr ri call,
     TexWavesSteps.Steps N l (TexWaves.Initialize N device scene fence0) = Ok a ∧
     at_index (TexWaves.mFrameResources a) s = Some fr ∧
     TexWaves.mAllRitems a !! p = Some ri ∧
     TexWaves.RenderItem.ObjCBIndex ri = Z.of_nat p ∧
     TexWaves.DrawRenderItems (TexWaves.set_mCurrFrameResourceIndex s a) [p] = Ok [call] ∧
     TexWaves.objCBAddress call
     = UploadBuffer.write_address (TexWaves.FrameResource.ObjectCB fr)
         (TexWaves.RenderItem.ObjCBIndex ri) ∧
     ∃ a' fr' ri' call',
       TexWaves.Run N inputs (TexWavesSteps.ModifyItem N p world a) = Ok a' ∧
       at_index (TexWaves.mFrameResources a') s = Some fr' ∧
       TexWaves.mAllRitems a' !! p = Some ri' ∧
       TexWaves.RenderItem.ObjCBIndex ri' = TexWaves.RenderItem.ObjCBIndex ri ∧
       TexWaves.RenderItem.World ri' = world ∧
       UploadBuffer.uploads (TexWaves.FrameResource.ObjectCB fr')
         (TexWaves.RenderItem.ObjCBIndex ri')
       = S (UploadBuffer.uploads (TexWaves.FrameResource.ObjectCB fr)
              (TexWaves.RenderItem.ObjCBIndex ri')) ∧
       UploadBuffer.read (TexWaves.FrameResource.ObjectCB fr')
         (TexWaves.RenderItem.ObjCBIndex ri')
       = Some (TexWaves.objConstants ri') ∧
       TexWaves.DrawRenderItems (TexWaves.set_mCurrFrameResourceIndex s a') [p]
       = Ok [call'] ∧
       TexWaves.objCBAddress call'
       = UploadBuffer.write_address (TexWaves.FrameResource.ObjectCB fr')
           (TexWaves.RenderItem.ObjCBIndex ri') ∧
       TexWaves.objCBAddress call' = TexWaves.objCBAddress call) ∧
  ((p < length shapes_scene)%nat →
   ∃ a fr ri call,
     ShapesSteps.Steps N sl (Shapes.Initialize N device shapes_scene fence0) = Ok a ∧
     at_index (Shapes.mFrameResources a) s = Some fr ∧
     Shapes.mAllRitems a !! p = Some ri ∧
     Shapes.RenderItem.ObjCBIndex ri = Z.of_nat p ∧
     Shapes.DrawRenderItems (Shapes.set_mCurrFrameResourceIndex s a) [p] = Ok [call] ∧
     Shapes.bound_address (Shapes.set_mCurrFrameResourceIndex s a) call
     = Some (UploadBuffer.write_address (Shapes.FrameResource.ObjectCB fr)
               (Shapes.RenderItem.ObjCBIndex ri)) ∧
     ∃ a' fr' ri' call',
       Shapes.Run N inputs (ShapesSteps.ModifyItem N p world a) = Ok a' ∧
       at_index (Shapes.mFrameResources a') s = Some fr' ∧
       Shapes.mAllRitems a' !! p = Some ri' ∧
       Shapes.RenderItem.ObjCBIndex ri' = Shapes.RenderItem.ObjCBIndex ri ∧
       Shapes.RenderItem.World ri' = world ∧
       UploadBuffer.uploads (Shapes.FrameResource.ObjectCB fr')
         (Shapes.RenderItem.ObjCBIndex ri')
       = S (UploadBuffer.uploads (Shapes.FrameResource.ObjectCB fr)
              (Shapes.RenderItem.ObjCBIndex ri')) ∧
       UploadBuffer.read (Shapes.FrameResource.ObjectCB fr')
         (Shapes.RenderItem.ObjCBIndex ri')
       = Some (Shapes.objConstants ri') ∧
       Shapes.DrawRenderItems (Shapes.set_mCurrFrameResourceIndex s a') [p]
       = Ok [call'] ∧
       Shapes.bound_address (Shapes.set_mCurrFrameResourceIndex s a') call'
       = Some (UploadBuffer.write_address (Shapes.FrameResource.ObjectCB fr')
                 (Shapes.RenderItem.ObjCBIndex ri')) ∧
       Shapes.bound_address (Shapes.set_mCurrFrameResourceIndex s a') call'
       = Shapes.bound_address (Shapes.set_mCurrFrameResourceIndex s a) call)).
Proof.
  intros N device scene shapes_scene fence0 l sl s p world inputs.
  assert (1 ≤ N) as H1 by evaluate.
  assert (well_authored scene = true) as H2 by evaluate.
  assert (addressable N device (Z.of_nat (length scene)) = true) as H3 by evaluate.
  assert (addressable N device (Z.of_nat (length shapes_scene)) = true) as H4 by evaluate.
  assert ((Z.of_nat (length shapes_scene) + 1) * N < 2 ^ 32) as H5 by evaluate.
  assert (0 ≤ fence0) as H6 by evaluate.
  assert (fence0 + TexWavesSteps.turns l + N < 2 ^ 64) as H7 by evaluate.
  assert (fence0 + ShapesSteps.turns sl + N < 2 ^ 64) as H8 by evaluate.
  assert (0 ≤ s < N) as H9 by evaluate.
  assert (Z.of_nat (length inputs) = N) as H10 by evaluate.
  split; [exact (conj H1 (conj H2 (conj H3 (conj H4 (conj H5 (conj H6 (conj H7 (conj H8 (conj H9 (H10))))))))))|].
  exact (write_and_bind_paths_agree_on_address N device scene shapes_scene fence0 l sl s p world inputs H1 H2 H3 H4 H5 H6 H7 H8 H9 H10).
Defined.

(** Item 5 in ring slot 2, moved and followed by three turns. *)
Lemma object_constants_lie_at_their_index_in_every_slot_castle :
  let N := gNumFrameResources in
  let device := castle_device in
  let scene := castle_scene in
  let shapes_scene := shapes_castle in
  let fence0 := 0 in
  let l := castle_steps in
  let sl := shapes_steps in
  let s := 2 in
  let p := 5%nat in
  let world := moved in
  let inputs := three_turns in
  (1 ≤ N ∧
   well_authored scene = true ∧
   addressable N device (Z.of_nat (length scene)) = true ∧
   addressable N device (Z.of_nat (length shapes_scene)) = true ∧
   (Z.of_nat (length shapes_scene) + 1) * N < 2 ^ 32 ∧
   0 ≤ fence0 ∧
   fence0 + TexWavesSteps.turns l + N < 2 ^ 64 ∧
   fence0 + ShapesSteps.turns sl + N < 2 ^ 64 ∧
   0 ≤ s < N ∧
   Z.of_nat (length inputs) = N) ∧
  (let size := CalcConstantBufferByteSize sizeof_ObjectConstants in
  ((p < length scene)%nat →
   ∃ a fr ri call,
     TexWavesSteps.Steps N l (TexWaves.Initialize N device scene fence0) = Ok a ∧
     at_index (TexWaves.mFrameResources a) s = Some fr ∧
     TexWaves.mAllRitems a !! p = Some ri ∧
     TexWaves.RenderItem.ObjCBIndex ri = Z.of_nat p ∧
     UploadBuffer.capacity (TexWaves.FrameResource.ObjectCB fr) = Z.of_nat (length scene) ∧
     UploadBuffer.offset (TexWaves.FrameResource.ObjectCB fr)
       (TexWaves.RenderItem.ObjCBIndex ri) = Z.of_nat p * size ∧
     TexWaves.DrawRenderItems (TexWaves.set_mCurrFrameResourceIndex s a) [p] = Ok [call] ∧
     TexWaves.objCBAddress call
     = UploadBuffer.GPUVirtualAddress (TexWaves.FrameResource.ObjectCB fr)
       + Z.of_nat p * size ∧
     ∃ a' fr' ri' call',
       TexWaves.Run N inputs (TexWavesSteps.ModifyItem N p world a) = Ok a' ∧
       at_index (TexWaves.mFrameResources a') s = Some fr' ∧
       TexWaves.mAllRitems a' !! p = Some ri' ∧
       TexWaves.RenderItem.ObjCBIndex ri' = Z.of_nat p ∧
       TexWaves.RenderItem.World ri' = world ∧
       UploadBuffer.capacity (TexWaves.FrameResource.ObjectCB fr')
       = Z.of_nat (length scene) ∧
       UploadBuffer.uploads (TexWaves.FrameResource.ObjectCB fr') (Z.of_nat p)
       = S (UploadBuffer.uploads (TexWaves.FrameResource.ObjectCB fr) (Z.of_nat p)) ∧
       UploadBuffer.read (TexWaves.FrameResource.ObjectCB fr') (Z.of_nat p)
       = Some (TexWaves.objConstants ri') ∧
       (1 ≤ s →
        UploadBuffer.read (TexWaves.FrameResource.ObjectCB fr')
          (s * Z.of_nat (length scene) + Z.of_nat p) = None) ∧
       UploadBuffer.offset (TexWaves.FrameResource.ObjectCB fr') (Z.of_nat p)
       = Z.of_nat p * size ∧
       TexWaves.DrawRenderItems (TexWaves.set_mCurrFrameResourceIndex s a') [p]
       = Ok [call'] ∧
       TexWaves.objCBAddress call'
       = UploadBuffer.GPUVirtualAddress (TexWaves.FrameResource.ObjectCB fr')
         + Z.of_nat p * size) ∧
  ((p < length shapes_scene)%nat →
   ∃ a fr ri call,
     ShapesSteps.Steps N sl (Shapes.Initialize N device shapes_scene fence0) = Ok a ∧
     at_index (Shapes.mFrameResources a) s = Some fr ∧
     Shapes.mAllRitems a !! p = Some ri ∧
     Shapes.RenderItem.ObjCBIndex ri = Z.of_nat p ∧
     UploadBuffer.capacity (Shapes.FrameResource.ObjectCB fr)
     = Z.of_nat (length shapes_scene) ∧
     UploadBuffer.offset (Shapes.FrameResource.ObjectCB fr)
       (Shapes.RenderItem.ObjCBIndex ri) = Z.of_nat p * size ∧
     Shapes.DrawRenderItems (Shapes.set_mCurrFrameResourceIndex s a) [p] = Ok [call] ∧
     Shapes.cbvIndex call = s * Z.of_nat (length shapes_scene) + Z.of_nat p ∧
     Shapes.bound_address (Shapes.set_mCurrFrameResourceIndex s a) call
     = Some (UploadBuffer.GPUVirtualAddress (Shapes.FrameResource.ObjectCB fr)
             + Z.of_nat p * size) ∧
     ∃ a' fr' ri' call',
       Shapes.Run N inputs (ShapesSteps.ModifyItem N p world a) = Ok a' ∧
       at_index (Shapes.mFrameResources a') s = Some fr' ∧
       Shapes.mAllRitems a' !! p = Some ri' ∧
       Shapes.RenderItem.ObjCBIndex ri' = Z.of_nat p ∧
       Shapes.RenderItem.World ri' = world ∧
       UploadBuffer.capacity (Shapes.FrameResource.ObjectCB fr')
       = Z.of_nat (length shapes_scene) ∧
       UploadBuffer.uploads (Shapes.FrameResource.ObjectCB fr') (Z.of_nat p)
       = S (UploadBuffer.uploads (Shapes.FrameResource.ObjectCB fr) (Z.of_nat p)) ∧
       UploadBuffer.read (Shapes.FrameResource.ObjectCB fr') (Z.of_nat p)
       = Some (Shapes.objConstants ri') ∧
       (1 ≤ s →
        UploadBuffer.read (Shapes.FrameResource.ObjectCB fr')
          (s * Z.of_nat (length shapes_scene) + Z.of_nat p) = None) ∧
       UploadBuffer.offset (Shapes.FrameResource.ObjectCB fr') (Z.of_nat p)
       = Z.of_nat p * size ∧
       Shapes.DrawRenderItems (Shapes.set_mCurrFrameResourceIndex s a') [p]
       = Ok [call'] ∧
       Shapes.cbvIndex call' = s * Z.of_nat (length shapes_scene) + Z.of_nat p ∧
       Shapes.bound_address (Shapes.set_mCurrFrameResourceIndex s a') call'
       = Some (UploadBuffer.GPUVirtualAddress (Shapes.FrameResource.ObjectCB fr')
               + Z.of_nat p * size))).
Proof.
  intros N device scene shapes_scene fence0 l sl s p world inputs.
  assert (1 ≤ N) as H1 by evaluate.
  assert (well_authored scene = true) as H2 by evaluate.
  assert (addressable N device (Z.of_nat (length scene)) = true) as H3 by evaluate.
  assert (addressable N device (Z.of_nat (length shapes_scene)) = true) as H4 by evaluate.
  assert ((Z.of_nat (length shapes_scene) + 1) * N < 2 ^ 32) as H5 by evaluate.
  assert (0 ≤ fence0) as H6 by evaluate.
  assert (fence0 + TexWavesSteps.turns l + N < 2 ^ 64) as H7 by evaluate.
  assert (fence0 + ShapesSteps.turns sl + N < 2 ^ 64) as H8 by evaluate.
  assert (0 ≤ s < N) as H9 by evaluate.
  assert (Z.of_nat (length inputs) = N) as H10 by evaluate.
  split; [exact (conj H1 (conj H2 (conj H3 (conj H4 (conj H5 (conj H6 (conj H7 (conj H8 (conj H9 (H10))))))))))|].
  exact (object_constants_lie_at_their_index_in_every_slot N device scene shapes_scene fence0 l sl s p world inputs H1 H2 H3 H4 H5 H6 H7 H8 H9 H10).
Defined.

(** The upload regions after [castle_steps] and [shapes_steps]. *)
Lemma CopyData_out_of_range_fails_and_is_unreachable_castle :
  let N := gNumFrameResources in
  let device := castle_device in
  let scene := castle_scene in
  let shapes_scene := shapes_castle in
  let fence0 := 0 in
  let l := castle_steps in
  let sl := shapes_steps in
  (1 ≤ N ∧
   well_authored scene = true ∧
   Z.of_nat (length shapes_scene) < 2 ^ 32 ∧
   0 ≤ fence0 ∧
   fence0 + TexWavesSteps.turns l < 2 ^ 64 ∧
   fence0 + ShapesSteps.turns sl < 2 ^ 64) ∧
  ((∀ (T : Type) (cb : UploadBuffer.t T) (index : Z) (record : T),
     (UploadBuffer.capacity cb ≤ index →
      UploadBuffer.CopyData index record cb = Fail OutOfRange) ∧
     (0 ≤ index < UploadBuffer.capacity cb →
      ∃ cb', UploadBuffer.CopyData index record cb = Ok cb' ∧
        UploadBuffer.read cb' index = Some record ∧
        UploadBuffer.write_address cb' index
        = UploadBuffer.GPUVirtualAddress cb + index * UploadBuffer.mElementByteSize cb ∧
        UploadBuffer.capacity cb' = UploadBuffer.capacity cb ∧
        ∀ j, j ≠ index → UploadBuffer.read cb' j = UploadBuffer.read cb j) ∧
     (∀ cb', UploadBuffer.CopyData index record cb = Ok cb' →
        0 ≤ index < UploadBuffer.capacity cb)) ∧
  (∀ gt a fr e,
     TexWaves.mCurrFrameResource a = Ok fr → e ∈ TexWaves.mAllRitems a →
     0 < TexWaves.RenderItem.NumFramesDirty e →
     UploadBuffer.capacity (TexWaves.FrameResource.ObjectCB fr)
     ≤ TexWaves.RenderItem.ObjCBIndex e →
     (∀ e', e' ∈ TexWaves.mAllRitems a → 0 ≤ TexWaves.RenderItem.ObjCBIndex e') →
     TexWaves.UpdateObjectCBs gt a = Fail OutOfRange) ∧
  (∃ a, TexWavesSteps.Steps N l (TexWaves.Initialize N device scene fence0) = Ok a ∧
     length (TexWaves.mAllRitems a) = length scene ∧
     ∀ fr e, fr ∈ TexWaves.mFrameResources a → e ∈ TexWaves.mAllRitems a →
       UploadBuffer.capacity (TexWaves.FrameResource.ObjectCB fr)
       = Z.of_nat (length (TexWaves.mAllRitems a)) ∧
       0 ≤ TexWaves.RenderItem.ObjCBIndex e
         < UploadBuffer.capacity (TexWaves.FrameResource.ObjectCB fr)) ∧
  (∃ a, ShapesSteps.Steps N sl (Shapes.Initialize N device shapes_scene fence0) = Ok a ∧
     length (Shapes.mAllRitems a) = length shapes_scene ∧
     ∀ fr e, fr ∈ Shapes.mFrameResources a → e ∈ Shapes.mAllRitems a →
       UploadBuffer.capacity (Shapes.FrameResource.ObjectCB fr)
       = Z.of_nat (length (Shapes.mAllRitems a)) ∧
       0 ≤ Shapes.RenderItem.ObjCBIndex e
         < UploadBuffer.capacity (Shapes.FrameResource.ObjectCB fr))).
Proof.
  intros N device scene shapes_scene fence0 l sl.
  assert (1 ≤ N) as H1 by evaluate.
  assert (well_authored scene = true) as H2 by evaluate.
  assert (Z.of_nat (length shapes_scene) < 2 ^ 32) as H3 by evaluate.
  assert (0 ≤ fence0) as H4 by evaluate.
  assert (fence0 + TexWavesSteps.turns l < 2 ^ 64) as H5 by evaluate.
  assert (fence0 + ShapesSteps.turns sl < 2 ^ 64) as H6 by evaluate.
  split; [exact (conj H1 (conj H2 (conj H3 (conj H4 (conj H5 H6)))))|].
  exact (CopyData_out_of_range_fails_and_is_unreachable N device scene shapes_scene fence0 l sl H1 H2 H3 H4 H5 H6).
Defined.

(** C4 as stated fails on the castle scene of TexWavesApp.  After the first
    turn ring slot 1 is current.  The write path has stored the constants of
    the item with object index 0 at record index 0 of slot 1's region, at byte
    offset 0, and the bind path binds the base address of the region for it.
    Record index [1 * 20 + 0] was not written; it lies outside the region,
    which holds 20 records, and a write there fails. *)
Lemma offset_in_slot_is_not_slot_times_count_plus_index :
  let N := gNumFrameResources in
  let s := 1 in
  let p := 0%nat in
  let count := Z.of_nat (length castle_scene) in
  ∃ a fr ri call,
    TexWaves.Frame N (turn 0 0) (TexWaves.Initialize N castle_device castle_scene 0) = Ok a ∧
    TexWaves.mCurrFrameResourceIndex a = s ∧
    at_index (TexWaves.mFrameResources a) s = Some fr ∧
    TexWaves.mAllRitems a !! p = Some ri ∧
    TexWaves.RenderItem.ObjCBIndex ri = Z.of_nat p ∧
    count = 20 ∧
    UploadBuffer.capacity (TexWaves.FrameResource.ObjectCB fr) = count ∧
    UploadBuffer.read (TexWaves.FrameResource.ObjectCB fr) (Z.of_nat p)
    = Some (TexWaves.objConstants ri) ∧
    UploadBuffer.read (TexWaves.FrameResource.ObjectCB fr) (s * count + Z.of_nat p) = None ∧
    UploadBuffer.offset (TexWaves.FrameResource.ObjectCB fr) (TexWaves.RenderItem.ObjCBIndex ri)
    = 0 ∧
    UploadBuffer.offset (TexWaves.FrameResource.ObjectCB fr) (TexWaves.RenderItem.ObjCBIndex ri)
    ≠ UploadBuffer.offset (TexWaves.FrameResource.ObjectCB fr) (s * count + Z.of_nat p) ∧
    TexWaves.RenderItem.ObjCBIndex ri ≠ s * count + Z.of_nat p ∧
    TexWaves.DrawRenderItems a [p] = Ok [call] ∧
    TexWaves.objCBAddress call
    = UploadBuffer.GPUVirtualAddress (TexWaves.FrameResource.ObjectCB fr) + 0 ∧
    UploadBuffer.CopyData (s * count + Z.of_nat p) (TexWaves.objConstants ri)
      (TexWaves.FrameResource.ObjectCB fr) = Fail OutOfRange.
Proof.
  intros N s p count.
  assert (1 ≤ N) as HN by (vm_compute; discriminate).
  assert (well_authored castle_scene = true) as Hscene by (vm_compute; reflexivity).
  assert (addressable N castle_device (Z.of_nat (length castle_scene)) = true) as Haddr
    by (vm_compute; reflexivity).
  assert (count = 20) as Hcount by (vm_compute; reflexivity).
  assert (0 ≤ s < N) as Hs by (vm_compute; split; [discriminate|reflexivity]).
  assert (NextFrameResourceIndex N 0 = s) as Hnext by (vm_compute; reflexivity).
  assert (p < length castle_scene)%nat as Hp by (vm_compute; lia).
  (* the start-up state, then the first turn *)
  assert (wf N (TexWaves.Initialize N castle_device castle_scene 0)) as Hwf0.
  { apply Initialize_wf; [exact HN|exact Hscene|lia]. }
  destruct (lookup_lt_is_Some_2
              (TexWaves.mAllRitems (TexWaves.Initialize N castle_device castle_scene 0)) p)
    as [e He].
  { unfold TexWaves.Initialize. cbn [TexWaves.mAllRitems].
    unfold TexWaves.BuildRenderItems. rewrite BuildRenderItemsFrom_length. exact Hp. }
  destruct (BuildRenderItemsFrom_lookup N _ _ _ _ He) as (_ & _ & _ & _ & Hdirty & _).
  destruct (TexWaves_bind_path N castle_device castle_scene 0
              [TexWavesSteps.Advance (turn 0 0)] s p HN Hscene Haddr)
    as (a & fr & ri & call & HS & Hfr & Hri & Hidx & Hreg & HD & Hbound);
    [lia|vm_compute; reflexivity|exact Hs|exact Hp|].
  change (TexWavesSteps.Steps N [TexWavesSteps.Advance (turn 0 0)]
            (TexWaves.Initialize N castle_device castle_scene 0))
    with (TexWaves.Frame N (turn 0 0) (TexWaves.Initialize N castle_device castle_scene 0)
          ≫= λ x, Ok x) in HS.
  assert (TexWaves.mCurrFrameResourceIndex
            (TexWaves.Initialize N castle_device castle_scene 0) = 0) as Hidx0
    by reflexivity.
  assert (Timeline.mCurrentFence
            (TexWaves.timeline (TexWaves.Initialize N castle_device castle_scene 0)) = 0)
    as Hfence0 by reflexivity.
  revert Hwf0 He HS Hidx0 Hfence0.
  generalize (TexWaves.Initialize N castle_device castle_scene 0).
  intros a0 Hwf0 He HS Hidx0 Hfence0.
  destruct (Frame_item N p e (turn 0 0) a0 HN Hwf0) as
    (a' & HF & Hwf' & _ & Hcur & He' & Hslots); [rewrite Hfence0; lia|exact He|].
  rewrite HF in HS. simpl in HS. injection HS as ->.
  rewrite Hidx0, Hnext in Hcur.
  assert (ri = visit TexWaves.RenderItem.NumFramesDirty TexWaves.RenderItem.decrement e)
    as Hvisit by congruence.
  destruct (at_index_is_Some (TexWaves.mFrameResources a0) s) as [fr0 Hfr0].
  { rewrite (wf_ring _ _ (wf_static _ _ Hwf0)). exact Hs. }
  destruct (Hslots s fr0 Hfr0) as (fr' & Hfr' & Hwritten).
  assert (fr' = fr) as -> by congruence.
  simpl in Hwritten. rewrite decide_True in Hwritten by (split; [congruence|lia]).
  destruct Hwritten as [Hread _].
  unfold region in Hreg. injection Hreg as Hcap Helem Hva.
  assert (TexWaves.set_mCurrFrameResourceIndex s a = a) as Hsame.
  { rewrite <- Hcur. destruct a. reflexivity. }
  rewrite Hsame in HD.
  assert (TexWaves.RenderItem.ObjCBIndex e = Z.of_nat p) as Hidxe.
  { rewrite <- Hidx, Hvisit. symmetry. apply visit_item_index. }
  exists a, fr, ri, call.
  split; [exact HF|]. split; [exact Hcur|]. split; [exact Hfr|]. split; [exact Hri|].
  split; [exact Hidx|]. split; [exact Hcount|]. split; [exact Hcap|].
  split; [by rewrite Hvisit, visit_item_constants, <- Hidxe|].
  split.
  { unfold UploadBuffer.read. rewrite decide_True by (rewrite Hcount; lia).
    rewrite lookup_ge_None_2; [reflexivity|]. unfold UploadBuffer.capacity in Hcap. lia. }
  unfold UploadBuffer.offset. rewrite Hidx, Helem, Hcount.
  split; [reflexivity|]. split; [vm_compute; discriminate|].
  split; [vm_compute; discriminate|]. split; [exact HD|].
  split; [rewrite Hbound, Hva; reflexivity|].
  apply CopyData_Fail. rewrite Hcap. lia.
Qed.

(** ** Further properties on the castle scenes *)

(** Example data for the start-up geometry and the wave vertices: two small
    shapes, a division on the fixed-point stand-in, a wave grid of four
    vertices. *)
Definition corner (x z : Z) : CastleGeometry.GeneratedVertex :=
  {| CastleGeometry.Position := {| x3 := flit x 0; y3 := flit 0 0; z3 := flit z 0 |};
     CastleGeometry.GNormal := {| x3 := flit 0 0; y3 := flit 1 0; z3 := flit 0 0 |};
     CastleGeometry.GTexC := (flit x 0, flit z 0) |}.

Definition triangle : CastleGeometry.MeshData :=
  {| CastleGeometry.Vertices := [corner 0 0; corner 1 0; corner 0 1];
     CastleGeometry.Indices32 := [0; 1; 2];
     CastleGeometry.GetIndices16 := [0; 1; 2] |}.

Definition square : CastleGeometry.MeshData :=
  {| CastleGeometry.Vertices := [corner 0 0; corner 1 0; corner 1 1; corner 0 1];
     CastleGeometry.Indices32 := [0; 1; 2; 0; 2; 3];
     CastleGeometry.GetIndices16 := [0; 1; 2; 0; 2; 3] |}.

(** Division on the fixed-point stand-in: the quotient, in thousandths. *)
Definition milli_div (a b : Z) : Z := (a * 1000) `div` b.

Definition ripple : WavesVB.Waves :=
  {| WavesVB.VertexCount := 4;
     WavesVB.Position := λ i, {| x3 := flit (i `mod` 2) 0; y3 := flit i 1;
                                 z3 := flit (i `div` 2) 0 |};
     WavesVB.Normal := λ _, {| x3 := flit 0 0; y3 := flit 1 0; z3 := flit 0 0 |};
     WavesVB.Width := flit 2 0;
     WavesVB.Depth := flit 2 0 |}.

(** The turn that follows [castle_steps] and [shapes_steps]. *)
Lemma turn_writes_only_dirty_records_of_selected_slot_castle :
  let N := gNumFrameResources in
  let device := castle_device in
  let scene := castle_scene in
  let shapes_scene := shapes_castle in
  let fence0 := 0 in
  let l := castle_steps in
  let sl := shapes_steps in
  let i := turn 1 0 in
  (1 ≤ N ∧
   well_authored scene = true ∧
   Z.of_nat (length shapes_scene) < 2 ^ 32 ∧
   0 ≤ fence0 ∧
   fence0 + TexWavesSteps.turns l + 1 < 2 ^ 64 ∧
   fence0 + ShapesSteps.turns sl + 1 < 2 ^ 64) ∧
  ((∃ a a',
     TexWavesSteps.Steps N l (TexWaves.Initialize N device scene fence0) = Ok a ∧
     TexWaves.Frame N i a = Ok a' ∧
     ∀ s fr, at_index (TexWaves.mFrameResources a) s = Some fr →
       ∃ fr', at_index (TexWaves.mFrameResources a') s = Some fr' ∧
         (s ≠ TexWaves.mCurrFrameResourceIndex a' → fr' = fr) ∧
         region (TexWaves.FrameResource.ObjectCB fr')
         = region (TexWaves.FrameResource.ObjectCB fr) ∧
         region (TexWaves.FrameResource.MaterialCB fr')
         = region (TexWaves.FrameResource.MaterialCB fr) ∧
         (∀ j, (∀ e, e ∈ TexWaves.mAllRitems a → 0 < TexWaves.RenderItem.NumFramesDirty e →
                     TexWaves.RenderItem.ObjCBIndex e ≠ j) →
               UploadBuffer.read (TexWaves.FrameResource.ObjectCB fr') j
               = UploadBuffer.read (TexWaves.FrameResource.ObjectCB fr) j ∧
               UploadBuffer.uploads (TexWaves.FrameResource.ObjectCB fr') j
               = UploadBuffer.uploads (TexWaves.FrameResource.ObjectCB fr) j) ∧
         (∀ j, (∀ k m, TexWaves.mMaterials a !! k = Some m →
                       k = "water"%string ∨ 0 < TexWaves.Material.NumFramesDirty m →
                       TexWaves.Material.MatCBIndex m ≠ j) →
               UploadBuffer.read (TexWaves.FrameResource.MaterialCB fr') j
               = UploadBuffer.read (TexWaves.FrameResource.MaterialCB fr) j ∧
               UploadBuffer.uploads (TexWaves.FrameResource.MaterialCB fr') j
               = UploadBuffer.uploads (TexWaves.FrameResource.MaterialCB fr) j)) ∧
  (∃ a a',
     ShapesSteps.Steps N sl (Shapes.Initialize N device shapes_scene fence0) = Ok a ∧
     Shapes.Frame N i a = Ok a' ∧
     ∀ s fr, at_index (Shapes.mFrameResources a) s = Some fr →
       ∃ fr', at_index (Shapes.mFrameResources a') s = Some fr' ∧
         (s ≠ Shapes.mCurrFrameResourceIndex a' → fr' = fr) ∧
         region (Shapes.FrameResource.ObjectCB fr')
         = region (Shapes.FrameResource.ObjectCB fr) ∧
         (∀ j, (∀ e, e ∈ Shapes.mAllRitems a → 0 < Shapes.RenderItem.NumFramesDirty e →
                     Shapes.RenderItem.ObjCBIndex e ≠ j) →
               UploadBuffer.read (Shapes.FrameResource.ObjectCB fr') j
               = UploadBuffer.read (Shapes.FrameResource.ObjectCB fr) j ∧
               UploadBuffer.uploads (Shapes.FrameResource.ObjectCB fr') j
               = UploadBuffer.uploads (Shapes.FrameResource.ObjectCB fr) j))).
Proof.
  intros N device scene shapes_scene fence0 l sl i.
  assert (1 ≤ N) as H1 by evaluate.
  assert (well_authored scene = true) as H2 by evaluate.
  assert (Z.of_nat (length shapes_scene) < 2 ^ 32) as H3 by evaluate.
  assert (0 ≤ fence0) as H4 by evaluate.
  assert (fence0 + TexWavesSteps.turns l + 1 < 2 ^ 64) as H5 by evaluate.
  assert (fence0 + ShapesSteps.turns sl + 1 < 2 ^ 64) as H6 by evaluate.
  split; [exact (conj H1 (conj H2 (conj H3 (conj H4 (conj H5 H6)))))|].
  exact (turn_writes_only_dirty_records_of_selected_slot N device scene shapes_scene fence0 l sl i H1 H2 H3 H4 H5 H6).
Defined.

(** Three quiet turns after [castle_steps] and [shapes_steps], then one more. *)
Lemma steady_state_uploads_no_object_and_only_the_water_material_castle :
  let N := gNumFrameResources in
  let device := castle_device in
  let scene := castle_scene in
  let shapes_scene := shapes_castle in
  let fence0 := 0 in
  let l := castle_steps in
  let sl := shapes_steps in
  let inputs := three_turns in
  let i := turn 1 0 in
  (1 ≤ N ∧
   well_authored scene = true ∧
   Z.of_nat (length shapes_scene) < 2 ^ 32 ∧
   0 ≤ fence0 ∧
   fence0 + TexWavesSteps.turns l + N + 1 < 2 ^ 64 ∧
   fence0 + ShapesSteps.turns sl + N + 1 < 2 ^ 64 ∧
   Z.of_nat (length inputs) = N) ∧
  ((∃ a a1 a2 w,
     TexWavesSteps.Steps N l (TexWaves.Initialize N device scene fence0) = Ok a ∧
     TexWaves.Run N inputs a = Ok a1 ∧
     (∀ e, e ∈ TexWaves.mAllRitems a1 → TexWaves.RenderItem.NumFramesDirty e = 0) ∧
     (∀ k m, k ≠ "water"%string → TexWaves.mMaterials a1 !! k = Some m →
             TexWaves.Material.NumFramesDirty m = 0) ∧
     TexWaves.mMaterials a1 !! "water"%string = Some w ∧
     TexWaves.Frame N i a1 = Ok a2 ∧
     TexWaves.mAllRitems a2 = TexWaves.mAllRitems a1 ∧
     ∀ s fr, at_index (TexWaves.mFrameResources a1) s = Some fr →
       ∃ fr2, at_index (TexWaves.mFrameResources a2) s = Some fr2 ∧
         TexWaves.FrameResource.ObjectCB fr2 = TexWaves.FrameResource.ObjectCB fr ∧
         UploadBuffer.CopyLog (TexWaves.FrameResource.MaterialCB fr2)
         = if decide (s = TexWaves.mCurrFrameResourceIndex a2)
           then TexWaves.Material.MatCBIndex w
                :: UploadBuffer.CopyLog (TexWaves.FrameResource.MaterialCB fr)
           else UploadBuffer.CopyLog (TexWaves.FrameResource.MaterialCB fr)) ∧
  (∃ a a1 a2,
     ShapesSteps.Steps N sl (Shapes.Initialize N device shapes_scene fence0) = Ok a ∧
     Shapes.Run N inputs a = Ok a1 ∧
     (∀ e, e ∈ Shapes.mAllRitems a1 → Shapes.RenderItem.NumFramesDirty e = 0) ∧
     Shapes.Frame N i a1 = Ok a2 ∧
     Shapes.mAllRitems a2 = Shapes.mAllRitems a1 ∧
     ∀ s fr, at_index (Shapes.mFrameResources a1) s = Some fr →
       ∃ fr2, at_index (Shapes.mFrameResources a2) s = Some fr2 ∧
         Shapes.FrameResource.ObjectCB fr2 = Shapes.FrameResource.ObjectCB fr)).
Proof.
  intros N device scene shapes_scene fence0 l sl inputs i.
  assert (1 ≤ N) as H1 by evaluate.
  assert (well_authored scene = true) as H2 by evaluate.
  assert (Z.of_nat (length shapes_scene) < 2 ^ 32) as H3 by evaluate.
  assert (0 ≤ fence0) as H4 by evaluate.
  assert (fence0 + TexWavesSteps.turns l + N + 1 < 2 ^ 64) as H5 by evaluate.
  assert (fence0 + ShapesSteps.turns sl + N + 1 < 2 ^ 64) as H6 by evaluate.
  assert (Z.of_nat (length inputs) = N) as H7 by evaluate.
  split; [exact (conj H1 (conj H2 (conj H3 (conj H4 (conj H5 (conj H6 H7))))))|].
  exact (steady_state_uploads_no_object_and_only_the_water_material N device scene shapes_scene fence0 l sl inputs i H1 H2 H3 H4 H5 H6 H7).
Defined.

(** The lead after [castle_steps] and [shapes_steps], and in an [Update] before which the GPU does nothing. *)
Lemma cpu_is_at_most_N_frames_ahead_of_gpu_castle :
  let N := gNumFrameResources in
  let device := castle_device in
  let scene := castle_scene in
  let shapes_scene := shapes_castle in
  let fence0 := 0 in
  let l := castle_steps in
  let sl := shapes_steps in
  let i := turn 0 0 in
  (1 ≤ N ∧
   well_authored scene = true ∧
   Z.of_nat (length shapes_scene) < 2 ^ 32 ∧
   0 ≤ fence0 ∧
   fence0 + TexWavesSteps.turns l + 1 < 2 ^ 64 ∧
   fence0 + ShapesSteps.turns sl + 1 < 2 ^ 64) ∧
  ((∃ a a1,
     TexWavesSteps.Steps N l (TexWaves.Initialize N device scene fence0) = Ok a ∧
     0 ≤ mCurrentFence (TexWaves.timeline a) - CompletedValue (TexWaves.timeline a) ≤ N ∧
     Z.of_nat (length (signals (mCommandQueue (TexWaves.timeline a)))) ≤ N ∧
     TexWaves.Update N (gt i) (TexWaves.gpu (gpu_before_update i) a) = Ok a1 ∧
     mCurrentFence (TexWaves.timeline a1) - CompletedValue (TexWaves.timeline a1) ≤ N - 1) ∧
  (∃ a a1,
     ShapesSteps.Steps N sl (Shapes.Initialize N device shapes_scene fence0) = Ok a ∧
     0 ≤ mCurrentFence (Shapes.timeline a) - CompletedValue (Shapes.timeline a) ≤ N ∧
     Z.of_nat (length (signals (mCommandQueue (Shapes.timeline a)))) ≤ N ∧
     Shapes.Update N (gt i) (Shapes.gpu (gpu_before_update i) a) = Ok a1 ∧
     mCurrentFence (Shapes.timeline a1) - CompletedValue (Shapes.timeline a1) ≤ N - 1)).
Proof.
  intros N device scene shapes_scene fence0 l sl i.
  assert (1 ≤ N) as H1 by evaluate.
  assert (well_authored scene = true) as H2 by evaluate.
  assert (Z.of_nat (length shapes_scene) < 2 ^ 32) as H3 by evaluate.
  assert (0 ≤ fence0) as H4 by evaluate.
  assert (fence0 + TexWavesSteps.turns l + 1 < 2 ^ 64) as H5 by evaluate.
  assert (fence0 + ShapesSteps.turns sl + 1 < 2 ^ 64) as H6 by evaluate.
  split; [exact (conj H1 (conj H2 (conj H3 (conj H4 (conj H5 H6)))))|].
  exact (cpu_is_at_most_N_frames_ahead_of_gpu N device scene shapes_scene fence0 l sl i H1 H2 H3 H4 H5 H6).
Defined.

(** The stamps after the five turns of [castle_steps] and the four of [shapes_steps]. *)
Lemma ring_slot_stamp_is_fence_of_its_latest_frame_castle :
  let N := gNumFrameResources in
  let device := castle_device in
  let scene := castle_scene in
  let shapes_scene := shapes_castle in
  let fence0 := 0 in
  let l := castle_steps in
  let sl := shapes_steps in
  (1 ≤ N ∧
   well_authored scene = true ∧
   Z.of_nat (length shapes_scene) < 2 ^ 32 ∧
   0 ≤ fence0 ∧
   fence0 + TexWavesSteps.turns l < 2 ^ 64 ∧
   fence0 + ShapesSteps.turns sl < 2 ^ 64) ∧
  ((∃ a, TexWavesSteps.Steps N l (TexWaves.Initialize N device scene fence0) = Ok a ∧
     ∀ s fr, at_index (TexWaves.mFrameResources a) s = Some fr →
       let n := TexWavesSteps.turns l in
       let d := (n - s) `mod` N in
       TexWaves.FrameResource.Fence fr = if decide (d < n) then fence0 + n - d else 0) ∧
  (∃ a, ShapesSteps.Steps N sl (Shapes.Initialize N device shapes_scene fence0) = Ok a ∧
     ∀ s fr, at_index (Shapes.mFrameResources a) s = Some fr →
       let n := ShapesSteps.turns sl in
       let d := (n - s) `mod` N in
       Shapes.FrameResource.Fence fr = if decide (d < n) then fence0 + n - d else 0)).
Proof.
  intros N device scene shapes_scene fence0 l sl.
  assert (1 ≤ N) as H1 by evaluate.
  assert (well_authored scene = true) as H2 by evaluate.
  assert (Z.of_nat (length shapes_scene) < 2 ^ 32) as H3 by evaluate.
  assert (0 ≤ fence0) as H4 by evaluate.
  assert (fence0 + TexWavesSteps.turns l < 2 ^ 64) as H5 by evaluate.
  assert (fence0 + ShapesSteps.turns sl < 2 ^ 64) as H6 by evaluate.
  split; [exact (conj H1 (conj H2 (conj H3 (conj H4 (conj H5 H6)))))|].
  exact (ring_slot_stamp_is_fence_of_its_latest_frame N device scene shapes_scene fence0 l sl H1 H2 H3 H4 H5 H6).
Defined.

(** Item 2 and ring slot 1 after [castle_steps]; the item's material is then
    modified and a sixth turn follows. *)
Lemma material_bind_path_agrees_with_write_path_castle :
  let N := gNumFrameResources in
  let device := castle_device in
  let scene := castle_scene in
  let fence0 := 0 in
  let l := castle_steps in
  let s := 1 in
  let p := 2%nat in
  let transform := moved in
  let i := turn 1 0 in
  (1 ≤ N ∧
   well_authored scene = true ∧
   materials_addressable N device = true ∧
   0 ≤ fence0 ∧
   fence0 + TexWavesSteps.turns l + 1 < 2 ^ 64 ∧
   0 ≤ s < N ∧
   (p < length scene)%nat) ∧
  (∃ a fr ri mat call,
    TexWavesSteps.Steps N l (TexWaves.Initialize N device scene fence0) = Ok a ∧
    at_index (TexWaves.mFrameResources a) s = Some fr ∧
    TexWaves.mAllRitems a !! p = Some ri ∧
    TexWaves.mMaterials a !! TexWaves.RenderItem.Mat ri = Some mat ∧
    TexWaves.DrawRenderItems (TexWaves.set_mCurrFrameResourceIndex s a) [p] = Ok [call] ∧
    0 ≤ TexWaves.Material.MatCBIndex mat
      < UploadBuffer.capacity (TexWaves.FrameResource.MaterialCB fr) ∧
    TexWaves.matCBAddress call
    = UploadBuffer.write_address (TexWaves.FrameResource.MaterialCB fr)
        (TexWaves.Material.MatCBIndex mat) ∧
    ∃ a1 fr0 fr1 mat1 call1,
      TexWaves.Frame N i
        (TexWavesSteps.ModifyMaterial N (TexWaves.RenderItem.Mat ri) transform a) = Ok a1 ∧
      at_index (TexWaves.mFrameResources a) (TexWaves.mCurrFrameResourceIndex a1)
      = Some fr0 ∧
      at_index (TexWaves.mFrameResources a1) (TexWaves.mCurrFrameResourceIndex a1)
      = Some fr1 ∧
      TexWaves.mMaterials a1 !! TexWaves.RenderItem.Mat ri = Some mat1 ∧
      TexWaves.Material.MatCBIndex mat1 = TexWaves.Material.MatCBIndex mat ∧
      UploadBuffer.uploads (TexWaves.FrameResource.MaterialCB fr1)
        (TexWaves.Material.MatCBIndex mat1)
      = S (UploadBuffer.uploads (TexWaves.FrameResource.MaterialCB fr0)
             (TexWaves.Material.MatCBIndex mat1)) ∧
      UploadBuffer.read (TexWaves.FrameResource.MaterialCB fr1)
        (TexWaves.Material.MatCBIndex mat1)
      = Some (TexWaves.matConstants mat1) ∧
      TexWaves.DrawRenderItems a1 [p] = Ok [call1] ∧
      TexWaves.matCBAddress call1
      = UploadBuffer.write_address (TexWaves.FrameResource.MaterialCB fr1)
          (TexWaves.Material.MatCBIndex mat1)).
Proof.
  intros N device scene fence0 l s p transform i.
  assert (1 ≤ N) as H1 by evaluate.
  assert (well_authored scene = true) as H2 by evaluate.
  assert (materials_addressable N device = true) as H3 by evaluate.
  assert (0 ≤ fence0) as H4 by evaluate.
  assert (fence0 + TexWavesSteps.turns l + 1 < 2 ^ 64) as H5 by evaluate.
  assert (0 ≤ s < N) as H6 by evaluate.
  assert ((p < length scene)%nat) as H7 by evaluate.
  split; [exact (conj H1 (conj H2 (conj H3 (conj H4 (conj H5 (conj H6 (H7)))))))|].
  exact (material_bind_path_agrees_with_write_path N device scene fence0 l s p transform i H1 H2 H3 H4 H5 H6 H7).
Defined.

(** The pass descriptor of ring slot 2 after [shapes_steps]. *)
Lemma pass_descriptor_views_pass_buffer_of_current_slot_castle :
  let N := gNumFrameResources in
  let device := castle_device in
  let scene := shapes_castle in
  let fence0 := 0 in
  let l := shapes_steps in
  let s := 2 in
  (1 ≤ N ∧
   (Z.of_nat (length scene) + 1) * N < 2 ^ 31 ∧
   0 ≤ fence0 ∧
   fence0 + ShapesSteps.turns l < 2 ^ 64 ∧
   0 ≤ s < N) ∧
  (let n := Z.of_nat (length scene) in
  ∃ a fr,
    ShapesSteps.Steps N l (Shapes.Initialize N device scene fence0) = Ok a ∧
    at_index (Shapes.mFrameResources a) s = Some fr ∧
    let a_s := Shapes.set_mCurrFrameResourceIndex s a in
    passCbvIndex a_s = n * N + s ∧
    passCbv a_s
    = Some {| Shapes.BufferLocation :=
                UploadBuffer.GPUVirtualAddress (Shapes.FrameResource.PassCB fr);
              Shapes.SizeInBytes := CalcConstantBufferByteSize sizeof_PassConstants |} ∧
    UploadBuffer.GPUVirtualAddress (Shapes.FrameResource.PassCB fr) = PassCB_address device s ∧
    ∀ p ri, Shapes.mAllRitems a !! p = Some ri →
      0 ≤ Shapes.cbvIndex (Shapes.DrawRenderItem a_s ri) < n * N).
Proof.
  intros N device scene fence0 l s.
  assert (1 ≤ N) as H1 by evaluate.
  assert ((Z.of_nat (length scene) + 1) * N < 2 ^ 31) as H2 by evaluate.
  assert (0 ≤ fence0) as H3 by evaluate.
  assert (fence0 + ShapesSteps.turns l < 2 ^ 64) as H4 by evaluate.
  assert (0 ≤ s < N) as H5 by evaluate.
  split; [exact (conj H1 (conj H2 (conj H3 (conj H4 H5))))|].
  exact (pass_descriptor_views_pass_buffer_of_current_slot N device scene fence0 l s H1 H2 H3 H4 H5).
Defined.

(** The sixty descriptors of the castle scene of ShapesApp. *)
Lemma descriptor_heap_is_fully_populated_castle :
  let N := gNumFrameResources in
  let device := castle_device in
  let scene := shapes_castle in
  let fence0 := 0 in
  let l := shapes_steps in
  (1 ≤ N ∧
   (Z.of_nat (length scene) + 1) * N < 2 ^ 32 ∧
   0 ≤ fence0 ∧
   fence0 + ShapesSteps.turns l < 2 ^ 64) ∧
  (let n := Z.of_nat (length scene) in
  ∃ a,
    ShapesSteps.Steps N l (Shapes.Initialize N device scene fence0) = Ok a ∧
    Z.of_nat (length (Shapes.mCbvHeap a)) = (n + 1) * N ∧
    ∀ k, 0 ≤ k < (n + 1) * N →
      let s := if decide (k < n * N) then k `div` n else k - n * N in
      ∃ fr, at_index (Shapes.mFrameResources a) s = Some fr ∧
        at_index (Shapes.mCbvHeap a) k
        = Some (Some (if decide (k < n * N) then object_view fr (k `mod` n)
                      else pass_view fr))).
Proof.
  intros N device scene fence0 l.
  assert (1 ≤ N) as H1 by evaluate.
  assert ((Z.of_nat (length scene) + 1) * N < 2 ^ 32) as H2 by evaluate.
  assert (0 ≤ fence0) as H3 by evaluate.
  assert (fence0 + ShapesSteps.turns l < 2 ^ 64) as H4 by evaluate.
  split; [exact (conj H1 (conj H2 (conj H3 H4)))|].
  exact (descriptor_heap_is_fully_populated N device scene fence0 l H1 H2 H3 H4).
Defined.

Section WavesGeometryExamples.
Import WavesGeometry.

(** The grid of [Waves(128, 128, ...)] that [Initialize] creates. *)
Lemma water_grid_indices_stay_in_range_and_name_grid_vertices_castle :
  let m := 128 in
  let n := 128 in
  let TriangleCount := 32258 in
  (1 ≤ m ∧
   1 ≤ n ∧
   m * n < 65535 ∧
   TriangleCount = 2 * (m - 1) * (n - 1)) ∧
  (∃ indices,
    BuildWavesGeometry m n TriangleCount = Ok indices ∧
    Z.of_nat (length indices) = 3 * TriangleCount ∧
    Forall (λ v, 0 ≤ v < m * n) indices ∧
    ∀ i j, 0 ≤ i < m - 1 → 0 ≤ j < n - 1 →
      take 6 (drop (Z.to_nat (6 * (i * (n - 1) + j))) indices)
      = [ i * n + j; i * n + j + 1; (i + 1) * n + j;
          (i + 1) * n + j; i * n + j + 1; (i + 1) * n + j + 1 ]).
Proof.
  intros m n TriangleCount.
  assert (1 ≤ m) as H1 by evaluate.
  assert (1 ≤ n) as H2 by evaluate.
  assert (m * n < 65535) as H3 by evaluate.
  assert (TriangleCount = 2 * (m - 1) * (n - 1)) as H4 by evaluate.
  split; [exact (conj H1 (conj H2 (conj H3 H4)))|].
  exact (water_grid_indices_stay_in_range_and_name_grid_vertices m n TriangleCount H1 H2 H3 H4).
Defined.

(** The same grid with one triangle too few. *)
Lemma water_grid_index_vector_too_short_is_out_of_range_castle :
  let m := 128 in
  let n := 128 in
  let TriangleCount := 32257 in
  (2 ≤ m < 2 ^ 31 ∧
   2 ≤ n < 2 ^ 31 ∧
   3 * TriangleCount < 2 ^ 31 ∧
   3 * TriangleCount < 6 * (m - 1) * (n - 1)) ∧
  (BuildWavesGeometry m n TriangleCount = Fail OutOfRange).
Proof.
  intros m n TriangleCount.
  assert (2 ≤ m < 2 ^ 31) as H1 by evaluate.
  assert (2 ≤ n < 2 ^ 31) as H2 by evaluate.
  assert (3 * TriangleCount < 2 ^ 31) as H3 by evaluate.
  assert (3 * TriangleCount < 6 * (m - 1) * (n - 1)) as H4 by evaluate.
  split; [exact (conj H1 (conj H2 (conj H3 H4)))|].
  exact (water_grid_index_vector_too_short_is_out_of_range m n TriangleCount H1 H2 H3 H4).
Defined.
End WavesGeometryExamples.

Section CastleGeometryExamples.
Import CastleGeometry.

(** Eight small shapes packed into one geometry. *)
Lemma castle_submeshes_select_their_own_indices_and_vertices_castle :
  let wholeWall := square in
  let grid := square in
  let column := triangle in
  let columnTop := triangle in
  let Base1 := square in
  let Base2 := triangle in
  let Base3 := triangle in
  let top := square in
  let shapes := [wholeWall; grid; column; columnTop; Base1; Base2; Base3; top] in
  let names := [ "wholeWall"; "ground"; "column"; "columnTop";
                 "Base1"; "Base2"; "Base3"; "top" ]%string in
  (Z.of_nat (length (concat (Vertices <$> shapes))) < 2 ^ 32 ∧
   Z.of_nat (length (concat (Indices32 <$> shapes))) < 2 ^ 32 ∧
   Forall (λ shape, length (GetIndices16 shape) = length (Indices32 shape)) shapes) ∧
  (∃ geo,
    BuildCastleGeometry wholeWall grid column columnTop Base1 Base2 Base3 top = Ok geo ∧
    VertexBufferCPU geo = packed <$> concat (Vertices <$> shapes) ∧
    ∀ i name shape, names !! i = Some name → shapes !! i = Some shape →
      ∃ sub, DrawArgs geo !! name = Some sub ∧
        drawn_indices geo sub = GetIndices16 shape ∧
        ∀ j v, Vertices shape !! j = Some v →
               drawn_vertex geo sub (Z.of_nat j) = Some (packed v)).
Proof.
  intros wholeWall grid column columnTop Base1 Base2 Base3 top shapes names.
  assert (Z.of_nat (length (concat (Vertices <$> shapes))) < 2 ^ 32) as H1 by evaluate.
  assert (Z.of_nat (length (concat (Indices32 <$> shapes))) < 2 ^ 32) as H2 by evaluate.
  assert (Forall (λ shape, length (GetIndices16 shape) = length (Indices32 shape)) shapes) as H3
    by (repeat constructor).
  split; [exact (conj H1 (conj H2 H3))|].
  exact (castle_submeshes_select_their_own_indices_and_vertices
           wholeWall grid column columnTop Base1 Base2 Base3 top H1 H2 H3).
Defined.
End CastleGeometryExamples.

Section TextureExamples.
Import Textures.

(** The texture of item 2 drawn with ring slot 1 current. *)
Lemma texture_descriptor_of_item_is_its_material_texture_castle :
  let N := gNumFrameResources in
  let device := castle_device in
  let scene := castle_scene in
  let fence0 := 0 in
  let l := castle_steps in
  let s := 1 in
  let p := 2%nat in
  (1 ≤ N ∧
   well_authored scene = true ∧
   0 ≤ fence0 ∧
   fence0 + TexWavesSteps.turns l < 2 ^ 64 ∧
   0 ≤ s < N ∧
   (p < length scene)%nat) ∧
  (∃ a ri mat call heap t,
    TexWavesSteps.Steps N l (TexWaves.Initialize N device scene fence0) = Ok a ∧
    TexWaves.mAllRitems a !! p = Some ri ∧
    TexWaves.mMaterials a !! TexWaves.RenderItem.Mat ri = Some mat ∧
    TexWaves.DrawRenderItems (TexWaves.set_mCurrFrameResourceIndex s a) [p] = Ok [call] ∧
    BuildDescriptorHeaps LoadTextures = Ok heap ∧
    let k := TexWaves.Material.DiffuseSrvHeapIndex mat in
    TexWaves.tex call
    = UINT64 (DescriptorHeapStart device + k * DescriptorHandleIncrementSize device) ∧
    0 ≤ k < Z.of_nat (length heap) ∧
    at_index heap k = Some (Some t) ∧
    (TexWaves.RenderItem.Mat ri, Name t) ∈ diffuse_map).
Proof.
  intros N device scene fence0 l s p.
  assert (1 ≤ N) as H1 by evaluate.
  assert (well_authored scene = true) as H2 by evaluate.
  assert (0 ≤ fence0) as H3 by evaluate.
  assert (fence0 + TexWavesSteps.turns l < 2 ^ 64) as H4 by evaluate.
  assert (0 ≤ s < N) as H5 by evaluate.
  assert ((p < length scene)%nat) as H6 by evaluate.
  split; [exact (conj H1 (conj H2 (conj H3 (conj H4 (conj H5 H6)))))|].
  exact (texture_descriptor_of_item_is_its_material_texture N device scene fence0 l s p H1 H2 H3 H4 H5 H6).
Defined.
End TextureExamples.

(** The submission of the turn that follows [castle_steps] and [shapes_steps]. *)
Lemma turn_submits_one_draw_per_item_then_signals_castle :
  let N := gNumFrameResources in
  let device := castle_device in
  let scene := castle_scene in
  let shapes_scene := shapes_castle in
  let fence0 := 0 in
  let l := castle_steps in
  let sl := shapes_steps in
  let i := turn 1 0 in
  (1 ≤ N ∧
   well_authored scene = true ∧
   Z.of_nat (length shapes_scene) < 2 ^ 32 ∧
   0 ≤ fence0 ∧
   fence0 + TexWavesSteps.turns l + 1 < 2 ^ 64 ∧
   fence0 + ShapesSteps.turns sl + 1 < 2 ^ 64) ∧
  ((∃ a a' cmds q,
     TexWavesSteps.Steps N l (TexWaves.Initialize N device scene fence0) = Ok a ∧
     TexWaves.Frame N i a = Ok a' ∧
     q `suffix_of` mCommandQueue (TexWaves.timeline a) ∧
     mCommandQueue (TexWaves.timeline a')
     = q ++ [ExecuteCommandLists (TexWaves.mCurrFrameResourceIndex a') cmds;
             Signal (mCurrentFence (TexWaves.timeline a'))] ∧
     mCurrentFence (TexWaves.timeline a') = mCurrentFence (TexWaves.timeline a) + 1 ∧
     length cmds = length scene ∧
     ∀ p, (p < length scene)%nat →
       ∃ call, cmds !! p = Some call ∧ TexWaves.DrawRenderItems a' [p] = Ok [call]) ∧
  (∃ a a' cmds q,
     ShapesSteps.Steps N sl (Shapes.Initialize N device shapes_scene fence0) = Ok a ∧
     Shapes.Frame N i a = Ok a' ∧
     q `suffix_of` mCommandQueue (Shapes.timeline a) ∧
     mCommandQueue (Shapes.timeline a')
     = q ++ [ExecuteCommandLists (Shapes.mCurrFrameResourceIndex a') cmds;
             Signal (mCurrentFence (Shapes.timeline a'))] ∧
     mCurrentFence (Shapes.timeline a') = mCurrentFence (Shapes.timeline a) + 1 ∧
     length cmds = length shapes_scene ∧
     ∀ p, (p < length shapes_scene)%nat →
       ∃ call, cmds !! p = Some call ∧ Shapes.DrawRenderItems a' [p] = Ok [call])).
Proof.
  intros N device scene shapes_scene fence0 l sl i.
  assert (1 ≤ N) as H1 by evaluate.
  assert (well_authored scene = true) as H2 by evaluate.
  assert (Z.of_nat (length shapes_scene) < 2 ^ 32) as H3 by evaluate.
  assert (0 ≤ fence0) as H4 by evaluate.
  assert (fence0 + TexWavesSteps.turns l + 1 < 2 ^ 64) as H5 by evaluate.
  assert (fence0 + ShapesSteps.turns sl + 1 < 2 ^ 64) as H6 by evaluate.
  split; [exact (conj H1 (conj H2 (conj H3 (conj H4 (conj H5 H6)))))|].
  exact (turn_submits_one_draw_per_item_then_signals N device scene shapes_scene fence0 l sl i H1 H2 H3 H4 H5 H6).
Defined.

Section WavesVBExamples.
Import WavesVB.

(** A wave grid of four vertices and a buffer of four elements. *)
Lemma wave_vertices_refresh_the_whole_dynamic_buffer_castle :
  let fdiv := milli_div in
  let mWaves := ripple in
  let currWavesVB := UploadBuffer.create 8192 32 (WavesVB.VertexCount ripple) false in
  (UploadBuffer.capacity currWavesVB = VertexCount mWaves) ∧
  (∃ vb', UpdateWaves fdiv mWaves currWavesVB = Ok vb' ∧
    region vb' = region currWavesVB ∧
    ∀ i, 0 ≤ i < VertexCount mWaves →
      UploadBuffer.read vb' i = Some (wave_vertex fdiv mWaves i) ∧
      UploadBuffer.uploads vb' i = S (UploadBuffer.uploads currWavesVB i)).
Proof.
  intros fdiv mWaves currWavesVB.
  assert (UploadBuffer.capacity currWavesVB = VertexCount mWaves) as H1 by evaluate.
  split; [exact H1|].
  exact (wave_vertices_refresh_the_whole_dynamic_buffer fdiv mWaves currWavesVB H1).
Defined.

(** The same grid and a buffer of three elements. *)
Lemma wave_vertex_buffer_too_small_is_out_of_range_castle :
  let fdiv := milli_div in
  let mWaves := ripple in
  let currWavesVB := UploadBuffer.create 8192 32 3 false in
  (UploadBuffer.capacity currWavesVB < VertexCount mWaves) ∧
  (UpdateWaves fdiv mWaves currWavesVB = Fail OutOfRange).
Proof.
  intros fdiv mWaves currWavesVB.
  assert (UploadBuffer.capacity currWavesVB < VertexCount mWaves) as H1 by evaluate.
  split; [exact H1|].
  exact (wave_vertex_buffer_too_small_is_out_of_range fdiv mWaves currWavesVB H1).
Defined.
End WavesVBExamples.

(** Six colours on the fixed-point stand-in. *)
Definition palette : ShapeGeometry.Colors :=
  let o := flit 1 0 in let z := flit 0 0 in
  {| ShapeGeometry.Red := {| x4 := o; y4 := z; z4 := z; w4 := o |};
     ShapeGeometry.Green := {| x4 := z; y4 := flit 5 1; z4 := z; w4 := o |};
     ShapeGeometry.Yellow := {| x4 := o; y4 := o; z4 := z; w4 := o |};
     ShapeGeometry.Blue := {| x4 := z; y4 := z; z4 := o; w4 := o |};
     ShapeGeometry.DeepPink := {| x4 := o; y4 := flit 8 2; z4 := flit 58 2; w4 := o |};
     ShapeGeometry.Cyan := {| x4 := z; y4 := o; z4 := o; w4 := o |} |}.

Section ShapeGeometryExamples.
Import CastleGeometry ShapeGeometry.

(** The same eight shapes packed by ShapesApp. *)
Lemma shape_submeshes_select_their_own_indices_and_coloured_vertices_castle :
  let Colors := palette in
  let wholeWall := square in
  let grid := square in
  let column := triangle in
  let columnTop := triangle in
  let Base1 := square in
  let Base2 := triangle in
  let Base3 := triangle in
  let top := square in
  let shapes := [wholeWall; grid; column; columnTop; Base1; Base2; Base3; top] in
  let names := [ "wholeWall"; "ground"; "column"; "columnTop";
                 "Base1"; "Base2"; "Base3"; "top" ]%string in
  let colours := [ Red Colors; ground_colour; Green Colors; Yellow Colors;
                   Blue Colors; DeepPink Colors; Cyan Colors; Red Colors ] in
  (Z.of_nat (length (concat (Vertices <$> shapes))) < 2 ^ 32 ∧
   Z.of_nat (length (concat (Indices32 <$> shapes))) < 2 ^ 32 ∧
   Forall (λ shape, length (GetIndices16 shape) = length (Indices32 shape)) shapes) ∧
  (∃ geo,
    BuildShapeGeometry Colors wholeWall grid column columnTop Base1 Base2 Base3 top
    = Ok geo ∧
    ShapeGeometry.VertexBufferCPU geo
    = concat (zip_with (λ colour shape, painted colour <$> Vertices shape) colours shapes) ∧
    ∀ i name shape colour,
      names !! i = Some name → shapes !! i = Some shape → colours !! i = Some colour →
      ∃ sub, ShapeGeometry.DrawArgs geo !! name = Some sub ∧
        ShapeGeometry.drawn_indices geo sub = GetIndices16 shape ∧
        ∀ j v, Vertices shape !! j = Some v →
               ShapeGeometry.drawn_vertex geo sub (Z.of_nat j) = Some (painted colour v)).
Proof.
  intros Colors wholeWall grid column columnTop Base1 Base2 Base3 top shapes names colours.
  assert (Z.of_nat (length (concat (Vertices <$> shapes))) < 2 ^ 32) as H1
    by evaluate.
  assert (Z.of_nat (length (concat (Indices32 <$> shapes))) < 2 ^ 32) as H2
    by evaluate.
  assert (Forall (λ shape, length (GetIndices16 shape) = length (Indices32 shape)) shapes) as H3
    by (repeat constructor).
  split; [exact (conj H1 (conj H2 H3))|].
  exact (shape_submeshes_select_their_own_indices_and_coloured_vertices Colors
           wholeWall grid column columnTop Base1 Base2 Base3 top H1 H2 H3).
Defined.
End ShapeGeometryExamples.
